(** * Helper-thread task coordinator (js/src/vm/HelperThreads.cpp)

    A shallow embedding of [GlobalHelperThreadState]: the thread-count
    policy, the per-kind worklists, the admission predicates
    ([canStart...Task]), the priority-ordered selectors
    ([maybeGet...Task], [findHighestPriorityTask]), submission, the
    running-task registry maintained by [runTaskLocked], and the
    cancellation of off-thread Ion compilations.

    Conventions.
    - [size_t] values are integers in [Z]; arithmetic that can leave the
      range is wrapped modulo [2^64] where the source performs it.
    - A task value stands for the pointer to the task object: it carries the
      object's address, and the source's pointer comparisons are equality of
      these values.
    - [mozilla::Vector] and [mozilla::LinkedList] are lists whose head is the
      front; [append]/[insertBack]/[pushBack] add at the tail.
    - A failed [MOZ_RELEASE_ASSERT] ends the process; functions that can reach
      one return [option], with [None] for the abort.
    - Debug-only [MOZ_ASSERT]s are preconditions of the callers and appear as
      hypotheses of the theorems that need them. *)

From Stdlib Require Import ZArith List Bool Lia Arith.
Import ListNotations.
Local Open Scope Z_scope.

(** ** Machine integers *)

Definition SIZE_MODULUS : Z := 2 ^ 64.

Definition wrap (z : Z) : Z := z mod SIZE_MODULUS.

Definition size_sub (a b : Z) : Z := wrap (a - b).
Definition size_incr (a : Z) : Z := wrap (a + 1).
Definition size_decr (a : Z) : Z := wrap (a - 1).

Definition in_size_t (z : Z) : Prop := 0 <= z < SIZE_MODULUS.

(** ** Thread types and task objects *)

(** The [ThreadType] tags this file uses (js/public/Utility.h). *)
Inductive ThreadType : Type :=
| THREAD_TYPE_NONE
| THREAD_TYPE_WASM_COMPILE_TIER1
| THREAD_TYPE_WASM_COMPILE_TIER2
| THREAD_TYPE_ION
| THREAD_TYPE_PARSE
| THREAD_TYPE_COMPRESS
| THREAD_TYPE_GCPARALLEL
| THREAD_TYPE_PROMISE_TASK
| THREAD_TYPE_ION_FREE
| THREAD_TYPE_WASM_GENERATOR_TIER2
| THREAD_TYPE_DELAZIFY
| THREAD_TYPE_DELAZIFY_FREE.

Definition ThreadType_eq_dec (a b : ThreadType) : {a = b} + {a <> b}.
Proof. decide equality. Defined.

Definition ThreadType_eqb (a b : ThreadType) : bool :=
  if ThreadType_eq_dec a b then true else false.

Definition Address := nat.
Definition JSRuntime := Address.
Definition GCState := nat.

Record Zone : Type := mkZone {
  zone_addr : Address;
  zone_runtime : JSRuntime;
  zone_gcState : GCState
}.

Record JSScript : Type := mkScript {
  script_addr : Address;
  script_zone : Zone;
  script_length : Z;
  script_warmUpCount : Z
}.

Definition script_runtime (sc : JSScript) : JSRuntime :=
  zone_runtime (script_zone sc).

Record IonCompileTask : Type := mkIonCompileTask {
  ion_addr : Address;
  ion_script : JSScript;
  ion_isMainThreadRunningJS : bool
}.

Record IonFreeTask : Type := mkIonFreeTask {
  ionfree_addr : Address;
  ionfree_compileTask : IonCompileTask
}.

Inductive CompileMode : Type := Once | Tier1 | Tier2.

Record WasmCompileTask : Type := mkWasmCompileTask {
  wasm_addr : Address;
  wasm_mode : CompileMode
}.

Record Tier2GeneratorTask : Type := mkTier2GeneratorTask {
  tier2gen_addr : Address
}.

Record PromiseHelperTask : Type := mkPromiseHelperTask {
  promise_addr : Address
}.

Record ParseTask : Type := mkParseTask {
  parse_addr : Address;
  parse_runtime : JSRuntime
}.

Record DelazifyTask : Type := mkDelazifyTask {
  delazify_addr : Address;
  delazify_maybeRuntime : option JSRuntime
}.

Record FreeDelazifyTask : Type := mkFreeDelazifyTask {
  freedelazify_addr : Address;
  freedelazify_task : DelazifyTask
}.

Record SourceCompressionTask : Type := mkSourceCompressionTask {
  compress_addr : Address;
  compress_runtime : JSRuntime
}.

Record GCParallelTask : Type := mkGCParallelTask {
  gcparallel_addr : Address
}.

(** A [HelperThreadTask*]: one constructor per dynamic type, as tested by
    [is<T>()] and converted by [as<T>()]. *)
Inductive HelperThreadTask : Type :=
| TaskGCParallel (t : GCParallelTask)
| TaskIonCompile (t : IonCompileTask)
| TaskWasmCompile (t : WasmCompileTask)
| TaskPromiseHelper (t : PromiseHelperTask)
| TaskParse (t : ParseTask)
| TaskFreeDelazify (t : FreeDelazifyTask)
| TaskDelazify (t : DelazifyTask)
| TaskCompression (t : SourceCompressionTask)
| TaskIonFree (t : IonFreeTask)
| TaskTier2Generator (t : Tier2GeneratorTask).

(** [HelperThreadTask::threadType()] of each task class. *)
Definition threadType (task : HelperThreadTask) : ThreadType :=
  match task with
  | TaskGCParallel _ => THREAD_TYPE_GCPARALLEL
  | TaskIonCompile _ => THREAD_TYPE_ION
  | TaskWasmCompile t =>
      match wasm_mode t with
      | Once | Tier1 => THREAD_TYPE_WASM_COMPILE_TIER1
      | Tier2 => THREAD_TYPE_WASM_COMPILE_TIER2
      end
  | TaskPromiseHelper _ => THREAD_TYPE_PROMISE_TASK
  | TaskParse _ => THREAD_TYPE_PARSE
  | TaskFreeDelazify _ => THREAD_TYPE_DELAZIFY_FREE
  | TaskDelazify _ => THREAD_TYPE_DELAZIFY
  | TaskCompression _ => THREAD_TYPE_COMPRESS
  | TaskIonFree _ => THREAD_TYPE_ION_FREE
  | TaskTier2Generator _ => THREAD_TYPE_WASM_GENERATOR_TIER2
  end.

Definition Zone_eq_dec (a b : Zone) : {a = b} + {a <> b}.
Proof. repeat decide equality. Defined.

Definition JSScript_eq_dec (a b : JSScript) : {a = b} + {a <> b}.
Proof. repeat decide equality. Defined.

Definition IonCompileTask_eq_dec (a b : IonCompileTask) : {a = b} + {a <> b}.
Proof. repeat decide equality. Defined.

Definition HelperThreadTask_eq_dec (a b : HelperThreadTask) :
  {a = b} + {a <> b}.
Proof. repeat decide equality. Defined.

Definition Zone_eqb (a b : Zone) : bool :=
  if Zone_eq_dec a b then true else false.
Definition JSScript_eqb (a b : JSScript) : bool :=
  if JSScript_eq_dec a b then true else false.
Definition HelperThreadTask_eqb (a b : HelperThreadTask) : bool :=
  if HelperThreadTask_eq_dec a b then true else false.

(** ** The coordinator state *)

(** The members of [GlobalHelperThreadState] that scheduling reads or writes,
    under their names in the source.  Four fields stand for state that lives
    next to the coordinator: [dispatchTaskCallback] records whether a
    callback is installed; [oomSimulatorTarget] is
    [js::oom::simulator.targetThread()]; [ionLazyLinkList_] and
    [numFinishedOffThreadTasks_] are the lazy-link list and the counter of
    finished tasks kept in each runtime's [JitRuntime]; [mirGenCancelled_]
    lists the running compilations whose [mirGen().cancel()] was called.
    Toggling a compile task's arena between read-only and read-write is
    memory protection and has no counterpart here. *)
Record GlobalHelperThreadState : Type := mkState {
  cpuCount : Z;
  threadCount : Z;
  gcParallelThreadCount : Z;
  totalCountRunningTasks : Z;
  runningTaskCount : ThreadType -> Z;
  tasksPending_ : Z;
  dispatchTaskCallback : bool;
  isInitialized_ : bool;
  oomSimulatorTarget : ThreadType;
  ionWorklist_ : list IonCompileTask;
  ionFinishedList_ : list IonCompileTask;
  ionFreeList_ : list IonFreeTask;
  wasmWorklist_tier1_ : list WasmCompileTask;
  wasmWorklist_tier2_ : list WasmCompileTask;
  wasmTier2GeneratorWorklist_ : list Tier2GeneratorTask;
  promiseHelperTasks_ : list PromiseHelperTask;
  parseWorklist_ : list ParseTask;
  freeDelazifyTaskVector_ : list FreeDelazifyTask;
  delazifyWorklist_ : list DelazifyTask;
  compressionWorklist_ : list SourceCompressionTask;
  gcParallelWorklist_ : list GCParallelTask;
  helperTasks_ : list HelperThreadTask;
  ionLazyLinkList_ : JSRuntime -> list IonCompileTask;
  numFinishedOffThreadTasks_ : JSRuntime -> Z;
  mirGenCancelled_ : list IonCompileTask
}.

Definition set_threadCount (v : Z) (s : GlobalHelperThreadState) : GlobalHelperThreadState :=
  mkState (cpuCount s) v (gcParallelThreadCount s) (totalCountRunningTasks s)
    (runningTaskCount s) (tasksPending_ s) (dispatchTaskCallback s)
    (isInitialized_ s) (oomSimulatorTarget s) (ionWorklist_ s)
    (ionFinishedList_ s) (ionFreeList_ s) (wasmWorklist_tier1_ s)
    (wasmWorklist_tier2_ s) (wasmTier2GeneratorWorklist_ s)
    (promiseHelperTasks_ s) (parseWorklist_ s) (freeDelazifyTaskVector_ s)
    (delazifyWorklist_ s) (compressionWorklist_ s) (gcParallelWorklist_ s)
    (helperTasks_ s) (ionLazyLinkList_ s) (numFinishedOffThreadTasks_ s)
    (mirGenCancelled_ s).

Definition set_totalCountRunningTasks (v : Z) (s : GlobalHelperThreadState) : GlobalHelperThreadState :=
  mkState (cpuCount s) (threadCount s) (gcParallelThreadCount s) v
    (runningTaskCount s) (tasksPending_ s) (dispatchTaskCallback s)
    (isInitialized_ s) (oomSimulatorTarget s) (ionWorklist_ s)
    (ionFinishedList_ s) (ionFreeList_ s) (wasmWorklist_tier1_ s)
    (wasmWorklist_tier2_ s) (wasmTier2GeneratorWorklist_ s)
    (promiseHelperTasks_ s) (parseWorklist_ s) (freeDelazifyTaskVector_ s)
    (delazifyWorklist_ s) (compressionWorklist_ s) (gcParallelWorklist_ s)
    (helperTasks_ s) (ionLazyLinkList_ s) (numFinishedOffThreadTasks_ s)
    (mirGenCancelled_ s).

Definition set_runningTaskCount (v : ThreadType -> Z) (s : GlobalHelperThreadState) : GlobalHelperThreadState :=
  mkState (cpuCount s) (threadCount s) (gcParallelThreadCount s)
    (totalCountRunningTasks s) v (tasksPending_ s) (dispatchTaskCallback s)
    (isInitialized_ s) (oomSimulatorTarget s) (ionWorklist_ s)
    (ionFinishedList_ s) (ionFreeList_ s) (wasmWorklist_tier1_ s)
    (wasmWorklist_tier2_ s) (wasmTier2GeneratorWorklist_ s)
    (promiseHelperTasks_ s) (parseWorklist_ s) (freeDelazifyTaskVector_ s)
    (delazifyWorklist_ s) (compressionWorklist_ s) (gcParallelWorklist_ s)
    (helperTasks_ s) (ionLazyLinkList_ s) (numFinishedOffThreadTasks_ s)
    (mirGenCancelled_ s).

Definition set_tasksPending (v : Z) (s : GlobalHelperThreadState) : GlobalHelperThreadState :=
  mkState (cpuCount s) (threadCount s) (gcParallelThreadCount s)
    (totalCountRunningTasks s) (runningTaskCount s) v (dispatchTaskCallback s)
    (isInitialized_ s) (oomSimulatorTarget s) (ionWorklist_ s)
    (ionFinishedList_ s) (ionFreeList_ s) (wasmWorklist_tier1_ s)
    (wasmWorklist_tier2_ s) (wasmTier2GeneratorWorklist_ s)
    (promiseHelperTasks_ s) (parseWorklist_ s) (freeDelazifyTaskVector_ s)
    (delazifyWorklist_ s) (compressionWorklist_ s) (gcParallelWorklist_ s)
    (helperTasks_ s) (ionLazyLinkList_ s) (numFinishedOffThreadTasks_ s)
    (mirGenCancelled_ s).

Definition set_dispatchTaskCallback (v : bool) (s : GlobalHelperThreadState) : GlobalHelperThreadState :=
  mkState (cpuCount s) (threadCount s) (gcParallelThreadCount s)
    (totalCountRunningTasks s) (runningTaskCount s) (tasksPending_ s) v
    (isInitialized_ s) (oomSimulatorTarget s) (ionWorklist_ s)
    (ionFinishedList_ s) (ionFreeList_ s) (wasmWorklist_tier1_ s)
    (wasmWorklist_tier2_ s) (wasmTier2GeneratorWorklist_ s)
    (promiseHelperTasks_ s) (parseWorklist_ s) (freeDelazifyTaskVector_ s)
    (delazifyWorklist_ s) (compressionWorklist_ s) (gcParallelWorklist_ s)
    (helperTasks_ s) (ionLazyLinkList_ s) (numFinishedOffThreadTasks_ s)
    (mirGenCancelled_ s).

Definition set_isInitialized (v : bool) (s : GlobalHelperThreadState) : GlobalHelperThreadState :=
  mkState (cpuCount s) (threadCount s) (gcParallelThreadCount s)
    (totalCountRunningTasks s) (runningTaskCount s) (tasksPending_ s)
    (dispatchTaskCallback s) v (oomSimulatorTarget s) (ionWorklist_ s)
    (ionFinishedList_ s) (ionFreeList_ s) (wasmWorklist_tier1_ s)
    (wasmWorklist_tier2_ s) (wasmTier2GeneratorWorklist_ s)
    (promiseHelperTasks_ s) (parseWorklist_ s) (freeDelazifyTaskVector_ s)
    (delazifyWorklist_ s) (compressionWorklist_ s) (gcParallelWorklist_ s)
    (helperTasks_ s) (ionLazyLinkList_ s) (numFinishedOffThreadTasks_ s)
    (mirGenCancelled_ s).

Definition set_ionWorklist (v : list IonCompileTask) (s : GlobalHelperThreadState) : GlobalHelperThreadState :=
  mkState (cpuCount s) (threadCount s) (gcParallelThreadCount s)
    (totalCountRunningTasks s) (runningTaskCount s) (tasksPending_ s)
    (dispatchTaskCallback s) (isInitialized_ s) (oomSimulatorTarget s) v
    (ionFinishedList_ s) (ionFreeList_ s) (wasmWorklist_tier1_ s)
    (wasmWorklist_tier2_ s) (wasmTier2GeneratorWorklist_ s)
    (promiseHelperTasks_ s) (parseWorklist_ s) (freeDelazifyTaskVector_ s)
    (delazifyWorklist_ s) (compressionWorklist_ s) (gcParallelWorklist_ s)
    (helperTasks_ s) (ionLazyLinkList_ s) (numFinishedOffThreadTasks_ s)
    (mirGenCancelled_ s).

Definition set_ionFinishedList (v : list IonCompileTask) (s : GlobalHelperThreadState) : GlobalHelperThreadState :=
  mkState (cpuCount s) (threadCount s) (gcParallelThreadCount s)
    (totalCountRunningTasks s) (runningTaskCount s) (tasksPending_ s)
    (dispatchTaskCallback s) (isInitialized_ s) (oomSimulatorTarget s)
    (ionWorklist_ s) v (ionFreeList_ s) (wasmWorklist_tier1_ s)
    (wasmWorklist_tier2_ s) (wasmTier2GeneratorWorklist_ s)
    (promiseHelperTasks_ s) (parseWorklist_ s) (freeDelazifyTaskVector_ s)
    (delazifyWorklist_ s) (compressionWorklist_ s) (gcParallelWorklist_ s)
    (helperTasks_ s) (ionLazyLinkList_ s) (numFinishedOffThreadTasks_ s)
    (mirGenCancelled_ s).

Definition set_ionFreeList (v : list IonFreeTask) (s : GlobalHelperThreadState) : GlobalHelperThreadState :=
  mkState (cpuCount s) (threadCount s) (gcParallelThreadCount s)
    (totalCountRunningTasks s) (runningTaskCount s) (tasksPending_ s)
    (dispatchTaskCallback s) (isInitialized_ s) (oomSimulatorTarget s)
    (ionWorklist_ s) (ionFinishedList_ s) v (wasmWorklist_tier1_ s)
    (wasmWorklist_tier2_ s) (wasmTier2GeneratorWorklist_ s)
    (promiseHelperTasks_ s) (parseWorklist_ s) (freeDelazifyTaskVector_ s)
    (delazifyWorklist_ s) (compressionWorklist_ s) (gcParallelWorklist_ s)
    (helperTasks_ s) (ionLazyLinkList_ s) (numFinishedOffThreadTasks_ s)
    (mirGenCancelled_ s).

Definition set_wasmWorklist_tier1 (v : list WasmCompileTask) (s : GlobalHelperThreadState) : GlobalHelperThreadState :=
  mkState (cpuCount s) (threadCount s) (gcParallelThreadCount s)
    (totalCountRunningTasks s) (runningTaskCount s) (tasksPending_ s)
    (dispatchTaskCallback s) (isInitialized_ s) (oomSimulatorTarget s)
    (ionWorklist_ s) (ionFinishedList_ s) (ionFreeList_ s) v
    (wasmWorklist_tier2_ s) (wasmTier2GeneratorWorklist_ s)
    (promiseHelperTasks_ s) (parseWorklist_ s) (freeDelazifyTaskVector_ s)
    (delazifyWorklist_ s) (compressionWorklist_ s) (gcParallelWorklist_ s)
    (helperTasks_ s) (ionLazyLinkList_ s) (numFinishedOffThreadTasks_ s)
    (mirGenCancelled_ s).

Definition set_wasmWorklist_tier2 (v : list WasmCompileTask) (s : GlobalHelperThreadState) : GlobalHelperThreadState :=
  mkState (cpuCount s) (threadCount s) (gcParallelThreadCount s)
    (totalCountRunningTasks s) (runningTaskCount s) (tasksPending_ s)
    (dispatchTaskCallback s) (isInitialized_ s) (oomSimulatorTarget s)
    (ionWorklist_ s) (ionFinishedList_ s) (ionFreeList_ s)
    (wasmWorklist_tier1_ s) v (wasmTier2GeneratorWorklist_ s)
    (promiseHelperTasks_ s) (parseWorklist_ s) (freeDelazifyTaskVector_ s)
    (delazifyWorklist_ s) (compressionWorklist_ s) (gcParallelWorklist_ s)
    (helperTasks_ s) (ionLazyLinkList_ s) (numFinishedOffThreadTasks_ s)
    (mirGenCancelled_ s).

Definition set_wasmTier2GeneratorWorklist (v : list Tier2GeneratorTask) (s : GlobalHelperThreadState) : GlobalHelperThreadState :=
  mkState (cpuCount s) (threadCount s) (gcParallelThreadCount s)
    (totalCountRunningTasks s) (runningTaskCount s) (tasksPending_ s)
    (dispatchTaskCallback s) (isInitialized_ s) (oomSimulatorTarget s)
    (ionWorklist_ s) (ionFinishedList_ s) (ionFreeList_ s)
    (wasmWorklist_tier1_ s) (wasmWorklist_tier2_ s) v (promiseHelperTasks_ s)
    (parseWorklist_ s) (freeDelazifyTaskVector_ s) (delazifyWorklist_ s)
    (compressionWorklist_ s) (gcParallelWorklist_ s) (helperTasks_ s)
    (ionLazyLinkList_ s) (numFinishedOffThreadTasks_ s) (mirGenCancelled_ s).

Definition set_promiseHelperTasks (v : list PromiseHelperTask) (s : GlobalHelperThreadState) : GlobalHelperThreadState :=
  mkState (cpuCount s) (threadCount s) (gcParallelThreadCount s)
    (totalCountRunningTasks s) (runningTaskCount s) (tasksPending_ s)
    (dispatchTaskCallback s) (isInitialized_ s) (oomSimulatorTarget s)
    (ionWorklist_ s) (ionFinishedList_ s) (ionFreeList_ s)
    (wasmWorklist_tier1_ s) (wasmWorklist_tier2_ s)
    (wasmTier2GeneratorWorklist_ s) v (parseWorklist_ s)
    (freeDelazifyTaskVector_ s) (delazifyWorklist_ s) (compressionWorklist_ s)
    (gcParallelWorklist_ s) (helperTasks_ s) (ionLazyLinkList_ s)
    (numFinishedOffThreadTasks_ s) (mirGenCancelled_ s).

Definition set_parseWorklist (v : list ParseTask) (s : GlobalHelperThreadState) : GlobalHelperThreadState :=
  mkState (cpuCount s) (threadCount s) (gcParallelThreadCount s)
    (totalCountRunningTasks s) (runningTaskCount s) (tasksPending_ s)
    (dispatchTaskCallback s) (isInitialized_ s) (oomSimulatorTarget s)
    (ionWorklist_ s) (ionFinishedList_ s) (ionFreeList_ s)
    (wasmWorklist_tier1_ s) (wasmWorklist_tier2_ s)
    (wasmTier2GeneratorWorklist_ s) (promiseHelperTasks_ s) v
    (freeDelazifyTaskVector_ s) (delazifyWorklist_ s) (compressionWorklist_ s)
    (gcParallelWorklist_ s) (helperTasks_ s) (ionLazyLinkList_ s)
    (numFinishedOffThreadTasks_ s) (mirGenCancelled_ s).

Definition set_freeDelazifyTaskVector (v : list FreeDelazifyTask) (s : GlobalHelperThreadState) : GlobalHelperThreadState :=
  mkState (cpuCount s) (threadCount s) (gcParallelThreadCount s)
    (totalCountRunningTasks s) (runningTaskCount s) (tasksPending_ s)
    (dispatchTaskCallback s) (isInitialized_ s) (oomSimulatorTarget s)
    (ionWorklist_ s) (ionFinishedList_ s) (ionFreeList_ s)
    (wasmWorklist_tier1_ s) (wasmWorklist_tier2_ s)
    (wasmTier2GeneratorWorklist_ s) (promiseHelperTasks_ s) (parseWorklist_ s)
    v (delazifyWorklist_ s) (compressionWorklist_ s) (gcParallelWorklist_ s)
    (helperTasks_ s) (ionLazyLinkList_ s) (numFinishedOffThreadTasks_ s)
    (mirGenCancelled_ s).

Definition set_delazifyWorklist (v : list DelazifyTask) (s : GlobalHelperThreadState) : GlobalHelperThreadState :=
  mkState (cpuCount s) (threadCount s) (gcParallelThreadCount s)
    (totalCountRunningTasks s) (runningTaskCount s) (tasksPending_ s)
    (dispatchTaskCallback s) (isInitialized_ s) (oomSimulatorTarget s)
    (ionWorklist_ s) (ionFinishedList_ s) (ionFreeList_ s)
    (wasmWorklist_tier1_ s) (wasmWorklist_tier2_ s)
    (wasmTier2GeneratorWorklist_ s) (promiseHelperTasks_ s) (parseWorklist_ s)
    (freeDelazifyTaskVector_ s) v (compressionWorklist_ s)
    (gcParallelWorklist_ s) (helperTasks_ s) (ionLazyLinkList_ s)
    (numFinishedOffThreadTasks_ s) (mirGenCancelled_ s).

Definition set_compressionWorklist (v : list SourceCompressionTask) (s : GlobalHelperThreadState) : GlobalHelperThreadState :=
  mkState (cpuCount s) (threadCount s) (gcParallelThreadCount s)
    (totalCountRunningTasks s) (runningTaskCount s) (tasksPending_ s)
    (dispatchTaskCallback s) (isInitialized_ s) (oomSimulatorTarget s)
    (ionWorklist_ s) (ionFinishedList_ s) (ionFreeList_ s)
    (wasmWorklist_tier1_ s) (wasmWorklist_tier2_ s)
    (wasmTier2GeneratorWorklist_ s) (promiseHelperTasks_ s) (parseWorklist_ s)
    (freeDelazifyTaskVector_ s) (delazifyWorklist_ s) v (gcParallelWorklist_
    s) (helperTasks_ s) (ionLazyLinkList_ s) (numFinishedOffThreadTasks_ s)
    (mirGenCancelled_ s).

Definition set_gcParallelWorklist (v : list GCParallelTask) (s : GlobalHelperThreadState) : GlobalHelperThreadState :=
  mkState (cpuCount s) (threadCount s) (gcParallelThreadCount s)
    (totalCountRunningTasks s) (runningTaskCount s) (tasksPending_ s)
    (dispatchTaskCallback s) (isInitialized_ s) (oomSimulatorTarget s)
    (ionWorklist_ s) (ionFinishedList_ s) (ionFreeList_ s)
    (wasmWorklist_tier1_ s) (wasmWorklist_tier2_ s)
    (wasmTier2GeneratorWorklist_ s) (promiseHelperTasks_ s) (parseWorklist_ s)
    (freeDelazifyTaskVector_ s) (delazifyWorklist_ s) (compressionWorklist_ s)
    v (helperTasks_ s) (ionLazyLinkList_ s) (numFinishedOffThreadTasks_ s)
    (mirGenCancelled_ s).

Definition set_helperTasks (v : list HelperThreadTask) (s : GlobalHelperThreadState) : GlobalHelperThreadState :=
  mkState (cpuCount s) (threadCount s) (gcParallelThreadCount s)
    (totalCountRunningTasks s) (runningTaskCount s) (tasksPending_ s)
    (dispatchTaskCallback s) (isInitialized_ s) (oomSimulatorTarget s)
    (ionWorklist_ s) (ionFinishedList_ s) (ionFreeList_ s)
    (wasmWorklist_tier1_ s) (wasmWorklist_tier2_ s)
    (wasmTier2GeneratorWorklist_ s) (promiseHelperTasks_ s) (parseWorklist_ s)
    (freeDelazifyTaskVector_ s) (delazifyWorklist_ s) (compressionWorklist_ s)
    (gcParallelWorklist_ s) v (ionLazyLinkList_ s) (numFinishedOffThreadTasks_
    s) (mirGenCancelled_ s).

Definition set_ionLazyLinkList (v : JSRuntime -> list IonCompileTask) (s : GlobalHelperThreadState) : GlobalHelperThreadState :=
  mkState (cpuCount s) (threadCount s) (gcParallelThreadCount s)
    (totalCountRunningTasks s) (runningTaskCount s) (tasksPending_ s)
    (dispatchTaskCallback s) (isInitialized_ s) (oomSimulatorTarget s)
    (ionWorklist_ s) (ionFinishedList_ s) (ionFreeList_ s)
    (wasmWorklist_tier1_ s) (wasmWorklist_tier2_ s)
    (wasmTier2GeneratorWorklist_ s) (promiseHelperTasks_ s) (parseWorklist_ s)
    (freeDelazifyTaskVector_ s) (delazifyWorklist_ s) (compressionWorklist_ s)
    (gcParallelWorklist_ s) (helperTasks_ s) v (numFinishedOffThreadTasks_ s)
    (mirGenCancelled_ s).

Definition set_numFinishedOffThreadTasks (v : JSRuntime -> Z) (s : GlobalHelperThreadState) : GlobalHelperThreadState :=
  mkState (cpuCount s) (threadCount s) (gcParallelThreadCount s)
    (totalCountRunningTasks s) (runningTaskCount s) (tasksPending_ s)
    (dispatchTaskCallback s) (isInitialized_ s) (oomSimulatorTarget s)
    (ionWorklist_ s) (ionFinishedList_ s) (ionFreeList_ s)
    (wasmWorklist_tier1_ s) (wasmWorklist_tier2_ s)
    (wasmTier2GeneratorWorklist_ s) (promiseHelperTasks_ s) (parseWorklist_ s)
    (freeDelazifyTaskVector_ s) (delazifyWorklist_ s) (compressionWorklist_ s)
    (gcParallelWorklist_ s) (helperTasks_ s) (ionLazyLinkList_ s) v
    (mirGenCancelled_ s).

Definition set_mirGenCancelled (v : list IonCompileTask) (s : GlobalHelperThreadState) : GlobalHelperThreadState :=
  mkState (cpuCount s) (threadCount s) (gcParallelThreadCount s)
    (totalCountRunningTasks s) (runningTaskCount s) (tasksPending_ s)
    (dispatchTaskCallback s) (isInitialized_ s) (oomSimulatorTarget s)
    (ionWorklist_ s) (ionFinishedList_ s) (ionFreeList_ s)
    (wasmWorklist_tier1_ s) (wasmWorklist_tier2_ s)
    (wasmTier2GeneratorWorklist_ s) (promiseHelperTasks_ s) (parseWorklist_ s)
    (freeDelazifyTaskVector_ s) (delazifyWorklist_ s) (compressionWorklist_ s)
    (gcParallelWorklist_ s) (helperTasks_ s) (ionLazyLinkList_ s)
    (numFinishedOffThreadTasks_ s) v.

Definition set_cpuCount (v : Z) (s : GlobalHelperThreadState) : GlobalHelperThreadState :=
  mkState v (threadCount s) (gcParallelThreadCount s) (totalCountRunningTasks
    s) (runningTaskCount s) (tasksPending_ s) (dispatchTaskCallback s)
    (isInitialized_ s) (oomSimulatorTarget s) (ionWorklist_ s)
    (ionFinishedList_ s) (ionFreeList_ s) (wasmWorklist_tier1_ s)
    (wasmWorklist_tier2_ s) (wasmTier2GeneratorWorklist_ s)
    (promiseHelperTasks_ s) (parseWorklist_ s) (freeDelazifyTaskVector_ s)
    (delazifyWorklist_ s) (compressionWorklist_ s) (gcParallelWorklist_ s)
    (helperTasks_ s) (ionLazyLinkList_ s) (numFinishedOffThreadTasks_ s)
    (mirGenCancelled_ s).

Definition State : Type := GlobalHelperThreadState.

(** [runningTaskCount[threadType] = v]. *)
Definition update_count (counts : ThreadType -> Z) (ty : ThreadType) (v : Z)
  : ThreadType -> Z :=
  fun ty' => if ThreadType_eq_dec ty' ty then v else counts ty'.

(** ** Thread-count policy *)

Definition ClampDefaultCPUCount (cpuCount : Z) : Z := Z.min cpuCount 8.

Definition ThreadCountForCPUCount (cpuCount : Z) : Z := Z.max cpuCount 2.

(** The constructor, given the value [GetCPUCount()] probes.  Every container
    starts empty and no dispatch callback is installed. *)
Definition GlobalHelperThreadState_new (probed : Z) : State :=
  let cpuCount := ClampDefaultCPUCount probed in
  let threadCount := ThreadCountForCPUCount cpuCount in
  mkState cpuCount threadCount threadCount 0 (fun _ => 0) 0 false false
    THREAD_TYPE_NONE [] [] [] [] [] [] [] [] [] [] [] [] []
    (fun _ => []) (fun _ => 0) [].

Definition setCpuCount (count : Z) (s : State) : State :=
  set_threadCount (ThreadCountForCPUCount count) (set_cpuCount count s).

(** [setDispatchTaskCallback(callback, threadCount, stackSize, lock)]; the
    stack quota it also records plays no part in scheduling. *)
Definition setDispatchTaskCallback (count : Z) (s : State) : State :=
  set_threadCount count (set_dispatchTaskCallback true s).

(** The state a successful [ensureInitialized()] leaves: the per-type running
    counts are zeroed and the state is marked initialized. *)
Definition ensureInitialized_done (s : State) : State :=
  set_isInitialized true (set_runningTaskCount (fun _ => 0) s).

(** ** Admission policy *)

Definition checkTaskThreadLimit (s : State) (ty : ThreadType)
    (maxThreads : Z) (isMaster : bool) : bool :=
  if negb isMaster && (threadCount s <=? maxThreads) then true
  else
    let count := runningTaskCount s ty in
    if maxThreads <=? count then false
    else
      let idle := size_sub (threadCount s) (totalCountRunningTasks s) in
      if idle =? 0 then false
      else if isMaster && (idle =? 1) then false
      else true.

(** [js::oom::simulator.targetThread() == threadType]; the target is
    [THREAD_TYPE_NONE] in builds without the simulator. *)
Definition IsHelperThreadSimulatingOOM (s : State) (ty : ThreadType) : bool :=
  ThreadType_eqb (oomSimulatorTarget s) ty.

Definition maxIonCompilationThreads (s : State) : Z :=
  if IsHelperThreadSimulatingOOM s THREAD_TYPE_ION then 1 else threadCount s.

Definition maxWasmCompilationThreads (s : State) : Z :=
  if IsHelperThreadSimulatingOOM s THREAD_TYPE_WASM_COMPILE_TIER1
     || IsHelperThreadSimulatingOOM s THREAD_TYPE_WASM_COMPILE_TIER2
  then 1 else Z.min (cpuCount s) (threadCount s).

Definition MaxTier2GeneratorTasks : Z := 1.

Definition maxWasmTier2GeneratorThreads (s : State) : Z :=
  MaxTier2GeneratorTasks.

Definition maxPromiseHelperThreads (s : State) : Z :=
  if IsHelperThreadSimulatingOOM s THREAD_TYPE_WASM_COMPILE_TIER1
     || IsHelperThreadSimulatingOOM s THREAD_TYPE_WASM_COMPILE_TIER2
  then 1 else Z.min (cpuCount s) (threadCount s).

Definition maxParseThreads (s : State) : Z :=
  if IsHelperThreadSimulatingOOM s THREAD_TYPE_PARSE then 1
  else Z.min (cpuCount s) (threadCount s).

Definition maxCompressionThreads (s : State) : Z :=
  if IsHelperThreadSimulatingOOM s THREAD_TYPE_COMPRESS then 1 else 1.

Definition maxGCParallelThreads (s : State) : Z :=
  if IsHelperThreadSimulatingOOM s THREAD_TYPE_GCPARALLEL then 1
  else gcParallelThreadCount s.

Definition empty {A : Type} (l : list A) : bool :=
  match l with [] => true | _ :: _ => false end.

Definition length_z {A : Type} (l : list A) : Z := Z.of_nat (length l).

(** [wasmWorklist(lock, mode)]: [Once] and [Tier1] share the tier-1 list. *)
Definition wasmWorklist (s : State) (mode : CompileMode)
  : list WasmCompileTask :=
  match mode with
  | Once | Tier1 => wasmWorklist_tier1_ s
  | Tier2 => wasmWorklist_tier2_ s
  end.

Definition set_wasmWorklist (mode : CompileMode) (l : list WasmCompileTask)
    (s : State) : State :=
  match mode with
  | Once | Tier1 => set_wasmWorklist_tier1 l s
  | Tier2 => set_wasmWorklist_tier2 l s
  end.

Definition CompileMode_is_Tier2 (mode : CompileMode) : bool :=
  match mode with Tier2 => true | _ => false end.

(** The rounding of IEEE 754 arithmetic, on a non-negative rational
    [num / den]: the nearest integer, and the even one of the two on a
    tie. *)
Definition roundNearestEven (num den : Z) : Z :=
  let q := num / den in
  let r := num mod den in
  if 2 * r <? den then q
  else if den <? 2 * r then q + 1
  else if Z.even q then q else q + 1.

(** The conversion of a [size_t] to [double]: the nearest value with 53
    significant bits.  A count with leading bit [2^(52 + e)], [e > 0], is
    rounded to a multiple of [2^e]; the result is again an integer. *)
Definition double_of_size_t (n : Z) : Z :=
  let e := Z.log2 n - 52 in
  if e <=? 0 then n else roundNearestEven n (2 ^ e) * 2 ^ e.

(** [ceil(d / 3.0)] for a [double] [d] whose value is a non-negative integer.
    The quotient is rounded to 53 significant bits: with [2^E] its leading
    bit, to a multiple of [2^(E - 52)].  [ceil] of a [double] is exact. *)
Definition ceil_third (d : Z) : Z :=
  if d =? 0 then 0
  else
    let E := if d =? 1 then -2 else if d =? 2 then -1 else Z.log2 (d / 3) in
    let s := E - 52 in
    if 0 <=? s then roundNearestEven d (3 * 2 ^ s) * 2 ^ s
    else - ((- roundNearestEven (d * 2 ^ (- s)) 3) / 2 ^ (- s)).

(** [size_t(ceil(cpuCount / 3.0))]: the count is converted to [double], the
    division and [ceil] are done in double precision, and the result, which
    is below [2^63], is converted back. *)
Definition physCoresAvailable (s : State) : Z :=
  ceil_third (double_of_size_t (cpuCount s)).

(** [None] is the failure of [MOZ_RELEASE_ASSERT(cpuCount > 1)]. *)
Definition canStartWasmCompile (s : State) (mode : CompileMode)
  : option bool :=
  if empty (wasmWorklist s mode) then Some false
  else if negb (1 <? cpuCount s) then None
  else
    let tier2oversubscribed :=
      20 <? length_z (wasmTier2GeneratorWorklist_ s) in
    let '(threads, ty) :=
      if CompileMode_is_Tier2 mode then
        (if tier2oversubscribed then maxWasmCompilationThreads s
         else physCoresAvailable s,
         THREAD_TYPE_WASM_COMPILE_TIER2)
      else
        (if tier2oversubscribed then 0 else maxWasmCompilationThreads s,
         THREAD_TYPE_WASM_COMPILE_TIER1) in
    Some (negb (threads =? 0) && checkTaskThreadLimit s ty threads false).

Definition canStartWasmTier1CompileTask (s : State) : option bool :=
  canStartWasmCompile s Tier1.

Definition canStartWasmTier2CompileTask (s : State) : option bool :=
  canStartWasmCompile s Tier2.

Definition canStartWasmTier2GeneratorTask (s : State) : bool :=
  negb (empty (wasmTier2GeneratorWorklist_ s))
  && checkTaskThreadLimit s THREAD_TYPE_WASM_GENERATOR_TIER2
       (maxWasmTier2GeneratorThreads s) true.

Definition canStartPromiseHelperTask (s : State) : bool :=
  negb (empty (promiseHelperTasks_ s))
  && checkTaskThreadLimit s THREAD_TYPE_PROMISE_TASK
       (maxPromiseHelperThreads s) true.

Definition canStartIonCompileTask (s : State) : bool :=
  negb (empty (ionWorklist_ s))
  && checkTaskThreadLimit s THREAD_TYPE_ION (maxIonCompilationThreads s) false.

Definition canStartIonFreeTask (s : State) : bool :=
  negb (empty (ionFreeList_ s)).

Definition canStartParseTask (s : State) : bool :=
  negb (empty (parseWorklist_ s))
  && checkTaskThreadLimit s THREAD_TYPE_PARSE (maxParseThreads s) true.

Definition canStartFreeDelazifyTask (s : State) : bool :=
  negb (empty (freeDelazifyTaskVector_ s))
  && checkTaskThreadLimit s THREAD_TYPE_DELAZIFY_FREE (maxParseThreads s) true.

Definition canStartDelazifyTask (s : State) : bool :=
  negb (empty (delazifyWorklist_ s))
  && checkTaskThreadLimit s THREAD_TYPE_DELAZIFY (maxParseThreads s) true.

Definition canStartCompressionTask (s : State) : bool :=
  negb (empty (compressionWorklist_ s))
  && checkTaskThreadLimit s THREAD_TYPE_COMPRESS (maxCompressionThreads s)
       false.

Definition canStartGCParallelTask (s : State) : bool :=
  negb (empty (gcParallelWorklist_ s))
  && checkTaskThreadLimit s THREAD_TYPE_GCPARALLEL (maxGCParallelThreads s)
       false.

(** Short-circuit [||] over operands that may abort. *)
Definition or_else (a b : option bool) : option bool :=
  match a with
  | None => None
  | Some true => Some true
  | Some false => b
  end.

Definition canStartTasks (s : State) : option bool :=
  or_else (Some (canStartGCParallelTask s))
  (or_else (Some (canStartIonCompileTask s))
  (or_else (canStartWasmTier1CompileTask s)
  (or_else (Some (canStartPromiseHelperTask s))
  (or_else (Some (canStartParseTask s))
  (or_else (Some (canStartFreeDelazifyTask s))
  (or_else (Some (canStartDelazifyTask s))
  (or_else (Some (canStartCompressionTask s))
  (or_else (Some (canStartIonFreeTask s))
  (or_else (canStartWasmTier2CompileTask s)
           (Some (canStartWasmTier2GeneratorTask s))))))))))).

(** [dispatch(reason, lock)]: the callback hands a unit of work to the
    execution substrate and leaves the coordinator's fields alone. *)
Definition dispatch (s : State) : option State :=
  match canStartTasks s with
  | None => None
  | Some can =>
      if can && (tasksPending_ s <? threadCount s)
      then Some (set_tasksPending (size_incr (tasksPending_ s)) s)
      else Some s
  end.

(** ** Containers *)

(** [back()] together with [popBack()]; [popCopy()] is the same pair. *)
Definition popBack {A : Type} (l : list A) : option (A * list A) :=
  match rev l with
  | [] => None
  | x :: r => Some (x, rev r)
  end.

(** [popFirst()] of a linked list, [popCopyFront()] of a fifo. *)
Definition popFirst {A : Type} (l : list A) : option (A * list A) :=
  match l with
  | [] => None
  | x :: r => Some (x, r)
  end.

(** [erase(&v[index])]: the later elements move down by one. *)
Fixpoint erase {A : Type} (l : list A) (index : nat) : list A :=
  match l, index with
  | [], _ => []
  | _ :: r, O => r
  | x :: r, S n => x :: erase r n
  end.

(** ** Selectors *)

(** What a selector hands back: [None] for [nullptr], or the task together
    with the state in which it has been taken off its worklist.  The selectors
    themselves return [option Selection], the outer [None] being the abort. *)
Definition Selection : Type := option (HelperThreadTask * State).

(** Wrap a popped element as a task and store the shortened worklist. *)
Definition select {A : Type} (tag : A -> HelperThreadTask)
    (store : list A -> State -> State) (s : State)
    (popped : option (A * list A)) : Selection :=
  match popped with
  | None => None
  | Some (t, rest) => Some (tag t, store rest s)
  end.

Definition maybeGetWasmCompile (s : State) (mode : CompileMode)
  : option Selection :=
  match canStartWasmCompile s mode with
  | None => None
  | Some false => Some None
  | Some true =>
      Some (select TaskWasmCompile (set_wasmWorklist mode) s
              (popFirst (wasmWorklist s mode)))
  end.

Definition maybeGetWasmTier1CompileTask (s : State) : option Selection :=
  maybeGetWasmCompile s Tier1.

Definition maybeGetWasmTier2CompileTask (s : State) : option Selection :=
  maybeGetWasmCompile s Tier2.

Definition maybeGetWasmTier2GeneratorTask (s : State) : option Selection :=
  if negb (canStartWasmTier2GeneratorTask s) then Some None
  else Some (select TaskTier2Generator set_wasmTier2GeneratorWorklist s
               (popBack (wasmTier2GeneratorWorklist_ s))).

Definition maybeGetPromiseHelperTask (s : State) : option Selection :=
  if negb (canStartPromiseHelperTask s) then Some None
  else Some (select TaskPromiseHelper set_promiseHelperTasks s
               (popBack (promiseHelperTasks_ s))).

(** Unsigned division of the warm-up counter by the script length; a script
    has positive length. *)
Definition IonCompileTaskHasHigherPriority (first second : IonCompileTask)
  : bool :=
  script_warmUpCount (ion_script second) / script_length (ion_script second)
  <? script_warmUpCount (ion_script first) / script_length (ion_script first).

(** The scan of [highestPriorityPendingIonCompile]: [rest] are the elements
    from position [i] on, [index] the best position so far
    ([length worklist] while there is none).  [worklist[index]] is only read
    when [i < index] is false, hence in range. *)
Fixpoint scanIonWorklist (checkExecutionStatus : bool)
    (worklist rest : list IonCompileTask) (i index : nat) : nat :=
  match rest with
  | [] => index
  | t :: rest' =>
      let index' :=
        if checkExecutionStatus && negb (ion_isMainThreadRunningJS t)
        then index
        else if (i <? index)%nat
                || match nth_error worklist index with
                   | Some best => IonCompileTaskHasHigherPriority t best
                   | None => false
                   end
        then i else index in
      scanIonWorklist checkExecutionStatus worklist rest' (S i) index'
  end.

Definition highestPriorityPendingIonCompile (s : State)
    (checkExecutionStatus : bool) : Selection :=
  let worklist := ionWorklist_ s in
  let index :=
    scanIonWorklist checkExecutionStatus worklist worklist 0 (length worklist)
  in
  match nth_error worklist index with
  | None => None
  | Some task => Some (TaskIonCompile task, set_ionWorklist (erase worklist index) s)
  end.

Definition maybeGetIonCompileTask (s : State) : option Selection :=
  if negb (canStartIonCompileTask s) then Some None
  else Some (highestPriorityPendingIonCompile s true).

Definition maybeGetLowPrioIonCompileTask (s : State) : option Selection :=
  if negb (canStartIonCompileTask s) then Some None
  else Some (highestPriorityPendingIonCompile s false).

Definition maybeGetIonFreeTask (s : State) : option Selection :=
  if negb (canStartIonFreeTask s) then Some None
  else Some (select TaskIonFree set_ionFreeList s (popBack (ionFreeList_ s))).

Definition maybeGetParseTask (s : State) : option Selection :=
  if negb (canStartParseTask s) then Some None
  else Some (select TaskParse set_parseWorklist s
               (popBack (parseWorklist_ s))).

Definition maybeGetFreeDelazifyTask (s : State) : option Selection :=
  let freeList := freeDelazifyTaskVector_ s in
  if negb (empty freeList)
  then Some (select TaskFreeDelazify set_freeDelazifyTaskVector s
               (popBack freeList))
  else Some None.

Definition maybeGetDelazifyTask (s : State) : option Selection :=
  let worklist := delazifyWorklist_ s in
  if empty worklist then Some None
  else Some (select TaskDelazify set_delazifyWorklist s (popFirst worklist)).

Definition maybeGetCompressionTask (s : State) : option Selection :=
  if negb (canStartCompressionTask s) then Some None
  else Some (select TaskCompression set_compressionWorklist s
               (popBack (compressionWorklist_ s))).

Definition maybeGetGCParallelTask (s : State) : option Selection :=
  if negb (canStartGCParallelTask s) then Some None
  else Some (select TaskGCParallel set_gcParallelWorklist s
               (popFirst (gcParallelWorklist_ s))).

Definition Selector : Type := State -> option Selection.

(** Priority is the order of this table. *)
Definition selectors : list Selector :=
  [ maybeGetGCParallelTask;
    maybeGetIonCompileTask;
    maybeGetWasmTier1CompileTask;
    maybeGetPromiseHelperTask;
    maybeGetParseTask;
    maybeGetFreeDelazifyTask;
    maybeGetDelazifyTask;
    maybeGetCompressionTask;
    maybeGetLowPrioIonCompileTask;
    maybeGetIonFreeTask;
    maybeGetWasmTier2CompileTask;
    maybeGetWasmTier2GeneratorTask ].

(** The loop of [findHighestPriorityTask] over a table of selectors. *)
Fixpoint firstSelected (table : list Selector) (s : State)
  : option Selection :=
  match table with
  | [] => Some None
  | selector :: rest =>
      match selector s with
      | None => None
      | Some (Some hit) => Some (Some hit)
      | Some None => firstSelected rest s
      end
  end.

Definition findHighestPriorityTask (s : State) : option Selection :=
  firstSelected selectors s.

(** The admission predicate that belongs to each entry of [selectors]. *)
Definition admissions : list (State -> option bool) :=
  [ fun s => Some (canStartGCParallelTask s);
    fun s => Some (canStartIonCompileTask s);
    canStartWasmTier1CompileTask;
    fun s => Some (canStartPromiseHelperTask s);
    fun s => Some (canStartParseTask s);
    fun s => Some (canStartFreeDelazifyTask s);
    fun s => Some (canStartDelazifyTask s);
    fun s => Some (canStartCompressionTask s);
    fun s => Some (canStartIonCompileTask s);
    fun s => Some (canStartIonFreeTask s);
    canStartWasmTier2CompileTask;
    fun s => Some (canStartWasmTier2GeneratorTask s) ].

(** The queued tasks each entry of [selectors] draws from.  The first Ion
    entry calls [highestPriorityPendingIonCompile] with
    [checkExecutionStatus = true], which passes over the compilations whose
    main thread is not running JS; the low-priority entry considers the whole
    worklist. *)
Definition pendingWork : list (State -> list HelperThreadTask) :=
  [ fun s => map TaskGCParallel (gcParallelWorklist_ s);
    fun s => map TaskIonCompile
               (filter ion_isMainThreadRunningJS (ionWorklist_ s));
    fun s => map TaskWasmCompile (wasmWorklist s Tier1);
    fun s => map TaskPromiseHelper (promiseHelperTasks_ s);
    fun s => map TaskParse (parseWorklist_ s);
    fun s => map TaskFreeDelazify (freeDelazifyTaskVector_ s);
    fun s => map TaskDelazify (delazifyWorklist_ s);
    fun s => map TaskCompression (compressionWorklist_ s);
    fun s => map TaskIonCompile (ionWorklist_ s);
    fun s => map TaskIonFree (ionFreeList_ s);
    fun s => map TaskWasmCompile (wasmWorklist s Tier2);
    fun s => map TaskTier2Generator (wasmTier2GeneratorWorklist_ s) ].

(** The entries whose selector asks its admission predicate.
    [maybeGetFreeDelazifyTask] and [maybeGetDelazifyTask] (entries 5 and 6)
    only test whether their list is empty. *)
Definition guardedEntry (i : nat) : bool :=
  negb (Nat.eqb i 5 || Nat.eqb i 6).

(** What a selector owes to the queue [work] it draws from and to the outcome
    [can] of its admission predicate: a hit is a task of the queue; there is
    a hit exactly when the queue has work and, for a guarded entry, the
    predicate holds; the answer is null exactly when the queue has no work
    or the predicate of a guarded entry fails; and the selector aborts
    exactly when the predicate of a guarded entry does. *)
Definition serves (guarded : bool) (sel : option Selection)
    (can : option bool) (work : list HelperThreadTask) : Prop :=
  (forall hit, sel = Some (Some hit) -> In (fst hit) work)
  /\ ((exists hit, sel = Some (Some hit)) <->
      work <> [] /\ (guarded = true -> can = Some true))
  /\ (sel = Some None <->
      work = [] \/ (guarded = true /\ can = Some false))
  /\ (sel = None <-> guarded = true /\ can = None).

(** ** Submission

    [grown] is the outcome of the container's [append]/[pushBack]: [false]
    when the buffer had to grow and the allocation failed, in which case the
    container is left as it was.  The result is [None] when the [dispatch]
    that follows a successful append aborts. *)

Definition submitted (queued : State) : option (bool * State) :=
  match dispatch queued with
  | None => None
  | Some s' => Some (true, s')
  end.

Definition submitTask_wasm (grown : bool) (task : WasmCompileTask)
    (mode : CompileMode) (s : State) : option (bool * State) :=
  if negb grown then Some (false, s)
  else submitted (set_wasmWorklist mode (wasmWorklist s mode ++ [task]) s).

Definition submitTask_tier2Generator (grown : bool)
    (task : Tier2GeneratorTask) (s : State) : option (bool * State) :=
  if negb grown then Some (false, s)
  else submitted (set_wasmTier2GeneratorWorklist
                    (wasmTier2GeneratorWorklist_ s ++ [task]) s).

Definition submitTask_ion (grown : bool) (task : IonCompileTask) (s : State)
  : option (bool * State) :=
  if negb grown then Some (false, s)
  else submitted (set_ionWorklist (ionWorklist_ s ++ [task]) s).

Definition submitTask_ionFree (grown : bool) (task : IonFreeTask) (s : State)
  : option (bool * State) :=
  if negb grown then Some (false, s)
  else submitted (set_ionFreeList (ionFreeList_ s ++ [task]) s).

(** [js::StartOffThreadIonFree]: [made] is the outcome of [MakeUnique], which
    builds the free task at address [addr]. *)
Definition StartOffThreadIonFree (made grown : bool) (addr : Address)
    (task : IonCompileTask) (s : State) : option (bool * State) :=
  if negb made then Some (false, s)
  else submitTask_ionFree grown (mkIonFreeTask addr task) s.

Definition submitTask_parse (grown : bool) (task : ParseTask) (s : State)
  : option (bool * State) :=
  if negb grown then Some (false, s)
  else submitted (set_parseWorklist (parseWorklist_ s ++ [task]) s).

(** Returns [void]: linking into the list cannot fail. *)
Definition submitTask_delazify (task : DelazifyTask) (s : State)
  : option State :=
  dispatch (set_delazifyWorklist (delazifyWorklist_ s ++ [task]) s).

Definition submitTask_freeDelazify (grown : bool) (task : FreeDelazifyTask)
    (s : State) : option (bool * State) :=
  if negb grown then Some (false, s)
  else submitted (set_freeDelazifyTaskVector
                    (freeDelazifyTaskVector_ s ++ [task]) s).

Definition submitTask_compression (grown : bool)
    (task : SourceCompressionTask) (s : State) : option (bool * State) :=
  if negb grown then Some (false, s)
  else submitted (set_compressionWorklist (compressionWorklist_ s ++ [task]) s).

Definition submitTask_gcParallel (task : GCParallelTask) (s : State)
  : option (bool * State) :=
  submitted (set_gcParallelWorklist (gcParallelWorklist_ s ++ [task]) s).

Definition submitTask_promise (grown : bool) (task : PromiseHelperTask)
    (s : State) : option (bool * State) :=
  if negb grown then Some (false, s)
  else submitted (set_promiseHelperTasks (promiseHelperTasks_ s ++ [task]) s).

(** ** Ownership of a submitted task *)

(** The overloads of [submitTask]. *)
Inductive SubmitKind : Type :=
| SubmitWasm
| SubmitTier2Generator
| SubmitIon
| SubmitIonFree
| SubmitParse
| SubmitDelazify
| SubmitFreeDelazify
| SubmitCompression
| SubmitGCParallel
| SubmitPromise.

(** How an overload receives its task: as a raw pointer ([T* task]), or as
    an owning pointer passed by value ([UniquePtr<T> task]). *)
Inductive Passing : Type :=
| RawPointer
| UniquePtrByValue.

(** The parameter type in each overload's signature:
    [wasm::CompileTask*], [wasm::UniqueTier2GeneratorTask],
    [jit::IonCompileTask*], [UniquePtr<jit::IonFreeTask>],
    [UniquePtr<ParseTask>], [DelazifyTask*], [UniquePtr<FreeDelazifyTask>],
    [UniquePtr<SourceCompressionTask>], [GCParallelTask*],
    [PromiseHelperTask*]. *)
Definition passing (kind : SubmitKind) : Passing :=
  match kind with
  | SubmitWasm => RawPointer
  | SubmitTier2Generator => UniquePtrByValue
  | SubmitIon => RawPointer
  | SubmitIonFree => UniquePtrByValue
  | SubmitParse => UniquePtrByValue
  | SubmitDelazify => RawPointer
  | SubmitFreeDelazify => UniquePtrByValue
  | SubmitCompression => UniquePtrByValue
  | SubmitGCParallel => RawPointer
  | SubmitPromise => RawPointer
  end.

(** Who holds the task once [submitTask] has returned. *)
Inductive Holder : Type :=
| HeldByCoordinator
| HeldByCaller
| Destroyed.

(** The task at the overload's return.  When the append succeeded the
    worklist holds it: the owning pointer was moved into the vector (or
    released after its raw pointer was appended).  When the append failed the
    parameter still has it: a raw pointer owns nothing, so the task stays with
    the caller; an owning pointer passed by value deletes the task when the
    parameter goes out of scope at [return false]. *)
Definition holderAfterSubmit (how : Passing) (appended : bool) : Holder :=
  if appended then HeldByCoordinator
  else match how with
       | RawPointer => HeldByCaller
       | UniquePtrByValue => Destroyed
       end.

(** ** The running-task registry *)

(** [eraseIfEqual(task)]: every entry equal to the pointer goes. *)
Definition eraseIfEqual (l : list HelperThreadTask) (task : HelperThreadTask)
  : list HelperThreadTask :=
  filter (fun x => negb (HelperThreadTask_eqb x task)) l.

(** [runTaskLocked] up to the call of [task->runHelperThreadTask(locked)]. *)
Definition runTaskLocked_enter (task : HelperThreadTask) (s : State) : State :=
  let s1 := set_helperTasks (helperTasks_ s ++ [task]) s in
  let ty := threadType task in
  let s2 :=
    set_runningTaskCount
      (update_count (runningTaskCount s1) ty
         (size_incr (runningTaskCount s1 ty))) s1 in
  set_totalCountRunningTasks (size_incr (totalCountRunningTasks s2)) s2.

(** [runTaskLocked] after that call has returned; [ty] is the thread type
    read before the call, since the task may have deleted itself. *)
Definition runTaskLocked_leave (task : HelperThreadTask) (ty : ThreadType)
    (s : State) : State :=
  let s1 := set_helperTasks (eraseIfEqual (helperTasks_ s) task) s in
  let s2 :=
    set_totalCountRunningTasks (size_decr (totalCountRunningTasks s1)) s1 in
  set_runningTaskCount
    (update_count (runningTaskCount s2) ty
       (size_decr (runningTaskCount s2 ty))) s2.

(** [runTaskLocked(task, locked)].  [run] is everything that happens between
    the two halves: the task's own [runHelperThreadTask], which drops the lock
    while it works, and whatever other threads do under the lock
    meanwhile. *)
Definition runTaskLocked (run : State -> State) (task : HelperThreadTask)
    (s : State) : State :=
  runTaskLocked_leave task (threadType task) (run (runTaskLocked_enter task s)).

(** [runOneTask(lock)]: one pending dispatch is consumed, the highest-priority
    admissible task, if any, is run, and a follow-up dispatch is made.
    [notifyAll] wakes waiters and leaves the state alone. *)
Definition runOneTask (run : State -> State) (s : State) : option State :=
  let s0 := set_tasksPending (size_decr (tasksPending_ s)) s in
  match findHighestPriorityTask s0 with
  | None => None
  | Some None => Some s0
  | Some (Some (task, s1)) => dispatch (runTaskLocked run task s1)
  end.

(** ** Cancelling off-thread Ion compilations *)

Inductive CompilationSelector : Type :=
| SelectScript (script : JSScript)
| SelectZone (zone : Zone)
| SelectZonesInState (runtime : JSRuntime) (state : GCState)
| SelectRuntime (runtime : JSRuntime).

Definition GetSelectorRuntime (selector : CompilationSelector) : JSRuntime :=
  match selector with
  | SelectScript script => script_runtime script
  | SelectZone zone => zone_runtime zone
  | SelectZonesInState runtime _ => runtime
  | SelectRuntime runtime => runtime
  end.

Definition IonCompileTaskMatches (selector : CompilationSelector)
    (task : IonCompileTask) : bool :=
  match selector with
  | SelectScript script => JSScript_eqb script (ion_script task)
  | SelectZone zone => Zone_eqb zone (script_zone (ion_script task))
  | SelectRuntime runtime =>
      Nat.eqb runtime (script_runtime (ion_script task))
  | SelectZonesInState runtime state =>
      Nat.eqb runtime (script_runtime (ion_script task))
      && Nat.eqb state (zone_gcState (script_zone (ion_script task)))
  end.

Definition update_runtime {A : Type} (f : JSRuntime -> A) (rt : JSRuntime)
    (v : A) : JSRuntime -> A :=
  fun rt' => if Nat.eqb rt' rt then v else f rt'.

(** [js::FinishOffThreadIonCompile].  The append sits in an OOM-unsafe
    region: when it fails the process is crashed on purpose, so a call that
    returns has appended. *)
Definition FinishOffThreadIonCompile (task : IonCompileTask) (s : State)
  : State :=
  let s1 := set_ionFinishedList (ionFinishedList_ s ++ [task]) s in
  let rt := script_runtime (ion_script task) in
  set_numFinishedOffThreadTasks
    (update_runtime (numFinishedOffThreadTasks_ s1) rt
       (size_incr (numFinishedOffThreadTasks_ s1 rt))) s1.

(** Modelled from the spec: [GlobalHelperThreadState::remove(vector, index)]
    is declared in vm/HelperThreadState.h, which the excerpt does not
    include; the loops below take it as a parameter.  The cancel template
    "remove[s] ... any not-yet-started matching Task found in worklists" from
    inside a loop over positions.  The helper is taken to delete the element
    at [*index], to leave the elements in front of it where they are, to keep
    the ones behind it (in whatever order), and to step [*index] back so that
    the loop's increment comes to the same position again. *)
Definition removes_in_place
    (remove : forall A : Type, list A -> Z -> list A * Z) : Prop :=
  forall (A : Type) (front : list A) (x : A) (rest : list A),
    length_z (front ++ x :: rest) < SIZE_MODULUS ->
    exists rest',
      remove A (front ++ x :: rest) (length_z front)
      = (front ++ rest', size_decr (length_z front))
      /\ length rest' = length rest
      /\ (forall y, In y rest' <-> In y rest).

(** Modelled from the spec: [jit::FinishOffThreadTask] is defined in
    jit/Ion.cpp, outside the excerpt; the loops below take it as a
    parameter.  It is the step that "reclaim[s] matching entries": it is
    taken to leave the compile worklist, the registry and the finished list
    alone, and to unlink the task from the lazy-link list of the runtime it is
    called for. *)
Definition reclaims
    (FinishOffThreadTask : JSRuntime -> IonCompileTask -> State -> State)
  : Prop :=
  forall runtime task s,
    helperTasks_ (FinishOffThreadTask runtime task s) = helperTasks_ s
    /\ ionWorklist_ (FinishOffThreadTask runtime task s) = ionWorklist_ s
    /\ ionFinishedList_ (FinishOffThreadTask runtime task s)
       = ionFinishedList_ s
    /\ (forall t,
          In t (ionLazyLinkList_ (FinishOffThreadTask runtime task s) runtime)
          -> In t (ionLazyLinkList_ s runtime) /\ t <> task).

(** The running Ion compilations the selector matches. *)
Definition runningMatches (selector : CompilationSelector) (s : State)
  : list IonCompileTask :=
  flat_map
    (fun helper =>
       match helper with
       | TaskIonCompile t =>
           if IonCompileTaskMatches selector t then [t] else []
       | _ => []
       end)
    (helperTasks_ s).

Section Cancellation.

Variable remove : forall A : Type, list A -> Z -> list A * Z.

Variable FinishOffThreadTask : JSRuntime -> IonCompileTask -> State -> State.

(** [wait(lock)] gives the lock up and takes it back; [interference k] is
    what the other threads did to the state during the [k]-th wait. *)
Variable interference : nat -> State -> State.

(** The loop over [ionWorklist] that finishes pending entries; [i] is the
    loop index before the test [i < worklist.length()].  Every round either
    advances [i] or shortens the list, so [fuel] bounds the rounds. *)
Fixpoint cancelPending (fuel : nat) (selector : CompilationSelector) (i : Z)
    (s : State) : State :=
  match fuel with
  | O => s
  | S fuel' =>
      let worklist := ionWorklist_ s in
      if i <? length_z worklist then
        match nth_error worklist (Z.to_nat i) with
        | None => s
        | Some task =>
            if IonCompileTaskMatches selector task then
              let s1 := FinishOffThreadIonCompile task s in
              let '(worklist', i') := remove _ (ionWorklist_ s1) i in
              cancelPending fuel' selector (size_incr i')
                (set_ionWorklist worklist' s1)
            else cancelPending fuel' selector (size_incr i) s
        end
      else s
  end.

(** The do-while loop that waits for in-progress entries: [None] when
    [fuel] waits were not enough for the running matches to retire. *)
Fixpoint waitForRunning (fuel k : nat) (selector : CompilationSelector)
    (s : State) : option State :=
  match fuel with
  | O => None
  | S fuel' =>
      let hits := runningMatches selector s in
      if empty hits then Some s
      else
        waitForRunning fuel' (S k) selector
          (interference k
             (set_mirGenCancelled (mirGenCancelled_ s ++ hits) s))
  end.

(** The loop over [ionFinishedList] that reclaims completed entries. *)
Fixpoint cancelFinished (fuel : nat) (selector : CompilationSelector) (i : Z)
    (s : State) : State :=
  match fuel with
  | O => s
  | S fuel' =>
      let finished := ionFinishedList_ s in
      if i <? length_z finished then
        match nth_error finished (Z.to_nat i) with
        | None => s
        | Some task =>
            if IonCompileTaskMatches selector task then
              let rt := script_runtime (ion_script task) in
              let s1 :=
                set_numFinishedOffThreadTasks
                  (update_runtime (numFinishedOffThreadTasks_ s) rt
                     (size_decr (numFinishedOffThreadTasks_ s rt))) s in
              let s2 := FinishOffThreadTask rt task s1 in
              let '(finished', i') := remove _ (ionFinishedList_ s2) i in
              cancelFinished fuel' selector (size_incr i')
                (set_ionFinishedList finished' s2)
            else cancelFinished fuel' selector (size_incr i) s
        end
      else s
  end.

(** The walk over the lazy-link list; [next] is read before the current
    element is unlinked, so the walk covers the list as it was on entry. *)
Definition cancelLazyLink (selector : CompilationSelector) (s : State)
  : State :=
  let runtime := GetSelectorRuntime selector in
  fold_left
    (fun st task =>
       if IonCompileTaskMatches selector task
       then FinishOffThreadTask runtime task st else st)
    (ionLazyLinkList_ s runtime) s.

Definition CancelOffThreadIonCompileLocked (fuel : nat)
    (selector : CompilationSelector) (s : State) : option State :=
  if negb (isInitialized_ s) then Some s
  else
    let s1 := cancelPending (length (ionWorklist_ s)) selector 0 s in
    match waitForRunning fuel 0 selector s1 with
    | None => None
    | Some s2 =>
        let s3 :=
          cancelFinished (length (ionFinishedList_ s2)) selector 0 s2 in
        Some (cancelLazyLink selector s3)
    end.

(** The list-level content of the two removal loops: what a loop of the shape
    [for (i = 0; i < v.length(); i++) if (P(v[i])) remove(v, &i);] leaves of
    [v]. *)
Fixpoint sweep {A : Type} (P : A -> bool) (fuel : nat) (i : Z) (v : list A)
  : list A :=
  match fuel with
  | O => v
  | S fuel' =>
      if i <? length_z v then
        match nth_error v (Z.to_nat i) with
        | None => v
        | Some x =>
            if P x then
              let '(v', i') := remove _ v i in sweep P fuel' (size_incr i') v'
            else sweep P fuel' (size_incr i) v
        end
      else v
  end.

End Cancellation.

(** [vector[index] = value]. *)
Fixpoint store_at {A : Type} (l : list A) (index : nat) (value : A) : list A :=
  match l, index with
  | [], _ => []
  | _ :: r, O => value :: r
  | x :: r, S n => x :: store_at r n value
  end.

(** A [remove] that fills the gap with the last element: unless the element
    at [index] is the last one, the last one is moved over it; then the
    vector is shortened by one and the index stepped back. *)
Definition swapRemove (A : Type) (vector : list A) (index : Z)
  : list A * Z :=
  let moved :=
    if index =? size_sub (length_z vector) 1 then vector
    else match popBack vector with
         | Some (back, _) => store_at vector (Z.to_nat index) back
         | None => vector
         end in
  (removelast moved, size_decr index).

(** The elements behind the removed position after [swapRemove]. *)
Definition moved_up {A : Type} (rest : list A) : list A :=
  match popBack rest with
  | Some (y, rest') => y :: rest'
  | None => []
  end.

(** A [FinishOffThreadTask] that does nothing but unlink the task from the
    lazy-link list of the runtime. *)
Definition unlinkTask (runtime : JSRuntime) (task : IonCompileTask)
    (s : State) : State :=
  set_ionLazyLinkList
    (update_runtime (ionLazyLinkList_ s) runtime
       (filter (fun t => if IonCompileTask_eq_dec t task then false else true)
          (ionLazyLinkList_ s runtime))) s.

(** What the canceller relies on while it waits: no matching compilation is
    queued (the only producer of compilations for the selector's runtime is
    the thread that is cancelling), and the finished list has a length a
    [size_t] can hold. *)
Definition quiescent (selector : CompilationSelector) (s : State) : Prop :=
  (forall task, In task (ionWorklist_ s) ->
                IonCompileTaskMatches selector task = false)
  /\ length_z (ionFinishedList_ s) < SIZE_MODULUS.

(** No Ion compilation the selector matches is left in the worklist, the
    registry, the finished list or the lazy-link list of the selector's
    runtime. *)
Definition nothing_left (selector : CompilationSelector) (s : State) : Prop :=
  (forall task, In task (ionWorklist_ s) ->
                IonCompileTaskMatches selector task = false)
  /\ (forall task, In (TaskIonCompile task) (helperTasks_ s) ->
                   IonCompileTaskMatches selector task = false)
  /\ (forall task, In task (ionFinishedList_ s) ->
                   IonCompileTaskMatches selector task = false)
  /\ (forall task,
        In task (ionLazyLinkList_ s (GetSelectorRuntime selector)) ->
        IonCompileTaskMatches selector task = false).

(** ** Reachable states *)

Inductive Setup : Type :=
| DefaultSetup
| FakeCPUCount (count : Z)
| ExternalPool (threads : Z).

Definition configure (setup : Setup) (s : State) : State :=
  match setup with
  | DefaultSetup => s
  | FakeCPUCount count => setCpuCount count s
  | ExternalPool threads => setDispatchTaskCallback threads s
  end.

Definition setup_in_range (setup : Setup) : Prop :=
  match setup with
  | DefaultSetup => True
  | FakeCPUCount count => in_size_t count
  | ExternalPool threads => in_size_t threads
  end.

Definition startup (probed : Z) (setup : Setup) : State :=
  ensureInitialized_done (configure setup (GlobalHelperThreadState_new probed)).

(** What code other than [runTaskLocked] may do to the state while it holds
    the lock: anything that leaves the registry, its counters and the thread
    count alone.  None of these fields is written elsewhere once the state is
    initialized. *)
Definition registry_untouched (s s' : State) : Prop :=
  helperTasks_ s' = helperTasks_ s
  /\ totalCountRunningTasks s' = totalCountRunningTasks s
  /\ (forall ty, runningTaskCount s' ty = runningTaskCount s ty)
  /\ threadCount s' = threadCount s.

(** One atomic, lock-holding step of some thread.  A worker takes a task only
    while it is itself idle, and a task that is queued is not also running. *)
Inductive step : State -> State -> Prop :=
| step_other : forall s s',
    registry_untouched s s' -> step s s'
| step_start : forall s task s1,
    totalCountRunningTasks s < threadCount s ->
    findHighestPriorityTask s = Some (Some (task, s1)) ->
    ~ In task (helperTasks_ s) ->
    step s (runTaskLocked_enter task s1)
| step_finish : forall s task,
    In task (helperTasks_ s) ->
    step s (runTaskLocked_leave task (threadType task) s).

Inductive reachable : State -> Prop :=
| reachable_startup : forall probed setup,
    setup_in_range setup -> reachable (startup probed setup)
| reachable_step : forall s s',
    reachable s -> step s s' -> reachable s'.

Definition one_if (b : bool) : nat := if b then 1%nat else 0%nat.

(** The number of registry entries of one thread type. *)
Definition countRunning (ty : ThreadType) (l : list HelperThreadTask) : nat :=
  length (filter (fun task => ThreadType_eqb (threadType task) ty) l).

Record consistent (s : State) : Prop := {
  consistent_total :
    totalCountRunningTasks s = Z.of_nat (length (helperTasks_ s));
  consistent_count :
    forall ty, runningTaskCount s ty = Z.of_nat (countRunning ty (helperTasks_ s));
  consistent_nodup : NoDup (helperTasks_ s);
  consistent_threads : in_size_t (threadCount s);
  consistent_room : Z.of_nat (length (helperTasks_ s)) <= threadCount s
}.

(** At most one tier-2 generator and at most one source compression are
    running. *)
Definition single_slots (s : State) : Prop :=
  (countRunning THREAD_TYPE_WASM_GENERATOR_TIER2 (helperTasks_ s) <= 1)%nat
  /\ (countRunning THREAD_TYPE_COMPRESS (helperTasks_ s) <= 1)%nat.

(** The admission predicates of the master kinds: the kinds whose tasks
    block on work done by other helper threads. *)
Definition masterAdmissions : list (State -> bool) :=
  [ canStartWasmTier2GeneratorTask;
    canStartPromiseHelperTask;
    canStartParseTask;
    canStartDelazifyTask;
    canStartFreeDelazifyTask ].

(** ** Queries on Ion compilations *)

(** [js::HasOffThreadIonCompile(zone)] (debug builds): is a compilation for a
    script of [zone] queued, running, finished or waiting to be linked? *)
Definition HasOffThreadIonCompile (zone : Zone) (s : State) : bool :=
  let inZone (task : IonCompileTask) :=
    Zone_eqb (script_zone (ion_script task)) zone in
  if negb (isInitialized_ s) then false
  else if existsb inZone (ionWorklist_ s) then true
  else if existsb (fun helper =>
                     match helper with
                     | TaskIonCompile task => inZone task
                     | _ => false
                     end) (helperTasks_ s) then true
  else if existsb inZone (ionFinishedList_ s) then true
  else existsb inZone (ionLazyLinkList_ s (zone_runtime zone)).

(** The test at the head of the loop body in
    [highestPriorityPendingIonCompile]: a task is passed over when the
    execution status is checked and its main thread is not running JS. *)
Definition pendingEligible (checkExecutionStatus : bool)
    (task : IonCompileTask) : bool :=
  negb (checkExecutionStatus && negb (ion_isMainThreadRunningJS task)).

(** The quantity [IonCompileTaskHasHigherPriority] compares. *)
Definition warmUpPerLength (task : IonCompileTask) : Z :=
  script_warmUpCount (ion_script task) / script_length (ion_script task).

(** The counter of dispatches that were requested and not yet taken up lies
    between zero and the thread count. *)
Definition pending_within (s : State) : Prop :=
  0 <= tasksPending_ s <= threadCount s /\ threadCount s < SIZE_MODULUS.

(** ** Drains and the remaining cancellations *)

(** The coordinator together with the members of [GlobalHelperThreadState]
    that only the drain and cancellation paths use: the list of finished
    parse tasks, the compression tasks not yet scheduled and those completed,
    the count of tier-2 generators that have finished, and the [terminating_]
    flag.  [tier2GeneratorCancelled_] lists the running generators whose
    [cancel()] was called. *)
Record FullState : Type := mkFull {
  core : State;
  parseFinishedList_ : list ParseTask;
  compressionPendingList_ : list SourceCompressionTask;
  compressionFinishedList_ : list SourceCompressionTask;
  wasmTier2GeneratorsFinished_ : Z;
  terminating_ : bool;
  tier2GeneratorCancelled_ : list Tier2GeneratorTask
}.

Definition set_core (v : State) (fs : FullState) : FullState :=
  mkFull v (parseFinishedList_ fs) (compressionPendingList_ fs)
    (compressionFinishedList_ fs) (wasmTier2GeneratorsFinished_ fs)
    (terminating_ fs) (tier2GeneratorCancelled_ fs).

Definition set_parseFinishedList (v : list ParseTask) (fs : FullState)
  : FullState :=
  mkFull (core fs) v (compressionPendingList_ fs)
    (compressionFinishedList_ fs) (wasmTier2GeneratorsFinished_ fs)
    (terminating_ fs) (tier2GeneratorCancelled_ fs).

Definition set_compressionPendingList (v : list SourceCompressionTask)
    (fs : FullState) : FullState :=
  mkFull (core fs) (parseFinishedList_ fs) v
    (compressionFinishedList_ fs) (wasmTier2GeneratorsFinished_ fs)
    (terminating_ fs) (tier2GeneratorCancelled_ fs).

Definition set_compressionFinishedList (v : list SourceCompressionTask)
    (fs : FullState) : FullState :=
  mkFull (core fs) (parseFinishedList_ fs) (compressionPendingList_ fs)
    v (wasmTier2GeneratorsFinished_ fs)
    (terminating_ fs) (tier2GeneratorCancelled_ fs).

Definition set_wasmTier2GeneratorsFinished (v : Z) (fs : FullState)
  : FullState :=
  mkFull (core fs) (parseFinishedList_ fs) (compressionPendingList_ fs)
    (compressionFinishedList_ fs) v
    (terminating_ fs) (tier2GeneratorCancelled_ fs).

Definition set_terminating (v : bool) (fs : FullState) : FullState :=
  mkFull (core fs) (parseFinishedList_ fs) (compressionPendingList_ fs)
    (compressionFinishedList_ fs) (wasmTier2GeneratorsFinished_ fs)
    v (tier2GeneratorCancelled_ fs).

Definition set_tier2GeneratorCancelled (v : list Tier2GeneratorTask)
    (fs : FullState) : FullState :=
  mkFull (core fs) (parseFinishedList_ fs) (compressionPendingList_ fs)
    (compressionFinishedList_ fs) (wasmTier2GeneratorsFinished_ fs)
    (terminating_ fs) v.

(** How a function that waits on the condition variable and evaluates
    [canStartTasks] can end: it returns, the process aborts on the release
    assertion, or the waits allowed were not enough. *)
Inductive Waited (A : Type) : Type :=
| Returned (a : A)
| Aborted
| StillWaiting.

Arguments Returned {A} a.
Arguments Aborted {A}.
Arguments StillWaiting {A}.

Definition hasActiveThreads (s : State) : bool := negb (empty (helperTasks_ s)).

(** The first tier-2 generator in the registry, if any. *)
Fixpoint runningTier2Generator (l : list HelperThreadTask)
  : option Tier2GeneratorTask :=
  match l with
  | [] => None
  | TaskTier2Generator t :: _ => Some t
  | _ :: r => runningTier2Generator r
  end.

(** One walk over the list of finished parse tasks: the tasks that match are
    unlinked and destroyed; [found] tells whether there was one. *)
Fixpoint reclaimFinishedParses (matches : ParseTask -> bool)
    (finished : list ParseTask) : bool * list ParseTask :=
  match finished with
  | [] => (false, [])
  | task :: rest =>
      let '(found, rest') := reclaimFinishedParses matches rest in
      if matches task then (true, rest') else (found, task :: rest')
  end.

(** The [while (true)] around that walk: it is repeated until a walk finds
    nothing; [None] when [passes] walks were not enough. *)
Fixpoint reclaimAllFinishedParses (passes : nat) (matches : ParseTask -> bool)
    (finished : list ParseTask) : option (list ParseTask) :=
  match passes with
  | O => None
  | S passes' =>
      let '(found, finished') := reclaimFinishedParses matches finished in
      if found then reclaimAllFinishedParses passes' matches finished'
      else Some finished'
  end.

(** [ParseTask::runHelperThreadTask]: once [runTask] and the callback are
    done, the task is linked at the back of the finished list. *)
Definition ParseTask_runHelperThreadTask (task : ParseTask) (fs : FullState)
  : FullState :=
  set_parseFinishedList (parseFinishedList_ fs ++ [task]) fs.

(** [DelazifyTask::runHelperThreadTask] from the point where [runTask()] has
    returned and the lock is held again.  [done] is
    [delazificationCx.done()]; [freeTask] is the [FreeDelazifyTask] that
    [js_new] built around the task, [None] when the allocation failed;
    [grown] is the outcome of appending it.  [None] is an abort inside
    [dispatch]. *)
Definition DelazifyTask_runHelperThreadTask (done : bool)
    (freeTask : option FreeDelazifyTask) (grown : bool) (task : DelazifyTask)
    (s : State) : option State :=
  if negb done then submitTask_delazify task s
  else
    match freeTask with
    | Some free =>
        match submitTask_freeDelazify grown free s with
        | Some (_, s') => Some s'
        | None => None
        end
    | None => Some s
    end.

(** [ScheduleCompressionTask]. *)
Inductive ScheduleCompressionTask : Type := GC | API.

Section Drains.

Variable remove : forall A : Type, list A -> Z -> list A * Z.

(** [ParseTask::runtimeMatches], [DelazifyTask::runtimeMatchesOrNoRuntime],
    [SourceCompressionTask::runtimeMatches] and
    [SourceCompressionTask::shouldStart] are defined outside the file; they
    are pure tests on a task and are taken as parameters.  A [JSRuntime*]
    that may be null is still a pointer value. *)
Variable parseRuntimeMatches : ParseTask -> JSRuntime -> bool.
Variable delazifyRuntimeMatchesOrNoRuntime : DelazifyTask -> JSRuntime -> bool.
Variable compressionRuntimeMatches : SourceCompressionTask -> JSRuntime -> bool.
Variable shouldStart : SourceCompressionTask -> bool.

(** What the other threads did during the [k]-th wait of a loop. *)
Variable interference : nat -> FullState -> FullState.

(** *** Parse tasks *)

Definition parseInProgress (rt : JSRuntime) (s : State) : bool :=
  existsb (fun helper =>
             match helper with
             | TaskParse task => parseRuntimeMatches task rt
             | _ => false
             end) (helperTasks_ s).

Definition parsePending (rt : JSRuntime) (s : State) : bool :=
  existsb (fun task => parseRuntimeMatches task rt) (parseWorklist_ s).

(** The loop of [WaitForOffThreadParses]. *)
Fixpoint waitForParses (fuel k : nat) (rt : JSRuntime) (fs : FullState)
  : option FullState :=
  match fuel with
  | O => None
  | S fuel' =>
      if negb (parsePending rt (core fs))
         && negb (parseInProgress rt (core fs))
      then Some fs
      else waitForParses fuel' (S k) rt (interference k fs)
  end.

Definition WaitForOffThreadParses (fuel : nat) (rt : JSRuntime)
    (fs : FullState) : option FullState :=
  if negb (isInitialized_ (core fs)) then Some fs
  else waitForParses fuel 0 rt fs.

Definition CancelOffThreadParses (fuel passes : nat) (rt : JSRuntime)
    (fs : FullState) : option FullState :=
  match WaitForOffThreadParses fuel rt fs with
  | None => None
  | Some fs1 =>
      match reclaimAllFinishedParses passes
              (fun task => parseRuntimeMatches task rt)
              (parseFinishedList_ fs1) with
      | None => None
      | Some finished => Some (set_parseFinishedList finished fs1)
      end
  end.

(** *** Delazification tasks *)

(** The walk over the delazify worklist unlinks and deletes the tasks that
    match and keeps the others in order. *)
Definition CancelPendingDelazifyTask (rt : JSRuntime) (fs : FullState)
  : FullState :=
  set_core
    (set_delazifyWorklist
       (filter (fun task => negb (delazifyRuntimeMatchesOrNoRuntime task rt))
          (delazifyWorklist_ (core fs)))
       (core fs)) fs.

Definition delazifyInProgress (rt : JSRuntime) (s : State) : bool :=
  existsb (fun helper =>
             match helper with
             | TaskDelazify task => delazifyRuntimeMatchesOrNoRuntime task rt
             | _ => false
             end) (helperTasks_ s).

(** The loop of [WaitUntilCancelledDelazifyTasks]. *)
Fixpoint cancelDelazifyUntilIdle (fuel k : nat) (rt : JSRuntime)
    (fs : FullState) : option FullState :=
  match fuel with
  | O => None
  | S fuel' =>
      let fs1 := CancelPendingDelazifyTask rt fs in
      if negb (delazifyInProgress rt (core fs1)) then Some fs1
      else cancelDelazifyUntilIdle fuel' (S k) rt (interference k fs1)
  end.

Definition WaitUntilCancelledDelazifyTasks (fuel : nat) (rt : JSRuntime)
    (fs : FullState) : option FullState :=
  if negb (isInitialized_ (core fs)) then Some fs
  else cancelDelazifyUntilIdle fuel 0 rt fs.

Definition freeDelazifyInProgress (s : State) : bool :=
  negb (empty (freeDelazifyTaskVector_ s))
  || existsb (fun helper =>
                match helper with
                | TaskFreeDelazify _ => true
                | _ => false
                end) (helperTasks_ s).

(** The loop of [WaitUntilEmptyFreeDelazifyTaskVector]. *)
Fixpoint waitForFreeDelazify (fuel k : nat) (fs : FullState)
  : option FullState :=
  match fuel with
  | O => None
  | S fuel' =>
      if negb (freeDelazifyInProgress (core fs)) then Some fs
      else waitForFreeDelazify fuel' (S k) (interference k fs)
  end.

Definition WaitUntilEmptyFreeDelazifyTaskVector (fuel : nat) (fs : FullState)
  : option FullState :=
  if negb (isInitialized_ (core fs)) then Some fs
  else waitForFreeDelazify fuel 0 fs.

Definition HasAnyDelazifyTask (rt : JSRuntime) (s : State) : bool :=
  if existsb (fun task => delazifyRuntimeMatchesOrNoRuntime task rt)
       (delazifyWorklist_ s)
  then true
  else delazifyInProgress rt s.

(** The loop of [js::WaitForAllDelazifyTasks]. *)
Fixpoint waitWhileAnyDelazifyTask (fuel k : nat) (rt : JSRuntime)
    (fs : FullState) : option FullState :=
  match fuel with
  | O => None
  | S fuel' =>
      if negb (HasAnyDelazifyTask rt (core fs)) then Some fs
      else waitWhileAnyDelazifyTask fuel' (S k) rt (interference k fs)
  end.

Definition WaitForAllDelazifyTasks (fuel : nat) (rt : JSRuntime)
    (fs : FullState) : option FullState :=
  if negb (isInitialized_ (core fs)) then Some fs
  else waitWhileAnyDelazifyTask fuel 0 rt fs.

(** *** Source compression tasks *)

(** [ClearCompressionTaskList(list, runtime)]: a loop of the shape of
    [sweep]. *)
Definition ClearCompressionTaskList (tasks : list SourceCompressionTask)
    (rt : JSRuntime) : list SourceCompressionTask :=
  sweep remove (fun task => compressionRuntimeMatches task rt)
    (length tasks) 0 tasks.

Definition compressionInProgress (rt : JSRuntime) (s : State) : bool :=
  existsb (fun helper =>
             match helper with
             | TaskCompression task => compressionRuntimeMatches task rt
             | _ => false
             end) (helperTasks_ s).

(** The wait loop of [js::CancelOffThreadCompressions]. *)
Fixpoint waitForCompressions (fuel k : nat) (rt : JSRuntime) (fs : FullState)
  : option FullState :=
  match fuel with
  | O => None
  | S fuel' =>
      if negb (compressionInProgress rt (core fs)) then Some fs
      else waitForCompressions fuel' (S k) rt (interference k fs)
  end.

(** [js::CancelOffThreadCompressions(runtime)]; [canUseExtraThreads] is the
    value of [CanUseExtraThreads()]. *)
Definition CancelOffThreadCompressions (canUseExtraThreads : bool)
    (fuel : nat) (rt : JSRuntime) (fs : FullState) : option FullState :=
  if negb canUseExtraThreads then Some fs
  else
    let fs1 :=
      set_compressionPendingList
        (ClearCompressionTaskList (compressionPendingList_ fs) rt) fs in
    let fs2 :=
      set_core
        (set_compressionWorklist
           (ClearCompressionTaskList (compressionWorklist_ (core fs1)) rt)
           (core fs1)) fs1 in
    match waitForCompressions fuel 0 rt fs2 with
    | None => None
    | Some fs3 =>
        Some (set_compressionFinishedList
                (ClearCompressionTaskList (compressionFinishedList_ fs3) rt)
                fs3)
    end.

(** The test in [startHandlingCompressionTasks] that decides whether a
    pending task is scheduled. *)
Definition compressionDue (schedule : ScheduleCompressionTask)
    (maybeRuntime : JSRuntime) (task : SourceCompressionTask) : bool :=
  match schedule with
  | API => true
  | GC => compressionRuntimeMatches task maybeRuntime && shouldStart task
  end.

(** The loop of [startHandlingCompressionTasks]; [grown task] is the outcome
    of the append when [task] is submitted.  Whether or not the submission
    succeeds, the task leaves the pending list.  [None] is an abort inside
    [dispatch]. *)
Fixpoint startHandlingCompressionTasks_from (fuel : nat)
    (schedule : ScheduleCompressionTask) (maybeRuntime : JSRuntime)
    (grown : SourceCompressionTask -> bool) (i : Z) (fs : FullState)
  : option FullState :=
  match fuel with
  | O => Some fs
  | S fuel' =>
      let pending := compressionPendingList_ fs in
      if i <? length_z pending then
        match nth_error pending (Z.to_nat i) with
        | None => Some fs
        | Some task =>
            if compressionDue schedule maybeRuntime task then
              match submitTask_compression (grown task) task (core fs) with
              | None => None
              | Some (_, core') =>
                  let '(pending', i') := remove _ pending i in
                  startHandlingCompressionTasks_from fuel' schedule
                    maybeRuntime grown (size_incr i')
                    (set_compressionPendingList pending' (set_core core' fs))
              end
            else
              startHandlingCompressionTasks_from fuel' schedule maybeRuntime
                grown (size_incr i) fs
        end
      else Some fs
  end.

Definition startHandlingCompressionTasks (schedule : ScheduleCompressionTask)
    (maybeRuntime : JSRuntime) (grown : SourceCompressionTask -> bool)
    (fs : FullState) : option FullState :=
  startHandlingCompressionTasks_from (length (compressionPendingList_ fs))
    schedule maybeRuntime grown 0 fs.

(** *** Tier-2 generators and the drain of everything *)

(** The loop that takes every queued tier-2 generator out of its worklist and
    deletes it. *)
Definition discardQueuedTier2Generators (fs : FullState) : FullState :=
  let worklist := wasmTier2GeneratorWorklist_ (core fs) in
  set_core
    (set_wasmTier2GeneratorWorklist
       (sweep remove (fun _ => true) (length worklist) 0 worklist)
       (core fs)) fs.

(** [while (wasmTier2GeneratorsFinished(lock) == oldFinishedCount) wait]. *)
Fixpoint waitForTier2GeneratorFinished (fuel k : nat) (oldFinishedCount : Z)
    (fs : FullState) : option FullState :=
  match fuel with
  | O => None
  | S fuel' =>
      if wasmTier2GeneratorsFinished_ fs =? oldFinishedCount
      then waitForTier2GeneratorFinished fuel' (S k) oldFinishedCount
             (interference k fs)
      else Some fs
  end.

Definition CancelOffThreadWasmTier2GeneratorLocked (fuel : nat)
    (fs : FullState) : option FullState :=
  if negb (isInitialized_ (core fs)) then Some fs
  else
    let fs1 := discardQueuedTier2Generators fs in
    match runningTier2Generator (helperTasks_ (core fs1)) with
    | None => Some fs1
    | Some generator =>
        waitForTier2GeneratorFinished fuel 0
          (wasmTier2GeneratorsFinished_ fs1)
          (set_tier2GeneratorCancelled
             (tier2GeneratorCancelled_ fs1 ++ [generator]) fs1)
    end.

(** [while (canStartTasks(lock) || tasksPending_ || hasActiveThreads(lock))
    wait(lock)]. *)
Fixpoint waitUntilQuiet (fuel k : nat) (fs : FullState) : Waited FullState :=
  match fuel with
  | O => StillWaiting
  | S fuel' =>
      match canStartTasks (core fs) with
      | None => Aborted
      | Some can =>
          if can || negb (tasksPending_ (core fs) =? 0)
             || hasActiveThreads (core fs)
          then waitUntilQuiet fuel' (S k) (interference k fs)
          else Returned fs
      end
  end.

End Drains.

(** What [js::CancelOffThreadCompressions] relies on while it waits: no
    compression of the runtime is pending or queued, and the finished list
    fits a [size_t] index. *)
Definition noCompressionQueued
    (compressionRuntimeMatches : SourceCompressionTask -> JSRuntime -> bool)
    (rt : JSRuntime) (fs : FullState) : Prop :=
  (forall task, In task (compressionPendingList_ fs) ->
                compressionRuntimeMatches task rt = false)
  /\ (forall task, In task (compressionWorklist_ (core fs)) ->
                   compressionRuntimeMatches task rt = false)
  /\ length_z (compressionFinishedList_ fs) < SIZE_MODULUS.

(** [waitForAllTasksLocked]: the tier-2 generators are cancelled, then the
    caller waits until nothing can start, no dispatch is pending and nothing
    runs.  The two loops have their own record of what other threads did. *)
Definition waitForAllTasksLocked
    (remove : forall A : Type, list A -> Z -> list A * Z)
    (interference1 interference2 : nat -> FullState -> FullState)
    (fuel1 fuel2 : nat) (fs : FullState) : Waited FullState :=
  match CancelOffThreadWasmTier2GeneratorLocked remove interference1 fuel1 fs
  with
  | None => StillWaiting
  | Some fs1 => waitUntilQuiet interference2 fuel2 0 fs1
  end.

(** [js::CancelOffThreadDelazify(runtime)]. *)
Definition CancelOffThreadDelazify
    (delazifyRuntimeMatchesOrNoRuntime : DelazifyTask -> JSRuntime -> bool)
    (interference1 interference2 : nat -> FullState -> FullState)
    (fuel1 fuel2 : nat) (rt : JSRuntime) (fs : FullState)
  : option FullState :=
  match WaitUntilCancelledDelazifyTasks delazifyRuntimeMatchesOrNoRuntime
          interference1 fuel1 rt fs with
  | None => None
  | Some fs1 => WaitUntilEmptyFreeDelazifyTaskVector interference2 fuel2 fs1
  end.

(** The loop at the end of [finish]: the Ion free tasks that are left are
    taken from the back and freed on this thread. *)
Fixpoint freeRemainingIonTasks (fuel : nat) (freeList : list IonFreeTask)
  : list IonFreeTask :=
  match fuel with
  | O => freeList
  | S fuel' =>
      match popBack freeList with
      | None => freeList
      | Some (_, rest) => freeRemainingIonTasks fuel' rest
      end
  end.

(** [finishThreads] followed by the rest of [finish]; shutting the internal
    pool down is outside the model. *)
Definition finish
    (remove : forall A : Type, list A -> Z -> list A * Z)
    (interference1 interference2 : nat -> FullState -> FullState)
    (fuel1 fuel2 : nat) (fs : FullState) : Waited FullState :=
  if negb (isInitialized_ (core fs)) then Returned fs
  else
    match waitForAllTasksLocked remove interference1 interference2
            fuel1 fuel2 fs with
    | Returned fs1 =>
        let fs2 := set_terminating true fs1 in
        let freeList := ionFreeList_ (core fs2) in
        Returned
          (set_core
             (set_ionFreeList
                (freeRemainingIonTasks (length freeList) freeList) (core fs2))
             fs2)
    | Aborted => Aborted
    | StillWaiting => StillWaiting
    end.

(** [JS::RunHelperThreadTask()], the entry point of the external pool, on a
    coordinator that exists: once the coordinator is terminating the call
    returns without touching a task. *)
Definition RunHelperThreadTask (run : State -> State) (fs : FullState)
  : option FullState :=
  if terminating_ fs then Some fs
  else
    match runOneTask run (core fs) with
    | None => None
    | Some s => Some (set_core s fs)
    end.

(** *** Parse tokens *)

(** [task == t] on parse tasks. *)
Definition ParseTask_eqb (a b : ParseTask) : bool :=
  HelperThreadTask_eqb (TaskParse a) (TaskParse b).

(** [task->remove()] on the finished list: the node of the task is
    unlinked. *)
Fixpoint unlinkParseTask (task : ParseTask) (finished : list ParseTask)
  : list ParseTask :=
  match finished with
  | [] => []
  | t :: rest =>
      if ParseTask_eqb t task then rest else t :: unlinkParseTask task rest
  end.

(** [removeFinishedParseTask(cx, token)]; [None] is the failure of
    [MOZ_RELEASE_ASSERT(task->runtime == cx->runtime())]. *)
Definition removeFinishedParseTask (cxRuntime : JSRuntime) (task : ParseTask)
    (fs : FullState) : option (ParseTask * FullState) :=
  if Nat.eqb (parse_runtime task) cxRuntime
  then Some (task,
             set_parseFinishedList
               (unlinkParseTask task (parseFinishedList_ fs)) fs)
  else None.

Section ParseTokens.

Variable remove : forall A : Type, list A -> Z -> list A * Z.
Variable interference : nat -> FullState -> FullState.

(** The first loop of [cancelParseTask]: the worklist once the task was found
    and removed, or [None] when the task is not queued. *)
Fixpoint cancelQueuedParseTask (fuel : nat) (task : ParseTask) (i : Z)
    (worklist : list ParseTask) : option (list ParseTask) :=
  match fuel with
  | O => None
  | S fuel' =>
      if i <? length_z worklist then
        match nth_error worklist (Z.to_nat i) with
        | None => None
        | Some queued =>
            if ParseTask_eqb task queued
            then Some (fst (remove _ worklist i))
            else cancelQueuedParseTask fuel' task (size_incr i) worklist
        end
      else None
  end.

Definition parseTaskRuns (task : ParseTask) (s : State) : bool :=
  existsb (fun helper =>
             match helper with
             | TaskParse t => ParseTask_eqb t task
             | _ => false
             end) (helperTasks_ s).

(** The second loop: wait while the task is running. *)
Fixpoint waitWhileParseTaskRuns (fuel k : nat) (task : ParseTask)
    (fs : FullState) : option FullState :=
  match fuel with
  | O => None
  | S fuel' =>
      if parseTaskRuns task (core fs)
      then waitWhileParseTaskRuns fuel' (S k) task (interference k fs)
      else Some fs
  end.

(** [cancelParseTask(rt, token)]. *)
Definition cancelParseTask (fuel : nat) (task : ParseTask) (fs : FullState)
  : option FullState :=
  let worklist := parseWorklist_ (core fs) in
  match cancelQueuedParseTask (length worklist) task 0 worklist with
  | Some worklist' =>
      Some (set_core (set_parseWorklist worklist' (core fs)) fs)
  | None =>
      match waitWhileParseTaskRuns fuel 0 task fs with
      | None => None
      | Some fs1 =>
          Some (set_parseFinishedList
                  (unlinkParseTask task (parseFinishedList_ fs1)) fs1)
      end
  end.

End ParseTokens.

(** What [cancelParseTask] relies on while it waits for a running task: the
    task is not queued again, and the finished list links each task once. *)
Definition parseTokenSettled (task : ParseTask) (fs : FullState) : Prop :=
  ~ In task (parseWorklist_ (core fs)) /\ NoDup (parseFinishedList_ fs).

(** [StartOffThreadParseTask]: [inited] is the outcome of [task->init] and
    [grown] that of the append in [QueueOffThreadParseTask].  The token that
    is returned is the task itself; [None] is the null token. *)
Definition StartOffThreadParseTask (inited grown : bool) (task : ParseTask)
    (s : State) : option (option ParseTask * State) :=
  if negb inited then Some (None, s)
  else
    match submitTask_parse grown task s with
    | None => None
    | Some (true, s') => Some (Some task, s')
    | Some (false, s') => Some (None, s')
    end.

(** *** Results of source compressions *)

Section CompressionResults.

Variable remove : forall A : Type, list A -> Z -> list A * Z.
Variable compressionRuntimeMatches : SourceCompressionTask -> JSRuntime -> bool.
Variable interference : nat -> FullState -> FullState.

(** The loop of [js::AttachFinishedCompressions]: a finished task of the
    runtime is taken out of the list and completed.  The result is the list
    that is left and the tasks that were completed, in the order of their
    completion. *)
Fixpoint attachFinished_from (fuel : nat) (rt : JSRuntime) (i : Z)
    (finished completed : list SourceCompressionTask)
  : list SourceCompressionTask * list SourceCompressionTask :=
  match fuel with
  | O => (finished, completed)
  | S fuel' =>
      if i <? length_z finished then
        match nth_error finished (Z.to_nat i) with
        | None => (finished, completed)
        | Some task =>
            if compressionRuntimeMatches task rt then
              let '(finished', i') := remove _ finished i in
              attachFinished_from fuel' rt (size_incr i') finished'
                (completed ++ [task])
            else attachFinished_from fuel' rt (size_incr i) finished completed
        end
      else (finished, completed)
  end.

Definition AttachFinishedCompressions (rt : JSRuntime) (fs : FullState)
  : FullState * list SourceCompressionTask :=
  let '(finished, completed) :=
    attachFinished_from (length (compressionFinishedList_ fs)) rt 0
      (compressionFinishedList_ fs) [] in
  (set_compressionFinishedList finished fs, completed).

(** [while (!compressionWorklist(lock).empty()) wait(lock)]. *)
Fixpoint waitUntilCompressionsStarted (fuel k : nat) (fs : FullState)
  : option FullState :=
  match fuel with
  | O => None
  | S fuel' =>
      if negb (empty (compressionWorklist_ (core fs)))
      then waitUntilCompressionsStarted fuel' (S k) (interference k fs)
      else Some fs
  end.

End CompressionResults.

(** The null pointer as a runtime; the [API] schedule never looks at it. *)
Definition nullRuntime : JSRuntime := 0%nat.

(** [js::RunPendingSourceCompressions(runtime)]: everything pending is
    scheduled, the caller waits until the worklist is empty and then until
    the pool is drained, and the finished compressions of the runtime are
    completed.  Each wait has its own record of what other threads did. *)
Definition RunPendingSourceCompressions
    (remove : forall A : Type, list A -> Z -> list A * Z)
    (compressionRuntimeMatches : SourceCompressionTask -> JSRuntime -> bool)
    (shouldStart : SourceCompressionTask -> bool)
    (grown : SourceCompressionTask -> bool)
    (interference1 interference2 interference3
       : nat -> FullState -> FullState)
    (canUseExtraThreads : bool) (fuel1 fuel2 fuel3 : nat) (rt : JSRuntime)
    (fs : FullState) : Waited (FullState * list SourceCompressionTask) :=
  if negb canUseExtraThreads then Returned (fs, [])
  else
    match startHandlingCompressionTasks remove compressionRuntimeMatches
            shouldStart API nullRuntime grown fs with
    | None => Aborted
    | Some fs1 =>
        match waitUntilCompressionsStarted interference1 fuel1 0 fs1 with
        | None => StillWaiting
        | Some fs2 =>
            match waitForAllTasksLocked remove interference2 interference3
                    fuel2 fuel3 fs2 with
            | Returned fs3 =>
                Returned
                  (AttachFinishedCompressions remove compressionRuntimeMatches
                     rt fs3)
            | Aborted => Aborted
            | StillWaiting => StillWaiting
            end
        end
    end.

(** ** Example states *)

(** An initialized coordinator over an external pool of [threads] threads on
    an eight-core machine, with nothing queued and nothing running. *)
Definition idleState (threads : Z) : State :=
  startup 8 (ExternalPool threads).

Definition parseA : ParseTask := mkParseTask 1%nat 0%nat.
Definition parseB : ParseTask := mkParseTask 2%nat 0%nat.

(** Two threads, [parseA] running, [parseB] queued. *)
Definition oneParseRunning : State :=
  set_parseWorklist [parseB]
    (runTaskLocked_enter (TaskParse parseA) (idleState 2)).

Definition gcA : GCParallelTask := mkGCParallelTask 3%nat.

(** Four idle threads, one GC-parallel task and one parse task queued. *)
Definition gcAndParseQueued : State :=
  set_gcParallelWorklist [gcA] (set_parseWorklist [parseA] (idleState 4)).

Definition delazifyA : DelazifyTask := mkDelazifyTask 4%nat (Some 0%nat).

(** Two threads, [parseA] running, a delazify task queued. *)
Definition delazifyQueuedBehindParse : State :=
  set_delazifyWorklist [delazifyA]
    (runTaskLocked_enter (TaskParse parseA) (idleState 2)).

Definition freeDelazifyA : FreeDelazifyTask :=
  mkFreeDelazifyTask 5%nat delazifyA.

(** Two threads, [parseA] running, a free-delazify task queued. *)
Definition freeDelazifyQueuedBehindParse : State :=
  set_freeDelazifyTaskVector [freeDelazifyA]
    (runTaskLocked_enter (TaskParse parseA) (idleState 2)).

(** Four idle threads after [parseA], and then [parseB], were submitted. *)
Definition parseAQueued : State :=
  set_tasksPending 1 (set_parseWorklist [parseA] (idleState 4)).

Definition parseABQueued : State :=
  set_tasksPending 2 (set_parseWorklist [parseA; parseB] parseAQueued).

Definition delazifyB : DelazifyTask := mkDelazifyTask 6%nat None.

(** Four idle threads after [delazifyA], and then [delazifyB], were
    submitted. *)
Definition delazifyAQueued : State :=
  set_tasksPending 1 (set_delazifyWorklist [delazifyA] (idleState 4)).

Definition delazifyABQueued : State :=
  set_tasksPending 2
    (set_delazifyWorklist [delazifyA; delazifyB] delazifyAQueued).

Definition wasmT1 : WasmCompileTask := mkWasmCompileTask 7%nat Tier1.
Definition wasmT2 : WasmCompileTask := mkWasmCompileTask 8%nat Tier2.

(** Four idle threads, one compilation queued per tier, and twenty-one tier-2
    generator tasks behind them. *)
Definition tier2Backlogged : State :=
  set_wasmTier2GeneratorWorklist (map mkTier2GeneratorTask (seq 100 21))
    (set_wasmWorklist_tier2 [wasmT2]
       (set_wasmWorklist_tier1 [wasmT1] (idleState 4))).

Definition compressA : SourceCompressionTask :=
  mkSourceCompressionTask 9%nat 0%nat.
Definition compressB : SourceCompressionTask :=
  mkSourceCompressionTask 10%nat 0%nat.

(** An external pool of a single thread: [compressA] is queued, then taken by
    the worker, then [compressB] is queued behind it. *)
Definition compressAQueued : State :=
  set_compressionWorklist [compressA] (idleState 1).

Definition compressARunning : State :=
  runTaskLocked_enter (TaskCompression compressA)
    (set_compressionWorklist [] compressAQueued).

Definition compressBQueuedBehindA : State :=
  set_compressionWorklist [compressB] compressARunning.

(** Two threads, [compressA] running, [compressB] queued. *)
Definition compressBQueuedTwoThreads : State :=
  set_compressionWorklist [compressB]
    (runTaskLocked_enter (TaskCompression compressA) (idleState 2)).

(** Ion compilations for scripts of runtime 0 ([ionA], [ionC], [ionD],
    [ionE]) and of runtime 1 ([ionB]). *)
Definition zone0 : Zone := mkZone 20%nat 0%nat 0%nat.
Definition zone1 : Zone := mkZone 21%nat 1%nat 0%nat.
Definition ionA : IonCompileTask :=
  mkIonCompileTask 30%nat (mkScript 40%nat zone0 10 100) true.
Definition ionB : IonCompileTask :=
  mkIonCompileTask 31%nat (mkScript 41%nat zone1 10 100) true.
Definition ionC : IonCompileTask :=
  mkIonCompileTask 32%nat (mkScript 42%nat zone0 10 100) true.
Definition ionD : IonCompileTask :=
  mkIonCompileTask 33%nat (mkScript 43%nat zone0 10 100) true.
Definition ionE : IonCompileTask :=
  mkIonCompileTask 34%nat (mkScript 44%nat zone0 10 100) true.

(** Four threads; [ionA] and [ionB] queued, [ionC] running, [ionD] finished,
    [ionE] waiting to be linked in runtime 0. *)
Definition ionBusy : State :=
  set_ionWorklist [ionA; ionB]
    (set_ionFinishedList [ionD]
       (set_numFinishedOffThreadTasks
          (fun rt => if Nat.eqb rt 0 then 1 else 0)
          (set_ionLazyLinkList (fun rt => if Nat.eqb rt 0 then [ionE] else [])
             (runTaskLocked_enter (TaskIonCompile ionC) (idleState 4))))).

(** A worker completes the Ion compilation it runs: the task goes to the
    finished list and leaves the registry. *)
Definition retireIon (s : State) (task : IonCompileTask) : State :=
  runTaskLocked_leave (TaskIonCompile task) THREAD_TYPE_ION
    (FinishOffThreadIonCompile task s).

(** What the workers do while the canceller waits, in the example: every
    running Ion compilation completes (as long as the finished list can still
    grow). *)
Definition retireRunningIon (s : State) : State :=
  let done :=
    flat_map (fun helper => match helper with
                            | TaskIonCompile t => [t]
                            | _ => []
                            end) (helperTasks_ s) in
  if length_z (ionFinishedList_ s ++ done) <? SIZE_MODULUS
  then fold_left retireIon done s
  else s.

(** [ionBusy] after the runtime-0 compilations were cancelled, with two
    rounds of waiting allowed. *)
Definition ionCancelled : State :=
  match CancelOffThreadIonCompileLocked swapRemove unlinkTask
          (fun _ => retireRunningIon) 2 (SelectRuntime 0%nat) ionBusy with
  | Some s => s
  | None => ionBusy
  end.

(** [ionBusy] after the compilations of [zone0] were cancelled. *)
Definition ionZoneCancelled : State :=
  match CancelOffThreadIonCompileLocked swapRemove unlinkTask
          (fun _ => retireRunningIon) 2 (SelectZone zone0) ionBusy with
  | Some s => s
  | None => ionBusy
  end.

Definition wasmT1b : WasmCompileTask := mkWasmCompileTask 11%nat Tier1.

(** Four idle threads after [wasmT1], and then [wasmT1b], were submitted for
    tier 1. *)
Definition wasmAQueued : State :=
  set_tasksPending 1 (set_wasmWorklist_tier1 [wasmT1] (idleState 4)).

Definition wasmABQueued : State :=
  set_tasksPending 2 (set_wasmWorklist_tier1 [wasmT1; wasmT1b] wasmAQueued).

(** The runtime tests of the tasks as the examples use them: a task
    records its runtime, and a delazify task may have none. *)
Definition sameParseRuntime (task : ParseTask) (rt : JSRuntime) : bool :=
  Nat.eqb (parse_runtime task) rt.

Definition sameRuntimeOrNone (task : DelazifyTask) (rt : JSRuntime) : bool :=
  match delazify_maybeRuntime task with
  | None => true
  | Some runtime => Nat.eqb runtime rt
  end.

Definition sameCompressionRuntime (task : SourceCompressionTask)
    (rt : JSRuntime) : bool :=
  Nat.eqb (compress_runtime task) rt.

(** A coordinator whose other lists are empty. *)
Definition fullState (s : State) : FullState := mkFull s [] [] [] 0 false [].

(** What the workers do while a caller waits, in the examples: every running
    task completes; a parse or compression task goes to its finished list
    and a tier-2 generator is counted as finished. *)
Definition retireTask (fs : FullState) (task : HelperThreadTask) : FullState :=
  let fs1 :=
    set_core (runTaskLocked_leave task (threadType task) (core fs)) fs in
  match task with
  | TaskParse t => ParseTask_runHelperThreadTask t fs1
  | TaskCompression t =>
      set_compressionFinishedList (compressionFinishedList_ fs1 ++ [t]) fs1
  | TaskTier2Generator _ =>
      set_wasmTier2GeneratorsFinished (wasmTier2GeneratorsFinished_ fs1 + 1)
        fs1
  | _ => fs1
  end.

Definition workersFinish (fs : FullState) : FullState :=
  fold_left retireTask (helperTasks_ (core fs)) fs.

Definition generatorA : Tier2GeneratorTask := mkTier2GeneratorTask 11%nat.
Definition generatorB : Tier2GeneratorTask := mkTier2GeneratorTask 12%nat.

(** Two threads, [parseA] running, a tier-2 generator queued. *)
Definition busyBeforeDrain : FullState :=
  fullState
    (runTaskLocked_enter (TaskParse parseA)
       (set_wasmTier2GeneratorWorklist [generatorA] (idleState 2))).

(** The same pool once the drain is over: the queued generator was
    discarded and the workers finished [parseA] during the one wait. *)
Definition drained : FullState :=
  match waitForAllTasksLocked swapRemove (fun _ fs => fs)
          (fun _ => workersFinish) 0 2 busyBeforeDrain with
  | Returned fs => fs
  | _ => busyBeforeDrain
  end.

(** An external pool of one thread with a parse task queued. *)
Definition parseQueuedOneThread : FullState :=
  fullState (set_parseWorklist [parseA] (idleState 1)).

Definition parseC : ParseTask := mkParseTask 13%nat 1%nat.

(** Two threads, [parseA] of runtime 0 running; [parseB] of runtime 0 and
    [parseC] of runtime 1 are finished and not yet collected. *)
Definition parsesBeforeCancel : FullState :=
  set_parseFinishedList [parseB; parseC]
    (fullState (runTaskLocked_enter (TaskParse parseA) (idleState 2))).

(** The same pool once the wait for the parses of runtime 0 is over. *)
Definition parsesWaited : FullState :=
  match WaitForOffThreadParses sameParseRuntime (fun _ => workersFinish) 2
          0%nat parsesBeforeCancel with
  | Some fs => fs
  | None => parsesBeforeCancel
  end.

Definition delazifyC : DelazifyTask := mkDelazifyTask 14%nat (Some 1%nat).

(** What the workers do while a caller waits, in the delazification example:
    every running delazify task is interrupted before it is done and puts
    itself back on the worklist. *)
Definition requeueTask (fs : FullState) (task : HelperThreadTask)
  : FullState :=
  match task with
  | TaskDelazify t =>
      match DelazifyTask_runHelperThreadTask false None true t (core fs) with
      | Some s =>
          set_core (runTaskLocked_leave task THREAD_TYPE_DELAZIFY s) fs
      | None => fs
      end
  | _ => fs
  end.

Definition workersRequeue (fs : FullState) : FullState :=
  fold_left requeueTask (helperTasks_ (core fs)) fs.

(** Two threads, [delazifyA] of runtime 0 running; [delazifyB] without a
    runtime and [delazifyC] of runtime 1 queued. *)
Definition delazifyBeforeCancel : FullState :=
  fullState
    (runTaskLocked_enter (TaskDelazify delazifyA)
       (set_delazifyWorklist [delazifyB; delazifyC] (idleState 2))).

(** The same pool once the delazifications of runtime 0 are cancelled. *)
Definition delazifyCancelled : FullState :=
  match WaitUntilCancelledDelazifyTasks sameRuntimeOrNone
          (fun _ => workersRequeue) 2 0%nat delazifyBeforeCancel with
  | Some fs => fs
  | None => delazifyBeforeCancel
  end.

Definition delazifyD : DelazifyTask := mkDelazifyTask 15%nat (Some 0%nat).
Definition freeDelazifyD : FreeDelazifyTask :=
  mkFreeDelazifyTask 17%nat delazifyD.

(** What the workers do during a wait, in the second delazification example:
    they take and run every queued free-delazify task. *)
Definition workersFree (fs : FullState) : FullState :=
  set_core (set_freeDelazifyTaskVector [] (core fs)) fs.

(** As [delazifyBeforeCancel], with a free-delazify task queued as well. *)
Definition delazifyAndFreeBeforeCancel : FullState :=
  set_core
    (set_freeDelazifyTaskVector [freeDelazifyD] (core delazifyBeforeCancel))
    delazifyBeforeCancel.

Definition delazifyAndFreeWaited : FullState :=
  match WaitUntilCancelledDelazifyTasks sameRuntimeOrNone
          (fun _ => workersRequeue) 2 0%nat delazifyAndFreeBeforeCancel with
  | Some fs => fs
  | None => delazifyAndFreeBeforeCancel
  end.

Definition delazifyAndFreeCancelled : FullState :=
  match CancelOffThreadDelazify sameRuntimeOrNone (fun _ => workersRequeue)
          (fun _ => workersFree) 2 2 0%nat delazifyAndFreeBeforeCancel with
  | Some fs => fs
  | None => delazifyAndFreeBeforeCancel
  end.

Definition compressC : SourceCompressionTask :=
  mkSourceCompressionTask 16%nat 1%nat.

(** Four idle threads; [compressA] and [compressB] of runtime 0 and
    [compressC] of runtime 1 wait to be scheduled. *)
Definition compressionsPending : FullState :=
  set_compressionPendingList [compressA; compressC; compressB]
    (fullState (idleState 4)).

(** In the example the append fails for [compressB]. *)
Definition appendFailsForB (task : SourceCompressionTask) : bool :=
  negb (Nat.eqb (compress_addr task) 10).

(** The same pool after a GC of runtime 0 has scheduled its compressions. *)
Definition compressionsStarted : FullState :=
  match startHandlingCompressionTasks swapRemove sameCompressionRuntime
          (fun _ => true) GC 0%nat appendFailsForB compressionsPending with
  | Some fs => fs
  | None => compressionsPending
  end.

(** Two threads, [compressA] of runtime 0 running; [compressB] of runtime 0
    pending, [compressC] of runtime 1 queued. *)
Definition compressionsBeforeCancel : FullState :=
  set_compressionPendingList [compressB]
    (fullState
       (runTaskLocked_enter (TaskCompression compressA)
          (set_compressionWorklist [compressC] (idleState 2)))).

(** The workers of the compression example finish what runs as long as the
    finished list can still grow. *)
Definition workersFinishCompressions (fs : FullState) : FullState :=
  let done :=
    flat_map (fun helper => match helper with
                            | TaskCompression t => [t]
                            | _ => []
                            end) (helperTasks_ (core fs)) in
  if length_z (compressionFinishedList_ fs ++ done) <? SIZE_MODULUS
  then workersFinish fs
  else fs.

Definition compressionsCancelled : FullState :=
  match CancelOffThreadCompressions swapRemove sameCompressionRuntime
          (fun _ => workersFinishCompressions) true 2 0%nat
          compressionsBeforeCancel with
  | Some fs => fs
  | None => compressionsBeforeCancel
  end.

(** Two threads, [generatorB] running and [generatorA] queued. *)
Definition generatorBusy : FullState :=
  fullState
    (runTaskLocked_enter (TaskTier2Generator generatorB)
       (set_wasmTier2GeneratorWorklist [generatorA] (idleState 2))).

Definition generatorCancelled : FullState :=
  match CancelOffThreadWasmTier2GeneratorLocked swapRemove
          (fun _ => workersFinish) 2 generatorBusy with
  | Some fs => fs
  | None => generatorBusy
  end.

(** Two threads, [parseA] running and [parseB] queued, [parseC] finished. *)
Definition tokensInFlight : FullState :=
  set_parseFinishedList [parseC] (fullState oneParseRunning).

(** What the workers do while a token is cancelled, in the example: the task
    of the token, if it is not finished yet, completes and goes to the
    finished list. *)
Definition finishParseTask (task : ParseTask) (fs : FullState) : FullState :=
  if existsb (ParseTask_eqb task) (parseFinishedList_ fs) then fs
  else
    let fs1 := ParseTask_runHelperThreadTask task fs in
    set_core (runTaskLocked_leave (TaskParse task) THREAD_TYPE_PARSE (core fs1))
      fs1.

(** The same pool after the token of the running [parseA] was cancelled. *)
Definition runningTokenCancelled : FullState :=
  match cancelParseTask swapRemove (fun _ => finishParseTask parseA) 2 parseA
          tokensInFlight with
  | Some fs => fs
  | None => tokensInFlight
  end.

(** What the workers do during the first wait of the compression example:
    they take every pending dispatch, run every queued compression and put
    it on the finished list. *)
Definition workersCompress (fs : FullState) : FullState :=
  set_compressionFinishedList
    (compressionFinishedList_ fs ++ compressionWorklist_ (core fs))
    (set_core
       (set_tasksPending 0 (set_compressionWorklist [] (core fs))) fs).

(** [compressionsPending] after [js::RunPendingSourceCompressions] for
    runtime 0, and the compressions it completed. *)
Definition compressionsRun : FullState * list SourceCompressionTask :=
  match RunPendingSourceCompressions swapRemove sameCompressionRuntime
          (fun _ => true) (fun _ => true) (fun _ => workersCompress)
          (fun _ fs => fs) (fun _ fs => fs) true 2 1 1 0%nat
          compressionsPending with
  | Returned result => result
  | _ => (compressionsPending, [])
  end.

(** The stages of that run: after the scheduling, after the wait for the
    worklist, and after the drain. *)
Definition compressionsScheduled : FullState :=
  match startHandlingCompressionTasks swapRemove sameCompressionRuntime
          (fun _ => true) API nullRuntime (fun _ => true)
          compressionsPending with
  | Some fs => fs
  | None => compressionsPending
  end.

Definition compressionsAllStarted : FullState :=
  match waitUntilCompressionsStarted (fun _ => workersCompress) 2 0
          compressionsScheduled with
  | Some fs => fs
  | None => compressionsScheduled
  end.

Definition compressionsDrained : FullState :=
  match waitForAllTasksLocked swapRemove (fun _ fs => fs) (fun _ fs => fs)
          1 1 compressionsAllStarted with
  | Returned fs => fs
  | _ => compressionsAllStarted
  end.

(** [delazifyABQueued] after a worker took [delazifyA] and the task stopped
    before it was done: the state when [runHelperThreadTask] returns. *)
Definition delazifyAInterrupted : State :=
  match DelazifyTask_runHelperThreadTask false None true delazifyA
          (runTaskLocked_enter (TaskDelazify delazifyA)
             (set_delazifyWorklist [delazifyB] delazifyABQueued)) with
  | Some s => s
  | None => delazifyABQueued
  end.

Definition wasmT2a : WasmCompileTask := mkWasmCompileTask 50%nat Tier2.
Definition wasmT2b : WasmCompileTask := mkWasmCompileTask 51%nat Tier2.
Definition wasmT2c : WasmCompileTask := mkWasmCompileTask 52%nat Tier2.
Definition wasmT2d : WasmCompileTask := mkWasmCompileTask 53%nat Tier2.

(** An external pool of three threads on eight CPUs: four tier-2
    compilations are queued, and the three workers take one each. *)
Definition tier2Queued : State :=
  set_wasmWorklist_tier2 [wasmT2a; wasmT2b; wasmT2c; wasmT2d] (idleState 3).

Definition tier2OneRunning : State :=
  runTaskLocked_enter (TaskWasmCompile wasmT2a)
    (set_wasmWorklist_tier2 [wasmT2b; wasmT2c; wasmT2d] tier2Queued).

Definition tier2TwoRunning : State :=
  runTaskLocked_enter (TaskWasmCompile wasmT2b)
    (set_wasmWorklist_tier2 [wasmT2c; wasmT2d] tier2OneRunning).

Definition tier2AllThreadsBusy : State :=
  runTaskLocked_enter (TaskWasmCompile wasmT2c)
    (set_wasmWorklist_tier2 [wasmT2d] tier2TwoRunning).

(** Four threads on eight CPUs: three tier-2 compilations are running and
    one is queued. *)
Definition tier2BudgetReached : State :=
  set_wasmWorklist_tier2 [wasmT2d]
    (runTaskLocked_enter (TaskWasmCompile wasmT2c)
       (runTaskLocked_enter (TaskWasmCompile wasmT2b)
          (runTaskLocked_enter (TaskWasmCompile wasmT2a) (idleState 4)))).

(** An Ion compilation whose main thread is not running JS. *)
Definition ionIdle : IonCompileTask :=
  mkIonCompileTask 35%nat (mkScript 45%nat zone0 10 100) false.

(** Four idle threads after [ionIdle] was submitted, and then [wasmT1]. *)
Definition ionIdleQueued : State :=
  set_tasksPending 1 (set_ionWorklist [ionIdle] (idleState 4)).

Definition ionIdleAndWasmQueued : State :=
  set_tasksPending 2 (set_wasmWorklist_tier1 [wasmT1] ionIdleQueued).

(** Four idle threads after [parseA], [parseB] and [parseC] were submitted,
    and that state after the token of [parseA] was cancelled. *)
Definition parseABCQueued : State :=
  set_tasksPending 3 (set_parseWorklist [parseA; parseB; parseC] parseABQueued).

Definition parseACancelled : FullState :=
  match cancelParseTask swapRemove (fun _ fs => fs) 0 parseA
          (fullState parseABCQueued) with
  | Some fs => fs
  | None => fullState parseABCQueued
  end.

Definition gcB : GCParallelTask := mkGCParallelTask 60%nat.
Definition freeDelazifyB : FreeDelazifyTask :=
  mkFreeDelazifyTask 61%nat delazifyB.
Definition ionFreeA : IonFreeTask := mkIonFreeTask 62%nat ionA.
Definition ionFreeB : IonFreeTask := mkIonFreeTask 63%nat ionB.

(** Four idle threads after two submissions to one worklist, for the
    compression, free-delazify, JIT-free and GC-parallel kinds. *)
Definition compressAPending : State :=
  set_tasksPending 1 (set_compressionWorklist [compressA] (idleState 4)).

Definition compressABPending : State :=
  set_tasksPending 2
    (set_compressionWorklist [compressA; compressB] compressAPending).

Definition freeDelazifyAPending : State :=
  set_tasksPending 1
    (set_freeDelazifyTaskVector [freeDelazifyA] (idleState 4)).

Definition freeDelazifyABPending : State :=
  set_tasksPending 2
    (set_freeDelazifyTaskVector [freeDelazifyA; freeDelazifyB]
       freeDelazifyAPending).

Definition ionFreeAPending : State :=
  set_tasksPending 1 (set_ionFreeList [ionFreeA] (idleState 4)).

Definition ionFreeABPending : State :=
  set_tasksPending 2 (set_ionFreeList [ionFreeA; ionFreeB] ionFreeAPending).

Definition gcAPending : State :=
  set_tasksPending 1 (set_gcParallelWorklist [gcA] (idleState 4)).

Definition gcABPending : State :=
  set_tasksPending 2 (set_gcParallelWorklist [gcA; gcB] gcAPending).

(* ================================================================= *)
(** * Properties *)

(** ** Machine integers *)

Lemma wrap_small : forall z, in_size_t z -> wrap z = z.
Proof. intros z H. unfold wrap. apply Z.mod_small. exact H. Qed.

Lemma wrap_range : forall z, in_size_t (wrap z).
Proof.
  intro z. unfold in_size_t, wrap, SIZE_MODULUS.
  apply Z.mod_pos_bound. reflexivity.
Qed.

Lemma SIZE_MODULUS_value : SIZE_MODULUS = 18446744073709551616.
Proof. reflexivity. Qed.

(** ** Thread-count clamp *)

(** C8.  For every probed CPU count, the constructor sets the CPU count to
    [min probed 8] and the worker thread count to [max (min probed 8) 2]: a
    probe above the ceiling gives exactly 8 threads, a probe below the minimum
    gives exactly 2, and the count always lies between 2 and 8. *)
Theorem thread_count_clamp : forall probed : Z,
  let s := GlobalHelperThreadState_new probed in
  cpuCount s = Z.min probed 8
  /\ threadCount s = Z.max (Z.min probed 8) 2
  /\ 2 <= threadCount s <= 8
  /\ (8 < probed -> threadCount s = 8)
  /\ (probed < 2 -> threadCount s = 2).
Proof.
  intro probed. cbn -[Z.min Z.max].
  unfold ThreadCountForCPUCount, ClampDefaultCPUCount.
  repeat split; intros; lia.
Qed.

Lemma thread_count_clamp_witness :
  threadCount (GlobalHelperThreadState_new 64) = 8
  /\ threadCount (GlobalHelperThreadState_new 1) = 2.
Proof.
  split.
  - apply (proj1 (proj2 (proj2 (proj2 (thread_count_clamp 64))))). lia.
  - apply (proj2 (proj2 (proj2 (proj2 (thread_count_clamp 1))))). lia.
Defined.

(** ** Master-task deadlock rule *)

Lemma checkTaskThreadLimit_master_last_idle : forall s ty maxThreads,
  size_sub (threadCount s) (totalCountRunningTasks s) <= 1 ->
  checkTaskThreadLimit s ty maxThreads true = false.
Proof.
  intros s ty maxThreads Hidle. unfold checkTaskThreadLimit. cbn [negb andb].
  destruct (maxThreads <=? runningTaskCount s ty); [reflexivity|].
  pose proof (wrap_range (threadCount s - totalCountRunningTasks s)) as Hr.
  unfold size_sub in *. unfold in_size_t in Hr.
  destruct (Z.eqb_spec (wrap (threadCount s - totalCountRunningTasks s)) 0);
    [reflexivity|].
  destruct (Z.eqb_spec (wrap (threadCount s - totalCountRunningTasks s)) 1);
    [reflexivity|lia].
Qed.

Lemma masterAdmissions_limit : forall canStart,
  In canStart masterAdmissions ->
  forall s, canStart s = true ->
  exists ty maxThreads, checkTaskThreadLimit s ty maxThreads true = true.
Proof.
  intros canStart Hin s Hs. simpl in Hin.
  repeat (destruct Hin as [<- | Hin]);
    try contradiction;
    apply andb_prop in Hs; destruct Hs as [_ Hs]; eauto.
Qed.

(** C1.  A master-kind admission predicate (tier-2 generator, promise helper,
    parse, delazify, free-delazify) returns false whenever at most one worker
    is idle; in particular it does so when there are two threads and the
    registry, with its bookkeeping in step, holds a running task. *)
Theorem master_task_never_takes_last_idle_thread :
  forall (s : State) (canStart : State -> bool),
  In canStart masterAdmissions ->
  0 <= threadCount s - totalCountRunningTasks s <= 1
  \/ (consistent s /\ threadCount s = 2 /\ helperTasks_ s <> []) ->
  canStart s = false.
Proof.
  intros s canStart Hin Hidle.
  assert (Hle : 0 <= threadCount s - totalCountRunningTasks s <= 1).
  { destruct Hidle as [H | (Hc & H2 & Hne)]; [exact H|].
    destruct Hc as [Htot _ _ _ Hroom].
    destruct (helperTasks_ s) as [|t l]; [congruence|].
    cbn [length] in *. lia. }
  destruct (canStart s) eqn:E; [|reflexivity].
  destruct (masterAdmissions_limit _ Hin _ E) as (ty & m & Hlim).
  rewrite checkTaskThreadLimit_master_last_idle in Hlim; [discriminate|].
  unfold size_sub. rewrite wrap_small; [lia|].
  unfold in_size_t. rewrite SIZE_MODULUS_value. lia.
Qed.

Lemma oneParseRunning_consistent : consistent oneParseRunning.
Proof.
  constructor.
  - reflexivity.
  - intro ty. destruct ty; reflexivity.
  - vm_compute. repeat constructor. intros [].
  - vm_compute. split; [discriminate | reflexivity].
  - vm_compute. discriminate.
Qed.

Lemma master_task_never_takes_last_idle_thread_witness :
  (consistent oneParseRunning
   /\ threadCount oneParseRunning = 2
   /\ helperTasks_ oneParseRunning <> [])
  /\ canStartParseTask oneParseRunning = false.
Proof.
  assert (H : consistent oneParseRunning
              /\ threadCount oneParseRunning = 2
              /\ helperTasks_ oneParseRunning <> []).
  { split; [exact oneParseRunning_consistent|].
    split; [reflexivity | discriminate]. }
  split; [exact H|].
  apply (master_task_never_takes_last_idle_thread
           oneParseRunning canStartParseTask).
  - simpl. tauto.
  - right. exact H.
Defined.

(** ** Priority order of selection *)

Lemma firstSelected_first_hit : forall table s i selector hit,
  nth_error table i = Some selector ->
  selector s = Some (Some hit) ->
  (forall j selector', (j < i)%nat -> nth_error table j = Some selector' ->
                       selector' s = Some None) ->
  firstSelected table s = Some (Some hit).
Proof.
  induction table as [|sel0 table IH]; intros s i selector hit Hnth Hhit Hbefore.
  - destruct i; discriminate.
  - destruct i as [|i]; cbn [nth_error firstSelected] in *.
    + injection Hnth as ->. rewrite Hhit. reflexivity.
    + rewrite (Hbefore 0%nat sel0); [|lia|reflexivity].
      apply (IH s i selector hit Hnth Hhit).
      intros j sel' Hj Hn. apply (Hbefore (S j) sel'); [lia|exact Hn].
Qed.

Lemma firstSelected_hit_inv : forall table s hit,
  firstSelected table s = Some (Some hit) ->
  exists i selector,
    nth_error table i = Some selector
    /\ selector s = Some (Some hit)
    /\ (forall j selector', (j < i)%nat -> nth_error table j = Some selector' ->
                            selector' s = Some None).
Proof.
  induction table as [|sel0 table IH]; intros s hit H; cbn [firstSelected] in H.
  - discriminate.
  - destruct (sel0 s) as [[hit0|]|] eqn:E0.
    + injection H as <-. exists 0%nat, sel0.
      split; [reflexivity|]. split; [exact E0|].
      intros j sel' Hj. lia.
    + destruct (IH s hit H) as (i & sel & Hn & Hs & Hb).
      exists (S i), sel.
      split; [exact Hn|]. split; [exact Hs|].
      intros [|j] sel' Hj Hn'; cbn [nth_error] in Hn'.
      * injection Hn' as <-. exact E0.
      * apply (Hb j sel'); [lia|exact Hn'].
    + discriminate.
Qed.

Lemma checkTaskThreadLimit_all_free : forall s ty maxThreads (isMaster : bool),
  totalCountRunningTasks s = 0 ->
  runningTaskCount s ty = 0 ->
  0 < maxThreads ->
  (if isMaster then 1 else 0) < threadCount s < SIZE_MODULUS ->
  checkTaskThreadLimit s ty maxThreads isMaster = true.
Proof.
  intros s ty maxThreads isMaster Htot Hcount Hmax Hthreads.
  unfold checkTaskThreadLimit.
  destruct (negb isMaster && (threadCount s <=? maxThreads)); [reflexivity|].
  rewrite Hcount, Htot.
  destruct (Z.leb_spec maxThreads 0); [lia|].
  unfold size_sub. rewrite Z.sub_0_r, wrap_small
    by (unfold in_size_t; destruct isMaster; lia).
  destruct (Z.eqb_spec (threadCount s) 0); [destruct isMaster; lia|].
  destruct isMaster; [|reflexivity]. cbn [andb].
  destruct (Z.eqb_spec (threadCount s) 1); [lia|reflexivity].
Qed.

(** ** Selection and the admission predicates *)

Lemma maybeGetWasmCompile_allowed : forall s mode hit,
  maybeGetWasmCompile s mode = Some (Some hit) ->
  canStartWasmCompile s mode = Some true.
Proof.
  intros s mode hit H. unfold maybeGetWasmCompile in H.
  destruct (canStartWasmCompile s mode) as [[|]|];
    [reflexivity | discriminate | discriminate].
Qed.

Local Ltac guarded_selector H :=
  match type of H with
  | (if negb ?c then _ else _) = _ =>
      destruct c; cbn [negb] in H; [reflexivity | discriminate H]
  end.

Lemma guarded_selectors_allowed : forall i selector canStart s hit,
  nth_error selectors i = Some selector ->
  nth_error admissions i = Some canStart ->
  i <> 5%nat -> i <> 6%nat ->
  selector s = Some (Some hit) ->
  canStart s = Some true.
Proof.
  intros i selector canStart s hit Hsel Hcan H5 H6 Hhit.
  destruct i as [|[|[|[|[|[|[|[|[|[|[|[|i]]]]]]]]]]]];
    cbn [nth_error selectors admissions] in Hsel, Hcan;
    try (destruct i; discriminate);
    try contradiction;
    injection Hsel as <-; injection Hcan as <-;
    try (eapply maybeGetWasmCompile_allowed; exact Hhit);
    unfold maybeGetGCParallelTask, maybeGetIonCompileTask,
      maybeGetPromiseHelperTask, maybeGetParseTask, maybeGetCompressionTask,
      maybeGetLowPrioIonCompileTask, maybeGetIonFreeTask,
      maybeGetWasmTier2GeneratorTask in Hhit;
    f_equal; guarded_selector Hhit.
Qed.

Lemma maybeGetDelazifyTask_spec : forall s,
  maybeGetDelazifyTask s =
    match delazifyWorklist_ s with
    | [] => Some None
    | task :: rest => Some (Some (TaskDelazify task, set_delazifyWorklist rest s))
    end.
Proof.
  intro s. unfold maybeGetDelazifyTask.
  destruct (delazifyWorklist_ s); reflexivity.
Qed.

Lemma popBack_app : forall (A : Type) (l : list A) (x : A),
  popBack (l ++ [x]) = Some (x, l).
Proof.
  intros A l x. unfold popBack. rewrite rev_app_distr. cbn [rev app].
  rewrite rev_involutive. reflexivity.
Qed.

Lemma popBack_nonempty : forall (A : Type) (l : list A),
  l <> [] -> exists x front, l = front ++ [x] /\ popBack l = Some (x, front).
Proof.
  intros A l Hne. destruct (exists_last Hne) as (front & x & ->).
  exists x, front. split; [reflexivity | apply popBack_app].
Qed.

Lemma maybeGetFreeDelazifyTask_spec : forall s,
  (freeDelazifyTaskVector_ s = [] /\ maybeGetFreeDelazifyTask s = Some None)
  \/ (exists task front,
        freeDelazifyTaskVector_ s = front ++ [task]
        /\ maybeGetFreeDelazifyTask s =
             Some (Some (TaskFreeDelazify task,
                         set_freeDelazifyTaskVector front s))).
Proof.
  intro s. unfold maybeGetFreeDelazifyTask.
  destruct (freeDelazifyTaskVector_ s) as [|t l] eqn:E.
  - left. split; reflexivity.
  - right. destruct (popBack_nonempty _ (t :: l)) as (x & front & Hl & Hpop);
      [discriminate|].
    exists x, front. split; [exact Hl|].
    cbn [empty negb]. rewrite Hpop. reflexivity.
Qed.

(** C3, as the code has it.  Every selector other than the free-delazify and
    delazify ones (entries 5 and 6 of the table) returns a task only when its
    admission predicate holds in that state, and [findHighestPriorityTask]
    inherits this from the selector its task comes from.  The delazify
    selector returns the front task and the free-delazify selector the back
    task whenever their list is non-empty, without consulting the thread
    limit. *)
Theorem selection_honours_admission_except_delazify :
  (forall i selector canStart s hit,
      nth_error selectors i = Some selector ->
      nth_error admissions i = Some canStart ->
      i <> 5%nat -> i <> 6%nat ->
      selector s = Some (Some hit) ->
      canStart s = Some true)
  /\ (forall s hit,
        findHighestPriorityTask s = Some (Some hit) ->
        exists i selector canStart,
          nth_error selectors i = Some selector
          /\ nth_error admissions i = Some canStart
          /\ selector s = Some (Some hit)
          /\ (i <> 5%nat -> i <> 6%nat -> canStart s = Some true))
  /\ (forall s task rest,
        delazifyWorklist_ s = task :: rest ->
        maybeGetDelazifyTask s =
          Some (Some (TaskDelazify task, set_delazifyWorklist rest s)))
  /\ (forall s task front,
        freeDelazifyTaskVector_ s = front ++ [task] ->
        maybeGetFreeDelazifyTask s =
          Some (Some (TaskFreeDelazify task,
                      set_freeDelazifyTaskVector front s))).
Proof.
  split; [exact guarded_selectors_allowed|]. split; [|split].
  - intros s hit H.
    destruct (firstSelected_hit_inv _ _ _ H) as (i & selector & Hn & Hs & _).
    assert (Hlen : (i < length selectors)%nat).
    { apply nth_error_Some. rewrite Hn. discriminate. }
    destruct (nth_error admissions i) as [canStart|] eqn:Hcan.
    + exists i, selector, canStart. repeat split; auto.
      intros H5 H6.
      exact (guarded_selectors_allowed _ _ _ _ _ Hn Hcan H5 H6 Hs).
    + apply nth_error_None in Hcan. cbn [length selectors admissions] in *. lia.
  - intros s task rest H. rewrite maybeGetDelazifyTask_spec, H. reflexivity.
  - intros s task front H. unfold maybeGetFreeDelazifyTask. rewrite H.
    rewrite popBack_app.
    destruct front; reflexivity.
Qed.

Lemma selection_honours_admission_except_delazify_witness :
  maybeGetParseTask gcAndParseQueued =
    Some (Some (TaskParse parseA, set_parseWorklist [] gcAndParseQueued))
  /\ Some (canStartParseTask gcAndParseQueued) = Some true.
Proof.
  assert (H : maybeGetParseTask gcAndParseQueued =
              Some (Some (TaskParse parseA,
                          set_parseWorklist [] gcAndParseQueued)))
    by reflexivity.
  split; [exact H|].
  apply (proj1 selection_honours_admission_except_delazify 4%nat
           maybeGetParseTask (fun s => Some (canStartParseTask s))
           gcAndParseQueued
           (TaskParse parseA, set_parseWorklist [] gcAndParseQueued)
           eq_refl eq_refl);
    [discriminate | discriminate | exact H].
Defined.

(** C3 fails as stated: with two threads and one task running, the master
    rule makes [canStartDelazifyTask] and [canStartFreeDelazifyTask] false,
    yet the two selectors, and [findHighestPriorityTask] through them, hand
    out the queued task. *)
Lemma delazify_selected_without_admission :
  canStartDelazifyTask delazifyQueuedBehindParse = false
  /\ maybeGetDelazifyTask delazifyQueuedBehindParse =
       Some (Some (TaskDelazify delazifyA,
                   set_delazifyWorklist [] delazifyQueuedBehindParse))
  /\ findHighestPriorityTask delazifyQueuedBehindParse =
       Some (Some (TaskDelazify delazifyA,
                   set_delazifyWorklist [] delazifyQueuedBehindParse))
  /\ canStartFreeDelazifyTask freeDelazifyQueuedBehindParse = false
  /\ maybeGetFreeDelazifyTask freeDelazifyQueuedBehindParse =
       Some (Some (TaskFreeDelazify freeDelazifyA,
                   set_freeDelazifyTaskVector [] freeDelazifyQueuedBehindParse))
  /\ findHighestPriorityTask freeDelazifyQueuedBehindParse =
       Some (Some (TaskFreeDelazify freeDelazifyA,
                   set_freeDelazifyTaskVector [] freeDelazifyQueuedBehindParse)).
Proof. repeat split; reflexivity. Qed.

(** ** Submission *)

Lemma dispatch_inv : forall s s',
  dispatch s = Some s' ->
  s' = s \/ s' = set_tasksPending (size_incr (tasksPending_ s)) s.
Proof.
  intros s s' H. unfold dispatch in H.
  destruct (canStartTasks s) as [can|]; [|discriminate].
  destruct (can && (tasksPending_ s <? threadCount s));
    injection H as <-; auto.
Qed.

Lemma submitted_inv : forall queued r s',
  submitted queued = Some (r, s') ->
  r = true
  /\ (s' = queued
      \/ s' = set_tasksPending (size_incr (tasksPending_ queued)) queued).
Proof.
  intros queued r s' H. unfold submitted in H.
  destruct (dispatch queued) as [s1|] eqn:E; [|discriminate].
  injection H as <- <-. split; [reflexivity|]. exact (dispatch_inv _ _ E).
Qed.

(** A fallible submission that reports [false] had a failed append and left
    the state as it was; one that reports [true] had a successful append and
    queued the task at the back of its worklist. *)
Local Ltac fallible_submit H :=
  match type of H with
  | (if negb ?grown then _ else _) = Some (?r, ?s') =>
      let Hs' := fresh "Hs'" in
      destruct grown; cbn [negb] in H;
      [ apply submitted_inv in H; destruct H as [-> Hs'];
        split; [split; intro; discriminate|];
        split; [intro; discriminate|];
        intros _; split;
        [destruct Hs' as [-> | ->]; try reflexivity | reflexivity]
      | injection H as <- <-;
        split; [split; reflexivity|];
        split; [intros _; split; reflexivity | intro; discriminate] ]
  end.

(** C9.  Each fallible overload of [submitTask] returns [false] exactly when
    the append to its worklist failed for lack of memory, and then the whole
    coordinator state is the one it started from: nothing was enqueued and the
    coordinator does not hold the task.  The task is still the caller's only
    where the overload takes a raw pointer (wasm compilation, JIT
    compilation, promise helper); the overloads that take an owning pointer
    by value (wasm tier-2 generator, JIT free, parse, free-delazify, source
    compression) destroy the task on that path.  A submission that returns
    [true] has queued the task at the back of its worklist, which then holds
    it.  [StartOffThreadIonFree] fails when the free task cannot be built or
    cannot be appended, and leaves the state alone.  The GC-parallel and
    delazify overloads link the task into a list and cannot fail. *)
Theorem submission_atomic_on_allocation_failure :
  (forall grown task mode s r s',
      submitTask_wasm grown task mode s = Some (r, s') ->
      (r = false <-> grown = false)
      /\ (r = false ->
          s' = s /\ holderAfterSubmit (passing SubmitWasm) grown = HeldByCaller)
      /\ (r = true ->
          wasmWorklist s' mode = wasmWorklist s mode ++ [task]
          /\ holderAfterSubmit (passing SubmitWasm) grown = HeldByCoordinator))
  /\ (forall grown task s r s',
        submitTask_tier2Generator grown task s = Some (r, s') ->
        (r = false <-> grown = false)
        /\ (r = false ->
            s' = s
            /\ holderAfterSubmit (passing SubmitTier2Generator) grown
               = Destroyed)
        /\ (r = true ->
            wasmTier2GeneratorWorklist_ s'
            = wasmTier2GeneratorWorklist_ s ++ [task]
            /\ holderAfterSubmit (passing SubmitTier2Generator) grown
               = HeldByCoordinator))
  /\ (forall grown task s r s',
        submitTask_ion grown task s = Some (r, s') ->
        (r = false <-> grown = false)
        /\ (r = false ->
            s' = s
            /\ holderAfterSubmit (passing SubmitIon) grown = HeldByCaller)
        /\ (r = true ->
            ionWorklist_ s' = ionWorklist_ s ++ [task]
            /\ holderAfterSubmit (passing SubmitIon) grown
               = HeldByCoordinator))
  /\ (forall grown task s r s',
        submitTask_ionFree grown task s = Some (r, s') ->
        (r = false <-> grown = false)
        /\ (r = false ->
            s' = s
            /\ holderAfterSubmit (passing SubmitIonFree) grown = Destroyed)
        /\ (r = true ->
            ionFreeList_ s' = ionFreeList_ s ++ [task]
            /\ holderAfterSubmit (passing SubmitIonFree) grown
               = HeldByCoordinator))
  /\ (forall made grown addr task s r s',
        StartOffThreadIonFree made grown addr task s = Some (r, s') ->
        (r = false <-> made && grown = false) /\ (r = false -> s' = s))
  /\ (forall grown task s r s',
        submitTask_parse grown task s = Some (r, s') ->
        (r = false <-> grown = false)
        /\ (r = false ->
            s' = s
            /\ holderAfterSubmit (passing SubmitParse) grown = Destroyed)
        /\ (r = true ->
            parseWorklist_ s' = parseWorklist_ s ++ [task]
            /\ holderAfterSubmit (passing SubmitParse) grown
               = HeldByCoordinator))
  /\ (forall grown task s r s',
        submitTask_freeDelazify grown task s = Some (r, s') ->
        (r = false <-> grown = false)
        /\ (r = false ->
            s' = s
            /\ holderAfterSubmit (passing SubmitFreeDelazify) grown
               = Destroyed)
        /\ (r = true ->
            freeDelazifyTaskVector_ s' = freeDelazifyTaskVector_ s ++ [task]
            /\ holderAfterSubmit (passing SubmitFreeDelazify) grown
               = HeldByCoordinator))
  /\ (forall grown task s r s',
        submitTask_compression grown task s = Some (r, s') ->
        (r = false <-> grown = false)
        /\ (r = false ->
            s' = s
            /\ holderAfterSubmit (passing SubmitCompression) grown
               = Destroyed)
        /\ (r = true ->
            compressionWorklist_ s' = compressionWorklist_ s ++ [task]
            /\ holderAfterSubmit (passing SubmitCompression) grown
               = HeldByCoordinator))
  /\ (forall grown task s r s',
        submitTask_promise grown task s = Some (r, s') ->
        (r = false <-> grown = false)
        /\ (r = false ->
            s' = s
            /\ holderAfterSubmit (passing SubmitPromise) grown = HeldByCaller)
        /\ (r = true ->
            promiseHelperTasks_ s' = promiseHelperTasks_ s ++ [task]
            /\ holderAfterSubmit (passing SubmitPromise) grown
               = HeldByCoordinator))
  /\ (forall task s r s',
        submitTask_gcParallel task s = Some (r, s') ->
        r = true
        /\ gcParallelWorklist_ s' = gcParallelWorklist_ s ++ [task]
        /\ holderAfterSubmit (passing SubmitGCParallel) true
           = HeldByCoordinator)
  /\ (forall task s s',
        submitTask_delazify task s = Some s' ->
        delazifyWorklist_ s' = delazifyWorklist_ s ++ [task]
        /\ holderAfterSubmit (passing SubmitDelazify) true
           = HeldByCoordinator).
Proof.
  repeat match goal with |- _ /\ _ => split end.
  - intros grown task mode s r s' H. unfold submitTask_wasm in H.
    fallible_submit H; destruct mode; reflexivity.
  - intros grown task s r s' H. unfold submitTask_tier2Generator in H.
    fallible_submit H.
  - intros grown task s r s' H. unfold submitTask_ion in H.
    fallible_submit H.
  - intros grown task s r s' H. unfold submitTask_ionFree in H.
    fallible_submit H.
  - intros made grown addr task s r s' H. unfold StartOffThreadIonFree in H.
    destruct made; cbn [negb andb] in H.
    + unfold submitTask_ionFree in H.
      destruct grown; cbn [negb] in H.
      * apply submitted_inv in H. destruct H as [-> _].
        split; [split; intro; discriminate | intro; discriminate].
      * injection H as <- <-. split; [split; reflexivity | reflexivity].
    + injection H as <- <-. cbn [andb].
      split; [split; reflexivity | reflexivity].
  - intros grown task s r s' H. unfold submitTask_parse in H.
    fallible_submit H.
  - intros grown task s r s' H. unfold submitTask_freeDelazify in H.
    fallible_submit H.
  - intros grown task s r s' H. unfold submitTask_compression in H.
    fallible_submit H.
  - intros grown task s r s' H. unfold submitTask_promise in H.
    fallible_submit H.
  - intros task s r s' H. unfold submitTask_gcParallel in H.
    apply submitted_inv in H. destruct H as [-> [-> | ->]];
      split; try reflexivity; split; reflexivity.
  - intros task s s' H. unfold submitTask_delazify in H.
    apply dispatch_inv in H. destruct H as [-> | ->]; split; reflexivity.
Qed.

Lemma submission_atomic_on_allocation_failure_witness :
  (submitTask_parse false parseB oneParseRunning
   = Some (false, oneParseRunning)
   /\ (false = false <-> false = false)
   /\ (false = false ->
       oneParseRunning = oneParseRunning
       /\ holderAfterSubmit (passing SubmitParse) false = Destroyed)
   /\ (false = true ->
       parseWorklist_ oneParseRunning = parseWorklist_ oneParseRunning ++ [parseB]
       /\ holderAfterSubmit (passing SubmitParse) false = HeldByCoordinator))
  /\ (submitTask_wasm false wasmT1 Tier1 (idleState 4)
      = Some (false, idleState 4)
      /\ (false = false <-> false = false)
      /\ (false = false ->
          idleState 4 = idleState 4
          /\ holderAfterSubmit (passing SubmitWasm) false = HeldByCaller)
      /\ (false = true ->
          wasmWorklist (idleState 4) Tier1
          = wasmWorklist (idleState 4) Tier1 ++ [wasmT1]
          /\ holderAfterSubmit (passing SubmitWasm) false = HeldByCoordinator))
  /\ (submitTask_parse true parseA (idleState 4) = Some (true, parseAQueued)
      /\ (true = false <-> true = false)
      /\ (true = false ->
          parseAQueued = idleState 4
          /\ holderAfterSubmit (passing SubmitParse) true = Destroyed)
      /\ (true = true ->
          parseWorklist_ parseAQueued = parseWorklist_ (idleState 4) ++ [parseA]
          /\ holderAfterSubmit (passing SubmitParse) true = HeldByCoordinator)).
Proof.
  split; [|split].
  - split; [reflexivity|].
    apply (proj1 (proj2 (proj2 (proj2 (proj2 (proj2
             submission_atomic_on_allocation_failure)))))
             false parseB oneParseRunning false oneParseRunning).
    reflexivity.
  - split; [reflexivity|].
    apply (proj1 submission_atomic_on_allocation_failure
             false wasmT1 Tier1 (idleState 4) false (idleState 4)).
    reflexivity.
  - split; [vm_compute; reflexivity|].
    apply (proj1 (proj2 (proj2 (proj2 (proj2 (proj2
             submission_atomic_on_allocation_failure)))))
             true parseA (idleState 4) true parseAQueued).
    vm_compute; reflexivity.
Defined.

(** A parse task whose append fails is not left with the caller: the
    overload took it as an owning pointer by value and deletes it on
    [return false]. *)
Lemma failed_parse_submission_destroys_the_task :
  submitTask_parse false parseB oneParseRunning
  = Some (false, oneParseRunning)
  /\ passing SubmitParse = UniquePtrByValue
  /\ holderAfterSubmit (passing SubmitParse) false = Destroyed
  /\ holderAfterSubmit (passing SubmitParse) false <> HeldByCaller.
Proof.
  split; [reflexivity|]. split; [reflexivity|]. split; [reflexivity|].
  discriminate.
Qed.

(** ** Pop order of the worklists *)

Local Ltac after_submit H :=
  apply submitted_inv in H; destruct H as [_ [-> | ->]]; reflexivity.

Lemma submitTask_parse_queued : forall grown task s s1,
  submitTask_parse grown task s = Some (true, s1) ->
  parseWorklist_ s1 = parseWorklist_ s ++ [task].
Proof.
  intros grown task s s1 H. unfold submitTask_parse in H.
  destruct grown; cbn [negb] in H; [after_submit H | discriminate].
Qed.

Lemma submitTask_compression_queued : forall grown task s s1,
  submitTask_compression grown task s = Some (true, s1) ->
  compressionWorklist_ s1 = compressionWorklist_ s ++ [task].
Proof.
  intros grown task s s1 H. unfold submitTask_compression in H.
  destruct grown; cbn [negb] in H; [after_submit H | discriminate].
Qed.

Lemma submitTask_freeDelazify_queued : forall grown task s s1,
  submitTask_freeDelazify grown task s = Some (true, s1) ->
  freeDelazifyTaskVector_ s1 = freeDelazifyTaskVector_ s ++ [task].
Proof.
  intros grown task s s1 H. unfold submitTask_freeDelazify in H.
  destruct grown; cbn [negb] in H; [after_submit H | discriminate].
Qed.

Lemma submitTask_ionFree_queued : forall grown task s s1,
  submitTask_ionFree grown task s = Some (true, s1) ->
  ionFreeList_ s1 = ionFreeList_ s ++ [task].
Proof.
  intros grown task s s1 H. unfold submitTask_ionFree in H.
  destruct grown; cbn [negb] in H; [after_submit H | discriminate].
Qed.

Lemma submitTask_delazify_queued : forall task s s1,
  submitTask_delazify task s = Some s1 ->
  delazifyWorklist_ s1 = delazifyWorklist_ s ++ [task].
Proof.
  intros task s s1 H. unfold submitTask_delazify in H.
  apply dispatch_inv in H. destruct H as [-> | ->]; reflexivity.
Qed.

Lemma submitTask_gcParallel_queued : forall task s s1,
  submitTask_gcParallel task s = Some (true, s1) ->
  gcParallelWorklist_ s1 = gcParallelWorklist_ s ++ [task].
Proof.
  intros task s s1 H. unfold submitTask_gcParallel in H. after_submit H.
Qed.

Lemma empty_app_cons : forall (A : Type) (l : list A) (x : A),
  empty (l ++ [x]) = false.
Proof. intros A [|y l] x; reflexivity. Qed.

(** ** Wasm tier split *)

Lemma checkTaskThreadLimit_true_below_limit : forall s ty maxThreads,
  checkTaskThreadLimit s ty maxThreads false = true ->
  totalCountRunningTasks s < threadCount s ->
  runningTaskCount s ty <= totalCountRunningTasks s ->
  runningTaskCount s ty < maxThreads.
Proof.
  intros s ty maxThreads H Hidle Hcount. unfold checkTaskThreadLimit in H.
  cbn [negb andb] in H.
  destruct (Z.leb_spec (threadCount s) maxThreads); [lia|].
  destruct (Z.leb_spec maxThreads (runningTaskCount s ty));
    [discriminate | lia].
Qed.

Lemma checkTaskThreadLimit_true_when_room : forall s ty maxThreads,
  runningTaskCount s ty < maxThreads ->
  0 <= totalCountRunningTasks s < threadCount s ->
  threadCount s < SIZE_MODULUS ->
  checkTaskThreadLimit s ty maxThreads false = true.
Proof.
  intros s ty maxThreads Hcount Hidle Hrange. unfold checkTaskThreadLimit.
  cbn [negb andb].
  destruct (threadCount s <=? maxThreads); [reflexivity|].
  destruct (Z.leb_spec maxThreads (runningTaskCount s ty)); [lia|].
  unfold size_sub. rewrite wrap_small by (unfold in_size_t; lia).
  destruct (Z.eqb_spec (threadCount s - totalCountRunningTasks s) 0);
    [lia | reflexivity].
Qed.

Lemma roundNearestEven_bounds : forall num den,
  0 < den ->
  num / den <= roundNearestEven num den <= num / den + 1.
Proof.
  intros num den Hden. unfold roundNearestEven. cbv zeta.
  destruct (2 * (num mod den) <? den); [lia|].
  destruct (den <? 2 * (num mod den)); [lia|].
  destruct (Z.even (num / den)); lia.
Qed.

Lemma roundNearestEven_exact : forall num den,
  0 < den -> num mod den = 0 -> roundNearestEven num den = num / den.
Proof.
  intros num den Hden Hr. unfold roundNearestEven. cbv zeta. rewrite Hr.
  destruct (Z.ltb_spec (2 * 0) den); [reflexivity | lia].
Qed.

(** Division by three has no ties. *)
Lemma roundNearestEven_third : forall num,
  roundNearestEven num 3 =
    if num mod 3 =? 2 then num / 3 + 1 else num / 3.
Proof.
  intro num. unfold roundNearestEven. cbv zeta.
  pose proof (Z.mod_pos_bound num 3 ltac:(lia)) as Hm.
  destruct (Z.ltb_spec (2 * (num mod 3)) 3);
    destruct (Z.eqb_spec (num mod 3) 2); try lia; try reflexivity.
  destruct (Z.ltb_spec 3 (2 * (num mod 3))); [reflexivity | lia].
Qed.

Lemma ceil_div_unique : forall m P c,
  0 < P -> (c - 1) * P < m <= c * P -> - ((- m) / P) = c.
Proof.
  intros m P c HP H.
  assert (Hq : (- m) / P = - c).
  { symmetry. apply (Z.div_unique_pos (- m) P (- c) (c * P - m)); lia. }
  lia.
Qed.

Lemma ceil_div_pos : forall m P, 0 < P -> 0 < m -> 0 < - ((- m) / P).
Proof.
  intros m P HP Hm.
  assert ((- m) / P < 0) by (apply Z.div_lt_upper_bound; lia).
  lia.
Qed.

Lemma double_of_size_t_exact : forall n,
  0 <= n < 2 ^ 53 -> double_of_size_t n = n.
Proof.
  intros n Hn. unfold double_of_size_t. cbv zeta.
  destruct (Z.leb_spec (Z.log2 n - 52) 0) as [|He]; [reflexivity|].
  exfalso.
  destruct (Z.eq_dec n 0) as [->|Hne]; [cbn in He; lia|].
  assert (Z.log2 n < 53) by (apply Z.log2_lt_pow2; lia).
  lia.
Qed.

Lemma double_of_size_t_pos : forall n, 0 < n -> 0 < double_of_size_t n.
Proof.
  intros n Hn. unfold double_of_size_t. cbv zeta.
  destruct (Z.leb_spec (Z.log2 n - 52) 0) as [|He]; [exact Hn|].
  set (e := Z.log2 n - 52) in *.
  assert (Hp : 0 < 2 ^ e) by (apply Z.pow_pos_nonneg; lia).
  pose proof (roundNearestEven_bounds n (2 ^ e) Hp) as [Hlo _].
  assert (Hle : 2 ^ e <= n).
  { pose proof (Z.log2_spec n Hn) as [Hl _].
    assert (2 ^ e <= 2 ^ Z.log2 n) by (apply Z.pow_le_mono_r; lia). lia. }
  assert (1 <= n / 2 ^ e) by (apply Z.div_le_lower_bound; lia).
  nia.
Qed.

Lemma ceil_third_pos : forall d, 0 < d -> 0 < ceil_third d.
Proof.
  intros d Hd. unfold ceil_third.
  destruct (Z.eqb_spec d 0); [lia|]. cbv zeta.
  set (E := if d =? 1 then -2 else if d =? 2 then -1 else Z.log2 (d / 3)).
  destruct (Z.leb_spec 0 (E - 52)) as [Hs|Hs].
  - (* the quotient is at least 2^52 *)
    assert (HE : E = Z.log2 (d / 3) /\ 3 <= d).
    { unfold E in *. destruct (Z.eqb_spec d 1); [lia|].
      destruct (Z.eqb_spec d 2); [lia|]. split; [reflexivity|lia]. }
    destruct HE as [HE Hd3].
    set (s := E - 52) in *.
    assert (Hp : 0 < 2 ^ s) by (apply Z.pow_pos_nonneg; lia).
    assert (Hq : 0 < d / 3) by (apply Z.div_str_pos; lia).
    pose proof (Z.log2_spec (d / 3) Hq) as [Hl _]. rewrite <- HE in Hl.
    assert (2 ^ s <= 2 ^ E) by (apply Z.pow_le_mono_r; lia).
    assert (3 * 2 ^ s <= d).
    { pose proof (Z.mul_div_le d 3 ltac:(lia)). lia. }
    pose proof (roundNearestEven_bounds d (3 * 2 ^ s) ltac:(lia)) as [Hlo _].
    assert (1 <= d / (3 * 2 ^ s)) by (apply Z.div_le_lower_bound; lia).
    nia.
  - set (k := - (E - 52)) in *.
    assert (Hk : 1 <= k) by (unfold k; lia).
    assert (Hp : 2 <= 2 ^ k).
    { change 2 with (2 ^ 1) at 1. apply Z.pow_le_mono_r; lia. }
    apply ceil_div_pos; [lia|].
    pose proof (roundNearestEven_bounds (d * 2 ^ k) 3 ltac:(lia)) as [Hlo _].
    assert (d * 2 ^ k / 3 >= 0) by (apply Z_div_ge0; nia).
    destruct (Z.eq_dec (roundNearestEven (d * 2 ^ k) 3) 0) as [H0|]; [|lia].
    exfalso. rewrite roundNearestEven_third in H0.
    assert (Hbig : 4 <= 2 ^ k \/ 3 <= d).
    { unfold k, E. destruct (Z.eqb_spec d 1).
      - left. change (- (-2 - 52)) with 54. cbn. lia.
      - destruct (Z.eqb_spec d 2).
        + left. change (- (-1 - 52)) with 53. cbn. lia.
        + right. lia. }
    assert (3 <= d * 2 ^ k) by nia.
    assert (1 <= d * 2 ^ k / 3) by (apply Z.div_le_lower_bound; lia).
    destruct (d * 2 ^ k mod 3 =? 2); lia.
Qed.

Lemma ceil_third_exact : forall d,
  0 <= d < 3 * 2 ^ 52 -> ceil_third d = (d + 2) / 3.
Proof.
  intros d Hd. unfold ceil_third.
  destruct (Z.eqb_spec d 0) as [->|Hd0]; [reflexivity|]. cbv zeta.
  set (E := if d =? 1 then -2 else if d =? 2 then -1 else Z.log2 (d / 3)).
  assert (HE : E <= 51).
  { unfold E. destruct (Z.eqb_spec d 1); [lia|].
    destruct (Z.eqb_spec d 2); [lia|].
    assert (Hq : 0 < d / 3) by (apply Z.div_str_pos; lia).
    assert (d / 3 < 2 ^ 52) by (apply Z.div_lt_upper_bound; lia).
    assert (Z.log2 (d / 3) < 52) by (apply Z.log2_lt_pow2; lia). lia. }
  destruct (Z.leb_spec 0 (E - 52)); [lia|].
  set (k := - (E - 52)) in *.
  assert (Hk : 1 <= k) by (unfold k; lia).
  assert (Hp : 2 <= 2 ^ k).
  { change 2 with (2 ^ 1) at 1. apply Z.pow_le_mono_r; lia. }
  set (P := 2 ^ k) in *.
  rewrite roundNearestEven_third.
  apply ceil_div_unique; [lia|].
  pose proof (Z.div_mod d 3 ltac:(lia)) as Hdm.
  pose proof (Z.mod_pos_bound d 3 ltac:(lia)) as Hr.
  set (q := d / 3) in *. set (r := d mod 3) in *.
  assert (Hc : (d + 2) / 3 = if r =? 0 then q else q + 1).
  { destruct (Z.eqb_spec r 0).
    - symmetry. apply (Z.div_unique_pos (d + 2) 3 q 2); lia.
    - symmetry. apply (Z.div_unique_pos (d + 2) 3 (q + 1) (r - 1)); lia. }
  rewrite Hc.
  assert (HdP : d * P = 3 * (q * P) + r * P) by nia.
  rewrite HdP. set (X := q * P) in *.
  assert (Hr3 : r = 0 \/ r = 1 \/ r = 2) by lia.
  destruct Hr3 as [-> | [-> | ->]]; cbn [Z.eqb];
    pose proof (Z.div_mod (3 * X + 0 * P) 3 ltac:(lia));
    pose proof (Z.mod_pos_bound (3 * X + 0 * P) 3 ltac:(lia));
    pose proof (Z.div_mod (3 * X + 1 * P) 3 ltac:(lia));
    pose proof (Z.mod_pos_bound (3 * X + 1 * P) 3 ltac:(lia));
    pose proof (Z.div_mod (3 * X + 2 * P) 3 ltac:(lia));
    pose proof (Z.mod_pos_bound (3 * X + 2 * P) 3 ltac:(lia));
    match goal with
    | |- context [?a mod 3 =? 2] => destruct (Z.eqb_spec (a mod 3) 2)
    end; lia.
Qed.

Lemma physCoresAvailable_pos : forall s,
  0 < cpuCount s -> 0 < physCoresAvailable s.
Proof.
  intros s H. unfold physCoresAvailable.
  apply ceil_third_pos, double_of_size_t_pos, H.
Qed.

(** Below [2^53] the conversion is exact and the double-precision result is
    the integer ceiling of a third of the count. *)
Lemma physCoresAvailable_ceiling : forall s,
  0 <= cpuCount s < 2 ^ 53 ->
  physCoresAvailable s = (cpuCount s + 2) / 3
  /\ cpuCount s <= 3 * physCoresAvailable s < cpuCount s + 3.
Proof.
  intros s H. unfold physCoresAvailable.
  assert (H53 : 2 ^ 53 < 3 * 2 ^ 52) by (vm_compute; reflexivity).
  rewrite double_of_size_t_exact by exact H.
  rewrite ceil_third_exact by lia.
  split; [reflexivity|].
  pose proof (Z.div_mod (cpuCount s + 2) 3 ltac:(lia)) as Hdm.
  pose proof (Z.mod_pos_bound (cpuCount s + 2) 3 ltac:(lia)) as Hm.
  lia.
Qed.

Lemma canStartWasmCompile_Tier2_limit : forall s,
  1 < cpuCount s ->
  canStartWasmCompile s Tier2 =
    Some (negb (empty (wasmWorklist_tier2_ s))
          && (let threads :=
                if 20 <? length_z (wasmTier2GeneratorWorklist_ s)
                then maxWasmCompilationThreads s
                else physCoresAvailable s in
              negb (threads =? 0)
              && checkTaskThreadLimit s THREAD_TYPE_WASM_COMPILE_TIER2
                   threads false)).
Proof.
  intros s Hcpu. unfold canStartWasmCompile. cbn [wasmWorklist].
  destruct (empty (wasmWorklist_tier2_ s)); [reflexivity|].
  destruct (Z.ltb_spec 1 (cpuCount s)); [|lia].
  reflexivity.
Qed.

(** The limit check for a kind that is not a master, spelled out: the early
    return for a maximum that is not below the thread count, and otherwise
    room below the maximum together with an idle thread. *)
Lemma checkTaskThreadLimit_worker_iff : forall s ty maxThreads,
  checkTaskThreadLimit s ty maxThreads false = true <->
  threadCount s <= maxThreads
  \/ (runningTaskCount s ty < maxThreads
      /\ size_sub (threadCount s) (totalCountRunningTasks s) <> 0).
Proof.
  intros s ty maxThreads. unfold checkTaskThreadLimit. cbn [negb andb].
  destruct (Z.leb_spec (threadCount s) maxThreads); [tauto|].
  destruct (Z.leb_spec maxThreads (runningTaskCount s ty)).
  - split; [discriminate|]. intros [|[]]; lia.
  - destruct (Z.eqb_spec (size_sub (threadCount s)
                            (totalCountRunningTasks s)) 0).
    + split; [discriminate|]. intros [|[]]; [lia|contradiction].
    + split; [|reflexivity]. intros _. right. split; assumption.
Qed.

Lemma canStartWasmCompile_Tier2_iff : forall s,
  1 < cpuCount s ->
  let threads :=
    if 20 <? length_z (wasmTier2GeneratorWorklist_ s)
    then maxWasmCompilationThreads s
    else physCoresAvailable s in
  canStartWasmCompile s Tier2 = Some true <->
  wasmWorklist_tier2_ s <> []
  /\ threads <> 0
  /\ (threadCount s <= threads
      \/ (runningTaskCount s THREAD_TYPE_WASM_COMPILE_TIER2 < threads
          /\ size_sub (threadCount s) (totalCountRunningTasks s) <> 0)).
Proof.
  intros s Hcpu threads.
  rewrite (canStartWasmCompile_Tier2_limit s Hcpu). fold threads. cbv zeta.
  rewrite <- checkTaskThreadLimit_worker_iff.
  destruct (wasmWorklist_tier2_ s) as [|t l]; cbn [empty negb andb].
  - split; [discriminate|]. intros [H _]. congruence.
  - destruct (Z.eqb_spec threads 0); cbn [negb andb].
    + split; [discriminate|]. intros (_ & H & _). contradiction.
    + destruct (checkTaskThreadLimit s THREAD_TYPE_WASM_COMPILE_TIER2
                  threads false).
      * split; [|reflexivity]. intros _.
        split; [discriminate|]. split; [assumption|reflexivity].
      * split; [discriminate|]. intros (_ & _ & H). discriminate.
Qed.

(** C6, as the code has it.  The backlog is the length of the tier-2
    generator worklist, and the code asserts [cpuCount > 1].  With a backlog
    above 20, [canStart] for tier-1 compilation is false and the budget of
    tier-2 compilation is [maxWasmCompilationThreads]; with a backlog of at
    most 20 it is [size_t(ceil(cpuCount / 3.0))], which is the integer
    ceiling of a third of the count for counts below [2^53] and can be one
    less above.  Tier-2 compilation is allowed exactly when tier-2 work is
    queued, the budget is not zero, and either the budget is not below the
    thread count, or fewer tier-2 compilations than the budget are running
    and a thread is idle.  So the budget caps the running tier-2 compilations
    when it is below the thread count, and not otherwise. *)
Theorem wasm_tier_split_policy : forall s,
  1 < cpuCount s ->
  let backlog := length_z (wasmTier2GeneratorWorklist_ s) in
  let running := runningTaskCount s THREAD_TYPE_WASM_COMPILE_TIER2 in
  let idle := size_sub (threadCount s) (totalCountRunningTasks s) in
  (20 < backlog ->
     canStartWasmCompile s Tier1 = Some false
     /\ (canStartWasmCompile s Tier2 = Some true <->
           wasmWorklist_tier2_ s <> []
           /\ maxWasmCompilationThreads s <> 0
           /\ (threadCount s <= maxWasmCompilationThreads s
               \/ (running < maxWasmCompilationThreads s /\ idle <> 0))))
  /\ (backlog <= 20 ->
        (canStartWasmCompile s Tier2 = Some true <->
           wasmWorklist_tier2_ s <> []
           /\ physCoresAvailable s <> 0
           /\ (threadCount s <= physCoresAvailable s
               \/ (running < physCoresAvailable s /\ idle <> 0)))
        /\ (physCoresAvailable s < threadCount s ->
            physCoresAvailable s <= running ->
            canStartWasmCompile s Tier2 = Some false)
        /\ (threadCount s <= physCoresAvailable s ->
            wasmWorklist_tier2_ s <> [] ->
            canStartWasmCompile s Tier2 = Some true))
  /\ (cpuCount s < 2 ^ 53 ->
        physCoresAvailable s = (cpuCount s + 2) / 3
        /\ cpuCount s <= 3 * physCoresAvailable s < cpuCount s + 3)
  /\ (cpuCount s = 13510798882111492 ->
        physCoresAvailable s = (cpuCount s + 2) / 3 - 1).
Proof.
  intros s Hcpu backlog running idle.
  pose proof (canStartWasmCompile_Tier2_iff s Hcpu) as Hiff.
  cbv zeta in Hiff. fold backlog running idle in Hiff.
  split; [|split; [|split]].
  - intro Hback. split.
    + unfold canStartWasmCompile. cbn [wasmWorklist CompileMode_is_Tier2].
      destruct (empty (wasmWorklist_tier1_ s)); [reflexivity|].
      destruct (Z.ltb_spec 1 (cpuCount s)); [|lia]. cbn [negb].
      fold backlog. destruct (Z.ltb_spec 20 backlog); [|lia].
      reflexivity.
    + destruct (Z.ltb_spec 20 backlog); [exact Hiff | lia].
  - intro Hback.
    destruct (Z.ltb_spec 20 backlog); [lia|].
    split; [exact Hiff|]. split.
    + intros Hbelow Hfull.
      rewrite (canStartWasmCompile_Tier2_limit s Hcpu). fold backlog.
      destruct (Z.ltb_spec 20 backlog); [lia|]. cbv zeta.
      destruct (checkTaskThreadLimit s THREAD_TYPE_WASM_COMPILE_TIER2
                  (physCoresAvailable s) false) eqn:Echeck.
      * apply checkTaskThreadLimit_worker_iff in Echeck.
        fold running in Echeck. lia.
      * rewrite !andb_false_r. reflexivity.
    + intros Hroom Hqueued. apply Hiff.
      split; [exact Hqueued|].
      pose proof (physCoresAvailable_pos s ltac:(lia)).
      split; [lia | left; exact Hroom].
  - intro Hsmall. apply physCoresAvailable_ceiling. lia.
  - intro Hc. unfold physCoresAvailable. rewrite Hc. vm_compute. reflexivity.
Qed.

Lemma wasm_tier_split_policy_witness :
  ((1 < cpuCount tier2Backlogged
    /\ 20 < length_z (wasmTier2GeneratorWorklist_ tier2Backlogged))
   /\ canStartWasmCompile tier2Backlogged Tier1 = Some false
   /\ canStartWasmCompile tier2Backlogged Tier2 = Some true)
  /\ ((1 < cpuCount tier2BudgetReached
       /\ length_z (wasmTier2GeneratorWorklist_ tier2BudgetReached) <= 20
       /\ physCoresAvailable tier2BudgetReached = 3
       /\ threadCount tier2BudgetReached = 4
       /\ runningTaskCount tier2BudgetReached THREAD_TYPE_WASM_COMPILE_TIER2
          = 3)
      /\ canStartWasmCompile tier2BudgetReached Tier2 = Some false).
Proof.
  split.
  - assert (Hcpu : 1 < cpuCount tier2Backlogged) by (vm_compute; reflexivity).
    assert (Hback : 20 < length_z (wasmTier2GeneratorWorklist_ tier2Backlogged))
      by (vm_compute; reflexivity).
    split; [exact (conj Hcpu Hback)|].
    destruct (proj1 (wasm_tier_split_policy tier2Backlogged Hcpu) Hback)
      as [Htier1 Htier2].
    split; [exact Htier1|]. apply Htier2.
    split; [vm_compute; discriminate|].
    split; [vm_compute; discriminate|].
    left. vm_compute. discriminate.
  - assert (Hcpu : 1 < cpuCount tier2BudgetReached)
      by (vm_compute; reflexivity).
    assert (Hback : length_z (wasmTier2GeneratorWorklist_ tier2BudgetReached)
                    <= 20) by (vm_compute; discriminate).
    assert (Hbudget : physCoresAvailable tier2BudgetReached = 3)
      by (vm_compute; reflexivity).
    assert (Hthreads : threadCount tier2BudgetReached = 4)
      by (vm_compute; reflexivity).
    assert (Hrun : runningTaskCount tier2BudgetReached
                     THREAD_TYPE_WASM_COMPILE_TIER2 = 3)
      by (vm_compute; reflexivity).
    split; [exact (conj Hcpu (conj Hback (conj Hbudget
                     (conj Hthreads Hrun))))|].
    apply (proj1 (proj2 (proj1 (proj2
             (wasm_tier_split_policy tier2BudgetReached Hcpu)) Hback))).
    + rewrite Hbudget, Hthreads. reflexivity.
    + rewrite Hbudget, Hrun. discriminate.
Defined.

(** C6 fails as stated when the budget is not below the thread count.  An
    external pool of three threads on eight CPUs, no backlog: the budget of
    tier-2 compilation is three; four tier-2 compilations were queued and
    the three workers took one each.  Three are running, one is queued, and
    the predicate for tier-2 compilation still holds, through the early
    return of [checkTaskThreadLimit]. *)
Lemma tier2_allowed_beyond_budget_on_three_threads :
  reachable tier2AllThreadsBusy
  /\ threadCount tier2AllThreadsBusy = 3
  /\ cpuCount tier2AllThreadsBusy = 8
  /\ length_z (wasmTier2GeneratorWorklist_ tier2AllThreadsBusy) = 0
  /\ physCoresAvailable tier2AllThreadsBusy = 3
  /\ runningTaskCount tier2AllThreadsBusy THREAD_TYPE_WASM_COMPILE_TIER2 = 3
  /\ totalCountRunningTasks tier2AllThreadsBusy = 3
  /\ wasmWorklist_tier2_ tier2AllThreadsBusy = [wasmT2d]
  /\ canStartWasmCompile tier2AllThreadsBusy Tier2 = Some true.
Proof.
  split;
    [|split; [|split; [|split; [|split; [|split; [|split; [|split]]]]]];
      vm_compute; reflexivity].
  apply (reachable_step tier2TwoRunning).
  - apply (reachable_step tier2OneRunning).
    + apply (reachable_step tier2Queued).
      * apply (reachable_step (idleState 3)).
        -- apply reachable_startup. vm_compute.
           split; [discriminate | reflexivity].
        -- apply step_other. split; [|split; [|split]]; reflexivity.
      * apply (step_start tier2Queued (TaskWasmCompile wasmT2a)
                 (set_wasmWorklist_tier2 [wasmT2b; wasmT2c; wasmT2d]
                    tier2Queued)).
        -- vm_compute. reflexivity.
        -- vm_compute. reflexivity.
        -- intros [].
    + apply (step_start tier2OneRunning (TaskWasmCompile wasmT2b)
               (set_wasmWorklist_tier2 [wasmT2c; wasmT2d] tier2OneRunning)).
      * vm_compute. reflexivity.
      * vm_compute. reflexivity.
      * intros [H | []]. discriminate.
  - apply (step_start tier2TwoRunning (TaskWasmCompile wasmT2c)
             (set_wasmWorklist_tier2 [wasmT2d] tier2TwoRunning)).
    + vm_compute. reflexivity.
    + vm_compute. reflexivity.
    + intros [H | [H | []]]; discriminate.
Qed.

(** ** Bookkeeping of the running-task registry *)

Lemma HelperThreadTask_eqb_eq : forall a b,
  HelperThreadTask_eqb a b = true <-> a = b.
Proof.
  intros a b. unfold HelperThreadTask_eqb.
  destruct (HelperThreadTask_eq_dec a b); split; congruence.
Qed.

Lemma ThreadType_eqb_refl : forall ty, ThreadType_eqb ty ty = true.
Proof.
  intro ty. unfold ThreadType_eqb.
  destruct (ThreadType_eq_dec ty ty); congruence.
Qed.

Lemma ThreadType_eqb_neq : forall a b, a <> b -> ThreadType_eqb a b = false.
Proof.
  intros a b H. unfold ThreadType_eqb.
  destruct (ThreadType_eq_dec a b); congruence.
Qed.

Lemma countRunning_app : forall ty l task,
  countRunning ty (l ++ [task]) =
    (countRunning ty l + one_if (ThreadType_eqb (threadType task) ty))%nat.
Proof.
  intros ty l task. unfold countRunning.
  rewrite filter_app, length_app. cbn [filter].
  destruct (ThreadType_eqb (threadType task) ty); reflexivity.
Qed.

Lemma countRunning_le_length : forall ty l,
  (countRunning ty l <= length l)%nat.
Proof. intros ty l. unfold countRunning. apply filter_length_le. Qed.

Lemma eraseIfEqual_In : forall l task x,
  In x (eraseIfEqual l task) <-> In x l /\ x <> task.
Proof.
  intros l task x. unfold eraseIfEqual. rewrite filter_In.
  split; intros [Hin H]; split; auto.
  - intro Heq. apply HelperThreadTask_eqb_eq in Heq.
    rewrite Heq in H. discriminate.
  - destruct (HelperThreadTask_eqb x task) eqn:E; [|reflexivity].
    apply HelperThreadTask_eqb_eq in E. contradiction.
Qed.

Lemma eraseIfEqual_absent : forall l task,
  ~ In task l -> eraseIfEqual l task = l.
Proof.
  induction l as [|x l IH]; intros task Hnot; [reflexivity|].
  cbn [eraseIfEqual filter] in *. fold (eraseIfEqual l task).
  destruct (HelperThreadTask_eqb x task) eqn:E.
  - apply HelperThreadTask_eqb_eq in E. subst x.
    exfalso. apply Hnot. left. reflexivity.
  - cbn [negb]. f_equal. apply IH. intro H. apply Hnot. right. exact H.
Qed.

Lemma eraseIfEqual_once : forall l task,
  NoDup l -> In task l ->
  exists front back,
    l = front ++ task :: back /\ eraseIfEqual l task = front ++ back.
Proof.
  intros l task Hnd Hin.
  destruct (in_split _ _ Hin) as (front & back & ->).
  exists front, back. split; [reflexivity|].
  apply NoDup_remove_2 in Hnd.
  unfold eraseIfEqual. rewrite filter_app. cbn [filter].
  assert (Hrefl : HelperThreadTask_eqb task task = true)
    by (apply HelperThreadTask_eqb_eq; reflexivity).
  rewrite Hrefl. cbn [negb].
  fold (eraseIfEqual front task). fold (eraseIfEqual back task).
  rewrite !eraseIfEqual_absent; [reflexivity| |];
    intro H; apply Hnd; apply in_or_app; auto.
Qed.

Lemma countRunning_split : forall ty front task back,
  countRunning ty (front ++ task :: back) =
    (countRunning ty (front ++ back)
     + one_if (ThreadType_eqb (threadType task) ty))%nat.
Proof.
  intros ty front task back. unfold countRunning.
  rewrite !filter_app, !length_app. cbn [filter].
  destruct (ThreadType_eqb (threadType task) ty); cbn [length one_if]; lia.
Qed.

Lemma consistent_untouched : forall s s',
  consistent s -> registry_untouched s s' -> consistent s'.
Proof.
  intros s s' [Htot Hcount Hnd Hthreads Hroom] (Hh & Ht & Hc & Hn).
  constructor; rewrite ?Hh, ?Ht, ?Hn; auto.
  intro ty. rewrite Hc. apply Hcount.
Qed.

Lemma runTaskLocked_enter_fields : forall s task,
  helperTasks_ (runTaskLocked_enter task s) = helperTasks_ s ++ [task]
  /\ totalCountRunningTasks (runTaskLocked_enter task s)
     = size_incr (totalCountRunningTasks s)
  /\ runningTaskCount (runTaskLocked_enter task s)
     = update_count (runningTaskCount s) (threadType task)
         (size_incr (runningTaskCount s (threadType task)))
  /\ threadCount (runTaskLocked_enter task s) = threadCount s.
Proof. intros s task. repeat split. Qed.

Lemma runTaskLocked_leave_fields : forall s task ty,
  helperTasks_ (runTaskLocked_leave task ty s)
  = eraseIfEqual (helperTasks_ s) task
  /\ totalCountRunningTasks (runTaskLocked_leave task ty s)
     = size_decr (totalCountRunningTasks s)
  /\ runningTaskCount (runTaskLocked_leave task ty s)
     = update_count (runningTaskCount s) ty
         (size_decr (runningTaskCount s ty))
  /\ threadCount (runTaskLocked_leave task ty s) = threadCount s.
Proof. intros s task ty. repeat split. Qed.

Lemma runTaskLocked_enter_consistent : forall s task,
  consistent s ->
  ~ In task (helperTasks_ s) ->
  totalCountRunningTasks s < threadCount s ->
  consistent (runTaskLocked_enter task s).
Proof.
  intros s task [Htot Hcount Hnd Hthreads Hroom] Hfresh Hidle.
  unfold in_size_t in Hthreads.
  destruct (runTaskLocked_enter_fields s task) as (Hh & Ht & Hc & Hn).
  constructor; rewrite ?Hh, ?Ht, ?Hc, ?Hn.
  - rewrite Htot, length_app. cbn [length]. unfold size_incr.
    rewrite wrap_small by (unfold in_size_t; lia). lia.
  - intro ty. rewrite countRunning_app. unfold update_count.
    pose proof (countRunning_le_length (threadType task) (helperTasks_ s)).
    destruct (ThreadType_eq_dec ty (threadType task)) as [->|Hne].
    + rewrite ThreadType_eqb_refl, Hcount. unfold size_incr.
      rewrite wrap_small by (unfold in_size_t; lia). cbn [one_if]. lia.
    + rewrite ThreadType_eqb_neq by congruence. rewrite Hcount.
      cbn [one_if]. lia.
  - apply NoDup_app; [exact Hnd | repeat constructor; intros [] |].
    intros x Hx [<-|[]]. contradiction.
  - exact Hthreads.
  - rewrite length_app. cbn [length]. lia.
Qed.

Lemma runTaskLocked_leave_consistent : forall s task,
  consistent s ->
  In task (helperTasks_ s) ->
  consistent (runTaskLocked_leave task (threadType task) s).
Proof.
  intros s task [Htot Hcount Hnd Hthreads Hroom] Hin.
  unfold in_size_t in Hthreads.
  destruct (eraseIfEqual_once _ _ Hnd Hin) as (front & back & Hl & Herase).
  assert (Hlen : length (helperTasks_ s)
                 = S (length (front ++ back))).
  { rewrite Hl, !length_app. cbn [length]. lia. }
  destruct (runTaskLocked_leave_fields s task (threadType task))
    as (Hh & Ht & Hc & Hn).
  constructor; rewrite ?Hh, ?Ht, ?Hc, ?Hn, ?Herase.
  - rewrite Htot, Hlen. unfold size_decr.
    rewrite wrap_small by (unfold in_size_t; lia). lia.
  - intro ty. unfold update_count. rewrite (Hcount ty).
    rewrite (Hcount (threadType task)), Hl, !countRunning_split.
    pose proof (countRunning_le_length (threadType task) (front ++ back)).
    destruct (ThreadType_eq_dec ty (threadType task)) as [->|Hne].
    + rewrite ThreadType_eqb_refl. cbn [one_if]. unfold size_decr.
      rewrite wrap_small by (unfold in_size_t; lia). lia.
    + rewrite (ThreadType_eqb_neq (threadType task) ty) by congruence.
      cbn [one_if]. lia.
  - rewrite Hl in Hnd. exact (NoDup_remove_1 _ _ _ Hnd).
  - exact Hthreads.
  - lia.
Qed.

Lemma select_inv : forall (A : Type) (tag : A -> HelperThreadTask)
    (store : list A -> State -> State) s popped task s1,
  select tag store s popped = Some (task, s1) ->
  exists t rest, popped = Some (t, rest) /\ task = tag t /\ s1 = store rest s.
Proof.
  intros A tag store s popped task s1 H. unfold select in H.
  destruct popped as [[t rest]|]; [|discriminate].
  injection H as <- <-. exists t, rest. auto.
Qed.

Local Ltac crack H :=
  repeat match type of H with
         | match ?c with _ => _ end = _ =>
             let E := fresh "E" in destruct c eqn:E; try discriminate H
         end.

Local Ltac selected H :=
  crack H; injection H as H;
  first
    [ apply select_inv in H; destruct H as (? & ? & _ & -> & ->)
    | unfold highestPriorityPendingIonCompile in H; crack H;
      injection H as <- <- ].

(** What a successful selection tells: only a worklist changed, and a task of
    a single-slot kind passed that kind's admission predicate. *)
Lemma findHighestPriorityTask_inv : forall s task s1,
  findHighestPriorityTask s = Some (Some (task, s1)) ->
  registry_untouched s s1
  /\ match task with
     | TaskTier2Generator _ => canStartWasmTier2GeneratorTask s = true
     | TaskCompression _ => canStartCompressionTask s = true
     | _ => True
     end.
Proof.
  intros s task s1 H.
  destruct (firstSelected_hit_inv _ _ _ H) as (i & selector & Hn & Hs & _).
  destruct i as [|[|[|[|[|[|[|[|[|[|[|[|i]]]]]]]]]]]];
    cbn [nth_error selectors] in Hn;
    try (destruct i; discriminate);
    injection Hn as <-;
    unfold maybeGetGCParallelTask, maybeGetIonCompileTask,
      maybeGetWasmTier1CompileTask, maybeGetWasmTier2CompileTask,
      maybeGetWasmCompile, maybeGetPromiseHelperTask, maybeGetParseTask,
      maybeGetFreeDelazifyTask, maybeGetDelazifyTask,
      maybeGetCompressionTask, maybeGetLowPrioIonCompileTask,
      maybeGetIonFreeTask, maybeGetWasmTier2GeneratorTask in Hs;
    selected Hs;
    (split; [repeat split|]);
    try exact I;
    match goal with
    | E : negb _ = false |- _ => apply negb_false_iff in E; exact E
    end.
Qed.

Lemma startup_consistent : forall probed setup,
  setup_in_range setup -> consistent (startup probed setup).
Proof.
  intros probed setup Hrange.
  assert (Hthreads : in_size_t (threadCount (startup probed setup))).
  { destruct setup as [|count|threads]; cbn -[Z.min Z.max] in *.
    - unfold ThreadCountForCPUCount, ClampDefaultCPUCount, in_size_t.
      rewrite SIZE_MODULUS_value. lia.
    - unfold ThreadCountForCPUCount, in_size_t in *.
      rewrite SIZE_MODULUS_value in *. lia.
    - exact Hrange. }
  constructor.
  - destruct setup; reflexivity.
  - intro ty. destruct setup; reflexivity.
  - destruct setup; constructor.
  - exact Hthreads.
  - replace (helperTasks_ (startup probed setup)) with (@nil HelperThreadTask)
      by (destruct setup; reflexivity).
    unfold in_size_t in Hthreads. cbn [length]. lia.
Qed.

Lemma step_consistent : forall s s',
  step s s' -> consistent s -> consistent s'.
Proof.
  intros s s' Hstep Hc. destruct Hstep as [s s' Hu | s task s1 Hidle Hsel Hfresh | s task Hin].
  - exact (consistent_untouched _ _ Hc Hu).
  - destruct (findHighestPriorityTask_inv _ _ _ Hsel) as [Hu _].
    pose proof (consistent_untouched _ _ Hc Hu) as Hc1.
    destruct Hu as (Hh & Ht & _ & Hn).
    apply runTaskLocked_enter_consistent; [exact Hc1| |].
    + rewrite Hh. exact Hfresh.
    + rewrite Ht, Hn. exact Hidle.
  - exact (runTaskLocked_leave_consistent _ _ Hc Hin).
Qed.

Lemma reachable_consistent : forall s, reachable s -> consistent s.
Proof.
  intros s H. induction H as [probed setup Hrange | s s' _ IH Hstep].
  - exact (startup_consistent probed setup Hrange).
  - exact (step_consistent _ _ Hstep IH).
Qed.

(** C10.  In every reachable state, that is whenever the lock is held outside
    the window in which [runTaskLocked] runs a task, [totalCountRunningTasks]
    is the number of registry entries, [runningTaskCount[t]] is the number of
    entries of thread type [t], and the registry has no duplicates and fits
    the thread count.  [runTaskLocked] brackets the run: the first half puts
    the task into the registry and keeps the bookkeeping in step, the second
    half takes it out again and keeps the bookkeeping in step, whatever
    bookkeeping-preserving steps other threads take in between. *)
Theorem running_registry_bookkeeping :
  (forall s, reachable s -> consistent s)
  /\ (forall s task,
        consistent s ->
        ~ In task (helperTasks_ s) ->
        totalCountRunningTasks s < threadCount s ->
        consistent (runTaskLocked_enter task s)
        /\ In task (helperTasks_ (runTaskLocked_enter task s)))
  /\ (forall s task,
        consistent s ->
        In task (helperTasks_ s) ->
        consistent (runTaskLocked_leave task (threadType task) s)
        /\ ~ In task (helperTasks_
                        (runTaskLocked_leave task (threadType task) s)))
  /\ (forall run s task,
        consistent s ->
        ~ In task (helperTasks_ s) ->
        totalCountRunningTasks s < threadCount s ->
        (forall x, consistent x -> In task (helperTasks_ x) ->
                   consistent (run x) /\ In task (helperTasks_ (run x))) ->
        consistent (runTaskLocked run task s)
        /\ ~ In task (helperTasks_ (runTaskLocked run task s)))
  /\ (forall run s s',
        consistent s ->
        totalCountRunningTasks s < threadCount s ->
        (forall task, In task (helperTasks_ s) ->
                      forall s1, findHighestPriorityTask
                                   (set_tasksPending
                                      (size_decr (tasksPending_ s)) s)
                                 <> Some (Some (task, s1))) ->
        (forall task x, consistent x -> In task (helperTasks_ x) ->
                        consistent (run x) /\ In task (helperTasks_ (run x))) ->
        runOneTask run s = Some s' ->
        consistent s').
Proof.
  assert (Henter : forall s task,
             consistent s -> ~ In task (helperTasks_ s) ->
             totalCountRunningTasks s < threadCount s ->
             consistent (runTaskLocked_enter task s)
             /\ In task (helperTasks_ (runTaskLocked_enter task s))).
  { intros s task Hc Hfresh Hidle. split.
    - exact (runTaskLocked_enter_consistent _ _ Hc Hfresh Hidle).
    - destruct (runTaskLocked_enter_fields s task) as [-> _].
      apply in_or_app. right. left. reflexivity. }
  assert (Hleave : forall s task,
             consistent s -> In task (helperTasks_ s) ->
             consistent (runTaskLocked_leave task (threadType task) s)
             /\ ~ In task (helperTasks_
                             (runTaskLocked_leave task (threadType task) s))).
  { intros s task Hc Hin. split.
    - exact (runTaskLocked_leave_consistent _ _ Hc Hin).
    - destruct (runTaskLocked_leave_fields s task (threadType task))
        as [-> _].
      rewrite eraseIfEqual_In. intros [_ Hne]. apply Hne. reflexivity. }
  assert (Hbracket : forall run s task,
             consistent s -> ~ In task (helperTasks_ s) ->
             totalCountRunningTasks s < threadCount s ->
             (forall x, consistent x -> In task (helperTasks_ x) ->
                        consistent (run x) /\ In task (helperTasks_ (run x))) ->
             consistent (runTaskLocked run task s)
             /\ ~ In task (helperTasks_ (runTaskLocked run task s))).
  { intros run s task Hc Hfresh Hidle Hrun. unfold runTaskLocked.
    destruct (Henter s task Hc Hfresh Hidle) as [Hc1 Hin1].
    destruct (Hrun _ Hc1 Hin1) as [Hc2 Hin2].
    exact (Hleave _ task Hc2 Hin2). }
  split; [exact reachable_consistent|].
  split; [exact Henter|]. split; [exact Hleave|]. split; [exact Hbracket|].
  intros run s s' Hc Hidle Hfresh Hrun H. unfold runOneTask in H.
  set (s0 := set_tasksPending (size_decr (tasksPending_ s)) s) in *.
  assert (Hc0 : consistent s0).
  { apply (consistent_untouched s); [exact Hc | repeat split]. }
  destruct (findHighestPriorityTask s0) as [[[task s1]|]|] eqn:Esel;
    [| injection H as <-; exact Hc0 | discriminate].
  destruct (findHighestPriorityTask_inv _ _ _ Esel) as [Hu _].
  pose proof (consistent_untouched _ _ Hc0 Hu) as Hc1.
  destruct Hu as (Hh & Ht & _ & Hn).
  assert (Hc2 : consistent (runTaskLocked run task s1)).
  { apply (Hbracket run s1 task Hc1).
    - rewrite Hh. intro Hin. exact (Hfresh task Hin s1 eq_refl).
    - rewrite Ht, Hn. exact Hidle.
    - exact (Hrun task). }
  apply (consistent_untouched _ _ Hc2).
  apply dispatch_inv in H. destruct H as [-> | ->]; repeat split.
Qed.

Lemma running_registry_bookkeeping_witness :
  reachable (idleState 2)
  /\ consistent (idleState 2)
  /\ consistent (runTaskLocked (fun s => s) (TaskParse parseA) (idleState 2)).
Proof.
  assert (Hreach : reachable (idleState 2)).
  { apply reachable_startup. cbn. unfold in_size_t.
    rewrite SIZE_MODULUS_value. lia. }
  assert (Hc : consistent (idleState 2))
    by exact (proj1 running_registry_bookkeeping _ Hreach).
  split; [exact Hreach|]. split; [exact Hc|].
  apply (proj1 (proj2 (proj2 (proj2 running_registry_bookkeeping)))
           (fun s => s) (idleState 2) (TaskParse parseA) Hc).
  - intros [].
  - reflexivity.
  - intros x Hx Hin. split; assumption.
Defined.

(** ** Single-slot kinds *)

Lemma checkTaskThreadLimit_master_full : forall s ty maxThreads,
  maxThreads <= runningTaskCount s ty ->
  checkTaskThreadLimit s ty maxThreads true = false.
Proof.
  intros s ty maxThreads H. unfold checkTaskThreadLimit. cbn [negb andb].
  destruct (Z.leb_spec maxThreads (runningTaskCount s ty)); [reflexivity|lia].
Qed.

Lemma checkTaskThreadLimit_full : forall s ty maxThreads,
  maxThreads <= runningTaskCount s ty ->
  maxThreads < threadCount s ->
  checkTaskThreadLimit s ty maxThreads false = false.
Proof.
  intros s ty maxThreads H Hthreads. unfold checkTaskThreadLimit.
  cbn [negb andb].
  destruct (Z.leb_spec (threadCount s) maxThreads); [lia|].
  destruct (Z.leb_spec maxThreads (runningTaskCount s ty)); [reflexivity|lia].
Qed.

Lemma maxCompressionThreads_one : forall s, maxCompressionThreads s = 1.
Proof.
  intro s. unfold maxCompressionThreads.
  destruct (IsHelperThreadSimulatingOOM s THREAD_TYPE_COMPRESS); reflexivity.
Qed.

Lemma countRunning_erase_le : forall ty l task,
  (countRunning ty (eraseIfEqual l task) <= countRunning ty l)%nat.
Proof.
  intros ty l task. unfold countRunning, eraseIfEqual.
  induction l as [|x l IH]; [apply Nat.le_refl|].
  cbn [filter].
  destruct (HelperThreadTask_eqb x task); cbn [negb filter];
    destruct (ThreadType_eqb (threadType x) ty); cbn [length]; lia.
Qed.

Lemma threadType_generator : forall task,
  ThreadType_eqb (threadType task) THREAD_TYPE_WASM_GENERATOR_TIER2 = true ->
  exists t, task = TaskTier2Generator t.
Proof.
  intros [t|t|t|t|t|t|t|t|t|t] H; cbn in H; try discriminate; eauto.
  destruct (wasm_mode t); discriminate.
Qed.

Lemma threadType_compression : forall task,
  ThreadType_eqb (threadType task) THREAD_TYPE_COMPRESS = true ->
  exists t, task = TaskCompression t.
Proof.
  intros [t|t|t|t|t|t|t|t|t|t] H; cbn in H; try discriminate; eauto.
  destruct (wasm_mode t); discriminate.
Qed.

Lemma step_single_slots : forall s s',
  step s s' -> consistent s -> single_slots s -> single_slots s'.
Proof.
  intros s s' Hstep Hc [Hgen Hcomp].
  destruct Hstep as [s s' Hu | s task s1 Hidle Hsel Hfresh | s task Hin].
  - destruct Hu as (Hh & _). unfold single_slots. rewrite Hh. auto.
  - destruct (findHighestPriorityTask_inv _ _ _ Hsel) as [Hu Hadm].
    destruct Hu as (Hh & _).
    destruct (runTaskLocked_enter_fields s1 task) as [Hl _].
    unfold single_slots. rewrite Hl, Hh, !countRunning_app.
    destruct Hc as [Htot Hcount _ _ _].
    split.
    + destruct (ThreadType_eqb (threadType task)
                  THREAD_TYPE_WASM_GENERATOR_TIER2) eqn:E;
        cbn [one_if]; [|lia].
      apply threadType_generator in E. destruct E as [t ->].
      unfold canStartWasmTier2GeneratorTask in Hadm.
      apply andb_prop in Hadm. destruct Hadm as [_ Hlim].
      destruct (Z.le_gt_cases 1
                  (runningTaskCount s THREAD_TYPE_WASM_GENERATOR_TIER2))
        as [Hfull|Hfree].
      * rewrite (checkTaskThreadLimit_master_full s
                   THREAD_TYPE_WASM_GENERATOR_TIER2
                   (maxWasmTier2GeneratorThreads s) Hfull) in Hlim.
        discriminate.
      * rewrite Hcount in Hfree. lia.
    + destruct (ThreadType_eqb (threadType task) THREAD_TYPE_COMPRESS) eqn:E;
        cbn [one_if]; [|lia].
      apply threadType_compression in E. destruct E as [t ->].
      unfold canStartCompressionTask in Hadm.
      apply andb_prop in Hadm. destruct Hadm as [_ Hlim].
      rewrite maxCompressionThreads_one in Hlim.
      pose proof (countRunning_le_length THREAD_TYPE_COMPRESS (helperTasks_ s)).
      apply checkTaskThreadLimit_true_below_limit in Hlim;
        rewrite ?Hcount, ?Htot in *; lia.
  - destruct (runTaskLocked_leave_fields s task (threadType task)) as [Hl _].
    unfold single_slots. rewrite Hl.
    pose proof (countRunning_erase_le THREAD_TYPE_WASM_GENERATOR_TIER2
                  (helperTasks_ s) task).
    pose proof (countRunning_erase_le THREAD_TYPE_COMPRESS
                  (helperTasks_ s) task).
    lia.
Qed.

Lemma reachable_single_slots : forall s, reachable s -> single_slots s.
Proof.
  intros s H. induction H as [probed setup Hrange | s s' Hreach IH Hstep].
  - unfold single_slots.
    replace (helperTasks_ (startup probed setup)) with (@nil HelperThreadTask)
      by (destruct setup; reflexivity).
    cbn. lia.
  - exact (step_single_slots _ _ Hstep (reachable_consistent _ Hreach) IH).
Qed.

(** C7, as the code has it.  The per-kind maximum of the tier-2 generator and
    of source compression is 1.  With a tier-2 generator running, the
    generator's admission predicate is false; with a compression running and
    at least two threads, the compression predicate is false; with a thread
    count of 1 the compression predicate holds whenever a compression is
    queued, whatever the running counts are.  In every reachable state at
    most one task of each of the two kinds is in the registry. *)
Theorem single_slot_kinds :
  (forall s, maxWasmTier2GeneratorThreads s = 1 /\ maxCompressionThreads s = 1)
  /\ (forall s,
        1 <= runningTaskCount s THREAD_TYPE_WASM_GENERATOR_TIER2 ->
        canStartWasmTier2GeneratorTask s = false)
  /\ (forall s,
        1 <= runningTaskCount s THREAD_TYPE_COMPRESS ->
        2 <= threadCount s ->
        canStartCompressionTask s = false)
  /\ (forall s,
        threadCount s <= 1 ->
        compressionWorklist_ s <> [] ->
        canStartCompressionTask s = true)
  /\ (forall s, reachable s -> single_slots s).
Proof.
  split; [|split; [|split; [|split]]].
  - intro s. split; [reflexivity | apply maxCompressionThreads_one].
  - intros s H. unfold canStartWasmTier2GeneratorTask.
    rewrite (checkTaskThreadLimit_master_full s
               THREAD_TYPE_WASM_GENERATOR_TIER2
               (maxWasmTier2GeneratorThreads s) H).
    apply andb_false_r.
  - intros s H Hthreads. unfold canStartCompressionTask.
    rewrite maxCompressionThreads_one.
    rewrite checkTaskThreadLimit_full by lia.
    apply andb_false_r.
  - intros s Hone Hqueued. unfold canStartCompressionTask.
    rewrite maxCompressionThreads_one.
    destruct (compressionWorklist_ s) as [|task rest]; [congruence|].
    cbn [empty negb andb].
    apply checkTaskThreadLimit_worker_iff. left. lia.
  - exact reachable_single_slots.
Qed.

Lemma single_slot_kinds_witness :
  ((1 <= runningTaskCount compressBQueuedTwoThreads THREAD_TYPE_COMPRESS
    /\ 2 <= threadCount compressBQueuedTwoThreads
    /\ compressionWorklist_ compressBQueuedTwoThreads = [compressB])
   /\ canStartCompressionTask compressBQueuedTwoThreads = false)
  /\ ((threadCount compressBQueuedBehindA = 1
       /\ compressionWorklist_ compressBQueuedBehindA <> []
       /\ runningTaskCount compressBQueuedBehindA THREAD_TYPE_COMPRESS = 1)
      /\ canStartCompressionTask compressBQueuedBehindA = true).
Proof.
  split.
  - split.
    + split; [vm_compute; discriminate|].
      split; [vm_compute; discriminate | vm_compute; reflexivity].
    + apply (proj1 (proj2 (proj2 single_slot_kinds))
               compressBQueuedTwoThreads).
      * vm_compute. discriminate.
      * vm_compute. discriminate.
  - assert (Hone : threadCount compressBQueuedBehindA <= 1)
      by (vm_compute; discriminate).
    assert (Hqueued : compressionWorklist_ compressBQueuedBehindA <> [])
      by (vm_compute; discriminate).
    split.
    + split; [vm_compute; reflexivity|].
      split; [exact Hqueued | vm_compute; reflexivity].
    + exact (proj1 (proj2 (proj2 (proj2 single_slot_kinds)))
               compressBQueuedBehindA Hone Hqueued).
Defined.

(** C7 fails as stated for source compression on a pool of one thread: after
    [compressA] was queued and taken by the worker and [compressB] was queued,
    one compression is in the registry and the admission predicate for
    another one is true, because [checkTaskThreadLimit] returns early for a
    non-master kind whose maximum is not below the thread count. *)
Lemma compression_allowed_while_running_on_one_thread :
  reachable compressBQueuedBehindA
  /\ threadCount compressBQueuedBehindA = 1
  /\ helperTasks_ compressBQueuedBehindA = [TaskCompression compressA]
  /\ runningTaskCount compressBQueuedBehindA THREAD_TYPE_COMPRESS = 1
  /\ maxCompressionThreads compressBQueuedBehindA = 1
  /\ canStartCompressionTask compressBQueuedBehindA = true.
Proof.
  split; [|repeat split; vm_compute; reflexivity].
  apply (reachable_step compressARunning).
  - apply (reachable_step compressAQueued).
    + apply (reachable_step (idleState 1)).
      * apply reachable_startup. vm_compute.
        split; [discriminate | reflexivity].
      * apply step_other. repeat split.
    + apply (step_start compressAQueued (TaskCompression compressA)
               (set_compressionWorklist [] compressAQueued)).
      * vm_compute. reflexivity.
      * vm_compute. reflexivity.
      * intros [].
  - apply step_other. repeat split.
Qed.

(** ** Cancellation of Ion compilations *)

Lemma size_incr_decr : forall i, in_size_t i -> size_incr (size_decr i) = i.
Proof.
  intros i Hi. unfold size_incr, size_decr, wrap, in_size_t in *.
  rewrite Zplus_mod_idemp_l. replace (i - 1 + 1) with i by lia.
  apply Z.mod_small. exact Hi.
Qed.

Lemma size_incr_small : forall i,
  0 <= i -> i + 1 < SIZE_MODULUS -> size_incr i = i + 1.
Proof.
  intros i H0 H1. unfold size_incr. apply wrap_small.
  unfold in_size_t. lia.
Qed.

Lemma length_z_app : forall (A : Type) (l1 l2 : list A),
  length_z (l1 ++ l2) = length_z l1 + length_z l2.
Proof. intros. unfold length_z. rewrite length_app. lia. Qed.

Lemma length_z_cons : forall (A : Type) (x : A) (l : list A),
  length_z (x :: l) = length_z l + 1.
Proof. intros. unfold length_z. cbn [length]. lia. Qed.

Lemma length_z_nonneg : forall (A : Type) (l : list A), 0 <= length_z l.
Proof. intros. unfold length_z. lia. Qed.

Lemma store_at_middle : forall (A : Type) (front : list A) x back y,
  store_at (front ++ x :: back) (length front) y = front ++ y :: back.
Proof.
  induction front as [|a front IH]; intros x back y; cbn; [reflexivity|].
  f_equal. apply IH.
Qed.

Lemma nth_error_middle : forall (A : Type) (front : list A) x back,
  nth_error (front ++ x :: back) (length front) = Some x.
Proof.
  induction front as [|a front IH]; intros x back; cbn; [reflexivity|].
  apply IH.
Qed.

Lemma moved_up_In : forall (A : Type) (rest : list A) x,
  In x (moved_up rest) <-> In x rest.
Proof.
  intros A rest x. unfold moved_up.
  destruct rest as [|a rest]; [reflexivity|].
  destruct (popBack_nonempty A (a :: rest)) as (y & front & Hl & Hpop);
    [discriminate|].
  rewrite Hpop, Hl. rewrite in_app_iff. cbn [In]. tauto.
Qed.

Lemma moved_up_length : forall (A : Type) (rest : list A),
  length (moved_up rest) = length rest.
Proof.
  intros A rest. unfold moved_up.
  destruct rest as [|a rest]; [reflexivity|].
  destruct (popBack_nonempty A (a :: rest)) as (y & front & Hl & Hpop);
    [discriminate|].
  rewrite Hpop, Hl, length_app. cbn [length]. lia.
Qed.

Lemma swapRemove_at : forall (A : Type) (front : list A) x rest,
  length_z (front ++ x :: rest) < SIZE_MODULUS ->
  swapRemove A (front ++ x :: rest) (length_z front) =
    (front ++ moved_up rest, size_decr (length_z front)).
Proof.
  intros A front x rest Hfit.
  assert (Hlast : (length_z front
                   =? size_sub (length_z (front ++ x :: rest)) 1)
                  = empty rest).
  { rewrite length_z_app, length_z_cons in *.
    pose proof (length_z_nonneg A front). pose proof (length_z_nonneg A rest).
    unfold size_sub. rewrite wrap_small by (unfold in_size_t; lia).
    destruct rest as [|a rest]; cbn [empty].
    - change (length_z (@nil A)) with 0. apply Z.eqb_eq. lia.
    - rewrite length_z_cons. pose proof (length_z_nonneg A rest).
      apply Z.eqb_neq. lia. }
  unfold swapRemove. rewrite Hlast. f_equal. unfold moved_up.
  destruct rest as [|a rest]; cbn [empty].
  - cbn [popBack rev]. rewrite removelast_last, app_nil_r. reflexivity.
  - destruct (popBack_nonempty A (a :: rest)) as (y & mid & Hl & Hpop);
      [discriminate|].
    rewrite Hpop, Hl.
    replace (front ++ x :: mid ++ [y]) with ((front ++ x :: mid) ++ [y])
      by (rewrite <- app_assoc; reflexivity).
    rewrite popBack_app.
    unfold length_z. rewrite Nat2Z.id.
    rewrite <- app_assoc. cbn [app].
    rewrite store_at_middle.
    replace (front ++ y :: mid ++ [y]) with ((front ++ y :: mid) ++ [y])
      by (rewrite <- app_assoc; reflexivity).
    apply removelast_last.
Qed.

Lemma swapRemove_removes_in_place : removes_in_place swapRemove.
Proof.
  intros A front x rest Hfit. exists (moved_up rest).
  split; [exact (swapRemove_at A front x rest Hfit)|].
  split; [apply moved_up_length | intro y; apply moved_up_In].
Qed.

Lemma unlinkTask_reclaims : reclaims unlinkTask.
Proof.
  intros runtime task s. repeat split; try reflexivity.
  - unfold unlinkTask, update_runtime in H. cbn in H.
    rewrite Nat.eqb_refl in H. apply filter_In in H. tauto.
  - unfold unlinkTask, update_runtime in H. cbn in H.
    rewrite Nat.eqb_refl in H. apply filter_In in H. destruct H as [_ H].
    destruct (IonCompileTask_eq_dec t task); [discriminate|assumption].
Qed.

Section CancellationProperties.

Variable remove : forall A : Type, list A -> Z -> list A * Z.
Hypothesis remove_ok : removes_in_place remove.

Variable FinishOffThreadTask : JSRuntime -> IonCompileTask -> State -> State.
Hypothesis finish_ok : reclaims FinishOffThreadTask.

Lemma sweep_spec : forall (A : Type) (P : A -> bool) fuel front todo,
  (length todo <= fuel)%nat ->
  length_z (front ++ todo) < SIZE_MODULUS ->
  (forall x, In x front -> P x = false) ->
  forall x,
    In x (sweep remove P fuel (length_z front) (front ++ todo)) <->
    In x (front ++ todo) /\ P x = false.
Proof.
  intros A P fuel. induction fuel as [|fuel IH];
    intros front todo Hfuel Hfit Hfront x.
  - destruct todo; [|cbn in Hfuel; lia].
    cbn [sweep]. rewrite app_nil_r. split; [|tauto].
    intro Hin. split; [exact Hin | exact (Hfront x Hin)].
  - cbn [sweep]. destruct todo as [|y rest].
    + rewrite app_nil_r.
      destruct (Z.ltb_spec (length_z front) (length_z front)); [lia|].
      split; [|tauto]. intro Hin. split; [exact Hin | exact (Hfront x Hin)].
    + pose proof (length_z_nonneg A front).
      pose proof (length_z_nonneg A rest).
      assert (Hlen : length_z (front ++ y :: rest)
                     = length_z front + length_z rest + 1)
        by (rewrite length_z_app, length_z_cons; lia).
      destruct (Z.ltb_spec (length_z front) (length_z (front ++ y :: rest)));
        [|lia].
      unfold length_z at 1. rewrite Nat2Z.id, nth_error_middle.
      fold (length_z front).
      destruct (P y) eqn:Py.
      * destruct (remove_ok A front y rest Hfit) as (rest' & -> & Hl & Hin').
        rewrite size_incr_decr by (unfold in_size_t; lia).
        rewrite (IH front rest').
        -- rewrite !in_app_iff, Hin'. cbn [In].
           split; [tauto|]. intros [[Hf | [<- | Hr]] Hx]; try tauto.
           congruence.
        -- rewrite Hl. cbn [length] in Hfuel. lia.
        -- rewrite length_z_app. unfold length_z at 2.
           rewrite Hl. fold (length_z rest). lia.
        -- exact Hfront.
      * rewrite size_incr_small by lia.
        replace (length_z front + 1) with (length_z (front ++ [y]))
          by (rewrite length_z_app; reflexivity).
        replace (front ++ y :: rest) with ((front ++ [y]) ++ rest)
          by (rewrite <- app_assoc; reflexivity).
        apply IH.
        -- cbn [length] in Hfuel. lia.
        -- rewrite <- app_assoc. exact Hfit.
        -- intros z Hz. apply in_app_or in Hz.
           destruct Hz as [Hz | [<- | []]]; [exact (Hfront z Hz) | exact Py].
Qed.

Lemma sweep_all : forall (A : Type) (P : A -> bool) (v : list A) x,
  length_z v < SIZE_MODULUS ->
  In x (sweep remove P (length v) 0 v) <-> In x v /\ P x = false.
Proof.
  intros A P v x Hfit.
  apply (sweep_spec A P (length v) [] v); auto. intros y [].
Qed.

Lemma cancelPending_worklist : forall selector fuel i s,
  ionWorklist_ (cancelPending remove fuel selector i s) =
    sweep remove (IonCompileTaskMatches selector) fuel i (ionWorklist_ s).
Proof.
  intros selector fuel. induction fuel as [|fuel IH]; intros i s;
    [reflexivity|].
  cbn [cancelPending sweep].
  destruct (i <? length_z (ionWorklist_ s)); [|reflexivity].
  destruct (nth_error (ionWorklist_ s) (Z.to_nat i)) as [task|];
    [|reflexivity].
  destruct (IonCompileTaskMatches selector task); [|apply IH].
  change (ionWorklist_ (FinishOffThreadIonCompile task s))
    with (ionWorklist_ s).
  destruct (remove _ (ionWorklist_ s) i) as [worklist' i'].
  rewrite IH. reflexivity.
Qed.

Lemma cancelPending_frame : forall selector fuel i s,
  let s' := cancelPending remove fuel selector i s in
  helperTasks_ s' = helperTasks_ s
  /\ ionLazyLinkList_ s' = ionLazyLinkList_ s
  /\ (length (ionFinishedList_ s') <= length (ionFinishedList_ s) + fuel)%nat.
Proof.
  intros selector fuel. induction fuel as [|fuel IH]; intros i s; cbv zeta.
  - cbn [cancelPending]. repeat split. lia.
  - cbn [cancelPending].
    destruct (i <? length_z (ionWorklist_ s)); [|repeat split; lia].
    destruct (nth_error (ionWorklist_ s) (Z.to_nat i)) as [task|];
      [|repeat split; lia].
    destruct (IonCompileTaskMatches selector task).
    + destruct (remove _ (ionWorklist_ (FinishOffThreadIonCompile task s)) i)
        as [worklist' i'].
      destruct (IH (size_incr i')
                  (set_ionWorklist worklist'
                     (FinishOffThreadIonCompile task s)))
        as (Hh & Hl & Hf).
      rewrite Hh, Hl. repeat split.
      eapply Nat.le_trans; [exact Hf|].
      change (ionFinishedList_
                (set_ionWorklist worklist' (FinishOffThreadIonCompile task s)))
        with (ionFinishedList_ s ++ [task]).
      rewrite length_app. cbn [length]. lia.
    + destruct (IH (size_incr i) s) as (Hh & Hl & Hf).
      rewrite Hh, Hl. repeat split. lia.
Qed.

Lemma cancelFinished_finished : forall selector fuel i s,
  ionFinishedList_
    (cancelFinished remove FinishOffThreadTask fuel selector i s) =
    sweep remove (IonCompileTaskMatches selector) fuel i (ionFinishedList_ s).
Proof.
  intros selector fuel. induction fuel as [|fuel IH]; intros i s;
    [reflexivity|].
  cbn [cancelFinished sweep].
  destruct (i <? length_z (ionFinishedList_ s)); [|reflexivity].
  destruct (nth_error (ionFinishedList_ s) (Z.to_nat i)) as [task|];
    [|reflexivity].
  destruct (IonCompileTaskMatches selector task); [|apply IH].
  cbv zeta.
  match goal with
  | |- context [remove _ (ionFinishedList_ (FinishOffThreadTask ?rt ?t ?st)) i] =>
      destruct (finish_ok rt t st) as (_ & _ & Hf & _); rewrite Hf;
      change (ionFinishedList_ st) with (ionFinishedList_ s)
  end.
  destruct (remove _ (ionFinishedList_ s) i) as [finished' i'].
  rewrite IH. reflexivity.
Qed.

Lemma cancelFinished_frame : forall selector fuel i s,
  let s' := cancelFinished remove FinishOffThreadTask fuel selector i s in
  helperTasks_ s' = helperTasks_ s /\ ionWorklist_ s' = ionWorklist_ s.
Proof.
  intros selector fuel. induction fuel as [|fuel IH]; intros i s; cbv zeta.
  - split; reflexivity.
  - cbn [cancelFinished].
    destruct (i <? length_z (ionFinishedList_ s)); [|split; reflexivity].
    destruct (nth_error (ionFinishedList_ s) (Z.to_nat i)) as [task|];
      [|split; reflexivity].
    destruct (IonCompileTaskMatches selector task); [|apply IH].
    cbv zeta.
    match goal with
    | |- context [remove _ ?v i] => destruct (remove _ v i) as [finished' i']
    end.
    match goal with
    | |- context [cancelFinished _ _ fuel selector ?j
                    (set_ionFinishedList ?l (FinishOffThreadTask ?rt ?t ?st))] =>
        destruct (IH j (set_ionFinishedList l (FinishOffThreadTask rt t st)))
          as (Hh & Hw);
        destruct (finish_ok rt t st) as (Fh & Fw & _)
    end.
    rewrite Hh, Hw. cbn [helperTasks_ ionWorklist_ set_ionFinishedList].
    rewrite Fh, Fw. split; reflexivity.
Qed.

Lemma cancelLazyLink_loop : forall selector runtime todo s,
  let s' :=
    fold_left
      (fun st task =>
         if IonCompileTaskMatches selector task
         then FinishOffThreadTask runtime task st else st)
      todo s in
  helperTasks_ s' = helperTasks_ s
  /\ ionWorklist_ s' = ionWorklist_ s
  /\ ionFinishedList_ s' = ionFinishedList_ s
  /\ (forall task,
        In task (ionLazyLinkList_ s' runtime) ->
        In task (ionLazyLinkList_ s runtime)
        /\ (In task todo -> IonCompileTaskMatches selector task = false)).
Proof.
  intros selector runtime todo.
  induction todo as [|t todo IH]; intros s; cbv zeta.
  - cbn [fold_left]. split; [reflexivity|]. split; [reflexivity|].
    split; [reflexivity|]. intros task Hin. split; [exact Hin | intros []].
  - cbn [fold_left].
    destruct (IonCompileTaskMatches selector t) eqn:Pt.
    + destruct (IH (FinishOffThreadTask runtime t s)) as (Hh & Hw & Hf & Hl).
      destruct (finish_ok runtime t s) as (Fh & Fw & Ff & Fl).
      rewrite Hh, Hw, Hf, Fh, Fw, Ff.
      split; [reflexivity|]. split; [reflexivity|]. split; [reflexivity|].
      intros task Hin. destruct (Hl task Hin) as [Hin1 Htodo].
      destruct (Fl task Hin1) as [Hin0 Hne].
      split; [exact Hin0|].
      intros [Heq | Hin']; [congruence | exact (Htodo Hin')].
    + destruct (IH s) as (Hh & Hw & Hf & Hl).
      rewrite Hh, Hw, Hf.
      split; [reflexivity|]. split; [reflexivity|]. split; [reflexivity|].
      intros task Hin. destruct (Hl task Hin) as [Hin1 Htodo].
      split; [exact Hin1|].
      intros [<- | Hin']; [exact Pt | exact (Htodo Hin')].
Qed.

End CancellationProperties.

Lemma runningMatches_In : forall selector s task,
  In task (runningMatches selector s) <->
  In (TaskIonCompile task) (helperTasks_ s)
  /\ IonCompileTaskMatches selector task = true.
Proof.
  intros selector s task. unfold runningMatches. rewrite in_flat_map.
  split.
  - intros (helper & Hin & Hmatch).
    destruct helper; try contradiction.
    destruct (IonCompileTaskMatches selector t) eqn:E; [|contradiction].
    destruct Hmatch as [<- | []]. auto.
  - intros [Hin Hmatch]. exists (TaskIonCompile task).
    split; [exact Hin|]. rewrite Hmatch. left. reflexivity.
Qed.

Lemma waitForRunning_done : forall interference selector fuel k s s',
  (forall n x, quiescent selector x -> quiescent selector (interference n x)) ->
  quiescent selector s ->
  waitForRunning interference fuel k selector s = Some s' ->
  quiescent selector s' /\ runningMatches selector s' = [].
Proof.
  intros interference selector fuel.
  induction fuel as [|fuel IH]; intros k s s' Hrely Hq H; [discriminate|].
  cbn [waitForRunning] in H.
  destruct (runningMatches selector s) as [|hit hits] eqn:E.
  - cbn [empty] in H. injection H as <-. auto.
  - cbn [empty] in H. apply (IH _ _ _ Hrely) in H; [exact H|].
    apply Hrely. exact Hq.
Qed.

(** C4.  Let [remove] delete in place and [FinishOffThreadTask] reclaim, and
    suppose that while the canceller waits no other thread queues a
    compilation its selector matches (and the finished list stays within a
    [size_t]).  Then whenever [CancelOffThreadIonCompileLocked] returns, no
    compilation the selector matches is left in the compile worklist, in the
    registry, in the finished list, or in the lazy-link list of the selector's
    runtime.  It returns without waiting when no matching compilation is
    running. *)
Theorem cancellation_completeness :
  forall (remove : forall A : Type, list A -> Z -> list A * Z)
         (FinishOffThreadTask : JSRuntime -> IonCompileTask -> State -> State)
         (interference : nat -> State -> State)
         (selector : CompilationSelector),
  removes_in_place remove ->
  reclaims FinishOffThreadTask ->
  (forall n x, quiescent selector x -> quiescent selector (interference n x)) ->
  forall (s : State),
  length_z (ionWorklist_ s) + length_z (ionFinishedList_ s) < SIZE_MODULUS ->
  (isInitialized_ s = false -> nothing_left selector s) ->
  (forall fuel s',
      CancelOffThreadIonCompileLocked remove FinishOffThreadTask interference
        fuel selector s = Some s' ->
      nothing_left selector s')
  /\ (runningMatches selector s = [] ->
      exists s',
        CancelOffThreadIonCompileLocked remove FinishOffThreadTask interference
          1 selector s = Some s').
Proof.
  intros remove FinishOffThreadTask interference selector
         Hremove Hfinish Hrely s Hfit Hinit.
  pose proof (length_z_nonneg _ (ionWorklist_ s)) as Hw0.
  pose proof (length_z_nonneg _ (ionFinishedList_ s)) as Hf0.
  set (s1 := cancelPending remove (length (ionWorklist_ s)) selector 0 s).
  destruct (cancelPending_frame remove selector (length (ionWorklist_ s)) 0 s)
    as (Hh1 & Hl1 & Hf1). fold s1 in Hh1, Hl1, Hf1.
  assert (Hq1 : quiescent selector s1).
  { split.
    - intros task Hin. unfold s1 in Hin.
      rewrite cancelPending_worklist in Hin.
      apply (sweep_all remove Hremove) in Hin; [tauto | lia].
    - unfold length_z in *. lia. }
  split.
  - intros fuel s' H. unfold CancelOffThreadIonCompileLocked in H.
    destruct (isInitialized_ s) eqn:Einit; cbn [negb] in H.
    + fold s1 in H.
      destruct (waitForRunning interference fuel 0 selector s1) as [s2|] eqn:E2;
        [|discriminate].
      injection H as <-.
      destruct (waitForRunning_done _ _ _ _ _ _ Hrely Hq1 E2)
        as [[Hw2 Hf2] Hr2].
      set (s3 := cancelFinished remove FinishOffThreadTask
                   (length (ionFinishedList_ s2)) selector 0 s2).
      destruct (cancelFinished_frame remove FinishOffThreadTask Hfinish
                  selector (length (ionFinishedList_ s2)) 0 s2)
        as (Hh3 & Hw3). fold s3 in Hh3, Hw3.
      destruct (cancelLazyLink_loop FinishOffThreadTask Hfinish selector
                  (GetSelectorRuntime selector)
                  (ionLazyLinkList_ s3 (GetSelectorRuntime selector)) s3)
        as (Hh4 & Hw4 & Hf4 & Hl4).
      unfold nothing_left, cancelLazyLink.
      rewrite Hh4, Hw4, Hf4, Hh3, Hw3.
      split; [exact Hw2|]. split; [|split].
      * intros task Hin.
        destruct (IonCompileTaskMatches selector task) eqn:Em; [|reflexivity].
        assert (Hrun : In task (runningMatches selector s2))
          by (apply runningMatches_In; auto).
        rewrite Hr2 in Hrun. destruct Hrun.
      * intros task Hin. unfold s3 in Hin.
        rewrite (cancelFinished_finished remove FinishOffThreadTask Hfinish)
          in Hin.
        apply (sweep_all remove Hremove) in Hin; [tauto | exact Hf2].
      * intros task Hin. destruct (Hl4 task Hin) as [Hin3 Hno].
        exact (Hno Hin3).
    + injection H as <-. exact (Hinit eq_refl).
  - intro Hidle. unfold CancelOffThreadIonCompileLocked.
    destruct (isInitialized_ s); cbn [negb]; [|eauto].
    fold s1. cbn [waitForRunning].
    unfold runningMatches in *. rewrite Hh1, Hidle. cbn [empty]. eauto.
Qed.

Lemma retireIon_fold : forall done s,
  ionWorklist_ (fold_left retireIon done s) = ionWorklist_ s
  /\ ionFinishedList_ (fold_left retireIon done s)
     = ionFinishedList_ s ++ done.
Proof.
  induction done as [|t done IH]; intro s; cbn [fold_left].
  - rewrite app_nil_r. split; reflexivity.
  - destruct (IH (retireIon s t)) as [Hw Hf]. rewrite Hw, Hf.
    split; [reflexivity|].
    change (ionFinishedList_ (retireIon s t)) with (ionFinishedList_ s ++ [t]).
    rewrite <- app_assoc. reflexivity.
Qed.

Lemma retireRunningIon_quiescent : forall selector s,
  quiescent selector s -> quiescent selector (retireRunningIon s).
Proof.
  intros selector s [Hw Hf]. unfold retireRunningIon.
  match goal with
  | |- context [fold_left retireIon ?done s] =>
      destruct (retireIon_fold done s) as [Ew Ef];
      destruct (Z.ltb_spec (length_z (ionFinishedList_ s ++ done))
                  SIZE_MODULUS) as [Hfit|_]
  end.
  - split.
    + rewrite Ew. exact Hw.
    + rewrite Ef. exact Hfit.
  - split; assumption.
Qed.

Lemma cancellation_completeness_witness :
  (length_z (ionWorklist_ ionBusy) + length_z (ionFinishedList_ ionBusy)
   < SIZE_MODULUS
   /\ isInitialized_ ionBusy = true
   /\ runningMatches (SelectRuntime 0%nat) ionBusy = [ionC]
   /\ CancelOffThreadIonCompileLocked swapRemove unlinkTask
        (fun _ => retireRunningIon) 2 (SelectRuntime 0%nat) ionBusy
      = Some ionCancelled)
  /\ nothing_left (SelectRuntime 0%nat) ionCancelled.
Proof.
  assert (Hrun : CancelOffThreadIonCompileLocked swapRemove unlinkTask
                   (fun _ => retireRunningIon) 2 (SelectRuntime 0%nat) ionBusy
                 = Some ionCancelled)
    by (vm_compute; reflexivity).
  split.
  - split; [vm_compute; reflexivity|]. split; [reflexivity|].
    split; [vm_compute; reflexivity | exact Hrun].
  - apply (proj1 (cancellation_completeness swapRemove unlinkTask
                    (fun _ => retireRunningIon) (SelectRuntime 0%nat)
                    swapRemove_removes_in_place
                    unlinkTask_reclaims
                    (fun _ x => retireRunningIon_quiescent _ x)
                    ionBusy
                    ltac:(vm_compute; reflexivity)
                    ltac:(intro H; vm_compute in H; discriminate H))
             2%nat ionCancelled Hrun).
Defined.

(* ================================================================= *)
(** * Further properties *)

(** ** Selectors and owners of Ion compilations *)

Lemma Zone_eqb_eq : forall a b, Zone_eqb a b = true <-> a = b.
Proof.
  intros a b. unfold Zone_eqb. destruct (Zone_eq_dec a b); split; congruence.
Qed.

Lemma JSScript_eqb_eq : forall a b, JSScript_eqb a b = true <-> a = b.
Proof.
  intros a b. unfold JSScript_eqb.
  destruct (JSScript_eq_dec a b); split; congruence.
Qed.

(** X1.  A compilation that a selector matches belongs to the runtime
    [GetSelectorRuntime] computes for that selector; this is why the
    canceller only walks the lazy-link list of that one runtime. *)
Theorem matching_task_is_of_selector_runtime : forall selector task,
  IonCompileTaskMatches selector task = true ->
  script_runtime (ion_script task) = GetSelectorRuntime selector.
Proof.
  intros [script | zone | runtime state | runtime] task H;
    cbn [IonCompileTaskMatches GetSelectorRuntime] in *.
  - apply JSScript_eqb_eq in H. subst script. reflexivity.
  - apply Zone_eqb_eq in H. subst zone. reflexivity.
  - apply andb_prop in H. destruct H as [H _].
    apply Nat.eqb_eq in H. symmetry. exact H.
  - apply Nat.eqb_eq in H. symmetry. exact H.
Qed.

Lemma matching_task_is_of_selector_runtime_witness :
  IonCompileTaskMatches (SelectZone zone0) ionA = true
  /\ script_runtime (ion_script ionA) = GetSelectorRuntime (SelectZone zone0).
Proof.
  split; [reflexivity|].
  apply (matching_task_is_of_selector_runtime (SelectZone zone0) ionA).
  reflexivity.
Defined.

Lemma cancel_initialized_nothing_left :
  forall (remove : forall A : Type, list A -> Z -> list A * Z)
         (FinishOffThreadTask : JSRuntime -> IonCompileTask -> State -> State)
         (interference : nat -> State -> State)
         (selector : CompilationSelector) (s : State) fuel s',
  removes_in_place remove ->
  reclaims FinishOffThreadTask ->
  (forall n x, quiescent selector x -> quiescent selector (interference n x)) ->
  length_z (ionWorklist_ s) + length_z (ionFinishedList_ s) < SIZE_MODULUS ->
  isInitialized_ s = true ->
  CancelOffThreadIonCompileLocked remove FinishOffThreadTask interference
    fuel selector s = Some s' ->
  nothing_left selector s'.
Proof.
  intros remove FinishOffThreadTask interference selector s fuel s'
         Hremove Hfinish Hrely Hfit Hinit H.
  pose proof (length_z_nonneg _ (ionWorklist_ s)) as Hw0.
  pose proof (length_z_nonneg _ (ionFinishedList_ s)) as Hf0.
  unfold CancelOffThreadIonCompileLocked in H. rewrite Hinit in H.
  cbn [negb] in H.
  set (s1 := cancelPending remove (length (ionWorklist_ s)) selector 0 s) in *.
  destruct (cancelPending_frame remove selector (length (ionWorklist_ s)) 0 s)
    as (Hh1 & Hl1 & Hf1). fold s1 in Hh1, Hl1, Hf1.
  assert (Hq1 : quiescent selector s1).
  { split.
    - intros task Hin. unfold s1 in Hin.
      rewrite cancelPending_worklist in Hin.
      apply (sweep_all remove Hremove) in Hin; [tauto | lia].
    - unfold length_z in *. lia. }
  destruct (waitForRunning interference fuel 0 selector s1) as [s2|] eqn:E2;
    [|discriminate].
  injection H as <-.
  destruct (waitForRunning_done _ _ _ _ _ _ Hrely Hq1 E2) as [[Hw2 Hf2] Hr2].
  set (s3 := cancelFinished remove FinishOffThreadTask
               (length (ionFinishedList_ s2)) selector 0 s2).
  destruct (cancelFinished_frame remove FinishOffThreadTask Hfinish
              selector (length (ionFinishedList_ s2)) 0 s2)
    as (Hh3 & Hw3). fold s3 in Hh3, Hw3.
  destruct (cancelLazyLink_loop FinishOffThreadTask Hfinish selector
              (GetSelectorRuntime selector)
              (ionLazyLinkList_ s3 (GetSelectorRuntime selector)) s3)
    as (Hh4 & Hw4 & Hf4 & Hl4).
  unfold nothing_left, cancelLazyLink.
  rewrite Hh4, Hw4, Hf4, Hh3, Hw3.
  split; [exact Hw2|]. split; [|split].
  - intros task Hin.
    destruct (IonCompileTaskMatches selector task) eqn:Em; [|reflexivity].
    assert (Hrun : In task (runningMatches selector s2))
      by (apply runningMatches_In; auto).
    rewrite Hr2 in Hrun. destruct Hrun.
  - intros task Hin. unfold s3 in Hin.
    rewrite (cancelFinished_finished remove FinishOffThreadTask Hfinish) in Hin.
    apply (sweep_all remove Hremove) in Hin; [tauto | exact Hf2].
  - intros task Hin. destruct (Hl4 task Hin) as [Hin3 Hno].
    exact (Hno Hin3).
Qed.

Lemma existsb_false : forall (A : Type) (f : A -> bool) (l : list A),
  (forall x, In x l -> f x = false) -> existsb f l = false.
Proof.
  intros A f l H. induction l as [|x l IH]; [reflexivity|].
  cbn [existsb]. rewrite (H x (or_introl eq_refl)). cbn [orb].
  apply IH. intros y Hy. apply H. right. exact Hy.
Qed.

Lemma Zone_eqb_sym : forall a b, Zone_eqb a b = Zone_eqb b a.
Proof.
  intros a b. unfold Zone_eqb.
  destruct (Zone_eq_dec a b), (Zone_eq_dec b a); congruence.
Qed.

(** X2.  The debug query agrees with the canceller: once
    [CancelOffThreadIonCompileLocked] has returned for a zone selector,
    [HasOffThreadIonCompile] of that zone is false.  (Same assumptions as for
    the cancellation itself: [remove] deletes in place,
    [FinishOffThreadTask] reclaims, and nobody queues a compilation for the
    zone while the canceller waits.) *)
Theorem no_offthread_ion_compile_after_zone_cancel :
  forall (remove : forall A : Type, list A -> Z -> list A * Z)
         (FinishOffThreadTask : JSRuntime -> IonCompileTask -> State -> State)
         (interference : nat -> State -> State)
         (zone : Zone) (s : State) fuel s',
  removes_in_place remove ->
  reclaims FinishOffThreadTask ->
  (forall n x, quiescent (SelectZone zone) x ->
               quiescent (SelectZone zone) (interference n x)) ->
  length_z (ionWorklist_ s) + length_z (ionFinishedList_ s) < SIZE_MODULUS ->
  CancelOffThreadIonCompileLocked remove FinishOffThreadTask interference
    fuel (SelectZone zone) s = Some s' ->
  HasOffThreadIonCompile zone s' = false.
Proof.
  intros remove FinishOffThreadTask interference zone s fuel s'
         Hremove Hfinish Hrely Hfit H.
  destruct (isInitialized_ s) eqn:Einit.
  - destruct (cancel_initialized_nothing_left _ _ _ _ _ _ _
                Hremove Hfinish Hrely Hfit Einit H) as (Hw & Hr & Hf & Hl).
    cbn [GetSelectorRuntime IonCompileTaskMatches] in *.
    unfold HasOffThreadIonCompile.
    destruct (negb (isInitialized_ s')); [reflexivity|].
    rewrite existsb_false
      by (intros t Ht; rewrite Zone_eqb_sym; exact (Hw t Ht)).
    rewrite existsb_false.
    + rewrite existsb_false
        by (intros t Ht; rewrite Zone_eqb_sym; exact (Hf t Ht)).
      apply existsb_false.
      intros t Ht. rewrite Zone_eqb_sym. exact (Hl t Ht).
    + intros [t|t|t|t|t|t|t|t|t|t] Ht; try reflexivity.
      rewrite Zone_eqb_sym. exact (Hr t Ht).
  - unfold CancelOffThreadIonCompileLocked in H. rewrite Einit in H.
    cbn [negb] in H. injection H as <-.
    unfold HasOffThreadIonCompile. rewrite Einit. reflexivity.
Qed.

Lemma no_offthread_ion_compile_after_zone_cancel_witness :
  (HasOffThreadIonCompile zone0 ionBusy = true
   /\ CancelOffThreadIonCompileLocked swapRemove unlinkTask
        (fun _ => retireRunningIon) 2 (SelectZone zone0) ionBusy
      = Some ionZoneCancelled)
  /\ HasOffThreadIonCompile zone0 ionZoneCancelled = false.
Proof.
  assert (Hrun : CancelOffThreadIonCompileLocked swapRemove unlinkTask
                   (fun _ => retireRunningIon) 2 (SelectZone zone0) ionBusy
                 = Some ionZoneCancelled)
    by (vm_compute; reflexivity).
  split; [split; [vm_compute; reflexivity | exact Hrun]|].
  apply (no_offthread_ion_compile_after_zone_cancel swapRemove unlinkTask
           (fun _ => retireRunningIon) zone0 ionBusy 2%nat ionZoneCancelled
           swapRemove_removes_in_place unlinkTask_reclaims
           (fun _ x => retireRunningIon_quiescent _ x)
           ltac:(vm_compute; reflexivity) Hrun).
Defined.

(** ** The choice among pending Ion compilations *)


Lemma IonCompileTaskHasHigherPriority_spec : forall first second,
  IonCompileTaskHasHigherPriority first second = true <->
  warmUpPerLength second < warmUpPerLength first.
Proof.
  intros first second.
  unfold IonCompileTaskHasHigherPriority, warmUpPerLength.
  apply Z.ltb_lt.
Qed.

(** The state of the scan after the positions of [seen]: no eligible task
    yet, or the best one so far with what precedes and follows it. *)
Lemma scanIonWorklist_spec : forall check rest seen index,
  let worklist := seen ++ rest in
  (index = length worklist
   /\ (forall t, In t seen -> pendingEligible check t = false))
  \/ (exists front best back,
        seen = front ++ best :: back
        /\ index = length front
        /\ pendingEligible check best = true
        /\ (forall t, In t front -> pendingEligible check t = true ->
                      warmUpPerLength t < warmUpPerLength best)
        /\ (forall t, In t back -> pendingEligible check t = true ->
                      warmUpPerLength t <= warmUpPerLength best)) ->
  let final := scanIonWorklist check worklist rest (length seen) index in
  (final = length worklist
   /\ (forall t, In t worklist -> pendingEligible check t = false))
  \/ (exists front best back,
        worklist = front ++ best :: back
        /\ final = length front
        /\ pendingEligible check best = true
        /\ (forall t, In t front -> pendingEligible check t = true ->
                      warmUpPerLength t < warmUpPerLength best)
        /\ (forall t, In t back -> pendingEligible check t = true ->
                      warmUpPerLength t <= warmUpPerLength best)).
Proof.
  intros check rest. induction rest as [|t rest IH]; intros seen index;
    cbv zeta.
  - rewrite app_nil_r. cbn [scanIonWorklist]. tauto.
  - intro Hinv. cbn [scanIonWorklist].
    replace (seen ++ t :: rest) with ((seen ++ [t]) ++ rest) in *
      by (rewrite <- app_assoc; reflexivity).
    replace (S (length seen)) with (length (seen ++ [t]))
      by (rewrite length_app; cbn [length]; lia).
    apply IH. clear IH.
    assert (Hc : check && negb (ion_isMainThreadRunningJS t)
                 = negb (pendingEligible check t))
      by (unfold pendingEligible; rewrite negb_involutive; reflexivity).
    rewrite Hc. clear Hc.
    destruct (pendingEligible check t) eqn:Et; cbn [negb].
    + (* [t] is eligible *)
      right. destruct Hinv as [[Hidx Hnone] | (front & best & back & Hseen & Hidx & Hb & Hfront & Hback)].
      * assert (Hlt : (length seen <? index)%nat = true).
        { apply Nat.ltb_lt. rewrite Hidx, !length_app. cbn [length]. lia. }
        rewrite Hlt. cbn [orb].
        exists seen, t, []. repeat split; auto.
        -- intros x Hx Ex. rewrite (Hnone x Hx) in Ex. discriminate.
        -- intros x [].
      * assert (Hlt : (length seen <? index)%nat = false).
        { apply Nat.ltb_ge. rewrite Hidx, Hseen, length_app. lia. }
        rewrite Hlt. cbn [orb].
        assert (Hnth : nth_error ((seen ++ [t]) ++ rest) index = Some best).
        { rewrite Hidx, Hseen, <- !app_assoc. cbn [app].
          apply nth_error_middle. }
        rewrite Hnth.
        destruct (IonCompileTaskHasHigherPriority t best) eqn:Ehi.
        -- apply IonCompileTaskHasHigherPriority_spec in Ehi.
           exists seen, t, []. repeat split; auto.
           ++ intros x Hx Ex. rewrite Hseen in Hx.
              apply in_app_or in Hx. destruct Hx as [Hx | [<- | Hx]].
              ** pose proof (Hfront x Hx Ex). lia.
              ** exact Ehi.
              ** pose proof (Hback x Hx Ex). lia.
           ++ intros x [].
        -- assert (Hle : warmUpPerLength t <= warmUpPerLength best).
           { destruct (Z.le_gt_cases (warmUpPerLength t)
                         (warmUpPerLength best)) as [Hle|Hgt]; [exact Hle|].
             apply IonCompileTaskHasHigherPriority_spec in Hgt. congruence. }
           exists front, best, (back ++ [t]). repeat split; auto.
           ++ rewrite Hseen, <- app_assoc. reflexivity.
           ++ intros x Hx Ex. apply in_app_or in Hx.
              destruct Hx as [Hx | [<- | []]]; [exact (Hback x Hx Ex) | exact Hle].
    + (* [t] is passed over *)
      destruct Hinv as [[Hidx Hnone] | (front & best & back & Hseen & Hidx & Hb & Hfront & Hback)].
      * left. split; [exact Hidx|].
        intros x Hx. apply in_app_or in Hx.
        destruct Hx as [Hx | [<- | []]]; [exact (Hnone x Hx) | exact Et].
      * right. exists front, best, (back ++ [t]). repeat split; auto.
        -- rewrite Hseen, <- app_assoc. reflexivity.
        -- intros x Hx Ex. apply in_app_or in Hx.
           destruct Hx as [Hx | [<- | []]]; [exact (Hback x Hx Ex) | congruence].
Qed.



(** ** Selection finds the work that dispatch announces *)

Lemma firstSelected_null : forall table s,
  firstSelected table s = Some None ->
  forall selector, In selector table -> selector s = Some None.
Proof.
  induction table as [|sel0 table IH]; intros s H selector Hin;
    [destruct Hin|].
  cbn [firstSelected] in H.
  destruct (sel0 s) as [[hit|]|] eqn:E0; try discriminate.
  destruct Hin as [<- | Hin]; [exact E0 | exact (IH s H selector Hin)].
Qed.

Lemma firstSelected_abort : forall table s,
  firstSelected table s = None ->
  exists selector, In selector table /\ selector s = None.
Proof.
  induction table as [|sel0 table IH]; intros s H; [discriminate|].
  cbn [firstSelected] in H.
  destruct (sel0 s) as [[hit|]|] eqn:E0; try discriminate.
  - destruct (IH s H) as (sel & Hin & Hs). exists sel. split; [right|]; auto.
  - exists sel0. split; [left; reflexivity | exact E0].
Qed.

Lemma popBack_cons : forall (A : Type) (x : A) (l : list A),
  exists y front, popBack (x :: l) = Some (y, front).
Proof.
  intros A x l.
  destruct (popBack_nonempty A (x :: l)) as (y & front & _ & H);
    [discriminate|]. eauto.
Qed.

(** A selector that pops from a non-empty list under a guard returns null
    only if the guard fails. *)
Local Ltac null_selector H :=
  match type of H with
  | (if negb (negb (empty ?l) && ?c) then _ else _) = Some None =>
      destruct l as [|x l'] eqn:El; cbn [empty negb andb] in H |- *;
      [ reflexivity
      | destruct c; cbn [negb] in H |- *;
        [ exfalso;
          first
            [ destruct (popBack_cons _ x l') as (y & front & Hp);
              rewrite Hp in H; discriminate H
            | discriminate H ]
        | reflexivity ] ]
  end.

Lemma maybeGetWasmCompile_null : forall s mode,
  maybeGetWasmCompile s mode = Some None ->
  canStartWasmCompile s mode = Some false.
Proof.
  intros s mode H. unfold maybeGetWasmCompile in H.
  destruct (canStartWasmCompile s mode) as [[|]|] eqn:E;
    [|reflexivity|discriminate].
  exfalso. unfold canStartWasmCompile in E.
  destruct (wasmWorklist s mode) as [|x l]; cbn [empty] in E;
    [discriminate|].
  discriminate H.
Qed.

Lemma maybeGetLowPrioIonCompileTask_null : forall s,
  maybeGetLowPrioIonCompileTask s = Some None ->
  canStartIonCompileTask s = false.
Proof.
  intros s H. unfold maybeGetLowPrioIonCompileTask in H.
  destruct (canStartIonCompileTask s) eqn:E; [|reflexivity].
  exfalso. cbn [negb] in H. injection H as H.
  unfold canStartIonCompileTask in E. apply andb_prop in E.
  destruct E as [E _].
  destruct (scanIonWorklist_spec false (ionWorklist_ s) []
              (length (ionWorklist_ s)))
    as [[_ Hnone] | (front & best & back & Hw & Hidx & _)].
  - left. split; [reflexivity | intros t []].
  - cbn [app] in Hnone. destruct (ionWorklist_ s) as [|t l]; [discriminate|].
    specialize (Hnone t (or_introl eq_refl)). discriminate Hnone.
  - unfold highestPriorityPendingIonCompile in H.
    cbn [app length] in Hw, Hidx. rewrite Hidx, Hw, nth_error_middle in H.
    discriminate H.
Qed.

Lemma null_selection_means_nothing_can_start : forall s,
  findHighestPriorityTask s = Some None -> canStartTasks s = Some false.
Proof.
  intros s H. unfold findHighestPriorityTask in H.
  pose proof (firstSelected_null _ _ H) as Hall. clear H.
  assert (Hgc : canStartGCParallelTask s = false).
  { specialize (Hall maybeGetGCParallelTask). cbn [selectors In] in Hall.
    assert (H := Hall ltac:(tauto)).
    unfold maybeGetGCParallelTask, canStartGCParallelTask in *.
    null_selector H. }
  assert (Hion : canStartIonCompileTask s = false).
  { apply maybeGetLowPrioIonCompileTask_null. apply Hall.
    cbn [selectors In]. tauto. }
  assert (Hw1 : canStartWasmTier1CompileTask s = Some false).
  { apply maybeGetWasmCompile_null. apply (Hall maybeGetWasmTier1CompileTask).
    cbn [selectors In]. tauto. }
  assert (Hpr : canStartPromiseHelperTask s = false).
  { assert (H := Hall maybeGetPromiseHelperTask ltac:(cbn [selectors In]; tauto)).
    unfold maybeGetPromiseHelperTask, canStartPromiseHelperTask in *.
    null_selector H. }
  assert (Hpa : canStartParseTask s = false).
  { assert (H := Hall maybeGetParseTask ltac:(cbn [selectors In]; tauto)).
    unfold maybeGetParseTask, canStartParseTask in *.
    null_selector H. }
  assert (Hfd : canStartFreeDelazifyTask s = false).
  { assert (H := Hall maybeGetFreeDelazifyTask ltac:(cbn [selectors In]; tauto)).
    unfold maybeGetFreeDelazifyTask, canStartFreeDelazifyTask in *.
    destruct (freeDelazifyTaskVector_ s) as [|x l]; [reflexivity|].
    exfalso. cbn [empty negb] in H.
    destruct (popBack_cons _ x l) as (y & front & Hp).
    rewrite Hp in H. discriminate H. }
  assert (Hde : canStartDelazifyTask s = false).
  { assert (H := Hall maybeGetDelazifyTask ltac:(cbn [selectors In]; tauto)).
    unfold maybeGetDelazifyTask, canStartDelazifyTask in *.
    destruct (delazifyWorklist_ s) as [|x l]; [reflexivity|].
    discriminate H. }
  assert (Hco : canStartCompressionTask s = false).
  { assert (H := Hall maybeGetCompressionTask ltac:(cbn [selectors In]; tauto)).
    unfold maybeGetCompressionTask, canStartCompressionTask in *.
    null_selector H. }
  assert (Hif : canStartIonFreeTask s = false).
  { assert (H := Hall maybeGetIonFreeTask ltac:(cbn [selectors In]; tauto)).
    unfold maybeGetIonFreeTask, canStartIonFreeTask in *.
    destruct (ionFreeList_ s) as [|x l]; [reflexivity|].
    exfalso. cbn [empty negb] in H.
    destruct (popBack_cons _ x l) as (y & front & Hp).
    rewrite Hp in H. discriminate H. }
  assert (Hw2 : canStartWasmTier2CompileTask s = Some false).
  { apply maybeGetWasmCompile_null. apply (Hall maybeGetWasmTier2CompileTask).
    cbn [selectors In]. tauto. }
  assert (Hge : canStartWasmTier2GeneratorTask s = false).
  { assert (H := Hall maybeGetWasmTier2GeneratorTask
                   ltac:(cbn [selectors In]; tauto)).
    unfold maybeGetWasmTier2GeneratorTask, canStartWasmTier2GeneratorTask in *.
    null_selector H. }
  unfold canStartTasks.
  rewrite Hgc, Hion, Hw1, Hpr, Hpa, Hfd, Hde, Hco, Hif, Hw2, Hge.
  reflexivity.
Qed.

Lemma canStartWasmCompile_no_abort : forall s mode,
  1 < cpuCount s -> canStartWasmCompile s mode <> None.
Proof.
  intros s mode Hcpu. unfold canStartWasmCompile.
  destruct (empty (wasmWorklist s mode)); [discriminate|].
  destruct (Z.ltb_spec 1 (cpuCount s)); [|lia]. cbn [negb].
  destruct (CompileMode_is_Tier2 mode); discriminate.
Qed.

Lemma findHighestPriorityTask_no_abort : forall s,
  1 < cpuCount s -> findHighestPriorityTask s <> None.
Proof.
  intros s Hcpu H. unfold findHighestPriorityTask in H.
  destruct (firstSelected_abort _ _ H) as (selector & Hin & Hs).
  cbn [selectors In] in Hin.
  repeat (destruct Hin as [<- | Hin]); try contradiction;
    unfold maybeGetGCParallelTask, maybeGetIonCompileTask,
      maybeGetWasmTier1CompileTask, maybeGetWasmTier2CompileTask,
      maybeGetWasmCompile, maybeGetPromiseHelperTask, maybeGetParseTask,
      maybeGetFreeDelazifyTask, maybeGetDelazifyTask,
      maybeGetCompressionTask, maybeGetLowPrioIonCompileTask,
      maybeGetIonFreeTask, maybeGetWasmTier2GeneratorTask in Hs;
    try (destruct (canStartWasmCompile s _) as [[|]|] eqn:E;
         [discriminate Hs | discriminate Hs
         | exact (canStartWasmCompile_no_abort s _ Hcpu E)]);
    repeat match type of Hs with
           | (if ?c then _ else _) = None => destruct c
           end;
    discriminate Hs.
Qed.

(** X4.  Selection finds the work that [dispatch] announces.  If
    [findHighestPriorityTask] returns null, [canStartTasks] is false; so
    whenever [canStartTasks] holds, the condition under which [dispatch] asks
    the substrate for a worker, that worker's selection yields a task (on a
    machine with more than one CPU, where the wasm release assertion cannot
    fire). *)
Theorem selection_finds_announced_work : forall s,
  (findHighestPriorityTask s = Some None -> canStartTasks s = Some false)
  /\ (canStartTasks s = Some true ->
      1 < cpuCount s ->
      exists hit, findHighestPriorityTask s = Some (Some hit)).
Proof.
  intro s. split; [apply null_selection_means_nothing_can_start|].
  intros Hcan Hcpu.
  destruct (findHighestPriorityTask s) as [[hit|]|] eqn:E.
  - exists hit. reflexivity.
  - rewrite (null_selection_means_nothing_can_start s E) in Hcan.
    discriminate.
  - exfalso. exact (findHighestPriorityTask_no_abort s Hcpu E).
Qed.

Lemma selection_finds_announced_work_witness :
  (canStartTasks parseABQueued = Some true /\ 1 < cpuCount parseABQueued)
  /\ exists hit, findHighestPriorityTask parseABQueued = Some (Some hit).
Proof.
  assert (H : canStartTasks parseABQueued = Some true)
    by (vm_compute; reflexivity).
  assert (Hcpu : 1 < cpuCount parseABQueued) by (vm_compute; reflexivity).
  split; [split; assumption|].
  exact (proj2 (selection_finds_announced_work parseABQueued) H Hcpu).
Defined.

(** ** The cap on pending dispatches *)

Lemma dispatch_pending_within : forall s s',
  pending_within s -> dispatch s = Some s' -> pending_within s'.
Proof.
  intros s s' [Hp Ht] H. unfold dispatch in H.
  destruct (canStartTasks s) as [can|]; [|discriminate].
  destruct can; cbn [andb] in H.
  - destruct (Z.ltb_spec (tasksPending_ s) (threadCount s)) as [Hlt|Hge];
      injection H as <-; [|split; assumption].
    unfold pending_within.
    cbn [tasksPending_ threadCount set_tasksPending].
    rewrite size_incr_small by lia. lia.
  - injection H as <-. split; assumption.
Qed.

Lemma submitted_pending_within : forall queued r s',
  pending_within queued -> submitted queued = Some (r, s') ->
  pending_within s'.
Proof.
  intros queued r s' Hq H. unfold submitted in H.
  destruct (dispatch queued) as [s1|] eqn:E; [|discriminate].
  injection H as _ <-. exact (dispatch_pending_within _ _ Hq E).
Qed.

Local Ltac submit_pending H Hp :=
  match type of H with
  | (if negb ?grown then _ else _) = Some _ =>
      destruct grown; cbn [negb] in H;
      [ apply submitted_pending_within in H; [exact H | exact Hp]
      | injection H as _ <-; exact Hp ]
  | submitted _ = Some _ =>
      apply submitted_pending_within in H; [exact H | exact Hp]
  end.

Lemma findHighestPriorityTask_pending : forall s task s1,
  findHighestPriorityTask s = Some (Some (task, s1)) ->
  tasksPending_ s1 = tasksPending_ s.
Proof.
  intros s task s1 H.
  destruct (firstSelected_hit_inv _ _ _ H) as (i & selector & Hn & Hs & _).
  destruct i as [|[|[|[|[|[|[|[|[|[|[|[|i]]]]]]]]]]]];
    cbn [nth_error selectors] in Hn;
    try (destruct i; discriminate);
    injection Hn as <-;
    unfold maybeGetGCParallelTask, maybeGetIonCompileTask,
      maybeGetWasmTier1CompileTask, maybeGetWasmTier2CompileTask,
      maybeGetWasmCompile, maybeGetPromiseHelperTask, maybeGetParseTask,
      maybeGetFreeDelazifyTask, maybeGetDelazifyTask,
      maybeGetCompressionTask, maybeGetLowPrioIonCompileTask,
      maybeGetIonFreeTask, maybeGetWasmTier2GeneratorTask in Hs;
    selected Hs; reflexivity.
Qed.

(** X5.  The pending-dispatch counter stays between zero and the thread
    count: [dispatch] raises it only while it is below the thread count, every
    [submitTask] goes through [dispatch], and [runOneTask], called with a
    positive counter as it asserts, lowers it by one before it dispatches
    again. *)
Theorem pending_dispatches_capped :
  (forall s s', pending_within s -> dispatch s = Some s' -> pending_within s')
  /\ (forall grown task mode s r s',
        pending_within s ->
        submitTask_wasm grown task mode s = Some (r, s') -> pending_within s')
  /\ (forall grown task s r s',
        pending_within s ->
        submitTask_tier2Generator grown task s = Some (r, s') ->
        pending_within s')
  /\ (forall grown task s r s',
        pending_within s ->
        submitTask_ion grown task s = Some (r, s') -> pending_within s')
  /\ (forall grown task s r s',
        pending_within s ->
        submitTask_ionFree grown task s = Some (r, s') -> pending_within s')
  /\ (forall grown task s r s',
        pending_within s ->
        submitTask_parse grown task s = Some (r, s') -> pending_within s')
  /\ (forall task s s',
        pending_within s ->
        submitTask_delazify task s = Some s' -> pending_within s')
  /\ (forall grown task s r s',
        pending_within s ->
        submitTask_freeDelazify grown task s = Some (r, s') ->
        pending_within s')
  /\ (forall grown task s r s',
        pending_within s ->
        submitTask_compression grown task s = Some (r, s') ->
        pending_within s')
  /\ (forall task s r s',
        pending_within s ->
        submitTask_gcParallel task s = Some (r, s') -> pending_within s')
  /\ (forall grown task s r s',
        pending_within s ->
        submitTask_promise grown task s = Some (r, s') -> pending_within s')
  /\ (forall run s s',
        pending_within s ->
        0 < tasksPending_ s ->
        (forall x, pending_within x -> pending_within (run x)) ->
        runOneTask run s = Some s' ->
        pending_within s').
Proof.
  repeat match goal with |- _ /\ _ => split end.
  - exact dispatch_pending_within.
  - intros grown task mode s r s' Hp H. unfold submitTask_wasm in H.
    destruct grown; cbn [negb] in H; [|injection H as _ <-; exact Hp].
    apply submitted_pending_within in H; [exact H|].
    destruct mode; exact Hp.
  - intros grown task s r s' Hp H. unfold submitTask_tier2Generator in H.
    submit_pending H Hp.
  - intros grown task s r s' Hp H. unfold submitTask_ion in H.
    submit_pending H Hp.
  - intros grown task s r s' Hp H. unfold submitTask_ionFree in H.
    submit_pending H Hp.
  - intros grown task s r s' Hp H. unfold submitTask_parse in H.
    submit_pending H Hp.
  - intros task s s' Hp H. unfold submitTask_delazify in H.
    apply dispatch_pending_within in H; [exact H | exact Hp].
  - intros grown task s r s' Hp H. unfold submitTask_freeDelazify in H.
    submit_pending H Hp.
  - intros grown task s r s' Hp H. unfold submitTask_compression in H.
    submit_pending H Hp.
  - intros task s r s' Hp H. unfold submitTask_gcParallel in H.
    submit_pending H Hp.
  - intros grown task s r s' Hp H. unfold submitTask_promise in H.
    submit_pending H Hp.
  - intros run s s' [Hp Ht] Hpos Hrun H. unfold runOneTask in H.
    set (s0 := set_tasksPending (size_decr (tasksPending_ s)) s) in *.
    assert (Hp0 : pending_within s0).
    { unfold pending_within, s0.
      cbn [tasksPending_ threadCount set_tasksPending]. unfold size_decr.
      rewrite wrap_small by (unfold in_size_t; lia). lia. }
    destruct (findHighestPriorityTask s0) as [[[task s1]|]|] eqn:Esel;
      [| injection H as <-; exact Hp0 | discriminate].
    apply dispatch_pending_within in H; [exact H|].
    pose proof (findHighestPriorityTask_pending _ _ _ Esel) as Hsame.
    destruct (findHighestPriorityTask_inv _ _ _ Esel) as [(_ & _ & _ & Hn) _].
    assert (Hp1 : pending_within s1).
    { unfold pending_within in *. rewrite Hsame, Hn. exact Hp0. }
    unfold runTaskLocked.
    assert (Hp2 : pending_within (runTaskLocked_enter task s1)) by exact Hp1.
    exact (Hrun _ Hp2).
Qed.

Lemma pending_dispatches_capped_witness :
  (pending_within parseAQueued
   /\ submitTask_parse true parseB parseAQueued = Some (true, parseABQueued))
  /\ pending_within parseABQueued.
Proof.
  assert (Hp : pending_within parseAQueued).
  { unfold pending_within. vm_compute.
    repeat split; try discriminate; reflexivity. }
  assert (Hs : submitTask_parse true parseB parseAQueued
               = Some (true, parseABQueued))
    by (vm_compute; reflexivity).
  split; [split; assumption|].
  exact (proj1 (proj2 (proj2 (proj2 (proj2 (proj2 pending_dispatches_capped)))))
           true parseB parseAQueued true parseABQueued Hp Hs).
Defined.

(** ** A pool of one thread *)



(** ** Pop order of the remaining worklists *)

Lemma submitTask_wasm_queued : forall grown task mode s s1,
  submitTask_wasm grown task mode s = Some (true, s1) ->
  wasmWorklist s1 mode = wasmWorklist s mode ++ [task].
Proof.
  intros grown task mode s s1 H. unfold submitTask_wasm in H.
  destruct grown; cbn [negb] in H; [|discriminate].
  apply submitted_inv in H. destruct H as [_ [-> | ->]];
    destruct mode; reflexivity.
Qed.

Lemma submitTask_promise_queued : forall grown task s s1,
  submitTask_promise grown task s = Some (true, s1) ->
  promiseHelperTasks_ s1 = promiseHelperTasks_ s ++ [task].
Proof.
  intros grown task s s1 H. unfold submitTask_promise in H.
  destruct grown; cbn [negb] in H; [|discriminate].
  apply submitted_inv in H. destruct H as [_ [-> | ->]]; reflexivity.
Qed.

Lemma submitTask_tier2Generator_queued : forall grown task s s1,
  submitTask_tier2Generator grown task s = Some (true, s1) ->
  wasmTier2GeneratorWorklist_ s1 = wasmTier2GeneratorWorklist_ s ++ [task].
Proof.
  intros grown task s s1 H. unfold submitTask_tier2Generator in H.
  destruct grown; cbn [negb] in H; [|discriminate].
  apply submitted_inv in H. destruct H as [_ [-> | ->]]; reflexivity.
Qed.

(** X7.  The three kinds with a guarded selector that the FIFO/LIFO claim
    does not list.  Wasm compilations of either tier are taken oldest first:
    whenever the selector yields, it yields the front of the worklist, so
    after [a] and [b] were submitted to an empty worklist it yields [a].
    Promise-helper and tier-2 generator tasks are taken newest first: after
    [a] then [b] the selector, when its predicate holds, yields [b]. *)
Theorem pop_order_of_wasm_promise_generator :
  (forall mode s a b g1 g2 s1 s2,
      wasmWorklist s mode = [] ->
      submitTask_wasm g1 a mode s = Some (true, s1) ->
      submitTask_wasm g2 b mode s1 = Some (true, s2) ->
      canStartWasmCompile s2 mode = Some true ->
      maybeGetWasmCompile s2 mode =
        Some (Some (TaskWasmCompile a, set_wasmWorklist mode [b] s2)))
  /\ (forall s a b g1 g2 s1 s2,
        submitTask_promise g1 a s = Some (true, s1) ->
        submitTask_promise g2 b s1 = Some (true, s2) ->
        canStartPromiseHelperTask s2 = true ->
        maybeGetPromiseHelperTask s2 =
          Some (Some (TaskPromiseHelper b,
                      set_promiseHelperTasks (promiseHelperTasks_ s ++ [a]) s2)))
  /\ (forall s a b g1 g2 s1 s2,
        submitTask_tier2Generator g1 a s = Some (true, s1) ->
        submitTask_tier2Generator g2 b s1 = Some (true, s2) ->
        canStartWasmTier2GeneratorTask s2 = true ->
        maybeGetWasmTier2GeneratorTask s2 =
          Some (Some (TaskTier2Generator b,
                      set_wasmTier2GeneratorWorklist
                        (wasmTier2GeneratorWorklist_ s ++ [a]) s2))).
Proof.
  split; [|split].
  - intros mode s a b g1 g2 s1 s2 Hempty H1 H2 Hcan.
    apply submitTask_wasm_queued in H1, H2. rewrite H1, Hempty in H2.
    unfold maybeGetWasmCompile. rewrite Hcan, H2. reflexivity.
  - intros s a b g1 g2 s1 s2 H1 H2 Hcan.
    apply submitTask_promise_queued in H1, H2. rewrite H1 in H2.
    unfold maybeGetPromiseHelperTask. rewrite Hcan, H2, popBack_app.
    reflexivity.
  - intros s a b g1 g2 s1 s2 H1 H2 Hcan.
    apply submitTask_tier2Generator_queued in H1, H2. rewrite H1 in H2.
    unfold maybeGetWasmTier2GeneratorTask. rewrite Hcan, H2, popBack_app.
    reflexivity.
Qed.

Lemma pop_order_of_wasm_promise_generator_witness :
  (wasmWorklist (idleState 4) Tier1 = []
   /\ submitTask_wasm true wasmT1 Tier1 (idleState 4) = Some (true, wasmAQueued)
   /\ submitTask_wasm true wasmT1b Tier1 wasmAQueued = Some (true, wasmABQueued)
   /\ canStartWasmCompile wasmABQueued Tier1 = Some true)
  /\ maybeGetWasmCompile wasmABQueued Tier1 =
       Some (Some (TaskWasmCompile wasmT1,
                   set_wasmWorklist Tier1 [wasmT1b] wasmABQueued)).
Proof.
  split.
  - split; [|split; [|split]]; vm_compute; reflexivity.
  - apply (proj1 pop_order_of_wasm_promise_generator Tier1 (idleState 4)
             wasmT1 wasmT1b true true wasmAQueued wasmABQueued);
      vm_compute; reflexivity.
Defined.

(** ** Draining the pool *)

Lemma canStartTasks_false : forall s,
  canStartTasks s = Some false ->
  canStartGCParallelTask s = false
  /\ canStartIonCompileTask s = false
  /\ canStartWasmTier1CompileTask s = Some false
  /\ canStartPromiseHelperTask s = false
  /\ canStartParseTask s = false
  /\ canStartFreeDelazifyTask s = false
  /\ canStartDelazifyTask s = false
  /\ canStartCompressionTask s = false
  /\ canStartIonFreeTask s = false
  /\ canStartWasmTier2CompileTask s = Some false
  /\ canStartWasmTier2GeneratorTask s = false.
Proof.
  intros s H. unfold canStartTasks in H.
  destruct (canStartGCParallelTask s); [discriminate|].
  destruct (canStartIonCompileTask s); [discriminate|].
  destruct (canStartWasmTier1CompileTask s) as [[|]|]; try discriminate.
  destruct (canStartPromiseHelperTask s); [discriminate|].
  destruct (canStartParseTask s); [discriminate|].
  destruct (canStartFreeDelazifyTask s); [discriminate|].
  destruct (canStartDelazifyTask s); [discriminate|].
  destruct (canStartCompressionTask s); [discriminate|].
  destruct (canStartIonFreeTask s); [discriminate|].
  destruct (canStartWasmTier2CompileTask s) as [[|]|]; try discriminate.
  destruct (canStartWasmTier2GeneratorTask s); [discriminate|].
  repeat split; reflexivity.
Qed.

Lemma empty_true : forall (A : Type) (l : list A), empty l = true -> l = [].
Proof. intros A [|x l] H; [reflexivity | discriminate]. Qed.

Lemma idle_worklists_empty : forall s,
  canStartTasks s = Some false ->
  helperTasks_ s = [] ->
  consistent s ->
  2 <= threadCount s ->
  0 < gcParallelThreadCount s ->
  0 < cpuCount s ->
  gcParallelWorklist_ s = []
  /\ ionWorklist_ s = []
  /\ wasmWorklist s Tier1 = []
  /\ promiseHelperTasks_ s = []
  /\ parseWorklist_ s = []
  /\ compressionWorklist_ s = []
  /\ ionFreeList_ s = []
  /\ wasmWorklist s Tier2 = []
  /\ wasmTier2GeneratorWorklist_ s = []
  /\ freeDelazifyTaskVector_ s = []
  /\ delazifyWorklist_ s = [].
Proof.
  intros s Hcan Hidle Hcons Hthreads Hgc Hcpu.
  destruct (canStartTasks_false s Hcan)
    as (Hg & Hi & Hw1 & Hp & Hpa & Hfd & Hd & Hc & Hif & Hw2 & Hgen).
  assert (Htot : totalCountRunningTasks s = 0)
    by (rewrite (consistent_total s Hcons), Hidle; reflexivity).
  assert (Hcount : forall ty, runningTaskCount s ty = 0)
    by (intro ty; rewrite (consistent_count s Hcons), Hidle; reflexivity).
  pose proof (consistent_threads s Hcons) as Hsz. unfold in_size_t in Hsz.
  assert (Hchk : forall ty maxThreads (isMaster : bool),
             0 < maxThreads ->
             checkTaskThreadLimit s ty maxThreads isMaster = true).
  { intros ty maxThreads isMaster Hmax.
    apply checkTaskThreadLimit_all_free; auto.
    destruct isMaster; lia. }
  assert (Hmin : 0 < Z.min (cpuCount s) (threadCount s)) by lia.
  assert (Hgenempty : wasmTier2GeneratorWorklist_ s = []).
  { unfold canStartWasmTier2GeneratorTask in Hgen.
    rewrite Hchk in Hgen by (unfold maxWasmTier2GeneratorThreads,
                               MaxTier2GeneratorTasks; lia).
    rewrite andb_true_r in Hgen. apply negb_false_iff in Hgen.
    exact (empty_true _ _ Hgen). }
  assert (Hwasmmax : 0 < maxWasmCompilationThreads s).
  { unfold maxWasmCompilationThreads.
    destruct (_ || _); lia. }
  assert (Hphys : 0 < physCoresAvailable s)
    by (apply physCoresAvailable_pos; exact Hcpu).
  repeat split.
  - unfold canStartGCParallelTask in Hg.
    rewrite Hchk in Hg
      by (unfold maxGCParallelThreads; destruct (IsHelperThreadSimulatingOOM _ _); lia).
    rewrite andb_true_r in Hg. apply negb_false_iff in Hg.
    exact (empty_true _ _ Hg).
  - unfold canStartIonCompileTask in Hi.
    rewrite Hchk in Hi
      by (unfold maxIonCompilationThreads; destruct (IsHelperThreadSimulatingOOM _ _); lia).
    rewrite andb_true_r in Hi. apply negb_false_iff in Hi.
    exact (empty_true _ _ Hi).
  - unfold canStartWasmTier1CompileTask, canStartWasmCompile in Hw1.
    destruct (empty (wasmWorklist s Tier1)) eqn:E;
      [exact (empty_true _ _ E)|].
    destruct (negb (1 <? cpuCount s)); [discriminate|].
    rewrite Hgenempty in Hw1. cbn [CompileMode_is_Tier2] in Hw1.
    change (20 <? length_z (@nil Tier2GeneratorTask)) with false in Hw1.
    cbv iota in Hw1.
    rewrite Hchk in Hw1 by exact Hwasmmax.
    destruct (Z.eqb_spec (maxWasmCompilationThreads s) 0); [lia|].
    discriminate.
  - unfold canStartPromiseHelperTask in Hp.
    rewrite Hchk in Hp
      by (unfold maxPromiseHelperThreads; destruct (_ || _); lia).
    rewrite andb_true_r in Hp. apply negb_false_iff in Hp.
    exact (empty_true _ _ Hp).
  - unfold canStartParseTask in Hpa.
    rewrite Hchk in Hpa
      by (unfold maxParseThreads; destruct (IsHelperThreadSimulatingOOM _ _); lia).
    rewrite andb_true_r in Hpa. apply negb_false_iff in Hpa.
    exact (empty_true _ _ Hpa).
  - unfold canStartCompressionTask in Hc.
    rewrite Hchk in Hc
      by (unfold maxCompressionThreads; destruct (IsHelperThreadSimulatingOOM _ _); lia).
    rewrite andb_true_r in Hc. apply negb_false_iff in Hc.
    exact (empty_true _ _ Hc).
  - unfold canStartIonFreeTask in Hif. apply negb_false_iff in Hif.
    exact (empty_true _ _ Hif).
  - unfold canStartWasmTier2CompileTask, canStartWasmCompile in Hw2.
    destruct (empty (wasmWorklist s Tier2)) eqn:E;
      [exact (empty_true _ _ E)|].
    destruct (negb (1 <? cpuCount s)); [discriminate|].
    rewrite Hgenempty in Hw2. cbn [CompileMode_is_Tier2] in Hw2.
    change (20 <? length_z (@nil Tier2GeneratorTask)) with false in Hw2.
    cbv iota in Hw2.
    rewrite Hchk in Hw2 by exact Hphys.
    destruct (Z.eqb_spec (physCoresAvailable s) 0); [lia|].
    discriminate.
  - exact Hgenempty.
  - unfold canStartFreeDelazifyTask in Hfd.
    rewrite Hchk in Hfd
      by (unfold maxParseThreads; destruct (IsHelperThreadSimulatingOOM _ _); lia).
    rewrite andb_true_r in Hfd. apply negb_false_iff in Hfd.
    exact (empty_true _ _ Hfd).
  - unfold canStartDelazifyTask in Hd.
    rewrite Hchk in Hd
      by (unfold maxParseThreads; destruct (IsHelperThreadSimulatingOOM _ _); lia).
    rewrite andb_true_r in Hd. apply negb_false_iff in Hd.
    exact (empty_true _ _ Hd).
Qed.

Lemma waitUntilQuiet_returned : forall interference fuel k fs fs',
  waitUntilQuiet interference fuel k fs = Returned fs' ->
  canStartTasks (core fs') = Some false
  /\ tasksPending_ (core fs') = 0
  /\ helperTasks_ (core fs') = [].
Proof.
  intros interference fuel. induction fuel as [|fuel IH]; intros k fs fs' H.
  - discriminate.
  - cbn [waitUntilQuiet] in H.
    destruct (canStartTasks (core fs)) as [can|] eqn:Ecan; [|discriminate].
    destruct (can || negb (tasksPending_ (core fs) =? 0)
              || hasActiveThreads (core fs)) eqn:E.
    + exact (IH _ _ _ H).
    + injection H as <-.
      apply orb_false_iff in E. destruct E as [E Eact].
      apply orb_false_iff in E. destruct E as [-> Epend].
      split; [exact Ecan|].
      apply negb_false_iff, Z.eqb_eq in Epend.
      split; [exact Epend|].
      unfold hasActiveThreads in Eact. apply negb_false_iff in Eact.
      exact (empty_true _ _ Eact).
Qed.

Lemma waitForAllTasksLocked_returned :
  forall remove interference1 interference2 fuel1 fuel2 fs fs',
    waitForAllTasksLocked remove interference1 interference2 fuel1 fuel2 fs
      = Returned fs' ->
    canStartTasks (core fs') = Some false
    /\ tasksPending_ (core fs') = 0
    /\ helperTasks_ (core fs') = []
    /\ ionFreeList_ (core fs') = [].
Proof.
  intros remove interference1 interference2 fuel1 fuel2 fs fs' H.
  unfold waitForAllTasksLocked in H.
  destruct (CancelOffThreadWasmTier2GeneratorLocked remove interference1
              fuel1 fs) as [fs1|]; [|discriminate].
  apply waitUntilQuiet_returned in H. destruct H as (Hcan & Hpend & Hidle).
  split; [exact Hcan|]. split; [exact Hpend|]. split; [exact Hidle|].
  destruct (canStartTasks_false _ Hcan)
    as (_ & _ & _ & _ & _ & _ & _ & _ & Hfree & _).
  unfold canStartIonFreeTask in Hfree. apply negb_false_iff in Hfree.
  exact (empty_true _ _ Hfree).
Qed.

Lemma set_ionFreeList_same : forall s, set_ionFreeList (ionFreeList_ s) s = s.
Proof. intros []. reflexivity. Qed.

Lemma set_core_same : forall fs, set_core (core fs) fs = fs.
Proof. intros []. reflexivity. Qed.

(** X8.  When [waitForAllTasksLocked] returns, nothing can start, no
    dispatch is pending, nothing runs and the Ion free list is empty.  If the
    bookkeeping is consistent, the pool has at least two threads and the CPU
    and GC-parallel thread counts are positive, every worklist is empty: the
    nine the function asserts to be empty, and the two delazification lists.
    The bound on the pool is needed: with one thread and a parse task queued
    the function returns at once and leaves the task queued. *)
Theorem drained_pool_has_nothing_queued :
  (forall remove interference1 interference2 fuel1 fuel2 fs fs',
      waitForAllTasksLocked remove interference1 interference2 fuel1 fuel2 fs
        = Returned fs' ->
      (canStartTasks (core fs') = Some false
       /\ tasksPending_ (core fs') = 0
       /\ hasActiveThreads (core fs') = false
       /\ ionFreeList_ (core fs') = [])
      /\ (consistent (core fs') ->
          2 <= threadCount (core fs') ->
          0 < gcParallelThreadCount (core fs') ->
          0 < cpuCount (core fs') ->
          gcParallelWorklist_ (core fs') = []
          /\ ionWorklist_ (core fs') = []
          /\ wasmWorklist (core fs') Tier1 = []
          /\ promiseHelperTasks_ (core fs') = []
          /\ parseWorklist_ (core fs') = []
          /\ compressionWorklist_ (core fs') = []
          /\ ionFreeList_ (core fs') = []
          /\ wasmWorklist (core fs') Tier2 = []
          /\ wasmTier2GeneratorWorklist_ (core fs') = []
          /\ freeDelazifyTaskVector_ (core fs') = []
          /\ delazifyWorklist_ (core fs') = []))
  /\ (consistent (core parseQueuedOneThread)
      /\ waitForAllTasksLocked swapRemove (fun _ fs => fs) (fun _ fs => fs)
           0 1 parseQueuedOneThread = Returned parseQueuedOneThread
      /\ parseWorklist_ (core parseQueuedOneThread) = [parseA]).
Proof.
  split.
  - intros remove interference1 interference2 fuel1 fuel2 fs fs' H.
    apply waitForAllTasksLocked_returned in H.
    destruct H as (Hcan & Hpend & Hidle & Hfree).
    split.
    + split; [exact Hcan|]. split; [exact Hpend|].
      split; [unfold hasActiveThreads; rewrite Hidle; reflexivity|].
      exact Hfree.
    + intros Hcons Hthreads Hgc Hcpu.
      exact (idle_worklists_empty _ Hcan Hidle Hcons Hthreads Hgc Hcpu).
  - split; [|split; vm_compute; reflexivity].
    apply (consistent_untouched (idleState 1)); [|repeat split].
    apply startup_consistent. vm_compute.
    split; [discriminate | reflexivity].
Qed.

Lemma drained_consistent : consistent (core drained).
Proof.
  split.
  - vm_compute. reflexivity.
  - intro ty. destruct ty; vm_compute; reflexivity.
  - vm_compute. constructor.
  - vm_compute. split; [discriminate | reflexivity].
  - vm_compute. discriminate.
Qed.

Lemma drained_pool_has_nothing_queued_witness :
  waitForAllTasksLocked swapRemove (fun _ fs => fs) (fun _ => workersFinish)
    0 2 busyBeforeDrain = Returned drained
  /\ (consistent (core drained)
      /\ 2 <= threadCount (core drained)
      /\ 0 < gcParallelThreadCount (core drained)
      /\ 0 < cpuCount (core drained))
  /\ parseWorklist_ (core drained) = []
  /\ wasmTier2GeneratorWorklist_ (core drained) = [].
Proof.
  assert (Hrun : waitForAllTasksLocked swapRemove (fun _ fs => fs)
                   (fun _ => workersFinish) 0 2 busyBeforeDrain
                 = Returned drained) by (vm_compute; reflexivity).
  assert (Ht : 2 <= threadCount (core drained)) by (vm_compute; discriminate).
  assert (Hg : 0 < gcParallelThreadCount (core drained))
    by (vm_compute; reflexivity).
  assert (Hc : 0 < cpuCount (core drained)) by (vm_compute; reflexivity).
  split; [exact Hrun|].
  split; [exact (conj drained_consistent (conj Ht (conj Hg Hc)))|].
  pose proof (proj2 (proj1 drained_pool_has_nothing_queued _ _ _ _ _ _ _ Hrun)
                drained_consistent Ht Hg Hc) as H.
  split; [exact (proj1 (proj2 (proj2 (proj2 (proj2 H))))) |
          exact (proj1 (proj2 (proj2 (proj2 (proj2 (proj2 (proj2 (proj2 (proj2 H)))))))))].
Defined.

Lemma freeRemainingIonTasks_nil : forall fuel,
  freeRemainingIonTasks fuel [] = [].
Proof. intros [|fuel]; reflexivity. Qed.

(** X9.  [finish] does nothing on a state that is not initialized.
    Otherwise, when it returns, the state is the one the drain returned with
    [terminating_] set: the loop that frees the Ion free tasks that are left
    finds none, because the drain does not end while the free list is not
    empty.  No dispatch is pending then, and a call of
    [JS::RunHelperThreadTask] that still arrives from the external pool
    returns without touching the state. *)
Theorem finish_frees_nothing_after_drain :
  forall remove interference1 interference2 fuel1 fuel2 fs fs',
    finish remove interference1 interference2 fuel1 fuel2 fs = Returned fs' ->
    if isInitialized_ (core fs) then
      exists fs1,
        waitForAllTasksLocked remove interference1 interference2 fuel1 fuel2
          fs = Returned fs1
        /\ fs' = set_terminating true fs1
        /\ ionFreeList_ (core fs') = []
        /\ tasksPending_ (core fs') = 0
        /\ (forall run, RunHelperThreadTask run fs' = Some fs')
    else fs' = fs.
Proof.
  intros remove interference1 interference2 fuel1 fuel2 fs fs' H.
  unfold finish in H.
  destruct (isInitialized_ (core fs)); cbn [negb] in H;
    [|injection H as <-; reflexivity].
  destruct (waitForAllTasksLocked remove interference1 interference2
              fuel1 fuel2 fs) as [fs1| |] eqn:Ewait; try discriminate.
  injection H as <-.
  destruct (waitForAllTasksLocked_returned _ _ _ _ _ _ _ Ewait)
    as (_ & Hpend & _ & Hfree).
  exists fs1. split; [reflexivity|].
  assert (Heq : set_core
                  (set_ionFreeList
                     (freeRemainingIonTasks (length (ionFreeList_ (core fs1)))
                        (ionFreeList_ (core fs1)))
                     (core fs1))
                  (set_terminating true fs1)
                = set_terminating true fs1).
  { rewrite Hfree, freeRemainingIonTasks_nil. rewrite <- Hfree.
    rewrite set_ionFreeList_same.
    exact (set_core_same (set_terminating true fs1)). }
  cbv zeta.
  change (core (set_terminating true fs1)) with (core fs1).
  rewrite Heq. split; [reflexivity|]. split; [exact Hfree|].
  split; [exact Hpend|]. intro run. reflexivity.
Qed.

Lemma finish_frees_nothing_after_drain_witness :
  finish swapRemove (fun _ fs => fs) (fun _ => workersFinish) 0 2
    busyBeforeDrain = Returned (set_terminating true drained)
  /\ ionFreeList_ (core (set_terminating true drained)) = [].
Proof.
  assert (Hrun : finish swapRemove (fun _ fs => fs) (fun _ => workersFinish)
                   0 2 busyBeforeDrain
                 = Returned (set_terminating true drained))
    by (vm_compute; reflexivity).
  split; [exact Hrun|].
  pose proof (finish_frees_nothing_after_drain _ _ _ _ _ _ _ Hrun) as H.
  assert (Hi : isInitialized_ (core busyBeforeDrain) = true)
    by (vm_compute; reflexivity).
  rewrite Hi in H. destruct H as (fs1 & _ & _ & Hfree & _). exact Hfree.
Defined.

(** ** Parse tasks of a runtime that goes away *)

Lemma reclaimFinishedParses_spec : forall matches finished,
  reclaimFinishedParses matches finished =
    (existsb matches finished,
     filter (fun task => negb (matches task)) finished).
Proof.
  intros matches finished. induction finished as [|task rest IH].
  - reflexivity.
  - cbn [reclaimFinishedParses existsb filter]. rewrite IH.
    destruct (matches task); reflexivity.
Qed.

Lemma filter_idem : forall (A : Type) (keep : A -> bool) (l : list A),
  filter keep (filter keep l) = filter keep l.
Proof.
  intros A keep l. induction l as [|x l IH]; [reflexivity|].
  cbn [filter]. destruct (keep x) eqn:E; [|exact IH].
  cbn [filter]. rewrite E, IH. reflexivity.
Qed.

Lemma existsb_filter_negb : forall (A : Type) (test : A -> bool) (l : list A),
  existsb test (filter (fun x => negb (test x)) l) = false.
Proof.
  intros A test l. induction l as [|x l IH]; [reflexivity|].
  cbn [filter]. destruct (test x) eqn:E; cbn [negb]; [exact IH|].
  cbn [existsb]. rewrite E, IH. reflexivity.
Qed.

Lemma reclaimAllFinishedParses_result : forall passes matches finished rest,
  reclaimAllFinishedParses passes matches finished = Some rest ->
  rest = filter (fun task => negb (matches task)) finished.
Proof.
  intros passes matches. induction passes as [|passes IH];
    intros finished rest H; [discriminate|].
  cbn [reclaimAllFinishedParses] in H.
  rewrite reclaimFinishedParses_spec in H.
  destruct (existsb matches finished).
  - apply IH in H. rewrite filter_idem in H. exact H.
  - injection H as <-. reflexivity.
Qed.

Lemma reclaimAllFinishedParses_two_passes : forall passes matches finished,
  (2 <= passes)%nat ->
  reclaimAllFinishedParses passes matches finished =
    Some (filter (fun task => negb (matches task)) finished).
Proof.
  intros [|[|passes]] matches finished Hp; try lia.
  cbn [reclaimAllFinishedParses]. rewrite !reclaimFinishedParses_spec.
  rewrite existsb_filter_negb, filter_idem.
  destruct (existsb matches finished); reflexivity.
Qed.

Lemma existsb_false_all : forall (A : Type) (test : A -> bool) (l : list A),
  existsb test l = false -> forall x, In x l -> test x = false.
Proof.
  intros A test l H x Hin.
  destruct (test x) eqn:E; [|reflexivity].
  rewrite <- H. symmetry. apply existsb_exists. exists x. auto.
Qed.

Lemma waitForParses_returned :
  forall parseRuntimeMatches interference fuel k rt fs fs',
    waitForParses parseRuntimeMatches interference fuel k rt fs = Some fs' ->
    parsePending parseRuntimeMatches rt (core fs') = false
    /\ parseInProgress parseRuntimeMatches rt (core fs') = false.
Proof.
  intros m interference fuel. induction fuel as [|fuel IH];
    intros k rt fs fs' H; [discriminate|].
  cbn [waitForParses] in H.
  destruct (negb (parsePending m rt (core fs))
            && negb (parseInProgress m rt (core fs))) eqn:E.
  - injection H as <-. apply andb_true_iff in E.
    destruct E as [E1 E2]. apply negb_true_iff in E1, E2. auto.
  - exact (IH _ _ _ _ H).
Qed.

(** X10.  [js::CancelOffThreadParses] never takes a parse task out of the
    worklist: it waits, and then only the finished list changes.  Two walks
    over the finished list always suffice.  When it returns, the finished
    list holds exactly the tasks of other runtimes, in their order, and (on
    an initialized state) no parse task of the runtime is queued or
    running. *)
Theorem no_parse_task_of_runtime_after_cancel :
  forall parseRuntimeMatches interference fuel passes rt fs fs1,
    (2 <= passes)%nat ->
    WaitForOffThreadParses parseRuntimeMatches interference fuel rt fs
      = Some fs1 ->
    exists fs',
      CancelOffThreadParses parseRuntimeMatches interference fuel passes rt fs
        = Some fs'
      /\ core fs' = core fs1
      /\ parseFinishedList_ fs' =
           filter (fun task => negb (parseRuntimeMatches task rt))
             (parseFinishedList_ fs1)
      /\ (forall task, In task (parseFinishedList_ fs') ->
                       parseRuntimeMatches task rt = false)
      /\ (isInitialized_ (core fs) = true ->
          (forall task, In task (parseWorklist_ (core fs')) ->
                        parseRuntimeMatches task rt = false)
          /\ (forall task, In (TaskParse task) (helperTasks_ (core fs')) ->
                           parseRuntimeMatches task rt = false)).
Proof.
  intros m interference fuel passes rt fs fs1 Hpasses Hwait.
  unfold CancelOffThreadParses. rewrite Hwait.
  rewrite (reclaimAllFinishedParses_two_passes passes _ _ Hpasses).
  eexists. split; [reflexivity|].
  split; [reflexivity|]. split; [reflexivity|].
  split.
  - intros task Hin. cbn [parseFinishedList_ set_parseFinishedList] in Hin.
    apply filter_In in Hin. destruct Hin as [_ Hin].
    apply negb_true_iff in Hin. exact Hin.
  - intro Hinit. unfold WaitForOffThreadParses in Hwait.
    rewrite Hinit in Hwait. cbn [negb] in Hwait.
    apply waitForParses_returned in Hwait. destruct Hwait as [Hp Hr].
    cbn [core set_parseFinishedList].
    split.
    + intros task Hin.
      exact (existsb_false_all _ _ _ Hp task Hin).
    + intros task Hin.
      exact (existsb_false_all _ _ _ Hr (TaskParse task) Hin).
Qed.

Lemma no_parse_task_of_runtime_after_cancel_witness :
  ((2 <= 2)%nat
   /\ WaitForOffThreadParses sameParseRuntime (fun _ => workersFinish) 2
        0%nat parsesBeforeCancel = Some parsesWaited)
  /\ exists fs',
       CancelOffThreadParses sameParseRuntime (fun _ => workersFinish) 2 2
         0%nat parsesBeforeCancel = Some fs'
       /\ parseFinishedList_ fs' = [parseC].
Proof.
  assert (Hwait : WaitForOffThreadParses sameParseRuntime
                    (fun _ => workersFinish) 2 0%nat parsesBeforeCancel
                  = Some parsesWaited) by (vm_compute; reflexivity).
  split; [split; [lia | exact Hwait]|].
  destruct (no_parse_task_of_runtime_after_cancel sameParseRuntime
              (fun _ => workersFinish) 2 2 0%nat parsesBeforeCancel
              parsesWaited ltac:(lia) Hwait)
    as (fs' & Hrun & _ & Hfin & _).
  exists fs'. split; [exact Hrun|]. rewrite Hfin. vm_compute. reflexivity.
Defined.

(** ** Delazification tasks of a runtime that goes away *)

Lemma cancelDelazifyUntilIdle_returned :
  forall matches interference fuel k rt fs fs',
    cancelDelazifyUntilIdle matches interference fuel k rt fs = Some fs' ->
    existsb (fun task => matches task rt) (delazifyWorklist_ (core fs'))
      = false
    /\ delazifyInProgress matches rt (core fs') = false.
Proof.
  intros m interference fuel. induction fuel as [|fuel IH];
    intros k rt fs fs' H; [discriminate|].
  cbn [cancelDelazifyUntilIdle] in H.
  destruct (negb (delazifyInProgress m rt
                    (core (CancelPendingDelazifyTask m rt fs)))) eqn:E.
  - injection H as <-. apply negb_true_iff in E.
    split; [|exact E].
    unfold CancelPendingDelazifyTask.
    cbn [core set_core delazifyWorklist_ set_delazifyWorklist].
    apply (existsb_filter_negb _ (fun task => m task rt)).
  - exact (IH _ _ _ _ H).
Qed.

Lemma waitForFreeDelazify_returned : forall interference fuel k fs fs',
  waitForFreeDelazify interference fuel k fs = Some fs' ->
  freeDelazifyInProgress (core fs') = false.
Proof.
  intros interference fuel. induction fuel as [|fuel IH];
    intros k fs fs' H; [discriminate|].
  cbn [waitForFreeDelazify] in H.
  destruct (negb (freeDelazifyInProgress (core fs))) eqn:E.
  - injection H as <-. apply negb_true_iff in E. exact E.
  - exact (IH _ _ _ H).
Qed.

Lemma waitForFreeDelazify_keeps : forall (keeps : FullState -> Prop)
    interference fuel k fs fs',
  (forall n x, keeps x -> keeps (interference n x)) ->
  keeps fs ->
  waitForFreeDelazify interference fuel k fs = Some fs' ->
  keeps fs'.
Proof.
  intros keeps interference fuel. induction fuel as [|fuel IH];
    intros k fs fs' Hrely Hfs H; [discriminate|].
  cbn [waitForFreeDelazify] in H.
  destruct (negb (freeDelazifyInProgress (core fs))).
  - injection H as <-. exact Hfs.
  - exact (IH _ _ _ Hrely (Hrely _ _ Hfs) H).
Qed.

(** X11.  Once [WaitUntilCancelledDelazifyTasks] has returned on an
    initialized state, [HasAnyDelazifyTask] is false for the runtime, and
    [js::WaitForAllDelazifyTasks] called next returns the state as it is
    without waiting, whatever other threads would do during a wait. *)
Theorem wait_after_delazify_cancel_does_not_block :
  forall matches interference interference' fuel fuel' rt fs fs',
    WaitUntilCancelledDelazifyTasks matches interference fuel rt fs
      = Some fs' ->
    (isInitialized_ (core fs) = true ->
     HasAnyDelazifyTask matches rt (core fs') = false)
    /\ WaitForAllDelazifyTasks matches interference' (S fuel') rt fs'
       = Some fs'.
Proof.
  intros m interference interference' fuel fuel' rt fs fs' H.
  unfold WaitUntilCancelledDelazifyTasks in H.
  destruct (isInitialized_ (core fs)) eqn:Einit; cbn [negb] in H.
  - apply cancelDelazifyUntilIdle_returned in H. destruct H as [Hq Hr].
    assert (Hany : HasAnyDelazifyTask m rt (core fs') = false)
      by (unfold HasAnyDelazifyTask; rewrite Hq; exact Hr).
    split; [intros _; exact Hany|].
    unfold WaitForAllDelazifyTasks.
    destruct (negb (isInitialized_ (core fs'))); [reflexivity|].
    cbn [waitWhileAnyDelazifyTask]. rewrite Hany. reflexivity.
  - injection H as <-. split; [discriminate|].
    unfold WaitForAllDelazifyTasks. rewrite Einit. reflexivity.
Qed.

Lemma wait_after_delazify_cancel_does_not_block_witness :
  WaitUntilCancelledDelazifyTasks sameRuntimeOrNone (fun _ => workersRequeue)
    2 0%nat delazifyBeforeCancel = Some delazifyCancelled
  /\ isInitialized_ (core delazifyBeforeCancel) = true
  /\ delazifyWorklist_ (core delazifyCancelled) = [delazifyC]
  /\ HasAnyDelazifyTask sameRuntimeOrNone 0%nat (core delazifyCancelled)
     = false
  /\ WaitForAllDelazifyTasks sameRuntimeOrNone (fun _ fs => fs) 1 0%nat
       delazifyCancelled = Some delazifyCancelled.
Proof.
  assert (Hrun : WaitUntilCancelledDelazifyTasks sameRuntimeOrNone
                   (fun _ => workersRequeue) 2 0%nat delazifyBeforeCancel
                 = Some delazifyCancelled) by (vm_compute; reflexivity).
  assert (Hinit : isInitialized_ (core delazifyBeforeCancel) = true)
    by (vm_compute; reflexivity).
  split; [exact Hrun|]. split; [exact Hinit|].
  split; [vm_compute; reflexivity|].
  destruct (wait_after_delazify_cancel_does_not_block sameRuntimeOrNone
              (fun _ => workersRequeue) (fun _ fs => fs) 2 0 0%nat
              delazifyBeforeCancel delazifyCancelled Hrun) as [Hany Hwait].
  split; [exact (Hany Hinit) | exact Hwait].
Defined.

(** X12.  [js::CancelOffThreadDelazify] on an initialized state, while other
    threads queue no delazification of the runtime during the second wait:
    when it returns, no delazify task of the runtime (or without a runtime)
    is queued or running, the vector of free-delazify tasks is empty and no
    free-delazify task runs. *)
Theorem no_delazify_task_of_runtime_after_cancel :
  forall matches interference1 interference2 fuel1 fuel2 rt fs fs1 fs',
    isInitialized_ (core fs) = true ->
    WaitUntilCancelledDelazifyTasks matches interference1 fuel1 rt fs
      = Some fs1 ->
    isInitialized_ (core fs1) = true ->
    (forall n x,
        HasAnyDelazifyTask matches rt (core x) = false ->
        HasAnyDelazifyTask matches rt (core (interference2 n x)) = false) ->
    CancelOffThreadDelazify matches interference1 interference2 fuel1 fuel2
      rt fs = Some fs' ->
    HasAnyDelazifyTask matches rt (core fs') = false
    /\ freeDelazifyTaskVector_ (core fs') = []
    /\ (forall task, ~ In (TaskFreeDelazify task) (helperTasks_ (core fs'))).
Proof.
  intros m interference1 interference2 fuel1 fuel2 rt fs fs1 fs'
    Hinit Hfirst Hinit1 Hrely H.
  unfold CancelOffThreadDelazify in H. rewrite Hfirst in H.
  unfold WaitUntilCancelledDelazifyTasks in Hfirst.
  rewrite Hinit in Hfirst. cbn [negb] in Hfirst.
  apply cancelDelazifyUntilIdle_returned in Hfirst.
  destruct Hfirst as [Hq Hr].
  assert (Hany : HasAnyDelazifyTask m rt (core fs1) = false)
    by (unfold HasAnyDelazifyTask; rewrite Hq; exact Hr).
  unfold WaitUntilEmptyFreeDelazifyTaskVector in H.
  rewrite Hinit1 in H. cbn [negb] in H.
  split.
  - exact (waitForFreeDelazify_keeps
             (fun x => HasAnyDelazifyTask m rt (core x) = false)
             _ _ _ _ _ Hrely Hany H).
  - apply waitForFreeDelazify_returned in H.
    unfold freeDelazifyInProgress in H.
    apply orb_false_iff in H. destruct H as [Hvec Hrun].
    apply negb_false_iff in Hvec.
    split; [exact (empty_true _ _ Hvec)|].
    intros task Hin.
    pose proof (existsb_false_all _ _ _ Hrun (TaskFreeDelazify task) Hin).
    discriminate.
Qed.

Lemma no_delazify_task_of_runtime_after_cancel_witness :
  (isInitialized_ (core delazifyAndFreeBeforeCancel) = true
   /\ CancelOffThreadDelazify sameRuntimeOrNone (fun _ => workersRequeue)
        (fun _ => workersFree) 2 2 0%nat delazifyAndFreeBeforeCancel
      = Some delazifyAndFreeCancelled)
  /\ HasAnyDelazifyTask sameRuntimeOrNone 0%nat
       (core delazifyAndFreeCancelled) = false
  /\ freeDelazifyTaskVector_ (core delazifyAndFreeCancelled) = [].
Proof.
  assert (Hinit : isInitialized_ (core delazifyAndFreeBeforeCancel) = true)
    by (vm_compute; reflexivity).
  assert (Hrun : CancelOffThreadDelazify sameRuntimeOrNone
                   (fun _ => workersRequeue) (fun _ => workersFree) 2 2
                   0%nat delazifyAndFreeBeforeCancel
                 = Some delazifyAndFreeCancelled)
    by (vm_compute; reflexivity).
  split; [exact (conj Hinit Hrun)|].
  destruct (no_delazify_task_of_runtime_after_cancel sameRuntimeOrNone
              (fun _ => workersRequeue) (fun _ => workersFree) 2 2 0%nat
              delazifyAndFreeBeforeCancel delazifyAndFreeWaited
              delazifyAndFreeCancelled Hinit)
    as (Hany & Hvec & _).
  - vm_compute. reflexivity.
  - vm_compute. reflexivity.
  - intros n x Hx. exact Hx.
  - exact Hrun.
  - exact (conj Hany Hvec).
Defined.

(** ** Source compression tasks *)

Lemma canStartTasks_no_abort : forall s,
  1 < cpuCount s -> canStartTasks s <> None.
Proof.
  intros s Hcpu. unfold canStartTasks.
  pose proof (canStartWasmCompile_no_abort s Tier1 Hcpu) as H1.
  pose proof (canStartWasmCompile_no_abort s Tier2 Hcpu) as H2.
  unfold canStartWasmTier1CompileTask, canStartWasmTier2CompileTask.
  destruct (canStartGCParallelTask s); [discriminate|].
  destruct (canStartIonCompileTask s); [discriminate|].
  destruct (canStartWasmCompile s Tier1) as [[|]|];
    [discriminate| |contradiction].
  destruct (canStartPromiseHelperTask s); [discriminate|].
  destruct (canStartParseTask s); [discriminate|].
  destruct (canStartFreeDelazifyTask s); [discriminate|].
  destruct (canStartDelazifyTask s); [discriminate|].
  destruct (canStartCompressionTask s); [discriminate|].
  destruct (canStartIonFreeTask s); [discriminate|].
  destruct (canStartWasmCompile s Tier2) as [[|]|];
    [discriminate| |contradiction].
  discriminate.
Qed.

Lemma submitTask_compression_inv : forall grown task s r s',
  submitTask_compression grown task s = Some (r, s') ->
  cpuCount s' = cpuCount s
  /\ compressionWorklist_ s' =
       (if grown then compressionWorklist_ s ++ [task]
        else compressionWorklist_ s).
Proof.
  intros grown task s r s' H. unfold submitTask_compression in H.
  destruct grown; cbn [negb] in H.
  - apply submitted_inv in H. destruct H as [_ [-> | ->]];
      split; reflexivity.
  - injection H as <- <-. split; reflexivity.
Qed.

Lemma submitTask_compression_no_abort : forall grown task s,
  1 < cpuCount s -> submitTask_compression grown task s <> None.
Proof.
  intros grown task s Hcpu. unfold submitTask_compression.
  destruct grown; cbn [negb]; [|discriminate].
  unfold submitted, dispatch.
  match goal with
  | |- context [canStartTasks ?q] =>
      pose proof (canStartTasks_no_abort q Hcpu) as Hc;
      destruct (canStartTasks q) as [can|]; [|contradiction]
  end.
  destruct (can && _); discriminate.
Qed.

Section CompressionScheduling.

Variable remove : forall A : Type, list A -> Z -> list A * Z.
Hypothesis remove_ok : removes_in_place remove.

Variable compressionRuntimeMatches : SourceCompressionTask -> JSRuntime -> bool.
Variable shouldStart : SourceCompressionTask -> bool.
Variable schedule : ScheduleCompressionTask.
Variable maybeRuntime : JSRuntime.
Variable grown : SourceCompressionTask -> bool.

Lemma startHandlingCompressionTasks_from_spec :
  forall fuel front todo fs fs',
    compressionPendingList_ fs = front ++ todo ->
    (length todo <= fuel)%nat ->
    length_z (front ++ todo) < SIZE_MODULUS ->
    (forall x, In x front ->
               compressionDue compressionRuntimeMatches shouldStart schedule
                 maybeRuntime x = false) ->
    startHandlingCompressionTasks_from remove compressionRuntimeMatches
      shouldStart fuel schedule maybeRuntime grown (length_z front) fs
      = Some fs' ->
    (forall x, In x (compressionPendingList_ fs') <->
               In x (front ++ todo)
               /\ compressionDue compressionRuntimeMatches shouldStart
                    schedule maybeRuntime x = false)
    /\ (forall x, In x (compressionWorklist_ (core fs')) <->
                  In x (compressionWorklist_ (core fs))
                  \/ (In x todo
                      /\ compressionDue compressionRuntimeMatches shouldStart
                           schedule maybeRuntime x = true
                      /\ grown x = true)).
Proof.
  induction fuel as [|fuel IH];
    intros front todo fs fs' Hpending Hfuel Hfit Hfront H.
  - destruct todo; [|cbn in Hfuel; lia].
    cbn [startHandlingCompressionTasks_from] in H. injection H as <-.
    rewrite Hpending, app_nil_r. split.
    + intro x. split; [|tauto].
      intro Hin. split; [exact Hin | exact (Hfront x Hin)].
    + intro x. split; [tauto|]. intros [Hin | [[] _]]. exact Hin.
  - cbn [startHandlingCompressionTasks_from] in H. rewrite Hpending in H.
    destruct todo as [|y rest].
    + rewrite app_nil_r in H.
      destruct (Z.ltb_spec (length_z front) (length_z front)); [lia|].
      injection H as <-. rewrite Hpending, app_nil_r. split.
      * intro x. split; [|tauto].
        intro Hin. split; [exact Hin | exact (Hfront x Hin)].
      * intro x. split; [tauto|]. intros [Hin | [[] _]]. exact Hin.
    + pose proof (length_z_nonneg _ front).
      pose proof (length_z_nonneg _ rest).
      assert (Hlen : length_z (front ++ y :: rest)
                     = length_z front + length_z rest + 1)
        by (rewrite length_z_app, length_z_cons; lia).
      destruct (Z.ltb_spec (length_z front) (length_z (front ++ y :: rest)));
        [|lia].
      unfold length_z at 1 in H. rewrite Nat2Z.id, nth_error_middle in H.
      fold (length_z front) in H.
      destruct (compressionDue compressionRuntimeMatches shouldStart schedule
                  maybeRuntime y) eqn:Dy.
      * destruct (submitTask_compression (grown y) y (core fs))
          as [[r core']|] eqn:Esub; [|discriminate].
        apply submitTask_compression_inv in Esub.
        destruct Esub as [_ Hwork].
        destruct (remove_ok _ front y rest Hfit) as (rest' & Erem & Hl & Hin').
        rewrite Erem in H.
        rewrite size_incr_decr in H by (unfold in_size_t; lia).
        apply (IH front rest') in H.
        -- destruct H as [Hp Hw]. split.
           ++ intro x. rewrite Hp, !in_app_iff, Hin'. cbn [In].
              split; [tauto|]. intros [[Hf | [<- | Hr]] Hx]; try tauto.
              congruence.
           ++ intro x. rewrite Hw. cbn [core set_core set_compressionPendingList].
              rewrite Hwork, Hin'. cbn [In].
              destruct (grown y) eqn:Gy.
              ** rewrite in_app_iff. cbn [In]. split.
                 --- intros [[Hx | [<- | []]] | Hx]; tauto.
                 --- intros [Hx | [[<- | Hx] Hd]]; tauto.
              ** split; [tauto|].
                 intros [Hx | [[<- | Hx] Hd]]; try tauto.
                 destruct Hd as [_ Hd]. congruence.
        -- reflexivity.
        -- rewrite Hl. cbn [length] in Hfuel. lia.
        -- rewrite length_z_app. unfold length_z at 2.
           rewrite Hl. fold (length_z rest). lia.
        -- exact Hfront.
      * rewrite size_incr_small in H by lia.
        replace (length_z front + 1) with (length_z (front ++ [y])) in H
          by (rewrite length_z_app; reflexivity).
        apply (IH (front ++ [y]) rest) in H.
        -- destruct H as [Hp Hw]. split.
           ++ intro x. rewrite Hp, <- app_assoc. reflexivity.
           ++ intro x. rewrite Hw. cbn [In]. split; [tauto|].
              intros [Hx | [[<- | Hx] Hd]]; try tauto.
              destruct Hd as [Hd _]. congruence.
        -- rewrite Hpending, <- app_assoc. reflexivity.
        -- cbn [length] in Hfuel. lia.
        -- rewrite <- app_assoc. exact Hfit.
        -- intros z Hz. apply in_app_or in Hz.
           destruct Hz as [Hz | [<- | []]]; [exact (Hfront z Hz) | exact Dy].
Qed.

Lemma startHandlingCompressionTasks_from_no_abort : forall fuel i fs,
  1 < cpuCount (core fs) ->
  startHandlingCompressionTasks_from remove compressionRuntimeMatches
    shouldStart fuel schedule maybeRuntime grown i fs <> None.
Proof.
  induction fuel as [|fuel IH]; intros i fs Hcpu; [discriminate|].
  cbn [startHandlingCompressionTasks_from].
  destruct (i <? length_z (compressionPendingList_ fs)); [|discriminate].
  destruct (nth_error (compressionPendingList_ fs) (Z.to_nat i))
    as [task|]; [|discriminate].
  destruct (compressionDue _ _ _ _ task); [|exact (IH _ _ Hcpu)].
  pose proof (submitTask_compression_no_abort (grown task) task _ Hcpu) as Hs.
  destruct (submitTask_compression (grown task) task (core fs))
    as [[r core']|] eqn:Esub; [|contradiction].
  apply submitTask_compression_inv in Esub. destruct Esub as [Hc _].
  destruct (remove SourceCompressionTask (compressionPendingList_ fs) i)
    as [pending' i'].
  apply IH. cbn [core set_core set_compressionPendingList].
  rewrite Hc. exact Hcpu.
Qed.

End CompressionScheduling.

Lemma no_member_nil : forall (A : Type) (l : list A),
  (forall x, ~ In x l) -> l = [].
Proof.
  intros A [|x l] H; [reflexivity|]. exfalso. apply (H x). left. reflexivity.
Qed.

(** X13.  [startHandlingCompressionTasks] splits the pending list: the tasks
    that are due leave it, whether or not their submission succeeds, and the
    ones that are not due stay.  The worklist gains exactly the due tasks
    whose append succeeded and loses nothing.  With the [API] schedule the
    pending list ends empty.  The call cannot abort on a machine with more
    than one CPU. *)
Theorem compression_scheduling_partitions_pending :
  forall remove compressionRuntimeMatches shouldStart schedule maybeRuntime
         grown fs,
    removes_in_place remove ->
    length_z (compressionPendingList_ fs) < SIZE_MODULUS ->
    (forall fs',
        startHandlingCompressionTasks remove compressionRuntimeMatches
          shouldStart schedule maybeRuntime grown fs = Some fs' ->
        (forall task,
            In task (compressionPendingList_ fs') <->
            In task (compressionPendingList_ fs)
            /\ compressionDue compressionRuntimeMatches shouldStart schedule
                 maybeRuntime task = false)
        /\ (forall task,
               In task (compressionWorklist_ (core fs')) <->
               In task (compressionWorklist_ (core fs))
               \/ (In task (compressionPendingList_ fs)
                   /\ compressionDue compressionRuntimeMatches shouldStart
                        schedule maybeRuntime task = true
                   /\ grown task = true))
        /\ (schedule = API -> compressionPendingList_ fs' = []))
    /\ (1 < cpuCount (core fs) ->
        startHandlingCompressionTasks remove compressionRuntimeMatches
          shouldStart schedule maybeRuntime grown fs <> None).
Proof.
  intros remove m shouldStart schedule maybeRuntime grown fs Hremove Hfit.
  split.
  - intros fs' H. unfold startHandlingCompressionTasks in H.
    change 0 with (length_z (@nil SourceCompressionTask)) in H.
    apply (startHandlingCompressionTasks_from_spec remove Hremove m
             shouldStart schedule maybeRuntime grown _ []
             (compressionPendingList_ fs)) in H;
      [| reflexivity | lia | exact Hfit | intros x []].
    destruct H as [Hp Hw]. cbn [app] in Hp.
    split; [exact Hp|]. split; [exact Hw|].
    intros ->. apply no_member_nil. intros x Hin.
    apply Hp in Hin. destruct Hin as [_ Hd]. discriminate.
  - intro Hcpu. unfold startHandlingCompressionTasks.
    apply startHandlingCompressionTasks_from_no_abort. exact Hcpu.
Qed.

Lemma compression_scheduling_partitions_pending_witness :
  (removes_in_place swapRemove
   /\ length_z (compressionPendingList_ compressionsPending) < SIZE_MODULUS
   /\ startHandlingCompressionTasks swapRemove sameCompressionRuntime
        (fun _ => true) GC 0%nat appendFailsForB compressionsPending
      = Some compressionsStarted)
  /\ compressionPendingList_ compressionsStarted = [compressC]
  /\ compressionWorklist_ (core compressionsStarted) = [compressA]
  /\ (forall task,
         In task (compressionPendingList_ compressionsStarted) <->
         In task (compressionPendingList_ compressionsPending)
         /\ compressionDue sameCompressionRuntime (fun _ => true) GC 0%nat
              task = false).
Proof.
  assert (Hfit : length_z (compressionPendingList_ compressionsPending)
                 < SIZE_MODULUS) by (vm_compute; reflexivity).
  assert (Hrun : startHandlingCompressionTasks swapRemove
                   sameCompressionRuntime (fun _ => true) GC 0%nat
                   appendFailsForB compressionsPending
                 = Some compressionsStarted) by (vm_compute; reflexivity).
  split; [exact (conj swapRemove_removes_in_place (conj Hfit Hrun))|].
  split; [vm_compute; reflexivity|].
  split; [vm_compute; reflexivity|].
  exact (proj1 (proj1 (compression_scheduling_partitions_pending swapRemove
                         sameCompressionRuntime (fun _ => true) GC 0%nat
                         appendFailsForB compressionsPending
                         swapRemove_removes_in_place Hfit)
                  compressionsStarted Hrun)).
Defined.

Lemma waitForCompressions_returned :
  forall matches interference fuel k rt fs fs',
    waitForCompressions matches interference fuel k rt fs = Some fs' ->
    compressionInProgress matches rt (core fs') = false.
Proof.
  intros m interference fuel. induction fuel as [|fuel IH];
    intros k rt fs fs' H; [discriminate|].
  cbn [waitForCompressions] in H.
  destruct (negb (compressionInProgress m rt (core fs))) eqn:E.
  - injection H as <-. apply negb_true_iff in E. exact E.
  - exact (IH _ _ _ _ H).
Qed.

Lemma waitForCompressions_keeps : forall (keeps : FullState -> Prop)
    matches interference fuel k rt fs fs',
  (forall n x, keeps x -> keeps (interference n x)) ->
  keeps fs ->
  waitForCompressions matches interference fuel k rt fs = Some fs' ->
  keeps fs'.
Proof.
  intros keeps m interference fuel. induction fuel as [|fuel IH];
    intros k rt fs fs' Hrely Hfs H; [discriminate|].
  cbn [waitForCompressions] in H.
  destruct (negb (compressionInProgress m rt (core fs))).
  - injection H as <-. exact Hfs.
  - exact (IH _ _ _ _ Hrely (Hrely _ _ Hfs) H).
Qed.

(** X14.  [js::CancelOffThreadCompressions] for a runtime, while other
    threads neither enqueue nor schedule a compression of that runtime during
    the wait: when it returns, no compression of the runtime is pending,
    queued, running or finished.  Without extra threads the call leaves the
    state as it is. *)
Theorem no_compression_of_runtime_after_cancel :
  forall remove compressionRuntimeMatches interference fuel rt fs,
    removes_in_place remove ->
    length_z (compressionPendingList_ fs) < SIZE_MODULUS ->
    length_z (compressionWorklist_ (core fs)) < SIZE_MODULUS ->
    length_z (compressionFinishedList_ fs) < SIZE_MODULUS ->
    (forall n x,
        noCompressionQueued compressionRuntimeMatches rt x ->
        noCompressionQueued compressionRuntimeMatches rt (interference n x)) ->
    (forall fs',
        CancelOffThreadCompressions remove compressionRuntimeMatches
          interference true fuel rt fs = Some fs' ->
        (forall task, In task (compressionPendingList_ fs') ->
                      compressionRuntimeMatches task rt = false)
        /\ (forall task, In task (compressionWorklist_ (core fs')) ->
                         compressionRuntimeMatches task rt = false)
        /\ (forall task, In (TaskCompression task) (helperTasks_ (core fs')) ->
                         compressionRuntimeMatches task rt = false)
        /\ (forall task, In task (compressionFinishedList_ fs') ->
                         compressionRuntimeMatches task rt = false))
    /\ CancelOffThreadCompressions remove compressionRuntimeMatches
         interference false fuel rt fs = Some fs.
Proof.
  intros remove m interference fuel rt fs Hremove Hfp Hfw Hff Hrely.
  split; [|reflexivity].
  intros fs' H. unfold CancelOffThreadCompressions in H. cbn [negb] in H.
  cbv zeta in H.
  match type of H with
  | match waitForCompressions _ _ _ _ _ ?start with _ => _ end = _ =>
      assert (Hstart : noCompressionQueued m rt start)
  end.
  { split; [|split].
    - intros task Hin.
      cbn [compressionPendingList_ set_core set_compressionPendingList] in Hin.
      unfold ClearCompressionTaskList in Hin.
      apply (sweep_all remove Hremove) in Hin; [tauto | exact Hfp].
    - intros task Hin.
      cbn [core set_core set_compressionPendingList compressionWorklist_
           set_compressionWorklist] in Hin.
      unfold ClearCompressionTaskList in Hin.
      apply (sweep_all remove Hremove) in Hin; [tauto | exact Hfw].
    - exact Hff. }
  match type of H with
  | match ?w with _ => _ end = _ =>
      destruct w as [fs3|] eqn:Ewait; [|discriminate]
  end.
  injection H as <-.
  pose proof (waitForCompressions_keeps _ _ _ _ _ _ _ _ Hrely Hstart Ewait)
    as (Hp & Hw & Hfit).
  apply waitForCompressions_returned in Ewait.
  split; [exact Hp|]. split; [exact Hw|]. split.
  - intros task Hin.
    exact (existsb_false_all _ _ _ Ewait (TaskCompression task) Hin).
  - intros task Hin.
    cbn [compressionFinishedList_ set_compressionFinishedList] in Hin.
    unfold ClearCompressionTaskList in Hin.
    apply (sweep_all remove Hremove) in Hin; [tauto | exact Hfit].
Qed.

Lemma workersFinish_noCompressionQueued : forall rt fs,
  noCompressionQueued sameCompressionRuntime rt fs ->
  length_z (compressionFinishedList_ fs ++
            flat_map (fun helper => match helper with
                                    | TaskCompression t => [t]
                                    | _ => []
                                    end) (helperTasks_ (core fs)))
    < SIZE_MODULUS ->
  noCompressionQueued sameCompressionRuntime rt (workersFinish fs).
Proof.
  intros rt fs. unfold workersFinish.
  generalize (helperTasks_ (core fs)) as tasks.
  intro tasks. revert fs.
  induction tasks as [|task tasks IH]; intros fs Hq Hfit.
  - exact Hq.
  - cbn [fold_left]. apply IH.
    + destruct Hq as (Hp & Hw & Hf).
      destruct task; (split; [exact Hp | split; [exact Hw|]]);
        cbn [retireTask compressionFinishedList_ set_core
             set_parseFinishedList set_compressionFinishedList
             set_wasmTier2GeneratorsFinished ParseTask_runHelperThreadTask];
        try exact Hf.
      cbn [flat_map] in Hfit. rewrite !length_z_app in *.
      pose proof (length_z_nonneg _ (flat_map
        (fun helper => match helper with
                       | TaskCompression t0 => [t0]
                       | _ => []
                       end) tasks)).
      change (length_z [t]) with 1 in *. lia.
    + cbn [flat_map] in Hfit.
      destruct task;
        cbn [retireTask compressionFinishedList_ set_core
             set_parseFinishedList set_compressionFinishedList
             set_wasmTier2GeneratorsFinished ParseTask_runHelperThreadTask
             app] in *;
        try exact Hfit.
      rewrite <- app_assoc. exact Hfit.
Qed.

Lemma workersFinishCompressions_noCompressionQueued : forall rt fs,
  noCompressionQueued sameCompressionRuntime rt fs ->
  noCompressionQueued sameCompressionRuntime rt (workersFinishCompressions fs).
Proof.
  intros rt fs Hq. unfold workersFinishCompressions.
  match goal with
  | |- context [?a <? ?b] => destruct (Z.ltb_spec a b) as [Hfit|]
  end; [|exact Hq].
  exact (workersFinish_noCompressionQueued rt fs Hq Hfit).
Qed.

Lemma no_compression_of_runtime_after_cancel_witness :
  CancelOffThreadCompressions swapRemove sameCompressionRuntime
    (fun _ => workersFinishCompressions) true 2 0%nat compressionsBeforeCancel
    = Some compressionsCancelled
  /\ compressionPendingList_ compressionsCancelled = []
  /\ compressionWorklist_ (core compressionsCancelled) = [compressC]
  /\ helperTasks_ (core compressionsCancelled) = []
  /\ (forall task, In task (compressionFinishedList_ compressionsCancelled) ->
                   sameCompressionRuntime task 0%nat = false).
Proof.
  assert (Hrun : CancelOffThreadCompressions swapRemove sameCompressionRuntime
                   (fun _ => workersFinishCompressions) true 2 0%nat
                   compressionsBeforeCancel = Some compressionsCancelled)
    by (vm_compute; reflexivity).
  split; [exact Hrun|].
  split; [vm_compute; reflexivity|].
  split; [vm_compute; reflexivity|].
  split; [vm_compute; reflexivity|].
  refine (proj2 (proj2 (proj2
            (proj1 (no_compression_of_runtime_after_cancel swapRemove
                      sameCompressionRuntime
                      (fun _ => workersFinishCompressions) 2 0%nat
                      compressionsBeforeCancel swapRemove_removes_in_place
                      _ _ _
                      (fun _ x => workersFinishCompressions_noCompressionQueued
                                    0%nat x))
               compressionsCancelled Hrun))));
    vm_compute; reflexivity.
Defined.

(** ** Tier-2 generators *)

Lemma sweep_everything : forall remove (A : Type) (v : list A),
  removes_in_place remove ->
  length_z v < SIZE_MODULUS ->
  sweep remove (fun _ => true) (length v) 0 v = [].
Proof.
  intros remove A v Hremove Hfit. apply no_member_nil. intros x Hin.
  apply (sweep_all remove Hremove) in Hin; [|exact Hfit].
  destruct Hin as [_ Hin]. discriminate.
Qed.

Lemma waitForTier2GeneratorFinished_returned :
  forall interference fuel k old fs fs',
    waitForTier2GeneratorFinished interference fuel k old fs = Some fs' ->
    wasmTier2GeneratorsFinished_ fs' <> old.
Proof.
  intros interference fuel. induction fuel as [|fuel IH];
    intros k old fs fs' H; [discriminate|].
  cbn [waitForTier2GeneratorFinished] in H.
  destruct (Z.eqb_spec (wasmTier2GeneratorsFinished_ fs) old) as [|Hne].
  - exact (IH _ _ _ _ H).
  - injection H as <-. exact Hne.
Qed.

Lemma waitForTier2GeneratorFinished_keeps : forall (keeps : FullState -> Prop)
    interference fuel k old fs fs',
  (forall n x, keeps x -> keeps (interference n x)) ->
  keeps fs ->
  waitForTier2GeneratorFinished interference fuel k old fs = Some fs' ->
  keeps fs'.
Proof.
  intros keeps interference fuel. induction fuel as [|fuel IH];
    intros k old fs fs' Hrely Hfs H; [discriminate|].
  cbn [waitForTier2GeneratorFinished] in H.
  destruct (wasmTier2GeneratorsFinished_ fs =? old).
  - exact (IH _ _ _ _ Hrely (Hrely _ _ Hfs) H).
  - injection H as <-. exact Hfs.
Qed.

(** X15.  [CancelOffThreadWasmTier2GeneratorLocked] on an initialized state
    discards every queued tier-2 generator.  If no generator is running it
    returns at once, with nothing else changed.  If one is running, the call
    returns only after the count of finished generators has changed, and the
    worklist is still empty then provided other threads queued no generator
    meanwhile. *)
Theorem queued_tier2_generators_are_discarded :
  forall remove interference fuel fs,
    removes_in_place remove ->
    isInitialized_ (core fs) = true ->
    length_z (wasmTier2GeneratorWorklist_ (core fs)) < SIZE_MODULUS ->
    (runningTier2Generator (helperTasks_ (core fs)) = None ->
     CancelOffThreadWasmTier2GeneratorLocked remove interference fuel fs
       = Some (set_core (set_wasmTier2GeneratorWorklist [] (core fs)) fs))
    /\ (forall generator fs',
           runningTier2Generator (helperTasks_ (core fs)) = Some generator ->
           CancelOffThreadWasmTier2GeneratorLocked remove interference fuel fs
             = Some fs' ->
           wasmTier2GeneratorsFinished_ fs' <> wasmTier2GeneratorsFinished_ fs
           /\ ((forall n x,
                   wasmTier2GeneratorWorklist_ (core x) = [] ->
                   wasmTier2GeneratorWorklist_ (core (interference n x)) = [])
               -> wasmTier2GeneratorWorklist_ (core fs') = [])).
Proof.
  intros remove interference fuel fs Hremove Hinit Hfit.
  unfold CancelOffThreadWasmTier2GeneratorLocked. rewrite Hinit.
  cbn [negb]. cbv zeta. unfold discardQueuedTier2Generators.
  rewrite (sweep_everything remove _ _ Hremove Hfit).
  cbn [core set_core helperTasks_ set_wasmTier2GeneratorWorklist
       wasmTier2GeneratorsFinished_ tier2GeneratorCancelled_].
  split.
  - intros ->. reflexivity.
  - intros generator fs' -> H. split.
    + exact (waitForTier2GeneratorFinished_returned _ _ _ _ _ _ H).
    + intro Hrely.
      apply (waitForTier2GeneratorFinished_keeps
               (fun x => wasmTier2GeneratorWorklist_ (core x) = [])
               _ _ _ _ _ _ Hrely) in H; [exact H | reflexivity].
Qed.

Lemma queued_tier2_generators_are_discarded_witness :
  (removes_in_place swapRemove
   /\ isInitialized_ (core generatorBusy) = true
   /\ length_z (wasmTier2GeneratorWorklist_ (core generatorBusy))
      < SIZE_MODULUS
   /\ runningTier2Generator (helperTasks_ (core generatorBusy))
      = Some generatorB
   /\ CancelOffThreadWasmTier2GeneratorLocked swapRemove
        (fun _ => workersFinish) 2 generatorBusy = Some generatorCancelled)
  /\ wasmTier2GeneratorsFinished_ generatorCancelled
     <> wasmTier2GeneratorsFinished_ generatorBusy
  /\ wasmTier2GeneratorWorklist_ (core generatorCancelled) = [].
Proof.
  assert (Hinit : isInitialized_ (core generatorBusy) = true)
    by (vm_compute; reflexivity).
  assert (Hfit : length_z (wasmTier2GeneratorWorklist_ (core generatorBusy))
                 < SIZE_MODULUS) by (vm_compute; reflexivity).
  assert (Hgen : runningTier2Generator (helperTasks_ (core generatorBusy))
                 = Some generatorB) by (vm_compute; reflexivity).
  assert (Hrun : CancelOffThreadWasmTier2GeneratorLocked swapRemove
                   (fun _ => workersFinish) 2 generatorBusy
                 = Some generatorCancelled) by (vm_compute; reflexivity).
  split;
    [exact (conj swapRemove_removes_in_place
              (conj Hinit (conj Hfit (conj Hgen Hrun))))|].
  destruct (proj2 (queued_tier2_generators_are_discarded swapRemove
                     (fun _ => workersFinish) 2 generatorBusy
                     swapRemove_removes_in_place Hinit Hfit)
              generatorB generatorCancelled Hgen Hrun) as [Hcount Hempty].
  split; [exact Hcount|]. apply Hempty.
  intros n x Hx. unfold workersFinish.
  generalize (helperTasks_ (core x)) as tasks. intro tasks.
  revert x Hx. induction tasks as [|task tasks IH]; intros x Hx; [exact Hx|].
  cbn [fold_left]. apply IH. destruct task; exact Hx.
Defined.

(** ** Parse tokens *)

Lemma ParseTask_eqb_eq : forall a b, ParseTask_eqb a b = true <-> a = b.
Proof.
  intros a b. unfold ParseTask_eqb. rewrite HelperThreadTask_eqb_eq.
  split; [intro H; injection H as ->; reflexivity | intros ->; reflexivity].
Qed.

Lemma ParseTask_eqb_neq : forall a b, ParseTask_eqb a b = false <-> a <> b.
Proof.
  intros a b. split.
  - intros H ->. rewrite (proj2 (ParseTask_eqb_eq b b) eq_refl) in H.
    discriminate.
  - intro H. destruct (ParseTask_eqb a b) eqn:E; [|reflexivity].
    apply ParseTask_eqb_eq in E. contradiction.
Qed.

Lemma unlinkParseTask_absent : forall task finished,
  ~ In task finished -> unlinkParseTask task finished = finished.
Proof.
  intros task finished. induction finished as [|t rest IH]; intro H;
    [reflexivity|].
  cbn [unlinkParseTask].
  destruct (ParseTask_eqb t task) eqn:E.
  - apply ParseTask_eqb_eq in E. subst t. exfalso. apply H. left. reflexivity.
  - rewrite IH; [reflexivity|]. intro Hin. apply H. right. exact Hin.
Qed.

Lemma unlinkParseTask_inserted : forall task finished,
  ~ In task finished -> unlinkParseTask task (finished ++ [task]) = finished.
Proof.
  intros task finished. induction finished as [|t rest IH]; intro H.
  - cbn [app unlinkParseTask].
    rewrite (proj2 (ParseTask_eqb_eq task task) eq_refl). reflexivity.
  - cbn [app unlinkParseTask].
    destruct (ParseTask_eqb t task) eqn:E.
    + apply ParseTask_eqb_eq in E. subst t. exfalso. apply H. left.
      reflexivity.
    + rewrite IH; [reflexivity|]. intro Hin. apply H. right. exact Hin.
Qed.

Lemma unlinkParseTask_In : forall task finished t,
  In t (unlinkParseTask task finished) -> In t finished.
Proof.
  intros task finished t. induction finished as [|x rest IH]; intro H;
    [exact H|].
  cbn [unlinkParseTask] in H. destruct (ParseTask_eqb x task).
  - right. exact H.
  - destruct H as [<- | H]; [left; reflexivity | right; exact (IH H)].
Qed.

Lemma unlinkParseTask_others : forall task finished t,
  t <> task -> In t finished -> In t (unlinkParseTask task finished).
Proof.
  intros task finished t Hne. induction finished as [|x rest IH]; intro H;
    [exact H|].
  cbn [unlinkParseTask]. destruct (ParseTask_eqb x task) eqn:E.
  - apply ParseTask_eqb_eq in E. subst x.
    destruct H as [<- | H]; [contradiction | exact H].
  - destruct H as [<- | H]; [left; reflexivity | right; exact (IH H)].
Qed.

Lemma unlinkParseTask_gone : forall task finished,
  NoDup finished -> ~ In task (unlinkParseTask task finished).
Proof.
  intros task finished Hnd. induction Hnd as [|x rest Hx Hnd IH];
    [intros []|].
  cbn [unlinkParseTask]. destruct (ParseTask_eqb x task) eqn:E.
  - apply ParseTask_eqb_eq in E. subst x. exact Hx.
  - apply ParseTask_eqb_neq in E. intros [-> | H]; [contradiction|].
    exact (IH H).
Qed.

Section ParseTokenProperties.

Variable remove : forall A : Type, list A -> Z -> list A * Z.
Hypothesis remove_ok : removes_in_place remove.

Lemma cancelQueuedParseTask_spec : forall task fuel front todo,
  (length todo <= fuel)%nat ->
  length_z (front ++ todo) < SIZE_MODULUS ->
  match cancelQueuedParseTask remove fuel task (length_z front)
          (front ++ todo) with
  | Some worklist' =>
      exists mid rest rest',
        todo = mid ++ task :: rest
        /\ ~ In task mid
        /\ worklist' = front ++ mid ++ rest'
        /\ length rest' = length rest
        /\ (forall y, In y rest' <-> In y rest)
  | None => ~ In task todo
  end.
Proof.
  intros task fuel. induction fuel as [|fuel IH]; intros front todo Hfuel Hfit.
  - destruct todo; [|cbn in Hfuel; lia]. cbn. tauto.
  - cbn [cancelQueuedParseTask]. destruct todo as [|y rest].
    + rewrite app_nil_r.
      destruct (Z.ltb_spec (length_z front) (length_z front)); [lia|].
      intros [].
    + pose proof (length_z_nonneg _ front).
      pose proof (length_z_nonneg _ rest).
      assert (Hlen : length_z (front ++ y :: rest)
                     = length_z front + length_z rest + 1)
        by (rewrite length_z_app, length_z_cons; lia).
      destruct (Z.ltb_spec (length_z front) (length_z (front ++ y :: rest)));
        [|lia].
      unfold length_z at 1. rewrite Nat2Z.id, nth_error_middle.
      fold (length_z front).
      destruct (ParseTask_eqb task y) eqn:E.
      * apply ParseTask_eqb_eq in E. subst y.
        destruct (remove_ok _ front task rest Hfit)
          as (rest' & -> & Hl & Hin').
        exists [], rest, rest'. cbn [app fst].
        split; [reflexivity|]. split; [intros []|].
        split; [reflexivity|]. split; [exact Hl | exact Hin'].
      * apply ParseTask_eqb_neq in E.
        rewrite size_incr_small by lia.
        replace (length_z front + 1) with (length_z (front ++ [y]))
          by (rewrite length_z_app; reflexivity).
        replace (front ++ y :: rest) with ((front ++ [y]) ++ rest)
          by (rewrite <- app_assoc; reflexivity).
        specialize (IH (front ++ [y]) rest).
        destruct (cancelQueuedParseTask remove fuel task
                    (length_z (front ++ [y])) ((front ++ [y]) ++ rest))
          as [worklist'|].
        -- destruct IH as (mid & rest0 & rest' & -> & Hmid & -> & Hl & Hin');
             [cbn [length] in Hfuel; lia
             | rewrite <- app_assoc; exact Hfit |].
           exists (y :: mid), rest0, rest'.
           split; [reflexivity|].
           split; [intros [-> | Hm]; [apply E; reflexivity | exact (Hmid Hm)]|].
           split; [rewrite <- app_assoc; reflexivity|].
           split; [exact Hl | exact Hin'].
        -- intros [<- | Hin]; [apply E; reflexivity|].
           apply IH; [cbn [length] in Hfuel; lia
                     | rewrite <- app_assoc; exact Hfit | exact Hin].
Qed.

End ParseTokenProperties.

Lemma waitWhileParseTaskRuns_returned :
  forall interference fuel k task fs fs',
    waitWhileParseTaskRuns interference fuel k task fs = Some fs' ->
    parseTaskRuns task (core fs') = false.
Proof.
  intros interference fuel. induction fuel as [|fuel IH];
    intros k task fs fs' H; [discriminate|].
  cbn [waitWhileParseTaskRuns] in H.
  destruct (parseTaskRuns task (core fs)) eqn:E.
  - exact (IH _ _ _ _ H).
  - injection H as <-. exact E.
Qed.

Lemma waitWhileParseTaskRuns_keeps : forall (keeps : FullState -> Prop)
    interference fuel k task fs fs',
  (forall n x, keeps x -> keeps (interference n x)) ->
  keeps fs ->
  waitWhileParseTaskRuns interference fuel k task fs = Some fs' ->
  keeps fs'.
Proof.
  intros keeps interference fuel. induction fuel as [|fuel IH];
    intros k task fs fs' Hrely Hfs H; [discriminate|].
  cbn [waitWhileParseTaskRuns] in H.
  destruct (parseTaskRuns task (core fs)).
  - exact (IH _ _ _ _ Hrely (Hrely _ _ Hfs) H).
  - injection H as <-. exact Hfs.
Qed.

(** X16.  [cancelParseTask] for a token whose task is in at most one place:
    when it returns, the task is neither queued, nor running, nor in the
    finished list.  A task that is queued is taken out of the worklist
    without any wait, the other queued tasks stay, and nothing else
    changes.  The helper [remove] is a parameter with its contract; while the
    canceller waits for a running task, other threads do not queue the task
    again. *)
Theorem cancelled_parse_token_is_nowhere :
  forall remove interference fuel task fs,
    removes_in_place remove ->
    length_z (parseWorklist_ (core fs)) < SIZE_MODULUS ->
    NoDup (parseWorklist_ (core fs)) ->
    NoDup (parseFinishedList_ fs) ->
    (In task (parseWorklist_ (core fs)) ->
     ~ In (TaskParse task) (helperTasks_ (core fs))
     /\ ~ In task (parseFinishedList_ fs)) ->
    (forall n x, parseTokenSettled task x ->
                 parseTokenSettled task (interference n x)) ->
    (forall fs',
        cancelParseTask remove interference fuel task fs = Some fs' ->
        ~ In task (parseWorklist_ (core fs'))
        /\ ~ In (TaskParse task) (helperTasks_ (core fs'))
        /\ ~ In task (parseFinishedList_ fs'))
    /\ (In task (parseWorklist_ (core fs)) ->
        exists worklist',
          cancelParseTask remove interference 0 task fs =
            Some (set_core (set_parseWorklist worklist' (core fs)) fs)
          /\ (length worklist' + 1 = length (parseWorklist_ (core fs)))%nat
          /\ (forall queued, queued <> task ->
                (In queued worklist' <->
                 In queued (parseWorklist_ (core fs))))).
Proof.
  intros remove interference fuel task fs Hremove Hfit Hnd Hndf Hexcl Hrely.
  pose proof (cancelQueuedParseTask_spec remove Hremove task
                (length (parseWorklist_ (core fs))) []
                (parseWorklist_ (core fs)) (le_n _) Hfit) as Hspec.
  cbn [app] in Hspec. change (length_z (@nil ParseTask)) with 0 in Hspec.
  split.
  - intros fs' H. unfold cancelParseTask in H. cbv zeta in H.
    destruct (cancelQueuedParseTask remove
                (length (parseWorklist_ (core fs))) task 0
                (parseWorklist_ (core fs))) as [worklist'|].
    + destruct Hspec as (mid & rest & rest' & Htodo & Hmid & -> & Hl & Hin').
      injection H as <-.
      cbn [core set_core parseWorklist_ set_parseWorklist helperTasks_
           parseFinishedList_].
      rewrite Htodo in Hnd. apply NoDup_remove_2 in Hnd.
      assert (Hq : In task (parseWorklist_ (core fs)))
        by (rewrite Htodo; apply in_or_app; right; left; reflexivity).
      destruct (Hexcl Hq) as [Hrun Hfin].
      split; [|split; [exact Hrun | exact Hfin]].
      intro Hin. apply Hnd. apply in_app_or in Hin. apply in_or_app.
      destruct Hin as [Hin | Hin]; [left; exact Hin|].
      right. apply Hin'. exact Hin.
    + destruct (waitWhileParseTaskRuns interference fuel 0 task fs)
        as [fs1|] eqn:Ewait; [|discriminate].
      injection H as <-.
      assert (Hstart : parseTokenSettled task fs) by (split; assumption).
      pose proof (waitWhileParseTaskRuns_keeps _ _ _ _ _ _ _ Hrely Hstart
                    Ewait) as [Hw Hf].
      apply waitWhileParseTaskRuns_returned in Ewait.
      cbn [core set_parseFinishedList parseFinishedList_].
      split; [exact Hw|]. split.
      * intro Hin.
        pose proof (existsb_false_all _ _ _ Ewait (TaskParse task) Hin) as Hx.
        cbn in Hx.
        rewrite (proj2 (ParseTask_eqb_eq task task) eq_refl) in Hx.
        discriminate.
      * exact (unlinkParseTask_gone task _ Hf).
  - intro Hq. unfold cancelParseTask. cbv zeta.
    destruct (cancelQueuedParseTask remove
                (length (parseWorklist_ (core fs))) task 0
                (parseWorklist_ (core fs))) as [worklist'|];
      [|contradiction].
    destruct Hspec as (mid & rest & rest' & Htodo & Hmid & -> & Hl & Hin').
    exists (mid ++ rest'). cbn [app]. split; [reflexivity|].
    rewrite Htodo, !length_app. cbn [length]. split; [lia|].
    intros queued Hne. rewrite !in_app_iff, Hin'. cbn [In].
    split; [tauto|]. intros [H | [H | H]]; try tauto.
    exfalso. apply Hne. symmetry. exact H.
Qed.

Lemma finishParseTask_settled : forall task n x,
  parseTokenSettled task x ->
  parseTokenSettled task ((fun _ : nat => finishParseTask task) n x).
Proof.
  intros task n x [Hw Hf]. cbv beta. unfold finishParseTask.
  destruct (existsb (ParseTask_eqb task) (parseFinishedList_ x)) eqn:E;
    [split; assumption|].
  split; [exact Hw|].
  cbn [parseFinishedList_ set_core ParseTask_runHelperThreadTask
       set_parseFinishedList].
  assert (Hnot : ~ In task (parseFinishedList_ x)).
  { intro Hin. pose proof (existsb_false_all _ _ _ E task Hin) as Hx.
    rewrite (proj2 (ParseTask_eqb_eq task task) eq_refl) in Hx.
    discriminate. }
  apply NoDup_app; [exact Hf | constructor; [intros [] | constructor] |].
  intros a Ha [<- | []]. exact (Hnot Ha).
Qed.

Lemma cancelled_parse_token_is_nowhere_witness :
  cancelParseTask swapRemove (fun _ => finishParseTask parseA) 2 parseA
    tokensInFlight = Some runningTokenCancelled
  /\ parseFinishedList_ runningTokenCancelled = [parseC]
  /\ ~ In parseA (parseWorklist_ (core runningTokenCancelled))
  /\ ~ In (TaskParse parseA) (helperTasks_ (core runningTokenCancelled))
  /\ ~ In parseA (parseFinishedList_ runningTokenCancelled).
Proof.
  assert (Hrun : cancelParseTask swapRemove (fun _ => finishParseTask parseA)
                   2 parseA tokensInFlight = Some runningTokenCancelled)
    by (vm_compute; reflexivity).
  split; [exact Hrun|]. split; [vm_compute; reflexivity|].
  assert (Hw : parseWorklist_ (core tokensInFlight) = [parseB])
    by (vm_compute; reflexivity).
  assert (Hf : parseFinishedList_ tokensInFlight = [parseC])
    by (vm_compute; reflexivity).
  apply (proj1 (cancelled_parse_token_is_nowhere swapRemove
                  (fun _ => finishParseTask parseA) 2 parseA tokensInFlight
                  swapRemove_removes_in_place
                  ltac:(rewrite Hw; vm_compute; reflexivity)
                  ltac:(rewrite Hw; constructor;
                        [intros [] | constructor])
                  ltac:(rewrite Hf; constructor;
                        [intros [] | constructor])
                  ltac:(rewrite Hw; intros [H | []]; discriminate)
                  (finishParseTask_settled parseA))
           runningTokenCancelled Hrun).
Defined.

Lemma set_parseFinishedList_same : forall fs,
  set_parseFinishedList (parseFinishedList_ fs) fs = fs.
Proof. intros []. reflexivity. Qed.

(** X17.  A parse task that has run is linked at the back of the finished
    list, and [removeFinishedParseTask] for its token takes it out again and
    leaves the list as it was before the task finished; the call aborts when
    the token's task belongs to another runtime than the caller's.  In
    general the call unlinks the task and keeps every other finished task. *)
Theorem finished_parse_token_round_trip :
  (forall cxRuntime task fs,
      ~ In task (parseFinishedList_ fs) ->
      removeFinishedParseTask cxRuntime task
        (ParseTask_runHelperThreadTask task fs) =
        if Nat.eqb (parse_runtime task) cxRuntime then Some (task, fs)
        else None)
  /\ (forall cxRuntime task fs token fs',
         NoDup (parseFinishedList_ fs) ->
         removeFinishedParseTask cxRuntime task fs = Some (token, fs') ->
         token = task
         /\ parse_runtime task = cxRuntime
         /\ core fs' = core fs
         /\ ~ In task (parseFinishedList_ fs')
         /\ (forall other, other <> task ->
               (In other (parseFinishedList_ fs') <->
                In other (parseFinishedList_ fs)))).
Proof.
  split.
  - intros cxRuntime task fs Hnot. unfold removeFinishedParseTask.
    destruct (Nat.eqb (parse_runtime task) cxRuntime); [|reflexivity].
    unfold ParseTask_runHelperThreadTask.
    cbn [parseFinishedList_ set_parseFinishedList].
    rewrite (unlinkParseTask_inserted task _ Hnot).
    destruct fs. reflexivity.
  - intros cxRuntime task fs token fs' Hnd H.
    unfold removeFinishedParseTask in H.
    destruct (Nat.eqb_spec (parse_runtime task) cxRuntime) as [Hrt|];
      [|discriminate].
    injection H as <- <-.
    cbn [core parseFinishedList_ set_parseFinishedList].
    split; [reflexivity|]. split; [exact Hrt|]. split; [reflexivity|].
    split; [exact (unlinkParseTask_gone task _ Hnd)|].
    intros other Hne. split.
    + apply unlinkParseTask_In.
    + apply unlinkParseTask_others. exact Hne.
Qed.

Lemma finished_parse_token_round_trip_witness :
  ~ In parseA (parseFinishedList_ tokensInFlight)
  /\ removeFinishedParseTask 0%nat parseA
       (ParseTask_runHelperThreadTask parseA tokensInFlight)
     = Some (parseA, tokensInFlight)
  /\ removeFinishedParseTask 1%nat parseA
       (ParseTask_runHelperThreadTask parseA tokensInFlight) = None.
Proof.
  assert (Hnot : ~ In parseA (parseFinishedList_ tokensInFlight)).
  { assert (Hf : parseFinishedList_ tokensInFlight = [parseC])
      by (vm_compute; reflexivity).
    rewrite Hf. intros [H | []]. discriminate. }
  split; [exact Hnot|].
  split.
  - exact (proj1 finished_parse_token_round_trip 0%nat parseA tokensInFlight
             Hnot).
  - exact (proj1 finished_parse_token_round_trip 1%nat parseA tokensInFlight
             Hnot).
Defined.

(** ** Results of source compressions *)

Section CompressionResultProperties.

Variable remove : forall A : Type, list A -> Z -> list A * Z.
Hypothesis remove_ok : removes_in_place remove.

Variable compressionRuntimeMatches : SourceCompressionTask -> JSRuntime -> bool.
Variable rt : JSRuntime.

Lemma attachFinished_from_spec : forall fuel front todo completed,
  (length todo <= fuel)%nat ->
  length_z (front ++ todo) < SIZE_MODULUS ->
  (forall x, In x front -> compressionRuntimeMatches x rt = false) ->
  forall finished' completed',
    attachFinished_from remove compressionRuntimeMatches fuel rt
      (length_z front) (front ++ todo) completed = (finished', completed') ->
    (forall x, In x finished' <->
               In x (front ++ todo) /\ compressionRuntimeMatches x rt = false)
    /\ (forall x, In x completed' <->
                  In x completed
                  \/ (In x todo /\ compressionRuntimeMatches x rt = true))
    /\ (length finished' + length completed'
        = length (front ++ todo) + length completed)%nat.
Proof.
  induction fuel as [|fuel IH];
    intros front todo completed Hfuel Hfit Hfront finished' completed' H.
  - destruct todo; [|cbn in Hfuel; lia].
    cbn [attachFinished_from] in H. injection H as <- <-.
    rewrite app_nil_r. split; [|split; [|reflexivity]].
    + intro x. split; [|tauto].
      intro Hin. split; [exact Hin | exact (Hfront x Hin)].
    + intro x. split; [tauto|]. intros [Hin | [[] _]]. exact Hin.
  - cbn [attachFinished_from] in H. destruct todo as [|y rest].
    + rewrite app_nil_r in *.
      destruct (Z.ltb_spec (length_z front) (length_z front)); [lia|].
      injection H as <- <-. split; [|split; [|reflexivity]].
      * intro x. split; [|tauto].
        intro Hin. split; [exact Hin | exact (Hfront x Hin)].
      * intro x. split; [tauto|]. intros [Hin | [[] _]]. exact Hin.
    + pose proof (length_z_nonneg _ front).
      pose proof (length_z_nonneg _ rest).
      assert (Hlen : length_z (front ++ y :: rest)
                     = length_z front + length_z rest + 1)
        by (rewrite length_z_app, length_z_cons; lia).
      destruct (Z.ltb_spec (length_z front) (length_z (front ++ y :: rest)));
        [|lia].
      unfold length_z at 1 in H. rewrite Nat2Z.id, nth_error_middle in H.
      fold (length_z front) in H.
      destruct (compressionRuntimeMatches y rt) eqn:My.
      * destruct (remove_ok _ front y rest Hfit) as (rest' & Erem & Hl & Hin').
        rewrite Erem in H.
        rewrite size_incr_decr in H by (unfold in_size_t; lia).
        apply (IH front rest') in H.
        -- destruct H as (Hf & Hc & Hn). split; [|split].
           ++ intro x. rewrite Hf, !in_app_iff, Hin'. cbn [In].
              split; [tauto|]. intros [[Hx | [<- | Hx]] Hm]; try tauto.
              congruence.
           ++ intro x. rewrite Hc, in_app_iff, Hin'. cbn [In].
              split.
              ** intros [[Hx | [<- | []]] | Hx]; tauto.
              ** intros [Hx | [[<- | Hx] Hm]]; tauto.
           ++ rewrite !length_app in *. cbn [length] in *. lia.
        -- rewrite Hl. cbn [length] in Hfuel. lia.
        -- rewrite length_z_app. unfold length_z at 2.
           rewrite Hl. fold (length_z rest). lia.
        -- exact Hfront.
      * rewrite size_incr_small in H by lia.
        replace (length_z front + 1) with (length_z (front ++ [y])) in H
          by (rewrite length_z_app; reflexivity).
        replace (front ++ y :: rest) with ((front ++ [y]) ++ rest) in H
          by (rewrite <- app_assoc; reflexivity).
        apply (IH (front ++ [y]) rest) in H.
        -- destruct H as (Hf & Hc & Hn). split; [|split].
           ++ intro x. rewrite Hf, <- app_assoc. reflexivity.
           ++ intro x. rewrite Hc. cbn [In]. split; [tauto|].
              intros [Hx | [[<- | Hx] Hm]]; try tauto. congruence.
           ++ rewrite <- app_assoc in Hn. exact Hn.
        -- cbn [length] in Hfuel. lia.
        -- rewrite <- app_assoc. exact Hfit.
        -- intros z Hz. apply in_app_or in Hz.
           destruct Hz as [Hz | [<- | []]]; [exact (Hfront z Hz) | exact My].
Qed.

Lemma AttachFinishedCompressions_spec : forall fs fs' completed,
  length_z (compressionFinishedList_ fs) < SIZE_MODULUS ->
  AttachFinishedCompressions remove compressionRuntimeMatches rt fs
    = (fs', completed) ->
  core fs' = core fs
  /\ (forall task, In task completed <->
                   In task (compressionFinishedList_ fs)
                   /\ compressionRuntimeMatches task rt = true)
  /\ (forall task, In task (compressionFinishedList_ fs') <->
                   In task (compressionFinishedList_ fs)
                   /\ compressionRuntimeMatches task rt = false)
  /\ (length (compressionFinishedList_ fs') + length completed
      = length (compressionFinishedList_ fs))%nat.
Proof.
  intros fs fs' completed Hfit H. unfold AttachFinishedCompressions in H.
  destruct (attachFinished_from remove compressionRuntimeMatches
              (length (compressionFinishedList_ fs)) rt 0
              (compressionFinishedList_ fs) []) as [finished done] eqn:E.
  injection H as <- <-.
  change 0 with (length_z (@nil SourceCompressionTask)) in E.
  apply (attachFinished_from_spec _ [] (compressionFinishedList_ fs)) in E;
    [| lia | exact Hfit | intros x []].
  destruct E as (Hf & Hc & Hn). cbn [app length] in *.
  split; [reflexivity|]. split.
  - intro task. rewrite Hc. cbn [In]. tauto.
  - split; [exact Hf|]. cbn [compressionFinishedList_
                              set_compressionFinishedList]. lia.
Qed.

End CompressionResultProperties.

Lemma waitUntilCompressionsStarted_returned : forall interference fuel k fs fs',
  waitUntilCompressionsStarted interference fuel k fs = Some fs' ->
  compressionWorklist_ (core fs') = [].
Proof.
  intros interference fuel. induction fuel as [|fuel IH];
    intros k fs fs' H; [discriminate|].
  cbn [waitUntilCompressionsStarted] in H.
  destruct (negb (empty (compressionWorklist_ (core fs)))) eqn:E.
  - exact (IH _ _ _ H).
  - injection H as <-. apply negb_false_iff in E. exact (empty_true _ _ E).
Qed.

(** X18.  [js::RunPendingSourceCompressions(runtime)] step by step: the
    scheduling leaves nothing pending; the first wait ends with an empty
    compression worklist; the drain ends with nothing running and no dispatch
    pending; then exactly the finished compressions of the runtime are
    completed and the others stay on the finished list.  If the bookkeeping
    is consistent and the pool has a thread, the compression worklist is
    empty at the end.  Without extra threads the call does nothing. *)
Theorem pending_compressions_run_and_attach :
  forall remove compressionRuntimeMatches shouldStart grown
         interference1 interference2 interference3 fuel1 fuel2 fuel3 rt fs,
    removes_in_place remove ->
    (forall fs1 fs2 fs3,
        length_z (compressionPendingList_ fs) < SIZE_MODULUS ->
        startHandlingCompressionTasks remove compressionRuntimeMatches
          shouldStart API nullRuntime grown fs = Some fs1 ->
        waitUntilCompressionsStarted interference1 fuel1 0 fs1 = Some fs2 ->
        waitForAllTasksLocked remove interference2 interference3 fuel2 fuel3
          fs2 = Returned fs3 ->
        length_z (compressionFinishedList_ fs3) < SIZE_MODULUS ->
        exists fs' completed,
          RunPendingSourceCompressions remove compressionRuntimeMatches
            shouldStart grown interference1 interference2 interference3
            true fuel1 fuel2 fuel3 rt fs = Returned (fs', completed)
          /\ compressionPendingList_ fs1 = []
          /\ compressionWorklist_ (core fs2) = []
          /\ core fs' = core fs3
          /\ helperTasks_ (core fs') = []
          /\ tasksPending_ (core fs') = 0
          /\ (forall task, In task completed <->
                           In task (compressionFinishedList_ fs3)
                           /\ compressionRuntimeMatches task rt = true)
          /\ (forall task, In task (compressionFinishedList_ fs') <->
                           In task (compressionFinishedList_ fs3)
                           /\ compressionRuntimeMatches task rt = false)
          /\ (consistent (core fs') -> 0 < threadCount (core fs') ->
              compressionWorklist_ (core fs') = []))
    /\ RunPendingSourceCompressions remove compressionRuntimeMatches
         shouldStart grown interference1 interference2 interference3
         false fuel1 fuel2 fuel3 rt fs = Returned (fs, []).
Proof.
  intros remove m shouldStart grown i1 i2 i3 fuel1 fuel2 fuel3 rt fs Hremove.
  split; [|reflexivity].
  intros fs1 fs2 fs3 Hfit Hstart Hwait Hdrain Hfit3.
  unfold RunPendingSourceCompressions. cbn [negb].
  rewrite Hstart, Hwait, Hdrain.
  destruct (AttachFinishedCompressions remove m rt fs3)
    as [fs' completed] eqn:Eattach.
  exists fs', completed. split; [reflexivity|].
  apply (AttachFinishedCompressions_spec remove Hremove) in Eattach;
    [|exact Hfit3].
  destruct Eattach as (Hcore & Hdone & Hleft & _).
  destruct (waitForAllTasksLocked_returned _ _ _ _ _ _ _ Hdrain)
    as (Hcan & Hpend & Hidle & _).
  split.
  { unfold startHandlingCompressionTasks in Hstart.
    change 0 with (length_z (@nil SourceCompressionTask)) in Hstart.
    apply (startHandlingCompressionTasks_from_spec remove Hremove m
             shouldStart API nullRuntime grown _ []
             (compressionPendingList_ fs)) in Hstart;
      [| reflexivity | lia | exact Hfit | intros x []].
    apply no_member_nil. intros x Hin.
    apply (proj1 Hstart) in Hin. destruct Hin as [_ Hd]. discriminate. }
  split; [exact (waitUntilCompressionsStarted_returned _ _ _ _ _ Hwait)|].
  split; [exact Hcore|]. rewrite Hcore.
  split; [exact Hidle|]. split; [exact Hpend|].
  split; [exact Hdone|]. split; [exact Hleft|].
  intros Hcons Hthreads.
  destruct (canStartTasks_false _ Hcan)
    as (_ & _ & _ & _ & _ & _ & _ & Hc & _).
  unfold canStartCompressionTask in Hc.
  rewrite checkTaskThreadLimit_all_free in Hc.
  - rewrite andb_true_r in Hc. apply negb_false_iff in Hc.
    exact (empty_true _ _ Hc).
  - rewrite (consistent_total _ Hcons), Hidle. reflexivity.
  - rewrite (consistent_count _ Hcons), Hidle. reflexivity.
  - unfold maxCompressionThreads.
    destruct (IsHelperThreadSimulatingOOM _ _); lia.
  - pose proof (consistent_threads _ Hcons) as Hsz.
    unfold in_size_t in Hsz. lia.
Qed.

Lemma pending_compressions_run_and_attach_witness :
  (removes_in_place swapRemove
   /\ length_z (compressionPendingList_ compressionsPending) < SIZE_MODULUS
   /\ startHandlingCompressionTasks swapRemove sameCompressionRuntime
        (fun _ => true) API nullRuntime (fun _ => true) compressionsPending
      = Some compressionsScheduled
   /\ waitUntilCompressionsStarted (fun _ => workersCompress) 2 0
        compressionsScheduled = Some compressionsAllStarted
   /\ waitForAllTasksLocked swapRemove (fun _ fs => fs) (fun _ fs => fs) 1 1
        compressionsAllStarted = Returned compressionsDrained
   /\ length_z (compressionFinishedList_ compressionsDrained) < SIZE_MODULUS)
  /\ exists fs' completed,
       RunPendingSourceCompressions swapRemove sameCompressionRuntime
         (fun _ => true) (fun _ => true) (fun _ => workersCompress)
         (fun _ fs => fs) (fun _ fs => fs) true 2 1 1 0%nat
         compressionsPending = Returned (fs', completed)
       /\ compressionPendingList_ compressionsScheduled = []
       /\ (forall task, In task completed <->
                        In task [compressA; compressB; compressC]
                        /\ sameCompressionRuntime task 0%nat = true).
Proof.
  assert (Hfit : length_z (compressionPendingList_ compressionsPending)
                 < SIZE_MODULUS) by (vm_compute; reflexivity).
  assert (H1 : startHandlingCompressionTasks swapRemove
                 sameCompressionRuntime (fun _ => true) API nullRuntime
                 (fun _ => true) compressionsPending
               = Some compressionsScheduled) by (vm_compute; reflexivity).
  assert (H2 : waitUntilCompressionsStarted (fun _ => workersCompress) 2 0
                 compressionsScheduled = Some compressionsAllStarted)
    by (vm_compute; reflexivity).
  assert (H3 : waitForAllTasksLocked swapRemove (fun _ fs => fs)
                 (fun _ fs => fs) 1 1 compressionsAllStarted
               = Returned compressionsDrained) by (vm_compute; reflexivity).
  assert (Hfit3 : length_z (compressionFinishedList_ compressionsDrained)
                  < SIZE_MODULUS) by (vm_compute; reflexivity).
  split;
    [exact (conj swapRemove_removes_in_place
              (conj Hfit (conj H1 (conj H2 (conj H3 Hfit3)))))|].
  destruct (proj1 (pending_compressions_run_and_attach swapRemove
                     sameCompressionRuntime (fun _ => true) (fun _ => true)
                     (fun _ => workersCompress) (fun _ fs => fs)
                     (fun _ fs => fs) 2 1 1 0%nat compressionsPending
                     swapRemove_removes_in_place)
              compressionsScheduled compressionsAllStarted
              compressionsDrained Hfit H1 H2 H3 Hfit3)
    as (fs' & completed & Hrun & Hp & _ & _ & _ & _ & Hdone & _).
  exists fs', completed. split; [exact Hrun|]. split; [exact Hp|].
  assert (Hf : compressionFinishedList_ compressionsDrained
               = [compressA; compressB; compressC])
    by (vm_compute; reflexivity).
  rewrite <- Hf. exact Hdone.
Defined.

(** ** A parse token cancelled before it starts *)

Lemma split_at_first : forall (A : Type) (a : A) l1 l2 l3 l4,
  l1 ++ a :: l2 = l3 ++ a :: l4 ->
  ~ In a l1 -> ~ In a l3 -> l1 = l3 /\ l2 = l4.
Proof.
  intros A a l1. induction l1 as [|x l1 IH]; intros l2 l3 l4 H H1 H3.
  - destruct l3 as [|y l3].
    + injection H as ->. split; reflexivity.
    + injection H as <- _. exfalso. apply H3. left. reflexivity.
  - destruct l3 as [|y l3].
    + injection H as -> _. exfalso. apply H1. left. reflexivity.
    + injection H as <- H.
      destruct (IH l2 l3 l4 H) as [-> ->].
      * intro Hin. apply H1. right. exact Hin.
      * intro Hin. apply H3. right. exact Hin.
      * split; reflexivity.
Qed.

(** X19.  The token that [StartOffThreadParseTask] returns is the task it
    queued.  Cancelling the token before any worker takes the task needs no
    wait and puts the parse worklist back exactly as it was; of the whole
    state only [tasksPending_] may differ, because the dispatch made for the
    task is not taken back.  When no token is returned, the state is
    unchanged. *)
Theorem parse_token_cancelled_before_start :
  forall remove interference fuel inited grown task fs,
    removes_in_place remove ->
    length_z (parseWorklist_ (core fs)) + 1 < SIZE_MODULUS ->
    ~ In task (parseWorklist_ (core fs)) ->
    forall token s1,
      StartOffThreadParseTask inited grown task (core fs) = Some (token, s1) ->
      match token with
      | Some queued =>
          queued = task
          /\ parseWorklist_ s1 = parseWorklist_ (core fs) ++ [task]
          /\ exists s2,
               cancelParseTask remove interference fuel queued
                 (set_core s1 fs) = Some (set_core s2 fs)
               /\ parseWorklist_ s2 = parseWorklist_ (core fs)
               /\ (s2 = core fs
                   \/ s2 = set_tasksPending
                             (size_incr (tasksPending_ (core fs))) (core fs))
      | None => s1 = core fs
      end.
Proof.
  intros remove interference fuel inited grown task fs Hremove Hfit Hnot
    token s1 H.
  unfold StartOffThreadParseTask in H.
  destruct inited; cbn [negb] in H; [|injection H as <- <-; reflexivity].
  unfold submitTask_parse in H.
  destruct grown; cbn [negb] in H; [|injection H as <- <-; reflexivity].
  destruct (submitted (set_parseWorklist (parseWorklist_ (core fs) ++ [task])
                         (core fs))) as [[r s']|] eqn:Esub; [|discriminate].
  apply submitted_inv in Esub. destruct Esub as [-> Hs'].
  injection H as <- <-.
  split; [reflexivity|].
  assert (Hw : parseWorklist_ s' = parseWorklist_ (core fs) ++ [task])
    by (destruct Hs' as [-> | ->]; reflexivity).
  split; [exact Hw|].
  exists (set_parseWorklist (parseWorklist_ (core fs)) s').
  split; [|split].
  - unfold cancelParseTask. cbv zeta. cbn [core set_core]. rewrite Hw.
    pose proof (cancelQueuedParseTask_spec remove Hremove task
                  (length (parseWorklist_ (core fs) ++ [task])) []
                  (parseWorklist_ (core fs) ++ [task]) (le_n _)) as Hspec.
    cbn [app] in Hspec. change (length_z (@nil ParseTask)) with 0 in Hspec.
    destruct (cancelQueuedParseTask remove
                (length (parseWorklist_ (core fs) ++ [task])) task 0
                (parseWorklist_ (core fs) ++ [task])) as [worklist'|].
    + destruct Hspec as (mid & rest & rest' & Htodo & Hmid & -> & Hl & _);
        [rewrite length_z_app; change (length_z [task]) with 1; lia|].
      destruct (split_at_first _ task _ _ _ _ Htodo Hnot Hmid) as [<- <-].
      destruct rest'; [|discriminate]. rewrite app_nil_r.
      destruct fs as [c ? ? ? ? ? ?]. reflexivity.
    + exfalso. apply Hspec;
        [rewrite length_z_app; change (length_z [task]) with 1; lia|].
      apply in_or_app. right. left. reflexivity.
  - reflexivity.
  - destruct Hs' as [-> | ->]; [left | right];
      destruct (core fs); reflexivity.
Qed.

Lemma parse_token_cancelled_before_start_witness :
  (removes_in_place swapRemove
   /\ length_z (parseWorklist_ (core (fullState (idleState 4)))) + 1
      < SIZE_MODULUS
   /\ ~ In parseA (parseWorklist_ (core (fullState (idleState 4))))
   /\ StartOffThreadParseTask true true parseA
        (core (fullState (idleState 4))) = Some (Some parseA, parseAQueued))
  /\ exists s2,
       cancelParseTask swapRemove (fun _ fs => fs) 0 parseA
         (set_core parseAQueued (fullState (idleState 4)))
       = Some (set_core s2 (fullState (idleState 4)))
       /\ parseWorklist_ s2 = [].
Proof.
  assert (Hw : parseWorklist_ (core (fullState (idleState 4))) = [])
    by (vm_compute; reflexivity).
  assert (Hfit : length_z (parseWorklist_ (core (fullState (idleState 4))))
                 + 1 < SIZE_MODULUS) by (vm_compute; reflexivity).
  assert (Hnot : ~ In parseA
                     (parseWorklist_ (core (fullState (idleState 4)))))
    by (rewrite Hw; intros []).
  assert (Hstart : StartOffThreadParseTask true true parseA
                     (core (fullState (idleState 4)))
                   = Some (Some parseA, parseAQueued))
    by (vm_compute; reflexivity).
  split;
    [exact (conj swapRemove_removes_in_place
              (conj Hfit (conj Hnot Hstart)))|].
  destruct (parse_token_cancelled_before_start swapRemove (fun _ fs => fs) 0
              true true parseA (fullState (idleState 4))
              swapRemove_removes_in_place Hfit Hnot (Some parseA)
              parseAQueued Hstart) as (_ & _ & s2 & Hcancel & Hs2 & _).
  exists s2. split; [exact Hcancel|]. rewrite Hs2. exact Hw.
Defined.

(** ** Delazification tasks take turns *)

Lemma DelazifyTask_runHelperThreadTask_not_done :
  forall freeTask grown task s,
    DelazifyTask_runHelperThreadTask false freeTask grown task s =
      submitTask_delazify task s.
Proof. reflexivity. Qed.

Lemma DelazifyTask_runHelperThreadTask_done :
  forall freeTask grown task s,
    DelazifyTask_runHelperThreadTask true freeTask grown task s =
      match freeTask with
      | Some free =>
          match submitTask_freeDelazify grown free s with
          | Some (_, s') => Some s'
          | None => None
          end
      | None => Some s
      end.
Proof. reflexivity. Qed.

Lemma submitTask_delazify_frame : forall task s s1,
  submitTask_delazify task s = Some s1 ->
  freeDelazifyTaskVector_ s1 = freeDelazifyTaskVector_ s.
Proof.
  intros task s s1 H. unfold submitTask_delazify in H.
  apply dispatch_inv in H. destruct H as [-> | ->]; reflexivity.
Qed.

Lemma submitTask_freeDelazify_frame : forall grown free s r s1,
  submitTask_freeDelazify grown free s = Some (r, s1) ->
  delazifyWorklist_ s1 = delazifyWorklist_ s
  /\ freeDelazifyTaskVector_ s1 =
       (if grown then freeDelazifyTaskVector_ s ++ [free]
        else freeDelazifyTaskVector_ s).
Proof.
  intros grown free s r s1 H. unfold submitTask_freeDelazify in H.
  destruct grown; cbn [negb] in H.
  - apply submitted_inv in H. destruct H as [_ [-> | ->]]; split; reflexivity.
  - injection H as <- <-. split; reflexivity.
Qed.

Lemma runTaskLocked_leave_lists : forall task ty s,
  delazifyWorklist_ (runTaskLocked_leave task ty s) = delazifyWorklist_ s
  /\ freeDelazifyTaskVector_ (runTaskLocked_leave task ty s)
     = freeDelazifyTaskVector_ s.
Proof. intros task ty s. split; reflexivity. Qed.

Lemma runTaskLocked_enter_lists : forall task s,
  delazifyWorklist_ (runTaskLocked_enter task s) = delazifyWorklist_ s
  /\ freeDelazifyTaskVector_ (runTaskLocked_enter task s)
     = freeDelazifyTaskVector_ s.
Proof. intros task s. split; reflexivity. Qed.

(** X20.  A delazify task is taken from the front of its worklist.  If it is
    not done when it stops, it is back at the end of the worklist once
    [runTaskLocked] is over, so that the task queued behind it is the next
    one taken.  If it is done, it is handed to a free-delazify task at the
    back of the free vector; when that task cannot be allocated or appended,
    the delazify task is left in neither list. *)
Theorem delazify_tasks_take_turns :
  forall s task s1,
    maybeGetDelazifyTask s = Some (Some (TaskDelazify task, s1)) ->
    exists rest,
      delazifyWorklist_ s = task :: rest
      /\ (forall freeTask grown s2,
             DelazifyTask_runHelperThreadTask false freeTask grown task
               (runTaskLocked_enter (TaskDelazify task) s1) = Some s2 ->
             let s3 := runTaskLocked_leave (TaskDelazify task)
                         THREAD_TYPE_DELAZIFY s2 in
             delazifyWorklist_ s3 = rest ++ [task]
             /\ freeDelazifyTaskVector_ s3 = freeDelazifyTaskVector_ s
             /\ (forall next rest',
                    rest = next :: rest' ->
                    maybeGetDelazifyTask s3 =
                      Some (Some (TaskDelazify next,
                                  set_delazifyWorklist (rest' ++ [task]) s3))))
      /\ (forall freeTask grown s2,
             DelazifyTask_runHelperThreadTask true freeTask grown task
               (runTaskLocked_enter (TaskDelazify task) s1) = Some s2 ->
             let s3 := runTaskLocked_leave (TaskDelazify task)
                         THREAD_TYPE_DELAZIFY s2 in
             delazifyWorklist_ s3 = rest
             /\ freeDelazifyTaskVector_ s3 =
                  match freeTask with
                  | Some free =>
                      if grown then freeDelazifyTaskVector_ s ++ [free]
                      else freeDelazifyTaskVector_ s
                  | None => freeDelazifyTaskVector_ s
                  end).
Proof.
  intros s task s1 H. rewrite maybeGetDelazifyTask_spec in H.
  destruct (delazifyWorklist_ s) as [|first rest] eqn:Ew; [discriminate|].
  injection H as -> <-. exists rest. split; [reflexivity|].
  assert (Hw1 : delazifyWorklist_
                  (runTaskLocked_enter (TaskDelazify task)
                     (set_delazifyWorklist rest s)) = rest)
    by (rewrite (proj1 (runTaskLocked_enter_lists _ _)); reflexivity).
  assert (Hf1 : freeDelazifyTaskVector_
                  (runTaskLocked_enter (TaskDelazify task)
                     (set_delazifyWorklist rest s))
                = freeDelazifyTaskVector_ s)
    by (rewrite (proj2 (runTaskLocked_enter_lists _ _)); reflexivity).
  split.
  - intros freeTask grown s2 Hrun.
    rewrite DelazifyTask_runHelperThreadTask_not_done in Hrun.
    pose proof (submitTask_delazify_queued _ _ _ Hrun) as Hw.
    pose proof (submitTask_delazify_frame _ _ _ Hrun) as Hf.
    rewrite Hw1 in Hw. rewrite Hf1 in Hf. cbv zeta.
    destruct (runTaskLocked_leave_lists (TaskDelazify task)
                THREAD_TYPE_DELAZIFY s2) as [Hlw Hlf].
    rewrite Hlf, Hf.
    assert (Hw3 : delazifyWorklist_
                    (runTaskLocked_leave (TaskDelazify task)
                       THREAD_TYPE_DELAZIFY s2) = rest ++ [task])
      by (rewrite Hlw; exact Hw).
    split; [exact Hw3|]. split; [reflexivity|].
    intros next rest' ->. rewrite maybeGetDelazifyTask_spec, Hw3.
    reflexivity.
  - intros freeTask grown s2 Hrun.
    rewrite DelazifyTask_runHelperThreadTask_done in Hrun.
    cbv zeta.
    destruct (runTaskLocked_leave_lists (TaskDelazify task)
                THREAD_TYPE_DELAZIFY s2) as [-> ->].
    destruct freeTask as [free|].
    + destruct (submitTask_freeDelazify grown free
                  (runTaskLocked_enter (TaskDelazify task)
                     (set_delazifyWorklist rest s)))
        as [[r s']|] eqn:Esub; [|discriminate].
      injection Hrun as <-.
      apply submitTask_freeDelazify_frame in Esub.
      destruct Esub as [-> ->]. rewrite Hw1, Hf1. split; reflexivity.
    + injection Hrun as <-. rewrite Hw1, Hf1. split; reflexivity.
Qed.

Lemma delazify_tasks_take_turns_witness :
  (maybeGetDelazifyTask delazifyABQueued =
     Some (Some (TaskDelazify delazifyA,
                 set_delazifyWorklist [delazifyB] delazifyABQueued))
   /\ DelazifyTask_runHelperThreadTask false None true delazifyA
        (runTaskLocked_enter (TaskDelazify delazifyA)
           (set_delazifyWorklist [delazifyB] delazifyABQueued))
      = Some delazifyAInterrupted)
  /\ exists s3,
       delazifyWorklist_
         (runTaskLocked_leave (TaskDelazify delazifyA) THREAD_TYPE_DELAZIFY
            delazifyAInterrupted) = [delazifyB; delazifyA]
       /\ maybeGetDelazifyTask
            (runTaskLocked_leave (TaskDelazify delazifyA) THREAD_TYPE_DELAZIFY
               delazifyAInterrupted) = Some (Some (TaskDelazify delazifyB, s3)).
Proof.
  assert (Hsel : maybeGetDelazifyTask delazifyABQueued =
                   Some (Some (TaskDelazify delazifyA,
                               set_delazifyWorklist [delazifyB]
                                 delazifyABQueued)))
    by (vm_compute; reflexivity).
  assert (Hrun : DelazifyTask_runHelperThreadTask false None true delazifyA
                   (runTaskLocked_enter (TaskDelazify delazifyA)
                      (set_delazifyWorklist [delazifyB] delazifyABQueued))
                 = Some delazifyAInterrupted) by (vm_compute; reflexivity).
  split; [exact (conj Hsel Hrun)|].
  destruct (delazify_tasks_take_turns _ _ _ Hsel) as (rest & Hw & Hturn & _).
  assert (Hq : delazifyWorklist_ delazifyABQueued = [delazifyA; delazifyB])
    by (vm_compute; reflexivity).
  rewrite Hq in Hw. injection Hw as <-.
  destruct (Hturn None true delazifyAInterrupted Hrun) as (Hw3 & _ & Hnext).
  eexists. split; [exact Hw3|]. exact (Hnext delazifyB [] eq_refl).
Defined.

(* ================================================================= *)
(** * Queue order and priority *)

(** ** Pop order across submission, selection and cancellation *)

Lemma popBack_inv : forall (A : Type) (l : list A) x front,
  popBack l = Some (x, front) -> l = front ++ [x].
Proof.
  intros A l x front H. destruct l as [|y l]; [discriminate|].
  destruct (popBack_nonempty A (y :: l)) as (x' & front' & Hl & Hp);
    [discriminate|].
  rewrite Hp in H. injection H as <- <-. exact Hl.
Qed.

Lemma app_pair : forall (A : Type) (l : list A) a b,
  (l ++ [a]) ++ [b] = l ++ [a; b].
Proof. intros A l a b. rewrite <- app_assoc. reflexivity. Qed.

(** A selector that pops from the back under a guard takes the last entry and
    keeps the ones in front of it. *)
Lemma back_selector_hit : forall (A : Type) (tag : A -> HelperThreadTask)
    (store : list A -> State -> State) (l : list A) (guard : bool) s hit,
  (if guard then Some None else Some (select tag store s (popBack l)))
  = Some (Some hit) ->
  exists task front, l = front ++ [task] /\ hit = (tag task, store front s).
Proof.
  intros A tag store l guard s [task s1] H.
  destruct guard; [discriminate|]. injection H as H.
  apply select_inv in H. destruct H as (t & front & Hp & -> & ->).
  exists t, front. split; [exact (popBack_inv _ _ _ _ Hp) | reflexivity].
Qed.

Lemma front_selector_hit : forall (A : Type) (tag : A -> HelperThreadTask)
    (store : list A -> State -> State) (l : list A) (guard : bool) s hit,
  (if guard then Some None else Some (select tag store s (popFirst l)))
  = Some (Some hit) ->
  exists task rest, l = task :: rest /\ hit = (tag task, store rest s).
Proof.
  intros A tag store l guard s [task s1] H.
  destruct guard; [discriminate|]. injection H as H.
  apply select_inv in H. destruct H as (t & rest & Hp & -> & ->).
  exists t, rest. split; [|reflexivity].
  destruct l as [|y l]; [discriminate|]. injection Hp as -> ->. reflexivity.
Qed.

(** The first loop of [cancelParseTask] stops at the first position that
    holds the task and removes it there. *)
Lemma cancelQueuedParseTask_found :
  forall (remove : forall A : Type, list A -> Z -> list A * Z)
         task rest front seen fuel,
    ~ In task front ->
    (length front < fuel)%nat ->
    length_z (seen ++ front ++ task :: rest) < SIZE_MODULUS ->
    cancelQueuedParseTask remove fuel task (length_z seen)
      (seen ++ front ++ task :: rest)
    = Some (fst (remove _ (seen ++ front ++ task :: rest)
                   (length_z (seen ++ front)))).
Proof.
  intros remove task rest front.
  induction front as [|y front IH]; intros seen fuel Hnot Hfuel Hfit;
    (destruct fuel as [|fuel]; [lia|]); cbn [cancelQueuedParseTask].
  - cbn [app] in *. rewrite app_nil_r.
    pose proof (length_z_nonneg _ seen). pose proof (length_z_nonneg _ rest).
    assert (Hlen : length_z (seen ++ task :: rest)
                   = length_z seen + length_z rest + 1)
      by (rewrite length_z_app, length_z_cons; lia).
    destruct (Z.ltb_spec (length_z seen) (length_z (seen ++ task :: rest)));
      [|lia].
    unfold length_z at 1. rewrite Nat2Z.id, nth_error_middle.
    rewrite (proj2 (ParseTask_eqb_eq task task) eq_refl). reflexivity.
  - pose proof (length_z_nonneg _ seen).
    pose proof (length_z_nonneg _ (front ++ task :: rest)).
    assert (Hlen : length_z (seen ++ (y :: front) ++ task :: rest)
                   = length_z seen + length_z (front ++ task :: rest) + 1)
      by (cbn [app]; rewrite length_z_app, length_z_cons; lia).
    destruct (Z.ltb_spec (length_z seen)
                (length_z (seen ++ (y :: front) ++ task :: rest))); [|lia].
    unfold length_z at 1. cbn [app]. rewrite Nat2Z.id, nth_error_middle.
    fold (length_z seen).
    assert (Hy : ParseTask_eqb task y = false).
    { apply ParseTask_eqb_neq. intros ->. apply Hnot. left. reflexivity. }
    rewrite Hy. rewrite size_incr_small by lia.
    replace (length_z seen + 1) with (length_z (seen ++ [y]))
      by (rewrite length_z_app; reflexivity).
    replace (seen ++ y :: front ++ task :: rest)
      with ((seen ++ [y]) ++ front ++ task :: rest)
      by (rewrite <- app_assoc; reflexivity).
    replace (seen ++ y :: front) with ((seen ++ [y]) ++ front)
      by (rewrite <- app_assoc; reflexivity).
    apply IH.
    + intro Hin. apply Hnot. right. exact Hin.
    + cbn [length] in Hfuel. lia.
    + rewrite <- app_assoc. exact Hfit.
Qed.

Lemma cancelParseTask_queued :
  forall (remove : forall A : Type, list A -> Z -> list A * Z)
         interference fuel task fs front rest,
    parseWorklist_ (core fs) = front ++ task :: rest ->
    ~ In task front ->
    length_z (parseWorklist_ (core fs)) < SIZE_MODULUS ->
    cancelParseTask remove interference fuel task fs
    = Some (set_core
              (set_parseWorklist
                 (fst (remove _ (front ++ task :: rest) (length_z front)))
                 (core fs)) fs).
Proof.
  intros remove interference fuel task fs front rest Hw Hnot Hfit.
  unfold cancelParseTask. cbv zeta. rewrite Hw in *.
  change 0 with (length_z (@nil ParseTask)).
  change (front ++ task :: rest) with ([] ++ front ++ task :: rest) at 2.
  rewrite (cancelQueuedParseTask_found remove task rest front []).
  - reflexivity.
  - exact Hnot.
  - rewrite length_app. cbn [length]. lia.
  - exact Hfit.
Qed.

(** C5.  Submit [a] and then [b] to one worklist: each submission appends at
    the back, so the worklist is its earlier content followed by [a], [b].
    One pop through the kind's selector then returns [b] and leaves [a]
    behind the earlier content for the parse, compression, free-delazify and
    JIT-free kinds, and returns the oldest entry ([a] when the worklist was
    empty) for the delazify and GC-parallel kinds; the parse, compression and
    GC-parallel selectors pop only when their admission predicate holds.  In
    every state a hit of the first four selectors is the last entry of the
    worklist and a hit of the other two the first, and the rest stays in
    order.  Cancelling a queued parse task is different: the task is removed
    by the helper [remove], which keeps the entries in front of it but need
    not keep the order of those behind it; with the [remove] that fills the
    gap with the last entry, the last entry comes to stand where the
    cancelled one was. *)
Theorem fifo_lifo_fidelity :
  (forall s a b g1 g2 s1 s2,
      submitTask_parse g1 a s = Some (true, s1) ->
      submitTask_parse g2 b s1 = Some (true, s2) ->
      parseWorklist_ s1 = parseWorklist_ s ++ [a]
      /\ parseWorklist_ s2 = parseWorklist_ s ++ [a; b]
      /\ maybeGetParseTask s2 =
           if canStartParseTask s2
           then Some (Some (TaskParse b,
                            set_parseWorklist (parseWorklist_ s ++ [a]) s2))
           else Some None)
  /\ (forall s a b g1 g2 s1 s2,
        submitTask_compression g1 a s = Some (true, s1) ->
        submitTask_compression g2 b s1 = Some (true, s2) ->
        compressionWorklist_ s1 = compressionWorklist_ s ++ [a]
        /\ compressionWorklist_ s2 = compressionWorklist_ s ++ [a; b]
        /\ maybeGetCompressionTask s2 =
             if canStartCompressionTask s2
             then Some (Some (TaskCompression b,
                              set_compressionWorklist
                                (compressionWorklist_ s ++ [a]) s2))
             else Some None)
  /\ (forall s a b g1 g2 s1 s2,
        submitTask_freeDelazify g1 a s = Some (true, s1) ->
        submitTask_freeDelazify g2 b s1 = Some (true, s2) ->
        freeDelazifyTaskVector_ s1 = freeDelazifyTaskVector_ s ++ [a]
        /\ freeDelazifyTaskVector_ s2 = freeDelazifyTaskVector_ s ++ [a; b]
        /\ maybeGetFreeDelazifyTask s2 =
             Some (Some (TaskFreeDelazify b,
                         set_freeDelazifyTaskVector
                           (freeDelazifyTaskVector_ s ++ [a]) s2)))
  /\ (forall s a b g1 g2 s1 s2,
        submitTask_ionFree g1 a s = Some (true, s1) ->
        submitTask_ionFree g2 b s1 = Some (true, s2) ->
        ionFreeList_ s1 = ionFreeList_ s ++ [a]
        /\ ionFreeList_ s2 = ionFreeList_ s ++ [a; b]
        /\ maybeGetIonFreeTask s2 =
             Some (Some (TaskIonFree b,
                         set_ionFreeList (ionFreeList_ s ++ [a]) s2)))
  /\ (forall s a b s1 s2,
        submitTask_delazify a s = Some s1 ->
        submitTask_delazify b s1 = Some s2 ->
        delazifyWorklist_ s1 = delazifyWorklist_ s ++ [a]
        /\ delazifyWorklist_ s2 = delazifyWorklist_ s ++ [a; b]
        /\ maybeGetDelazifyTask s2 =
             match delazifyWorklist_ s with
             | [] =>
                 Some (Some (TaskDelazify a, set_delazifyWorklist [b] s2))
             | oldest :: rest =>
                 Some (Some (TaskDelazify oldest,
                             set_delazifyWorklist (rest ++ [a; b]) s2))
             end)
  /\ (forall s a b s1 s2,
        submitTask_gcParallel a s = Some (true, s1) ->
        submitTask_gcParallel b s1 = Some (true, s2) ->
        gcParallelWorklist_ s1 = gcParallelWorklist_ s ++ [a]
        /\ gcParallelWorklist_ s2 = gcParallelWorklist_ s ++ [a; b]
        /\ maybeGetGCParallelTask s2 =
             if canStartGCParallelTask s2
             then match gcParallelWorklist_ s with
                  | [] =>
                      Some (Some (TaskGCParallel a,
                                  set_gcParallelWorklist [b] s2))
                  | oldest :: rest =>
                      Some (Some (TaskGCParallel oldest,
                                  set_gcParallelWorklist (rest ++ [a; b]) s2))
                  end
             else Some None)
  /\ (forall s hit,
        (maybeGetParseTask s = Some (Some hit) ->
         exists task front,
           parseWorklist_ s = front ++ [task]
           /\ hit = (TaskParse task, set_parseWorklist front s))
        /\ (maybeGetCompressionTask s = Some (Some hit) ->
            exists task front,
              compressionWorklist_ s = front ++ [task]
              /\ hit = (TaskCompression task, set_compressionWorklist front s))
        /\ (maybeGetFreeDelazifyTask s = Some (Some hit) ->
            exists task front,
              freeDelazifyTaskVector_ s = front ++ [task]
              /\ hit = (TaskFreeDelazify task,
                        set_freeDelazifyTaskVector front s))
        /\ (maybeGetIonFreeTask s = Some (Some hit) ->
            exists task front,
              ionFreeList_ s = front ++ [task]
              /\ hit = (TaskIonFree task, set_ionFreeList front s))
        /\ (maybeGetDelazifyTask s = Some (Some hit) ->
            exists task rest,
              delazifyWorklist_ s = task :: rest
              /\ hit = (TaskDelazify task, set_delazifyWorklist rest s))
        /\ (maybeGetGCParallelTask s = Some (Some hit) ->
            exists task rest,
              gcParallelWorklist_ s = task :: rest
              /\ hit = (TaskGCParallel task, set_gcParallelWorklist rest s)))
  /\ (forall (remove : forall A : Type, list A -> Z -> list A * Z)
             interference fuel task fs front rest,
        removes_in_place remove ->
        parseWorklist_ (core fs) = front ++ task :: rest ->
        ~ In task front ->
        length_z (parseWorklist_ (core fs)) < SIZE_MODULUS ->
        exists rest',
          cancelParseTask remove interference fuel task fs
          = Some (set_core (set_parseWorklist (front ++ rest') (core fs)) fs)
          /\ length rest' = length rest
          /\ (forall y, In y rest' <-> In y rest))
  /\ (forall interference fuel task fs front mid last,
        parseWorklist_ (core fs) = front ++ task :: mid ++ [last] ->
        ~ In task front ->
        length_z (parseWorklist_ (core fs)) < SIZE_MODULUS ->
        cancelParseTask swapRemove interference fuel task fs
        = Some (set_core
                  (set_parseWorklist (front ++ last :: mid) (core fs)) fs)).
Proof.
  repeat match goal with |- _ /\ _ => split end.
  - intros s a b g1 g2 s1 s2 H1 H2.
    apply submitTask_parse_queued in H1, H2. rewrite H1, app_pair in H2.
    split; [exact H1|]. split; [exact H2|].
    unfold maybeGetParseTask.
    destruct (canStartParseTask s2); cbn [negb]; [|reflexivity].
    rewrite H2, <- app_pair, popBack_app. reflexivity.
  - intros s a b g1 g2 s1 s2 H1 H2.
    apply submitTask_compression_queued in H1, H2.
    rewrite H1, app_pair in H2.
    split; [exact H1|]. split; [exact H2|].
    unfold maybeGetCompressionTask.
    destruct (canStartCompressionTask s2); cbn [negb]; [|reflexivity].
    rewrite H2, <- app_pair, popBack_app. reflexivity.
  - intros s a b g1 g2 s1 s2 H1 H2.
    apply submitTask_freeDelazify_queued in H1, H2.
    rewrite H1, app_pair in H2.
    split; [exact H1|]. split; [exact H2|].
    unfold maybeGetFreeDelazifyTask.
    rewrite H2, <- app_pair, empty_app_cons, popBack_app. reflexivity.
  - intros s a b g1 g2 s1 s2 H1 H2.
    apply submitTask_ionFree_queued in H1, H2. rewrite H1, app_pair in H2.
    split; [exact H1|]. split; [exact H2|].
    unfold maybeGetIonFreeTask, canStartIonFreeTask.
    rewrite H2, <- app_pair, empty_app_cons, popBack_app. reflexivity.
  - intros s a b s1 s2 H1 H2.
    apply submitTask_delazify_queued in H1, H2. rewrite H1, app_pair in H2.
    split; [exact H1|]. split; [exact H2|].
    rewrite maybeGetDelazifyTask_spec, H2.
    destruct (delazifyWorklist_ s); reflexivity.
  - intros s a b s1 s2 H1 H2.
    apply submitTask_gcParallel_queued in H1, H2. rewrite H1, app_pair in H2.
    split; [exact H1|]. split; [exact H2|].
    unfold maybeGetGCParallelTask.
    destruct (canStartGCParallelTask s2); cbn [negb]; [|reflexivity].
    rewrite H2. destruct (gcParallelWorklist_ s); reflexivity.
  - intros s hit. repeat match goal with |- _ /\ _ => split end.
    + intros H. exact (back_selector_hit _ _ _ _ _ _ _ H).
    + intros H. exact (back_selector_hit _ _ _ _ _ _ _ H).
    + intros H. unfold maybeGetFreeDelazifyTask in H. cbv zeta in H.
      destruct (empty (freeDelazifyTaskVector_ s)); cbn [negb] in H;
        [discriminate|].
      exact (back_selector_hit _ TaskFreeDelazify set_freeDelazifyTaskVector
               _ false s hit H).
    + intros H. exact (back_selector_hit _ _ _ _ _ _ _ H).
    + intros H. exact (front_selector_hit _ _ _ _ _ _ _ H).
    + intros H. exact (front_selector_hit _ _ _ _ _ _ _ H).
  - intros remove interference fuel task fs front rest Hremove Hw Hnot Hfit.
    rewrite (cancelParseTask_queued remove interference fuel task fs front
               rest Hw Hnot Hfit).
    rewrite Hw in Hfit.
    destruct (Hremove _ front task rest Hfit) as (rest' & Hr & Hlen & Hin).
    exists rest'. rewrite Hr. cbn [fst].
    split; [reflexivity|]. split; [exact Hlen | exact Hin].
  - intros interference fuel task fs front mid last Hw Hnot Hfit.
    rewrite (cancelParseTask_queued swapRemove interference fuel task fs
               front (mid ++ [last]) Hw Hnot Hfit).
    rewrite Hw in Hfit. rewrite (swapRemove_at _ front task _ Hfit).
    cbn [fst]. unfold moved_up. rewrite popBack_app. reflexivity.
Qed.

Lemma fifo_lifo_fidelity_witness :
  (submitTask_parse true parseA (idleState 4) = Some (true, parseAQueued)
   /\ submitTask_parse true parseB parseAQueued = Some (true, parseABQueued)
   /\ canStartParseTask parseABQueued = true
   /\ parseWorklist_ parseABQueued = [parseA; parseB]
   /\ maybeGetParseTask parseABQueued =
        Some (Some (TaskParse parseB,
                    set_parseWorklist [parseA] parseABQueued)))
  /\ (submitTask_compression true compressA (idleState 4)
      = Some (true, compressAPending)
      /\ submitTask_compression true compressB compressAPending
         = Some (true, compressABPending)
      /\ canStartCompressionTask compressABPending = true
      /\ compressionWorklist_ compressABPending = [compressA; compressB]
      /\ maybeGetCompressionTask compressABPending =
           Some (Some (TaskCompression compressB,
                       set_compressionWorklist [compressA] compressABPending)))
  /\ (submitTask_freeDelazify true freeDelazifyA (idleState 4)
      = Some (true, freeDelazifyAPending)
      /\ submitTask_freeDelazify true freeDelazifyB freeDelazifyAPending
         = Some (true, freeDelazifyABPending)
      /\ freeDelazifyTaskVector_ freeDelazifyABPending
         = [freeDelazifyA; freeDelazifyB]
      /\ maybeGetFreeDelazifyTask freeDelazifyABPending =
           Some (Some (TaskFreeDelazify freeDelazifyB,
                       set_freeDelazifyTaskVector [freeDelazifyA]
                         freeDelazifyABPending)))
  /\ (submitTask_ionFree true ionFreeA (idleState 4)
      = Some (true, ionFreeAPending)
      /\ submitTask_ionFree true ionFreeB ionFreeAPending
         = Some (true, ionFreeABPending)
      /\ ionFreeList_ ionFreeABPending = [ionFreeA; ionFreeB]
      /\ maybeGetIonFreeTask ionFreeABPending =
           Some (Some (TaskIonFree ionFreeB,
                       set_ionFreeList [ionFreeA] ionFreeABPending)))
  /\ (submitTask_delazify delazifyA (idleState 4) = Some delazifyAQueued
      /\ submitTask_delazify delazifyB delazifyAQueued = Some delazifyABQueued
      /\ delazifyWorklist_ delazifyABQueued = [delazifyA; delazifyB]
      /\ maybeGetDelazifyTask delazifyABQueued =
           Some (Some (TaskDelazify delazifyA,
                       set_delazifyWorklist [delazifyB] delazifyABQueued)))
  /\ (submitTask_gcParallel gcA (idleState 4) = Some (true, gcAPending)
      /\ submitTask_gcParallel gcB gcAPending = Some (true, gcABPending)
      /\ canStartGCParallelTask gcABPending = true
      /\ gcParallelWorklist_ gcABPending = [gcA; gcB]
      /\ maybeGetGCParallelTask gcABPending =
           Some (Some (TaskGCParallel gcA,
                       set_gcParallelWorklist [gcB] gcABPending)))
  /\ (parseWorklist_ (core (fullState parseABCQueued))
      = [] ++ parseA :: [parseB] ++ [parseC]
      /\ cancelParseTask swapRemove (fun _ fs => fs) 0 parseA
           (fullState parseABCQueued)
         = Some (set_core
                   (set_parseWorklist ([] ++ parseC :: [parseB])
                      (core (fullState parseABCQueued)))
                   (fullState parseABCQueued))).
Proof.
  assert (P1 : submitTask_parse true parseA (idleState 4)
               = Some (true, parseAQueued)) by (vm_compute; reflexivity).
  assert (P2 : submitTask_parse true parseB parseAQueued
               = Some (true, parseABQueued)) by (vm_compute; reflexivity).
  assert (C1 : submitTask_compression true compressA (idleState 4)
               = Some (true, compressAPending)) by (vm_compute; reflexivity).
  assert (C2 : submitTask_compression true compressB compressAPending
               = Some (true, compressABPending)) by (vm_compute; reflexivity).
  assert (F1 : submitTask_freeDelazify true freeDelazifyA (idleState 4)
               = Some (true, freeDelazifyAPending))
    by (vm_compute; reflexivity).
  assert (F2 : submitTask_freeDelazify true freeDelazifyB freeDelazifyAPending
               = Some (true, freeDelazifyABPending))
    by (vm_compute; reflexivity).
  assert (I1 : submitTask_ionFree true ionFreeA (idleState 4)
               = Some (true, ionFreeAPending)) by (vm_compute; reflexivity).
  assert (I2 : submitTask_ionFree true ionFreeB ionFreeAPending
               = Some (true, ionFreeABPending)) by (vm_compute; reflexivity).
  assert (D1 : submitTask_delazify delazifyA (idleState 4)
               = Some delazifyAQueued) by (vm_compute; reflexivity).
  assert (D2 : submitTask_delazify delazifyB delazifyAQueued
               = Some delazifyABQueued) by (vm_compute; reflexivity).
  assert (G1 : submitTask_gcParallel gcA (idleState 4)
               = Some (true, gcAPending)) by (vm_compute; reflexivity).
  assert (G2 : submitTask_gcParallel gcB gcAPending
               = Some (true, gcABPending)) by (vm_compute; reflexivity).
  pose proof fifo_lifo_fidelity
    as (Tp & Tc & Tf & Ti & Td & Tg & _ & _ & Tswap).
  split; [|split; [|split; [|split; [|split; [|split]]]]].
  - destruct (Tp _ _ _ _ _ _ _ P1 P2) as (_ & Hw & Hpop).
    assert (Hcan : canStartParseTask parseABQueued = true)
      by (vm_compute; reflexivity).
    rewrite Hcan in Hpop.
    split; [exact P1|]. split; [exact P2|]. split; [exact Hcan|].
    split; [exact Hw | exact Hpop].
  - destruct (Tc _ _ _ _ _ _ _ C1 C2) as (_ & Hw & Hpop).
    assert (Hcan : canStartCompressionTask compressABPending = true)
      by (vm_compute; reflexivity).
    rewrite Hcan in Hpop.
    split; [exact C1|]. split; [exact C2|]. split; [exact Hcan|].
    split; [exact Hw | exact Hpop].
  - destruct (Tf _ _ _ _ _ _ _ F1 F2) as (_ & Hw & Hpop).
    split; [exact F1|]. split; [exact F2|]. split; [exact Hw | exact Hpop].
  - destruct (Ti _ _ _ _ _ _ _ I1 I2) as (_ & Hw & Hpop).
    split; [exact I1|]. split; [exact I2|]. split; [exact Hw | exact Hpop].
  - destruct (Td _ _ _ _ _ D1 D2) as (_ & Hw & Hpop).
    split; [exact D1|]. split; [exact D2|]. split; [exact Hw | exact Hpop].
  - destruct (Tg _ _ _ _ _ G1 G2) as (_ & Hw & Hpop).
    assert (Hcan : canStartGCParallelTask gcABPending = true)
      by (vm_compute; reflexivity).
    rewrite Hcan in Hpop.
    split; [exact G1|]. split; [exact G2|]. split; [exact Hcan|].
    split; [exact Hw | exact Hpop].
  - assert (Hw : parseWorklist_ (core (fullState parseABCQueued))
                 = [] ++ parseA :: [parseB] ++ [parseC]) by reflexivity.
    split; [exact Hw|].
    apply (Tswap (fun _ fs => fs) 0%nat parseA (fullState parseABCQueued)
             [] [parseB] parseC Hw).
    + intros [].
    + vm_compute. reflexivity.
Defined.

(** [parseA], [parseB] and [parseC] were submitted in this order and the
    token of [parseA] is cancelled while all three are queued.  The next pop
    returns [parseB], although [parseC] was submitted after it: the removal
    moved [parseC] into the place of [parseA]. *)
Lemma cancelling_a_queued_parse_task_reorders_the_worklist :
  submitTask_parse true parseA (idleState 4) = Some (true, parseAQueued)
  /\ submitTask_parse true parseB parseAQueued = Some (true, parseABQueued)
  /\ submitTask_parse true parseC parseABQueued = Some (true, parseABCQueued)
  /\ parseWorklist_ parseABCQueued = [parseA; parseB; parseC]
  /\ cancelParseTask swapRemove (fun _ fs => fs) 0 parseA
       (fullState parseABCQueued) = Some parseACancelled
  /\ parseWorklist_ (core parseACancelled) = [parseC; parseB]
  /\ canStartParseTask (core parseACancelled) = true
  /\ maybeGetParseTask (core parseACancelled) =
       Some (Some (TaskParse parseB,
                   set_parseWorklist [parseC] (core parseACancelled))).
Proof.
  split; [vm_compute; reflexivity|]. split; [vm_compute; reflexivity|].
  split; [vm_compute; reflexivity|]. split; [reflexivity|].
  split; [vm_compute; reflexivity|]. split; [vm_compute; reflexivity|].
  split; [vm_compute; reflexivity|]. vm_compute; reflexivity.
Qed.

(** ** Priority among the entries of the selector table *)

Local Ltac serves_null :=
  unfold serves;
  split; [intros ? ?; discriminate|];
  split; [split; [intros [? ?]; discriminate
                 | let Hne := fresh in
                   let Hcan := fresh in
                   intros [Hne Hcan];
                   first [exfalso; apply Hne; reflexivity
                         | specialize (Hcan eq_refl); discriminate Hcan]]|];
  split; [split; [intros _;
                  first [left; reflexivity | right; split; reflexivity]
                 | reflexivity]|];
  split; [intros ?; discriminate | intros [? ?]; discriminate].

Lemma guarded_back_entry : forall (A : Type) (tag : A -> HelperThreadTask)
    (store : list A -> State -> State) (l : list A) (check : bool) s,
  serves true
    (if negb (negb (empty l) && check) then Some None
     else Some (select tag store s (popBack l)))
    (Some (negb (empty l) && check))
    (map tag l).
Proof.
  intros A tag store l check s. unfold serves.
  destruct l as [|y l']; [cbn [empty negb andb map]; serves_null|].
  destruct (popBack_nonempty A (y :: l')) as (x & front & Hl & Hp);
    [discriminate|].
  rewrite Hp. cbn [empty negb andb select].
  destruct check; cbn [negb]; [|serves_null].
  assert (Hin : In (tag x) (map tag (y :: l'))).
  { rewrite Hl. apply in_map, in_or_app. right. left. reflexivity. }
  split; [intros hit H; injection H as <-; exact Hin|].
  split; [split; [intros _; split; [discriminate | reflexivity]
                 | intros _; eexists; reflexivity]|].
  split; [split; [intro H; discriminate H
                 | intros [H | [_ H]]; discriminate H]|].
  split; [intro H; discriminate H | intros [_ H]; discriminate H].
Qed.

Lemma guarded_front_entry : forall (A : Type) (tag : A -> HelperThreadTask)
    (store : list A -> State -> State) (l : list A) (check : bool) s,
  serves true
    (if negb (negb (empty l) && check) then Some None
     else Some (select tag store s (popFirst l)))
    (Some (negb (empty l) && check))
    (map tag l).
Proof.
  intros A tag store l check s. unfold serves.
  destruct l as [|y l']; [cbn [empty negb andb map]; serves_null|].
  cbn [empty negb andb select popFirst].
  destruct check; cbn [negb]; [|serves_null].
  split; [intros hit H; injection H as <-; left; reflexivity|].
  split; [split; [intros _; split; [discriminate | reflexivity]
                 | intros _; eexists; reflexivity]|].
  split; [split; [intro H; discriminate H
                 | intros [H | [_ H]]; discriminate H]|].
  split; [intro H; discriminate H | intros [_ H]; discriminate H].
Qed.

Lemma wasm_entry : forall s mode,
  serves true (maybeGetWasmCompile s mode) (canStartWasmCompile s mode)
    (map TaskWasmCompile (wasmWorklist s mode)).
Proof.
  intros s mode. unfold serves, maybeGetWasmCompile.
  destruct (wasmWorklist s mode) as [|y l'] eqn:Hw.
  - assert (Hcan : canStartWasmCompile s mode = Some false)
      by (unfold canStartWasmCompile; rewrite Hw; reflexivity).
    rewrite Hcan. cbn [map]. serves_null.
  - cbn [map popFirst select].
    destruct (canStartWasmCompile s mode) as [[|]|].
    + split; [intros hit H; injection H as <-; left; reflexivity|].
      split; [split; [intros _; split; [discriminate | reflexivity]
                     | intros _; eexists; reflexivity]|].
      split; [split; [intro H; discriminate H
                     | intros [H | [_ H]]; discriminate H]|].
      split; [intro H; discriminate H | intros [_ H]; discriminate H].
    + serves_null.
    + split; [intros hit H; discriminate H|].
      split; [split; [intros [hit H]; discriminate H
                     | intros [_ H]; specialize (H eq_refl); discriminate H]|].
      split; [split; [intro H; discriminate H
                     | intros [H | [_ H]]; discriminate H]|].
      split; [intros _; split; reflexivity | reflexivity].
Qed.

(** What [highestPriorityPendingIonCompile] takes is an eligible entry of the
    worklist, and it takes one whenever there is one. *)
Lemma highestPriorityPendingIonCompile_eligible : forall s check,
  match highestPriorityPendingIonCompile s check with
  | None => forall t, In t (ionWorklist_ s) -> pendingEligible check t = false
  | Some (task, _) =>
      exists best, task = TaskIonCompile best
                   /\ In best (ionWorklist_ s)
                   /\ pendingEligible check best = true
  end.
Proof.
  intros s check. unfold highestPriorityPendingIonCompile.
  destruct (scanIonWorklist_spec check (ionWorklist_ s) []
              (length (ionWorklist_ s)))
    as [[Hidx Hnone] | (front & best & back & Hw & Hidx & Hb & _)].
  - left. split; [reflexivity | intros t []].
  - cbn [app length] in Hidx. rewrite Hidx.
    replace (nth_error (ionWorklist_ s) (length (ionWorklist_ s)))
      with (@None IonCompileTask)
      by (symmetry; apply nth_error_None; apply Nat.le_refl).
    exact Hnone.
  - cbn [app length] in Hw, Hidx. rewrite Hidx, Hw.
    rewrite nth_error_middle.
    exists best. split; [reflexivity|]. split; [|exact Hb].
    apply in_or_app. right. left. reflexivity.
Qed.

Lemma ion_entry : forall s check,
  serves true
    (if negb (canStartIonCompileTask s) then Some None
     else Some (highestPriorityPendingIonCompile s check))
    (Some (canStartIonCompileTask s))
    (map TaskIonCompile (filter (pendingEligible check) (ionWorklist_ s))).
Proof.
  intros s check. unfold serves.
  pose proof (highestPriorityPendingIonCompile_eligible s check) as Hsel.
  assert (Hwork : forall t, In t (ionWorklist_ s) ->
                            pendingEligible check t = true ->
                            map TaskIonCompile
                              (filter (pendingEligible check) (ionWorklist_ s))
                            <> []).
  { intros t Hin He Hnil.
    assert (Hf : In (TaskIonCompile t)
                   (map TaskIonCompile
                      (filter (pendingEligible check) (ionWorklist_ s))))
      by (apply in_map, filter_In; split; assumption).
    rewrite Hnil in Hf. destruct Hf. }
  destruct (highestPriorityPendingIonCompile s check) as [[task s1]|].
  - destruct Hsel as (best & -> & Hin & He).
    destruct (canStartIonCompileTask s); cbn [negb].
    + split; [intros hit H; injection H as <-; cbn [fst];
              apply in_map, filter_In; split; assumption|].
      split; [split; [intros _; split; [exact (Hwork best Hin He) | reflexivity]
                     | intros _; eexists; reflexivity]|].
      split; [split; [intro H; discriminate H
                     | intros [H | [_ H]];
                       [exact (False_ind _ (Hwork best Hin He H))
                       | discriminate H]]|].
      split; [intro H; discriminate H | intros [_ H]; discriminate H].
    + split; [intros hit H; discriminate H|].
      split; [split; [intros [hit H]; discriminate H
                     | intros [_ H]; specialize (H eq_refl); discriminate H]|].
      split; [split; [intros _; right; split; reflexivity | reflexivity]|].
      split; [intro H; discriminate H | intros [_ H]; discriminate H].
  - assert (Hnil : map TaskIonCompile
                     (filter (pendingEligible check) (ionWorklist_ s)) = []).
    { destruct (filter (pendingEligible check) (ionWorklist_ s))
        as [|t rest] eqn:Ef; [reflexivity|].
      assert (Hin : In t (filter (pendingEligible check) (ionWorklist_ s)))
        by (rewrite Ef; left; reflexivity).
      apply filter_In in Hin. destruct Hin as [Hin He].
      rewrite (Hsel t Hin) in He. discriminate He. }
    rewrite Hnil.
    destruct (canStartIonCompileTask s); cbn [negb].
    + split; [intros hit H; discriminate H|].
      split; [split; [intros [hit H]; discriminate H
                     | intros [H _]; contradiction H; reflexivity]|].
      split; [split; [intros _; left; reflexivity | reflexivity]|].
      split; [intro H; discriminate H | intros [_ H]; discriminate H].
    + serves_null.
Qed.

Lemma filter_pendingEligible_checked : forall l,
  filter (pendingEligible true) l = filter ion_isMainThreadRunningJS l.
Proof.
  induction l as [|t l IH]; [reflexivity|]. cbn [filter]. rewrite IH.
  unfold pendingEligible. cbn [andb].
  destruct (ion_isMainThreadRunningJS t); reflexivity.
Qed.

Lemma filter_pendingEligible_unchecked : forall l,
  filter (pendingEligible false) l = l.
Proof.
  induction l as [|t l IH]; [reflexivity|]. cbn [filter].
  unfold pendingEligible at 1. cbn [andb negb]. rewrite IH. reflexivity.
Qed.

Lemma unguarded_entries : forall s,
  serves false (maybeGetFreeDelazifyTask s) (Some (canStartFreeDelazifyTask s))
    (map TaskFreeDelazify (freeDelazifyTaskVector_ s))
  /\ serves false (maybeGetDelazifyTask s) (Some (canStartDelazifyTask s))
       (map TaskDelazify (delazifyWorklist_ s)).
Proof.
  intro s. unfold serves. split.
  - unfold maybeGetFreeDelazifyTask. cbv zeta.
    destruct (freeDelazifyTaskVector_ s) as [|y l'].
    + cbn [empty negb map].
      split; [intros hit H; discriminate H|].
      split; [split; [intros [hit H]; discriminate H
                     | intros [H _]; contradiction H; reflexivity]|].
      split; [split; [intros _; left; reflexivity | reflexivity]|].
      split; [intro H; discriminate H | intros [H _]; discriminate H].
    + destruct (popBack_nonempty _ (y :: l')) as (x & front & Hl & Hp);
        [discriminate|].
      rewrite Hp. cbn [empty negb select].
      split; [intros hit H; injection H as <-; cbn [fst]; rewrite Hl;
              apply in_map, in_or_app; right; left; reflexivity|].
      split; [split; [intros _; split; [discriminate | intro H; discriminate H]
                     | intros _; eexists; reflexivity]|].
      split; [split; [intro H; discriminate H
                     | intros [H | [H _]]; discriminate H]|].
      split; [intro H; discriminate H | intros [H _]; discriminate H].
  - rewrite maybeGetDelazifyTask_spec.
    destruct (delazifyWorklist_ s) as [|y l'].
    + cbn [map].
      split; [intros hit H; discriminate H|].
      split; [split; [intros [hit H]; discriminate H
                     | intros [H _]; contradiction H; reflexivity]|].
      split; [split; [intros _; left; reflexivity | reflexivity]|].
      split; [intro H; discriminate H | intros [H _]; discriminate H].
    + split; [intros hit H; injection H as <-; left; reflexivity|].
      split; [split; [intros _; split; [discriminate | intro H; discriminate H]
                     | intros _; eexists; reflexivity]|].
      split; [split; [intro H; discriminate H
                     | intros [H | [H _]]; discriminate H]|].
      split; [intro H; discriminate H | intros [H _]; discriminate H].
Qed.

(** Every entry of the table serves its queue under its admission
    predicate. *)
Lemma selectors_serve_pendingWork : forall i selector canStart work s,
  nth_error selectors i = Some selector ->
  nth_error admissions i = Some canStart ->
  nth_error pendingWork i = Some work ->
  serves (guardedEntry i) (selector s) (canStart s) (work s).
Proof.
  intros i selector canStart work s Hsel Hcan Hwork.
  destruct i as [|[|[|[|[|[|[|[|[|[|[|[|i]]]]]]]]]]]];
    cbn [nth_error selectors admissions pendingWork] in Hsel, Hcan, Hwork;
    try (destruct i; discriminate);
    injection Hsel as <-; injection Hcan as <-; injection Hwork as <-;
    cbn [guardedEntry Nat.eqb orb negb].
  - apply guarded_front_entry.
  - pose proof (ion_entry s true) as H.
    rewrite filter_pendingEligible_checked in H. exact H.
  - apply wasm_entry.
  - apply guarded_back_entry.
  - apply guarded_back_entry.
  - apply unguarded_entries.
  - apply unguarded_entries.
  - apply guarded_back_entry.
  - pose proof (ion_entry s false) as H.
    rewrite filter_pendingEligible_unchecked in H. exact H.
  - unfold maybeGetIonFreeTask, canStartIonFreeTask.
    pose proof (guarded_back_entry _ TaskIonFree set_ionFreeList
                  (ionFreeList_ s) true s) as H.
    rewrite andb_true_r in H. exact H.
  - apply wasm_entry.
  - apply guarded_back_entry.
Qed.

Lemma table_entries : forall j selector,
  nth_error selectors j = Some selector ->
  exists canStart work,
    nth_error admissions j = Some canStart
    /\ nth_error pendingWork j = Some work.
Proof.
  intros j selector H.
  destruct j as [|[|[|[|[|[|[|[|[|[|[|[|j]]]]]]]]]]]];
    cbn [nth_error selectors admissions pendingWork] in *;
    try (destruct j; discriminate); eexists; eexists; split; reflexivity.
Qed.

(** C2.  Selection walks the fixed table GC-parallel, JIT-compile, wasm
    tier 1, promise helper, parse, free-delazify, delazify, compression,
    low-priority JIT-compile, JIT-free, wasm tier-2 compile, wasm tier-2
    generator, and its result is exactly the hit of the first selector that
    yields a task.  Each entry draws from its queue ([pendingWork]) under its
    admission predicate ([admissions]): a hit is a task of the queue; the
    entry yields exactly when the queue has work and the predicate holds (the
    free-delazify and delazify entries do not ask the predicate); it answers
    null exactly when the queue has no work or the predicate fails; it aborts
    exactly when the predicate does.  The work of the first JIT-compile entry
    is the queued compilations whose main thread is running JS; the others
    wait for the low-priority entry.  Hence an entry that has work and
    capacity, with no earlier entry that has both, is the one served,
    whatever the later entries hold.  With one GC-parallel task and one
    parse task queued and nothing running, selection returns the GC-parallel
    task. *)
Theorem priority_respected_under_contention :
  selectors =
    [ maybeGetGCParallelTask; maybeGetIonCompileTask;
      maybeGetWasmTier1CompileTask; maybeGetPromiseHelperTask;
      maybeGetParseTask; maybeGetFreeDelazifyTask; maybeGetDelazifyTask;
      maybeGetCompressionTask; maybeGetLowPrioIonCompileTask;
      maybeGetIonFreeTask; maybeGetWasmTier2CompileTask;
      maybeGetWasmTier2GeneratorTask ]
  /\ (forall s hit,
        findHighestPriorityTask s = Some (Some hit) <->
        exists i selector,
          nth_error selectors i = Some selector
          /\ selector s = Some (Some hit)
          /\ (forall j selector',
                (j < i)%nat -> nth_error selectors j = Some selector' ->
                selector' s = Some None))
  /\ (forall i selector canStart work s,
        nth_error selectors i = Some selector ->
        nth_error admissions i = Some canStart ->
        nth_error pendingWork i = Some work ->
        (forall hit, selector s = Some (Some hit) -> In (fst hit) (work s))
        /\ ((exists hit, selector s = Some (Some hit)) <->
            work s <> []
            /\ (guardedEntry i = true -> canStart s = Some true))
        /\ (selector s = Some None <->
            work s = []
            \/ (guardedEntry i = true /\ canStart s = Some false))
        /\ (selector s = None <->
            guardedEntry i = true /\ canStart s = None))
  /\ (forall i selector canStart work s,
        nth_error selectors i = Some selector ->
        nth_error admissions i = Some canStart ->
        nth_error pendingWork i = Some work ->
        work s <> [] ->
        (guardedEntry i = true -> canStart s = Some true) ->
        (forall j canStart' work',
            (j < i)%nat ->
            nth_error admissions j = Some canStart' ->
            nth_error pendingWork j = Some work' ->
            work' s = []
            \/ (guardedEntry j = true /\ canStart' s = Some false)) ->
        exists hit,
          selector s = Some (Some hit)
          /\ In (fst hit) (work s)
          /\ findHighestPriorityTask s = Some (Some hit))
  /\ (forall s gc parse,
        gcParallelWorklist_ s = [gc] ->
        parseWorklist_ s = [parse] ->
        totalCountRunningTasks s = 0 ->
        (forall ty, runningTaskCount s ty = 0) ->
        0 < threadCount s < SIZE_MODULUS ->
        0 < maxGCParallelThreads s ->
        findHighestPriorityTask s =
          Some (Some (TaskGCParallel gc, set_gcParallelWorklist [] s))).
Proof.
  split; [reflexivity|]. split; [|split; [|split]].
  - intros s hit. unfold findHighestPriorityTask. split.
    + apply firstSelected_hit_inv.
    + intros (i & selector & Hn & Hs & Hb).
      exact (firstSelected_first_hit _ _ _ _ _ Hn Hs Hb).
  - intros i selector canStart work s Hsel Hcan Hwork.
    exact (selectors_serve_pendingWork i selector canStart work s
             Hsel Hcan Hwork).
  - intros i selector canStart work s Hsel Hcan Hwork Hne Hcap Hbefore.
    destruct (selectors_serve_pendingWork i selector canStart work s
                Hsel Hcan Hwork) as (Hin & Hyield & _ & _).
    destruct (proj2 Hyield (conj Hne Hcap)) as [hit Hhit].
    exists hit. split; [exact Hhit|]. split; [exact (Hin hit Hhit)|].
    unfold findHighestPriorityTask.
    apply (firstSelected_first_hit selectors s i selector hit Hsel Hhit).
    intros j selector' Hlt Hsel'.
    destruct (table_entries j selector' Hsel') as (canStart' & work' & Hc & Hw).
    destruct (selectors_serve_pendingWork j selector' canStart' work' s
                Hsel' Hc Hw) as (_ & _ & Hnull & _).
    apply Hnull. exact (Hbefore j canStart' work' Hlt Hc Hw).
  - intros s gc parse Hgc Hparse Htot Hcount Hthreads Hmax.
    unfold findHighestPriorityTask, selectors. cbn [firstSelected].
    unfold maybeGetGCParallelTask, canStartGCParallelTask.
    rewrite Hgc. cbn [empty negb andb].
    rewrite (checkTaskThreadLimit_all_free s _ _ false Htot (Hcount _) Hmax)
      by (cbv beta iota; lia).
    reflexivity.
Qed.

Lemma priority_respected_under_contention_witness :
  ((gcParallelWorklist_ gcAndParseQueued = [gcA]
    /\ parseWorklist_ gcAndParseQueued = [parseA]
    /\ totalCountRunningTasks gcAndParseQueued = 0
    /\ 0 < threadCount gcAndParseQueued < SIZE_MODULUS
    /\ 0 < maxGCParallelThreads gcAndParseQueued)
   /\ findHighestPriorityTask gcAndParseQueued =
        Some (Some (TaskGCParallel gcA,
                    set_gcParallelWorklist [] gcAndParseQueued)))
  /\ (parseWorklist_ parseABQueued <> []
      /\ canStartParseTask parseABQueued = true
      /\ exists hit,
           maybeGetParseTask parseABQueued = Some (Some hit)
           /\ In (fst hit) (map TaskParse (parseWorklist_ parseABQueued))
           /\ findHighestPriorityTask parseABQueued = Some (Some hit))
  /\ (canStartIonCompileTask ionIdleAndWasmQueued = true
      /\ filter ion_isMainThreadRunningJS (ionWorklist_ ionIdleAndWasmQueued)
         = []
      /\ maybeGetIonCompileTask ionIdleAndWasmQueued = Some None).
Proof.
  split; [|split].
  - split.
    + repeat split; try reflexivity.
    + apply (proj2 (proj2 (proj2 (proj2 priority_respected_under_contention)))
               gcAndParseQueued gcA parseA);
        try reflexivity.
      split; reflexivity.
  - split; [discriminate|]. split; [vm_compute; reflexivity|].
    apply (proj1 (proj2 (proj2 (proj2 priority_respected_under_contention)))
             4%nat maybeGetParseTask (fun s => Some (canStartParseTask s))
             (fun s => map TaskParse (parseWorklist_ s)) parseABQueued);
      try reflexivity.
    + discriminate.
    + intros j canStart' work' Hlt Hc Hw.
      destruct j as [|[|[|[|j]]]]; [| | | |lia];
        cbn [nth_error pendingWork] in Hw; injection Hw as Hw;
        rewrite <- Hw; left; vm_compute; reflexivity.
  - split; [vm_compute; reflexivity|]. split; [vm_compute; reflexivity|].
    apply (proj2 (proj1 (proj2 (proj2
             (proj1 (proj2 (proj2 priority_respected_under_contention))
                1%nat maybeGetIonCompileTask
                (fun s => Some (canStartIonCompileTask s))
                (fun s => map TaskIonCompile
                            (filter ion_isMainThreadRunningJS (ionWorklist_ s)))
                ionIdleAndWasmQueued eq_refl eq_refl eq_refl))))).
    left. vm_compute. reflexivity.
Defined.

(** The JIT-compile kind has a queued compilation and admission capacity, and
    stands before wasm tier 1 in the table; yet selection returns the wasm
    tier-1 task, because the main thread of the compilation's script is not
    running JS and the first JIT-compile entry passes it over.  The
    compilation can be taken all the same: the low-priority entry yields
    it. *)
Lemma wasm_tier1_selected_before_queued_ion_compile :
  submitTask_ion true ionIdle (idleState 4) = Some (true, ionIdleQueued)
  /\ submitTask_wasm true wasmT1 Tier1 ionIdleQueued
     = Some (true, ionIdleAndWasmQueued)
  /\ ionWorklist_ ionIdleAndWasmQueued = [ionIdle]
  /\ wasmWorklist ionIdleAndWasmQueued Tier1 = [wasmT1]
  /\ totalCountRunningTasks ionIdleAndWasmQueued = 0
  /\ threadCount ionIdleAndWasmQueued = 4
  /\ canStartIonCompileTask ionIdleAndWasmQueued = true
  /\ maybeGetLowPrioIonCompileTask ionIdleAndWasmQueued
     = Some (Some (TaskIonCompile ionIdle,
                   set_ionWorklist [] ionIdleAndWasmQueued))
  /\ findHighestPriorityTask ionIdleAndWasmQueued
     = Some (Some (TaskWasmCompile wasmT1,
                   set_wasmWorklist Tier1 [] ionIdleAndWasmQueued)).
Proof.
  split; [vm_compute; reflexivity|]. split; [vm_compute; reflexivity|].
  split; [reflexivity|]. split; [reflexivity|].
  split; [vm_compute; reflexivity|]. split; [vm_compute; reflexivity|].
  split; [vm_compute; reflexivity|]. split; [vm_compute; reflexivity|].
  vm_compute; reflexivity.
Qed.
